(* ===== verification/_CoqProject ===== *)
-Q . S2P
Prelude.v
GoStrings.v
Varint.v
Frame.v
Messages.v
FromRadio.v
Encode.v
MeshPayload.v
Classify.v
Dispatcher.v
Tracker.v
Jobs.v
GoFloat.v
GoFloat32.v
Builder.v
Commands.v
FloatFacts.v
GoTemplate.v
Geofences.v
Drones.v
Alerts.v
Airspace.v
Regexp.v
RegexpFacts.v
TextEvents.v
TextPatterns.v
TextParser.v
TextFacts.v
TextPlain.v
TextPayload.v
TextTypes.v
TextSafety.v
TextAcks.v
TextLines.v
SerialManager.v
SerialFacts.v
SerialLink.v
Station.v
StationFacts.v
TextCommands.v
Hub.v
NodeData.v
Nodes.v
NodeStore.v
MeshNodes.v
FleetStore.v
FleetService.v
FleetTrust.v
FleetRotation.v
FleetJobs.v
FleetPhases.v
FleetHook.v
FleetRecovery.v
