(* ===== verification/Prelude.v ===== *)
(** * DigiNode CC, verified

    DigiNode CC is a command-and-control server for a LoRa mesh of sensors.
    It talks to one Meshtastic radio over a serial port: bytes are framed and
    decoded into packets, a dispatcher turns packets into calls of the node,
    drone, chat and command services, and operators send commands and
    security administration back over the same radio.  The sources are the Go
    code under [src/internal].  This library models the radio path with its
    text parser and serial manager, the dispatcher, nodes, drones, geofences
    and alert rules, the operator's command path, the WebSocket hub and fleet
    security, and proves what makes each of them correct, or shows where it is
    not.

    ** The parts and their files

    - [Prelude.v]: outcomes of Go code ([Ret], [Panic], [Diverge]),
      fixed-width integers, slices, and the loop [scan] that all hand-written
      protobuf decoders share.
    - [GoStrings.v], [GoFloat.v]: the functions of the packages strings,
      strconv and fmt that the program uses.
    - [GoFloat32.v]: the conversions between float32 and float64.
    - [Varint.v]: varints, zigzag, [skipField] and the wire field writers of
      [serial/framing.go] and [serial/encode.go].
    - [Frame.v]: the serial framing state machine, [FrameDecoder.Feed] and
      [EncodeFrame] of [serial/framing.go].
    - [Messages.v]: the Go structs of the decoded messages, one Module each.
    - [FromRadio.v]: the decoders of [serial/framing.go], from
      [DecodeFromRadio] down to the user record.
    - [Encode.v]: the packet builders of [serial/encode.go].
    - [MeshPayload.v]: the payload decoders of [meshtastic/dispatcher.go].
    - [Classify.v]: the regular expressions and keyword tests that the
      dispatcher applies to text, and the port names of
      [meshtastic/portnums.go].
    - [Dispatcher.v]: [Dispatcher] of [meshtastic/dispatcher.go] as a function
      from a packet and a state to a state and the handler calls made.
    - [Tracker.v]: [Tracker] of [fleetsec/transactions.go] with its watcher
      goroutines, contexts and channels.
    - [Jobs.v]: the store and the worker loop of [fleetsec/jobs/jobs.go].
    - [Builder.v]: the command catalogue and [Build] of
      [commands/builder.go].
    - [Commands.v]: [Service] of [commands/service.go].
    - [FloatFacts.v], [GoTemplate.v]: float64 arithmetic on coordinates, and
      the two ways the program fills in a message template.
    - [Geofences.v]: [Service] and [pointInPolygon] of
      [geofences/service.go].
    - [Drones.v]: [Service] of [drones/service.go], with [detection.go].
    - [Alerts.v]: [Service] of [alerts/service.go] and the rules of
      [evaluator.go].
    - [Airspace.v]: drones, fences, alerts and webhooks as
      [cmd/diginode-cc/main.go] wires them.
    - [Regexp.v], [RegexpFacts.v]: the part of package regexp the program
      uses, a parser of expressions and a leftmost-first matcher, with
      soundness and completeness against a relation of all matches.
    - [TextEvents.v], [TextPatterns.v], [TextParser.v]: the event handlers,
      the patterns and [ParseLine] of [serial/textparser.go].
    - [TextFacts.v], [TextPlain.v]: matching a text of which only parts are
      known; lines that are their own payload.
    - [TextPayload.v], [TextTypes.v], [TextSafety.v], [TextAcks.v],
      [TextLines.v]: what the parser guarantees.
    - [SerialManager.v], [SerialFacts.v]: [Manager] of [serial/manager.go], the
      ring of text messages and the reader of the port.
    - [SerialLink.v]: [Start], [connect] and [Stop] of [serial/manager.go] as
      interleaved steps.
    - [Station.v], [StationFacts.v]: dispatcher, serial manager and text
      parser as [main.go] wires them, calling each other.
    - [TextCommands.v]: the command queue behind the text parser.
    - [Hub.v]: [Hub] and [Client] of [ws/hub.go] and [ws/client.go], and the
      part of [api/server.go] that registers a connection.
    - [NodeData.v]: the node of [nodes/service.go], what each handler assigns
      to it, its row, the upsert and the loading of a row.
    - [Nodes.v]: [Service] of [nodes/service.go]: the map, the shared nodes,
      the jobs it starts, the table.
    - [NodeStore.v]: what of the nodes reaches the table.
    - [MeshNodes.v]: the dispatcher with the node service behind it, and the
      node list of [api/handlers_nodes.go].
    - [FleetStore.v]: the rows of [fleetsec/types.go] and the statements of
      [fleetsec/store.go] and [recovery_store.go]; PSKs of [keys.go].
    - [FleetService.v]: the state of [fleetsec/service.go], its monad, the
      admin messages of [messages.go] and the exchanges with a radio.
    - [FleetTrust.v]: identities and the trust roster, [identity.go] and
      [trust.go].
    - [FleetRotation.v]: rotations of the PSK, [channels.go] and
      [psk_collision.go].
    - [FleetJobs.v]: the job handlers of [job_handlers.go] and the packet hook
      of [recovery_hook.go]; what phase A does.
    - [FleetPhases.v]: what phases B and C do.
    - [FleetHook.v]: how stranded nodes come back.
    - [FleetRecovery.v]: the compromise recovery of [recovery.go].

    Bytes come in through the reader of [SerialFacts] and [Frame.Feed], each
    frame through [FromRadio.DecodeFromRadio], each packet through
    [Dispatcher.HandlePacket], whose calls of the node handler [MeshNodes]
    serves with [Nodes].  The text of a packet goes back to
    [SerialManager.ProcessMeshText], which runs [TextParser.ParseLine] and
    hands the events on, some of them as packets to the dispatcher again
    ([Station]).  Detections of drones reach [Drones.HandleDetection], which
    asks [Geofences.CheckPoint]; an entry becomes a broadcast, an alert and a
    webhook ([Airspace]).  What services broadcast to browsers goes through
    [Hub.Broadcast].  Commands go out through [Builder.Build],
    [Commands.Enqueue] and its [send] goroutine, framed by [Encode] and
    [Frame.EncodeFrame]; the acknowledgement comes back as text and reaches
    [Commands.HandleStructuredACK].  Admin packets of fleet security wait in
    [Tracker.Begin] for [HandleRoutingAck] and [HandleAdminReply].  A rotation
    is started by [RotatePSK] and runs as jobs of [Jobs.v]: phase A stages the
    new PSK on the local radio and queues one phase B per remote, the operator
    retires the old PSK, phase C promotes the local radio and strands who is
    left, and the hook on inbound packets queues their recovery.

    ** How the code is modelled

    - Sequential code is a function; a Go panic, such as a slice expression
      out of range, is [Panic].  Loops over input take as fuel the number of
      bytes left plus one: every iteration of a loop that makes progress
      consumes a byte, and the termination theorems say that the fuel is
      never used up on inputs whose declared lengths are sane.  A loop that
      does not make progress is [Diverge] for every fuel.
    - Integers wrap where the code converts them ([uint32], [int64], ...);
      positions are of type [Z], since only sums with a declared length can
      leave the range of an int, and there the conversion is written out.
    - A [float32] is its bit pattern and a [float64] a [spec_float] of the
      Standard Library with its arithmetic at 53 bits; the conversions between
      them are exact definitions.
    - A regular expression is the text of the source, compiled by
      [Regexp.Compile] when the file is checked; [Regexp.exec] is structural
      on the expression, with a counter of the bytes left for repetitions.
    - JSON is not modelled: what [json.Marshal] and [json.Unmarshal] give is an
      argument, for polygons the class [PolygonJSON], with the round trip on
      finite points in [PolygonLaws] where a theorem needs it.  That Marshal
      refuses NaN and infinities is written out.
    - The unique indexes of a table decide whether an ON CONFLICT clause is
      accepted: [Drones.migrated] lists those of the migrations.
    - The mutual calls of dispatcher and serial manager are unfolded to a
      depth; [reentry_bounded] says that depth 2 suffices.
    - Delays and tickers of the serial connection are not timed: a timer may
      fire at any step.
    - A string is its bytes.  The case mapping of characters outside ASCII is
      the class [Unicode], with its documented laws in [UnicodeLaws] where a
      theorem needs them.
    - A struct is a Record with the Go field names, a handler interface a
      constructor of the type [action], and a map a [gmap].  Where the code
      shares an object between a map and goroutines ([Tracker], [Commands],
      [Nodes]) the model has a heap and addresses.
    - A channel of the hub is its buffer, whether it is closed, and what was
      ever put in it; [select] with [default] tests for room.  A send on a
      closed channel and a second close crash the process, except in a
      handler, where net/http recovers the panic and only that goroutine ends.
    - Concurrency is interleaving: an [event] is what runs without giving up
      the mutex, and [run] executes a list of events.  Theorems quantify over
      all lists.  An event that is not enabled does nothing.
    - The clock, random identifiers, the order of a range over a map and the
      verdict of the database or of the serial port are arguments.
    - The generated package meshpb and [proto.Unmarshal] are the class
      [MeshPB].
    - The methods of fleet security are computations [M A], functions from a
      [World] to a result and a [World]: tables, job queue, session passkeys,
      packets sent, hook, clock.  What the service does not decide is a field
      of the class [Env]: whether a statement fails, what the radio answers to
      everything sent so far, whether a context is done, how long a wait takes
      beyond what was asked.  Theorems quantify over [Env]; those that need
      statements to succeed assume [reliableDB].  A packet is the message it
      carries, a table a finite map of rows.  A method runs without
      interruption; that its per-node mutex keeps others out is not shown.
    - The only loop with a deadline, the verification of a migration, has
      fuel 9: a turn takes the back-off of 8 s and the deadline is 60 s away;
      [migrate_remote_transaction] says that it suffices.

    ** What the theorems show

    - Framing: [Feed] inverts [EncodeFrame] under any chunking and between
      any noise free of the start byte; its buffer and frames are bounded.
      A stray start byte loses the next frame.
    - Decoding: on frames without absurd lengths every decoder returns; a
      declared length of 2^63 makes [DecodeFromRadio] and the telemetry
      decoder panic, and a negative one makes [skipField] go backwards for
      ever, so one packet of any node can stop the server.
    - Encoding: what the builders write is what the decoders read, and a text
      message is delivered exactly up to 485 bytes.
    - Dispatcher: duplicate suppression with pruning refines an unbounded
      history; the local node is tracked in whichever order packets come;
      commands of operators are never taken for sensor output; the metrics
      request has one caller at a time.
    - Tracker: at most one reply per transaction and no send on a closed
      channel under all interleavings, replies only from the expected node,
      every ended transaction is answered, and what a reused identifier can
      do.
    - Jobs: the lifecycle of a row, first-in first-out leasing, the queue
      drains, and a job that a quick restart strands.
    - Builder: what an accepted line contains, the consistency of the
      catalogue, the place of FOREVER, and the values that pass unvalidated.
    - Commands: the pending map holds open commands only, nothing is sent
      twice (and so nothing is retried), which command an acknowledgement
      updates, what a stop closes, the rate limit, the watchdog and the merge
      of scan rows, and the race between [send] and the acknowledgement.
    - Text parser: every event is of a known kind with typed data, when a line
      makes the parser panic, that the packet cache is bounded, that the search
      through 54 expressions is a lookup by the firmware's word, that what
      follows the last [msg=] decides the events, and which acknowledgements
      can be produced (those of two commands cannot, so they stay open).
    - Serial manager: the console is read as the stream cut at its newlines up
      to 4096 bytes, the ring of texts refines its history, a stop can miss
      the reader of the port, and a reader can crash on a nil port.
    - Station: reports from the mesh name the sender of the packet, calls nest
      two deep, and one text packet can end the process.
    - Geofences: the ray cast over a box is exactly the half-open box test
      despite the rounding, the first vertex does not matter, and which fences
      a restart brings back.
    - Drones: notifications are the entries into fences over any history, a
      detection touches one drone, and with the indexes of the migrations no
      drone is ever stored.
    - Alerts: two alerts of a rule are its cooldown apart under all
      interleavings, messages are literal, what a refused event and a restart
      do, and what matching does not depend on.
    - Airspace: over any flight the stored alerts of a box fence are the
      entries into the box.
    - Hub: under all interleavings the loop never uses a closed channel, the
      client limit and the buffers hold, what is written to a connection is a
      gapless stretch of what the hub took, whom a message reaches; and a
      client turned away at the limit kills its own handler.
    - Nodes: node types only climb, what a restart restores, what reaches the
      table once the jobs have run, which nodes the table refuses, removals
      that do not last, the NaN that empties the node list, and the flag of
      the local node that nothing clears.
    - Fleet store: the recovery cache refines a queue of six fingerprints, the
      retirement gate lists the laggards, channel hashes collide.
    - Trust: which packets can leave for a lockdown or new admin keys, what a
      verification records, how drift is computed.
    - Rotation: who is rotated and how it starts, what each phase does to the
      rotation, roster, cache and queue on every branch, that a migration is
      one transaction, when retirement and retry are let through.
    - Stranded nodes: when a packet or the operator queues a recovery, that
      there is never more than one per node, that a node left behind by phase C
      is recovered when it is heard, and how a recovery ends.
    - Compromise recovery: which keys are sent to whom, how it ends, and the
      registry afterwards.

    ** What is not modelled

    Targets, authentication and the firewall are the next parts to model.  Of
    nodes the pruning of old positions, one DELETE statement, is left out, of
    alerts the listing of events, of the WebSocket code the deadlines of reads
    and writes.  Of fleet security the interleaving of methods, the notices
    to web clients, the base64 helpers, the zeroing of key material and the
    channel URL (which serialises a generated protobuf) are left out.  Clients of external
    services, HTTP handlers, SQL schemas and the web front end have little
    logic of their own.  Logging has no effect on any state and is left out
    everywhere. *)

From Stdlib Require Export ZArith Lia.
From Stdlib Require Export Strings.Byte.
From stdpp Require Export base list gmap strings.

#[global] Open Scope Z_scope.

(** Raw bytes as they travel on the serial link: Go's [[]byte]. *)
Abbreviation bytes := (list byte).

(** ** The outcome of running Go code

    [Ret a]: the code returned [a]; [Panic]: a run-time panic (an index or
    slice expression out of range); [Diverge]: the fuel given to a loop ran
    out.  A loop that terminates has a fuel for which the outcome is not
    [Diverge]; a loop that does not is [Diverge] for every fuel. *)
Inductive outcome (A : Type) : Type :=
| Ret (a : A)
| Panic
| Diverge.
Arguments Ret {A} a.
Arguments Panic {A}.
Arguments Diverge {A}.

Definition obind {A B} (m : outcome A) (k : A -> outcome B) : outcome B :=
  match m with
  | Ret a => k a
  | Panic => Panic
  | Diverge => Diverge
  end.

Declare Scope go_scope.
Delimit Scope go_scope with go.
Notation "'let!' x ':=' m 'in' k" := (obind m (fun x => k))
  (at level 10, x pattern, m at level 100, k at level 200,
   format "'[v' 'let!'  x  ':='  m  'in' '/' k ']'") : go_scope.
#[global] Open Scope go_scope.

(** ** Fixed-width integers *)
Definition uint8 (z : Z) : Z := z mod 2 ^ 8.
Definition uint32 (z : Z) : Z := z mod 2 ^ 32.
Definition uint64 (z : Z) : Z := z mod 2 ^ 64.
Definition int32 (z : Z) : Z := (z + 2 ^ 31) mod 2 ^ 32 - 2 ^ 31.
Definition int64 (z : Z) : Z := (z + 2 ^ 63) mod 2 ^ 64 - 2 ^ 63.

Definition Zb (b : byte) : Z := Z.of_N (Byte.to_N b).
Definition byte_of_Z (z : Z) : byte :=
  match Byte.of_N (Z.to_N (z mod 256)) with
  | Some b => b
  | None => x00
  end.

Lemma Zb_range b : 0 <= Zb b < 256.
Proof.
  unfold Zb. pose proof (Byte.to_N_bounded b). lia.
Qed.

Lemma Zb_byte_of_Z z : Zb (byte_of_Z z) = z mod 256.
Proof.
  unfold Zb, byte_of_Z.
  pose proof (Z.mod_pos_bound z 256 eq_refl) as Hb.
  destruct (Byte.of_N (Z.to_N (z mod 256))) as [b|] eqn:E.
  - apply Byte.to_of_N in E. rewrite E. lia.
  - apply Byte.of_N_None_iff in E. lia.
Qed.

Lemma Zb_inj b1 b2 : Zb b1 = Zb b2 -> b1 = b2.
Proof.
  unfold Zb. intros H%N2Z.inj.
  pose proof (Byte.of_to_N b1) as H1. pose proof (Byte.of_to_N b2) as H2.
  congruence.
Qed.

Lemma byte_of_Z_Zb b : byte_of_Z (Zb b) = b.
Proof.
  apply Zb_inj. rewrite Zb_byte_of_Z. apply Z.mod_small, Zb_range.
Qed.

Lemma byte_of_Z_mod z : byte_of_Z (z mod 256) = byte_of_Z z.
Proof. unfold byte_of_Z. by rewrite Z.mod_mod. Qed.

#[export] Instance byte_eq_dec : EqDecision byte := Byte.byte_eq_dec.

(** ** Slices

    [zlen] is Go's [len]; [slice_from l lo] is [l[lo:]] and [slice l lo hi]
    is [l[lo:hi]].  Go bounds [hi] by the capacity rather than the length;
    every slice expression of the modelled code is guarded by [hi <= len],
    so the two bounds agree. *)
Definition zlen {A} (l : list A) : Z := Z.of_nat (length l).

Definition slice_from {A} (l : list A) (lo : Z) : outcome (list A) :=
  if (0 <=? lo) && (lo <=? zlen l) then Ret (drop (Z.to_nat lo) l) else Panic.

Definition slice {A} (l : list A) (lo hi : Z) : outcome (list A) :=
  if (0 <=? lo) && (lo <=? hi) && (hi <=? zlen l)
  then Ret (take (Z.to_nat (hi - lo)) (drop (Z.to_nat lo) l))
  else Panic.

Lemma zlen_nonneg {A} (l : list A) : 0 <= zlen l.
Proof. unfold zlen. lia. Qed.

Lemma zlen_nil {A} : zlen (@nil A) = 0.
Proof. done. Qed.

Lemma zlen_cons {A} (x : A) l : zlen (x :: l) = 1 + zlen l.
Proof. unfold zlen. cbn [length]. lia. Qed.

Lemma zlen_app {A} (l k : list A) : zlen (l ++ k) = zlen l + zlen k.
Proof. unfold zlen. rewrite length_app. lia. Qed.

Create Rewrite HintDb zlen.
#[export] Hint Rewrite @zlen_nil @zlen_cons @zlen_app : zlen.

(** [zlen_lia]: linear arithmetic over list lengths. *)
Ltac zlen_nonneg_facts :=
  repeat match goal with
  | |- context [zlen ?l] =>
      lazymatch goal with H : 0 <= zlen l |- _ => fail | _ => idtac end;
      pose proof (zlen_nonneg l)
  | H : context [zlen ?l] |- _ =>
      lazymatch goal with H' : 0 <= zlen l |- _ => fail | _ => idtac end;
      pose proof (zlen_nonneg l)
  end.
Ltac zlen_lia := autorewrite with zlen in *; zlen_nonneg_facts; lia.

Lemma to_nat_zlen {A} (l : list A) : Z.to_nat (zlen l) = length l.
Proof. unfold zlen. lia. Qed.

Lemma slice_from_ok {A} (l : list A) lo :
  0 <= lo <= zlen l -> slice_from l lo = Ret (drop (Z.to_nat lo) l).
Proof.
  intros H. unfold slice_from.
  destruct (Z.leb_spec 0 lo), (Z.leb_spec lo (zlen l)); try lia. done.
Qed.

Lemma slice_ok {A} (l : list A) lo hi :
  0 <= lo <= hi -> hi <= zlen l ->
  slice l lo hi = Ret (take (Z.to_nat (hi - lo)) (drop (Z.to_nat lo) l)).
Proof.
  intros H1 H2. unfold slice.
  destruct (Z.leb_spec 0 lo), (Z.leb_spec lo hi), (Z.leb_spec hi (zlen l)); try lia.
  done.
Qed.

Lemma slice_inverted {A} (l : list A) lo hi : hi < lo -> slice l lo hi = Panic.
Proof.
  intros H. unfold slice.
  destruct (Z.leb_spec 0 lo), (Z.leb_spec lo hi); try lia; done.
Qed.

Lemma slice_app_mid {A} (pre mid post : list A) :
  slice (pre ++ mid ++ post) (zlen pre) (zlen pre + zlen mid) = Ret mid.
Proof.
  pose proof (zlen_nonneg pre). pose proof (zlen_nonneg mid).
  pose proof (zlen_nonneg post).
  rewrite slice_ok by (rewrite ?zlen_app; lia).
  replace (zlen pre + zlen mid - zlen pre) with (zlen mid) by lia.
  rewrite !to_nat_zlen, drop_app_length, take_app_length. done.
Qed.

Lemma slice_from_app {A} (pre post : list A) :
  slice_from (pre ++ post) (zlen pre) = Ret post.
Proof.
  pose proof (zlen_nonneg pre). pose proof (zlen_nonneg post).
  rewrite slice_from_ok by (rewrite zlen_app; lia).
  by rewrite to_nat_zlen, drop_app_length.
Qed.

(** ** The decoder loop [for pos < len(data) { ... }]

    Every hand-written protobuf decoder of the program is this loop over a
    position.  A body either continues at a new position ([Next]) or leaves
    the loop with the value decoded so far ([Stop], Go's [break] or
    [return]). *)
Inductive step (A : Type) : Type :=
| Next (a : A) (pos : Z)
| Stop (a : A).
Arguments Next {A} a pos.
Arguments Stop {A} a.

Fixpoint scan {A} (fuel : nat) (len : Z) (body : A -> Z -> outcome (step A))
    (a : A) (pos : Z) : outcome A :=
  if pos <? len then
    match fuel with
    | O => Diverge
    | S fuel' =>
        let! s := body a pos in
        match s with
        | Next a' pos' => scan fuel' len body a' pos'
        | Stop a' => Ret a'
        end
    end
  else Ret a.

(** A body outcome that is safe and makes progress from [pos]. *)
Definition good {A} (pos : Z) (m : outcome (step A)) : Prop :=
  match m with
  | Ret (Stop _) => True
  | Ret (Next _ pos') => pos < pos'
  | _ => False
  end.

Lemma scan_total {A} len (body : A -> Z -> outcome (step A)) :
  (forall a pos, 0 <= pos < len -> good pos (body a pos)) ->
  forall fuel a pos, 0 <= pos -> len - pos <= Z.of_nat fuel ->
  exists r, scan fuel len body a pos = Ret r.
Proof.
  intros Hbody fuel. induction fuel as [|fuel IH]; intros a pos H0 Hf; cbn [scan];
    destruct (Z.ltb_spec pos len) as [Hlt|Hge]; eauto; [lia|].
  specialize (Hbody a pos (conj H0 Hlt)). unfold good in Hbody.
  destruct (body a pos) as [[a' pos'|a']| |]; try done; cbn; eauto.
  apply IH; lia.
Qed.

Lemma scan_done {A} fuel len (body : A -> Z -> outcome (step A)) a pos :
  len <= pos -> scan fuel len body a pos = Ret a.
Proof.
  intros H. destruct fuel; cbn [scan]; destruct (Z.ltb_spec pos len); done || lia.
Qed.

Lemma scan_next {A} fuel len (body : A -> Z -> outcome (step A)) a pos a' pos' :
  pos < len -> body a pos = Ret (Next a' pos') ->
  scan (S fuel) len body a pos = scan fuel len body a' pos'.
Proof.
  intros H Hb. cbn [scan]. destruct (Z.ltb_spec pos len); [|lia].
  by rewrite Hb.
Qed.

Lemma scan_panic {A} fuel len (body : A -> Z -> outcome (step A)) a pos :
  pos < len -> body a pos = Panic -> scan (S fuel) len body a pos = Panic.
Proof.
  intros H Hb. cbn [scan]. destruct (Z.ltb_spec pos len); [|lia].
  by rewrite Hb.
Qed.

(** A body that comes back to the same position and value never leaves the
    loop, whatever the fuel. *)
Lemma scan_cycle {A} len (body : A -> Z -> outcome (step A)) a pos :
  pos < len -> body a pos = Ret (Next a pos) ->
  forall fuel, scan fuel len body a pos = Diverge.
Proof.
  intros H Hb fuel. induction fuel as [|fuel IH]; cbn [scan];
    destruct (Z.ltb_spec pos len); try lia; [done|].
  by rewrite Hb.
Qed.

(** ** Bit-level arithmetic *)
Lemma lor_mod_pow2 a b n : 0 <= n ->
  Z.lor a b mod 2 ^ n = Z.lor (a mod 2 ^ n) (b mod 2 ^ n).
Proof. intros H. by rewrite <- !Z.land_ones, Z.land_lor_distr_l. Qed.

Lemma lor_bound a b n :
  0 <= n -> 0 <= a < 2 ^ n -> 0 <= b < 2 ^ n -> 0 <= Z.lor a b < 2 ^ n.
Proof.
  intros Hn Ha Hb.
  assert (Z.lor a b mod 2 ^ n = Z.lor a b) as <-.
  { by rewrite lor_mod_pow2, !Z.mod_small. }
  apply Z.mod_pos_bound. lia.
Qed.

(** A low part below [2^n] and a part shifted by [n] do not overlap. *)
Lemma lor_shiftl_add a b n :
  0 <= n -> 0 <= a < 2 ^ n -> Z.lor a (Z.shiftl b n) = a + b * 2 ^ n.
Proof.
  intros Hn Ha.
  assert (Z.land a (Z.shiftl b n) = 0) as Hl.
  { apply Z.bits_inj'. intros i Hi. rewrite Z.land_spec, Z.bits_0.
    destruct (Z.lt_ge_cases i n).
    - by rewrite Z.shiftl_spec_low, andb_false_r.
    - replace a with (a mod 2 ^ n) by (by apply Z.mod_small).
      by rewrite Z.mod_pow2_bits_high. }
  rewrite <- Z.lxor_lor, <- Z.add_nocarry_lxor by done.
  by rewrite Z.shiftl_mul_pow2.
Qed.

Lemma land_127 z : Z.land z 127 = z mod 128.
Proof. change 127 with (Z.ones 7). by apply Z.land_ones. Qed.

Lemma land_7 z : Z.land z 7 = z mod 8.
Proof. change 7 with (Z.ones 3). by apply Z.land_ones. Qed.

Lemma mod_256_land z : z mod 256 = Z.land z 255.
Proof. change 255 with (Z.ones 8). symmetry. by apply Z.land_ones. Qed.

Lemma uint8_range z : 0 <= uint8 z < 2 ^ 8.
Proof. by apply Z.mod_pos_bound. Qed.
Lemma uint32_range z : 0 <= uint32 z < 2 ^ 32.
Proof. by apply Z.mod_pos_bound. Qed.
Lemma uint64_range z : 0 <= uint64 z < 2 ^ 64.
Proof. by apply Z.mod_pos_bound. Qed.
Lemma int32_range z : - 2 ^ 31 <= int32 z < 2 ^ 31.
Proof. unfold int32. pose proof (Z.mod_pos_bound (z + 2 ^ 31) (2 ^ 32) eq_refl). lia. Qed.
Lemma int64_range z : - 2 ^ 63 <= int64 z < 2 ^ 63.
Proof. unfold int64. pose proof (Z.mod_pos_bound (z + 2 ^ 63) (2 ^ 64) eq_refl). lia. Qed.

Lemma uint32_small z : 0 <= z < 2 ^ 32 -> uint32 z = z.
Proof. apply Z.mod_small. Qed.
Lemma uint64_small z : 0 <= z < 2 ^ 64 -> uint64 z = z.
Proof. apply Z.mod_small. Qed.
Lemma int32_small z : - 2 ^ 31 <= z < 2 ^ 31 -> int32 z = z.
Proof. intros H. unfold int32. rewrite Z.mod_small; lia. Qed.
Lemma int64_small z : - 2 ^ 63 <= z < 2 ^ 63 -> int64 z = z.
Proof. intros H. unfold int64. rewrite Z.mod_small; lia. Qed.

(** Conversions between the signed and the unsigned view of a word. *)
Lemma int32_uint32 z : - 2 ^ 31 <= z < 2 ^ 31 -> int32 (uint32 z) = z.
Proof.
  intros H. unfold int32, uint32. rewrite Zplus_mod_idemp_l.
  rewrite Z.mod_small; lia.
Qed.

Lemma int64_high z : 2 ^ 63 <= z < 2 ^ 64 -> int64 z = z - 2 ^ 64.
Proof.
  intros H. unfold int64.
  replace (z + 2 ^ 63) with ((z - 2 ^ 63) + 1 * 2 ^ 64) by lia.
  rewrite Z.mod_add by lia. rewrite Z.mod_small; lia.
Qed.

(** ** Lists *)
Lemma elem_of_delete {A} (l : list A) k x : x ∈ delete k l -> x ∈ l.
Proof.
  revert k. induction l as [|y l IH]; intros k; [by destruct k|].
  destruct k; [by right|]. intros [->|H]%elem_of_cons; [by left|right; by eapply IH].
Qed.

Lemma NoDup_delete_elem {A} (l : list A) k p :
  NoDup l -> l !! k = Some p ->
  NoDup (delete k l) /\ forall q, q ∈ delete k l <-> q ∈ l /\ q <> p.
Proof.
  intros HN HP%delete_Permutation. rewrite HP in HN.
  apply NoDup_cons in HN as [Hp HN]. split; [done|]. intros q.
  assert (q ∈ l <-> q ∈ p :: delete k l) as -> by (by apply elem_of_Permutation_proper).
  rewrite elem_of_cons. split; [|by intros [[->|?] ?]]. intros Hq. split; [by right|]. by intros ->.
Qed.

Lemma elem_of_delete_other {A} (l : list A) i k x : l !! k = Some x -> k <> i -> x ∈ delete i l.
Proof.
  intros Hk Hne. apply list_elem_of_lookup. destruct (decide (k < i)%nat) as [Hlt|Hge].
  - exists k. by rewrite list_lookup_delete_lt.
  - exists (pred k). rewrite list_lookup_delete_ge by lia. replace (S (pred k)) with k by lia. done.
Qed.
