(* ===== verification/GoStrings.v ===== *)
(** The parts of Go's [strings], [strconv] and [fmt] packages the modelled
    code uses, over byte strings. *)
From stdpp Require Import pretty.
From S2P Require Import Prelude.

(** Conversions [string(b)] and [[]byte(s)]. *)
Definition string_of_bytes (b : bytes) : string := String.string_of_list_byte b.
Definition bytes_of_string (s : string) : bytes := String.list_byte_of_string s.

Lemma bytes_of_string_of_bytes b : bytes_of_string (string_of_bytes b) = b.
Proof. apply String.list_byte_of_string_of_list_byte. Qed.

Lemma string_of_bytes_of_string s : string_of_bytes (bytes_of_string s) = s.
Proof. apply String.string_of_list_byte_of_string. Qed.

(** [strconv.Itoa] and the [%d] verb. *)
Definition itoa (z : Z) : string := pretty z.

Definition hexDigitUpper (d : Z) : string :=
  if d <? 10 then String (Ascii.ascii_of_N (Z.to_N (48 + d))) EmptyString
  else String (Ascii.ascii_of_N (Z.to_N (55 + d))) EmptyString.

Definition hexDigitLower (d : Z) : string :=
  if d <? 10 then String (Ascii.ascii_of_N (Z.to_N (48 + d))) EmptyString
  else String (Ascii.ascii_of_N (Z.to_N (87 + d))) EmptyString.

(** The [%02X] verb on a byte. *)
Definition hex02X (b : byte) : string :=
  hexDigitUpper (Z.shiftr (Zb b) 4) +:+ hexDigitUpper (Z.land (Zb b) 15).

(** The [%08x] verb on a [uint32]. *)
Definition hex08x (v : Z) : string :=
  hexDigitLower (Z.land (Z.shiftr v 28) 15) +:+ hexDigitLower (Z.land (Z.shiftr v 24) 15) +:+
  hexDigitLower (Z.land (Z.shiftr v 20) 15) +:+ hexDigitLower (Z.land (Z.shiftr v 16) 15) +:+
  hexDigitLower (Z.land (Z.shiftr v 12) 15) +:+ hexDigitLower (Z.land (Z.shiftr v 8) 15) +:+
  hexDigitLower (Z.land (Z.shiftr v 4) 15) +:+ hexDigitLower (Z.land v 15).

(** The [%q] verb on a word. *)
Definition quoted (s : string) : string :=
  let q := String (Ascii.ascii_of_nat 34) EmptyString in q +:+ s +:+ q.

(** ** Package strings

    A Go string is its bytes.  [HasPrefix], [HasSuffix], [Contains], [Index],
    the trims, [Split], [SplitN], [Join] and [Fields] work on bytes for the
    separators the program uses; [TrimSpace] and [Fields] also know the
    UTF-8 encodings of the Unicode white space characters. *)
Definition code (c : Ascii.ascii) : Z := Z.of_N (Ascii.N_of_ascii c).

(** The [%x] verb on a [uint32]. *)
Fixpoint trimZeros (s : string) : string :=
  match s with
  | String c (String _ _ as s') => if code c =? 48 then trimZeros s' else s
  | _ => s
  end.
Definition hexx (v : Z) : string := trimZeros (hex08x v).

Definition HasPrefix (s prefix : string) : bool := String.prefix prefix s.

Fixpoint Contains (s sub : string) : bool :=
  HasPrefix s sub ||
  match s with
  | EmptyString => false
  | String _ s' => Contains s' sub
  end.

(** [strings.TrimLeft(s, " \t")] *)
Fixpoint TrimLeft_blank (s : string) : string :=
  match s with
  | EmptyString => EmptyString
  | String c s' => if (code c =? 32) || (code c =? 9) then TrimLeft_blank s' else s
  end.

Fixpoint string_drop (n : nat) (s : string) : string :=
  match n, s with
  | S n', String _ s' => string_drop n' s'
  | _, _ => s
  end.

Fixpoint string_rev_app (s acc : string) : string :=
  match s with
  | EmptyString => acc
  | String c s' => string_rev_app s' (String c acc)
  end.
Definition string_rev (s : string) : string := string_rev_app s EmptyString.

Definition HasSuffix (s suffix : string) : bool :=
  (String.length suffix <=? String.length s)%nat &&
  bool_decide (string_drop (String.length s - String.length suffix) s = suffix).

Definition slen (s : string) : Z := Z.of_nat (String.length s).

(** The encodings of the white space characters of [unicode.IsSpace]. *)
Definition byte_char (z : Z) : Ascii.ascii := Ascii.ascii_of_N (Z.to_N z).
Definition bytes_string (l : list Z) : string :=
  fold_right (fun z s => String (byte_char z) s) EmptyString l.
Definition spaceEncodings : list string :=
  map bytes_string
    ([[9]; [10]; [11]; [12]; [13]; [32]; [0xC2; 0x85]; [0xC2; 0xA0];
      [0xE1; 0x9A; 0x80]; [0xE2; 0x80; 0xA8]; [0xE2; 0x80; 0xA9]; [0xE2; 0x80; 0xAF];
      [0xE2; 0x81; 0x9F]; [0xE3; 0x80; 0x80]] ++
     map (fun n => [0xE2; 0x80; 0x80 + Z.of_nat n]) (seq 0 11)).

Fixpoint leading (encs : list string) (s : string) : option string :=
  match encs with
  | [] => None
  | e :: encs' => if HasPrefix s e then Some (string_drop (String.length e) s)
                  else leading encs' s
  end.

Fixpoint trim_with (encs : list string) (fuel : nat) (s : string) : string :=
  match fuel with
  | O => s
  | S fuel' =>
      match leading encs s with
      | Some s' => trim_with encs fuel' s'
      | None => s
      end
  end.

Definition TrimLeftSpace (s : string) : string :=
  trim_with spaceEncodings (String.length s) s.
Definition TrimRightSpace (s : string) : string :=
  string_rev (trim_with (map string_rev spaceEncodings) (String.length s) (string_rev s)).
Definition TrimSpace (s : string) : string := TrimRightSpace (TrimLeftSpace s).

(** [strings.Split(s, sep)] for a one-byte separator. *)
Fixpoint Split (sep : Ascii.ascii) (s : string) : list string :=
  match s with
  | EmptyString => [EmptyString]
  | String c s' =>
      if Ascii.eqb c sep then EmptyString :: Split sep s'
      else match Split sep s' with
           | x :: xs => String c x :: xs
           | [] => [String c EmptyString]
           end
  end.

(** [strings.SplitN(s, sep, 2)]: at the first separator only. *)
Fixpoint cut (sep : Ascii.ascii) (s : string) : option (string * string) :=
  match s with
  | EmptyString => None
  | String c s' =>
      if Ascii.eqb c sep then Some (EmptyString, s')
      else match cut sep s' with
           | Some (a, b) => Some (String c a, b)
           | None => None
           end
  end.

Definition Join (l : list string) (sep : string) : string := String.concat sep l.

Definition isASCII (s : string) : bool :=
  forallb (fun c => code c <? 128) (String.list_ascii_of_string s).

Definition upperASCII (c : Ascii.ascii) : Ascii.ascii :=
  if (97 <=? code c) && (code c <=? 122) then byte_char (code c - 32) else c.
Definition lowerASCII (c : Ascii.ascii) : Ascii.ascii :=
  if (65 <=? code c) && (code c <=? 90) then byte_char (code c + 32) else c.

Fixpoint smap (f : Ascii.ascii -> Ascii.ascii) (s : string) : string :=
  match s with
  | EmptyString => EmptyString
  | String c s' => String (f c) (smap f s')
  end.

(** The case tables of package unicode are not modelled: what [ToUpper] and
    [ToLower] make of a string with a byte outside ASCII is a parameter. *)
Class Unicode := {
  mapUpper : string -> string;   (** [strings.Map(unicode.ToUpper, s)] *)
  mapLower : string -> string;   (** [strings.Map(unicode.ToLower, s)] *)
}.

Section Case.
Context `{Unicode}.
Definition ToUpper (s : string) : string :=
  if isASCII s then smap upperASCII s else mapUpper s.
Definition ToLower (s : string) : string :=
  if isASCII s then smap lowerASCII s else mapLower s.
End Case.

(** An instance that leaves other characters alone, for examples. *)
Definition asciiUnicode : Unicode :=
  {| mapUpper := smap upperASCII; mapLower := smap lowerASCII |}.

(** [strings.Map] works rune by rune, and an ASCII character is a rune. *)
Class UnicodeLaws (U : Unicode) : Prop := {
  mapUpper_cons c s :
    code c < 128 -> mapUpper (String c s) = String (upperASCII c) (mapUpper s);
  mapLower_cons c s :
    code c < 128 -> mapLower (String c s) = String (lowerASCII c) (mapLower s);
}.

#[export] Instance asciiUnicode_laws : UnicodeLaws asciiUnicode.
Proof. by split. Qed.

(** ** Lemmas *)
Lemma isASCII_cons c s : isASCII (String c s) = (code c <? 128) && isASCII s.
Proof. done. Qed.

Lemma ToUpper_cons `{UL : UnicodeLaws} c s :
  code c < 128 -> ToUpper (String c s) = String (upperASCII c) (ToUpper s).
Proof.
  intros Hc. unfold ToUpper. rewrite isASCII_cons.
  destruct (Z.ltb_spec (code c) 128); [|lia]. cbn [andb].
  destruct (isASCII s); [done|by apply mapUpper_cons].
Qed.

Lemma string_app_assoc (a b c : string) : (a +:+ (b +:+ c) = (a +:+ b) +:+ c)%string.
Proof. induction a as [|x a IH]; [done|]. by apply (f_equal (String x)). Qed.

Lemma string_app_nil_r (a : string) : (a +:+ "" = a)%string.
Proof. induction a as [|x a IH]; [done|]. by apply (f_equal (String x)). Qed.

Lemma HasPrefix_cons c s d t :
  HasPrefix (String c s) (String d t) = bool_decide (d = c) && HasPrefix s t.
Proof.
  unfold HasPrefix. cbn [String.prefix]. case_bool_decide; destruct (Ascii.ascii_dec d c);
    done.
Qed.

Lemma HasPrefix_app s t : HasPrefix (s +:+ t) s = true.
Proof.
  induction s as [|c s IH]; [by destruct t|].
  change (String c s +:+ t) with (String c (s +:+ t)).
  by rewrite HasPrefix_cons, bool_decide_true, IH.
Qed.

Lemma Contains_app_r s t sub : Contains t sub = true -> Contains (s +:+ t) sub = true.
Proof.
  intros H. induction s as [|c s IH]; [done|].
  change (String c s +:+ t) with (String c (s +:+ t)). cbn [Contains].
  by rewrite IH, orb_true_r.
Qed.
