(* ===== verification/Varint.v ===== *)
(** Protobuf base-128 varints, zigzag integers, field skipping and the loop
    fragments every hand-written decoder is made of.

    Models the helpers of [internal/serial/framing.go] ([decodeVarint],
    [encodeVarint], [decodeZigzag], [skipField]) and their copies in
    [internal/meshtastic/dispatcher.go], together with the wire writers of
    [internal/serial/encode.go]. *)
From S2P Require Import Prelude.

(** ** Definitions *)

(** [for i, b := range data]: [shift] is [7 * i]; the shifted group is
    truncated to 64 bits, as Go's [<<] on [uint64] does. *)
Fixpoint decodeVarint_loop (data : bytes) (i shift val : Z) : Z * Z :=
  match data with
  | [] => (0, 0)
  | b :: data' =>
      if i >=? 10 then (0, 0)
      else
        let val := Z.lor val (uint64 (Z.shiftl (Z.land (Zb b) 127) shift)) in
        if Z.land (Zb b) 128 =? 0 then (val, i + 1)
        else decodeVarint_loop data' (i + 1) (shift + 7) val
  end.

Definition decodeVarint (data : bytes) : Z * Z := decodeVarint_loop data 0 0 0.

(** [for val >= 0x80 { buf[n] = byte(val)|0x80; val >>= 7; n++ }] over a
    10-byte buffer: [room] is how many bytes are left after [buf[n]]. *)
Fixpoint encodeVarint_loop (room : nat) (val : Z) : bytes :=
  match room with
  | O => [byte_of_Z val]
  | S room' =>
      if val >=? 128
      then byte_of_Z (Z.lor (uint8 val) 128) :: encodeVarint_loop room' (Z.shiftr val 7)
      else [byte_of_Z val]
  end.

Definition encodeVarint (val : Z) : bytes := encodeVarint_loop 9 val.

(** [int64(v>>1) ^ -int64(v&1)] *)
Definition decodeZigzag (v : Z) : Z :=
  Z.lxor (int64 (Z.shiftr v 1)) (- int64 (Z.land v 1)).

(** [for pos < len(data) { if data[pos]&0x80 == 0 { return pos+1 }; pos++ }] *)
Fixpoint skipVarint (data : bytes) (pos : Z) : Z :=
  match data with
  | [] => -1
  | b :: data' => if Z.land (Zb b) 128 =? 0 then pos + 1 else skipVarint data' (pos + 1)
  end.

(** [int(length)] is a conversion [uint64 -> int64], and the sum is an
    [int64] sum: both wrap. *)
Definition skipField (data : bytes) (pos wireType : Z) : outcome Z :=
  if wireType =? 0 then
    if pos <? 0 then Panic
    else Ret (skipVarint (drop (Z.to_nat pos) data) pos)
  else if wireType =? 1 then Ret (pos + 8)
  else if wireType =? 2 then
    let! rest := slice_from data pos in
    let '(length, n) := decodeVarint rest in
    if n =? 0 then Ret (-1) else Ret (int64 (pos + n + int64 length))
  else if wireType =? 5 then Ret (pos + 4)
  else Ret (-1).

(** Little-endian 32-bit words ([binary.LittleEndian]). *)
Definition le32 (data : bytes) : Z :=
  match data with
  | [b0; b1; b2; b3] =>
      Zb b0 + Zb b1 * 2 ^ 8 + Zb b2 * 2 ^ 16 + Zb b3 * 2 ^ 24
  | _ => 0
  end.

Definition encodeFixed32 (val : Z) : bytes :=
  [ byte_of_Z val; byte_of_Z (Z.shiftr val 8);
    byte_of_Z (Z.shiftr val 16); byte_of_Z (Z.shiftr val 24) ].

Definition encodeLengthDelimited (fieldNum : Z) (data : bytes) : bytes :=
  encodeVarint (Z.lor (uint64 (Z.shiftl fieldNum 3)) 2) ++
  encodeVarint (zlen data) ++ data.

Definition encodeVarintField (fieldNum val : Z) : bytes :=
  encodeVarint (Z.lor (uint64 (Z.shiftl fieldNum 3)) 0) ++ encodeVarint val.

Definition encodeFixed32Field (fieldNum val : Z) : bytes :=
  encodeVarint (Z.lor (uint64 (Z.shiftl fieldNum 3)) 5) ++ encodeFixed32 val.

Definition encodeSFixed32Field (fieldNum val : Z) : bytes :=
  encodeFixed32Field fieldNum (uint32 val).

(** A Go [float32] is modelled by its IEEE 754 bit pattern, so
    [math.Float32bits] and [math.Float32frombits] are the identity. *)
Definition encodeFloat32Field (fieldNum bits : Z) : bytes :=
  encodeFixed32Field fieldNum bits.

(** ** Fragments of the decoder loops *)
Section Fragments.
Context {A : Type} (data : bytes).

(** [v, n := decodeVarint(data[pos:]); if n == 0 { break }; pos += n] *)
Definition with_varint (a : A) (pos : Z)
    (k : Z -> Z -> outcome (step A)) : outcome (step A) :=
  let! rest := slice_from data pos in
  let '(val, n) := decodeVarint rest in
  if n =? 0 then Ret (Stop a) else k val (pos + n).

(** The tag: [fieldNum := tag >> 3; wireType := tag & 0x7]. *)
Definition with_tag (a : A) (pos : Z)
    (k : Z -> Z -> Z -> outcome (step A)) : outcome (step A) :=
  with_varint a pos (fun tag pos => k (Z.shiftr tag 3) (Z.land tag 7) pos).

(** [length, n := decodeVarint(..); if n == 0 { break }; pos += n;
     if pos+int(length) > len(data) { break }]: the end position is the
    wrapped [int64] sum.  [a] is the value on a truncated length, [a'] on a
    payload that does not fit. *)
Definition with_length (a a' : A) (pos : Z)
    (k : Z -> Z -> outcome (step A)) : outcome (step A) :=
  with_varint a pos (fun length pos =>
    let stop := int64 (pos + int64 length) in
    if stop >? zlen data then Ret (Stop a') else k pos stop).

(** ... followed by [subData := data[pos : pos+int(length)]] and
    [pos += int(length)]. *)
Definition with_bytes2 (a a' : A) (pos : Z)
    (k : bytes -> Z -> outcome (step A)) : outcome (step A) :=
  with_length a a' pos (fun lo hi =>
    let! sub := slice data lo hi in k sub hi).

Definition with_bytes (a : A) : Z -> (bytes -> Z -> outcome (step A)) -> outcome (step A) :=
  with_bytes2 a a.

(** [if pos+4 > len(data) { break }; u32 := LittleEndian.Uint32(data[pos:pos+4]);
     pos += 4] *)
Definition with_fixed32 (a : A) (pos : Z)
    (k : Z -> Z -> outcome (step A)) : outcome (step A) :=
  if pos + 4 >? zlen data then Ret (Stop a)
  else let! w := slice data pos (pos + 4) in k (le32 w) (pos + 4).

(** [pos = skipField(data, pos, wireType); if pos < 0 { break }] *)
Definition skip_other (a : A) (pos wireType : Z) : outcome (step A) :=
  let! pos := skipField data pos wireType in
  if pos <? 0 then Ret (Stop a) else Ret (Next a pos).
End Fragments.

(** ** Varint arithmetic *)

(** A continuation byte [byte(val)|0x80]: its low seven bits are those of
    [val] and its high bit is set. *)
Lemma cont_byte_low v : Z.land (Zb (byte_of_Z (Z.lor (uint8 v) 128))) 127 = v mod 128.
Proof.
  rewrite Zb_byte_of_Z. unfold uint8. change (2 ^ 8) with 256.
  rewrite !mod_256_land, <- Z.land_assoc. change (Z.land 255 127) with 127.
  rewrite Z.land_lor_distr_l, <- Z.land_assoc.
  change (Z.land 255 127) with 127. change (Z.land 128 127) with 0.
  rewrite Z.lor_0_r. apply land_127.
Qed.

Lemma cont_byte_high v :
  (Z.land (Zb (byte_of_Z (Z.lor (uint8 v) 128))) 128 =? 0) = false.
Proof.
  rewrite Zb_byte_of_Z, mod_256_land, <- Z.land_assoc.
  change (Z.land 255 128) with 128.
  rewrite Z.land_lor_distr_l. change (Z.land 128 128) with 128.
  apply Z.eqb_neq. intros [_ H]%Z.lor_eq_0_iff. done.
Qed.

Lemma last_byte_low v : 0 <= v < 128 -> Z.land (Zb (byte_of_Z v)) 127 = v.
Proof.
  intros H. rewrite Zb_byte_of_Z, Z.mod_small, land_127 by lia.
  apply Z.mod_small. lia.
Qed.

Lemma last_byte_high v : 0 <= v < 128 -> (Z.land (Zb (byte_of_Z v)) 128 =? 0) = true.
Proof.
  intros H. rewrite Zb_byte_of_Z, Z.mod_small by lia. apply Z.eqb_eq.
  replace v with (Z.land v 127) by (rewrite land_127; apply Z.mod_small; lia).
  by rewrite <- Z.land_assoc, Z.land_0_r.
Qed.

Lemma encodeVarint_loop_pos room v : 1 <= zlen (encodeVarint_loop room v).
Proof.
  destruct room; cbn; [|destruct (v >=? 128)]; zlen_lia.
Qed.

Lemma encodeVarint_loop_len room v :
  zlen (encodeVarint_loop room v) <= 1 + Z.of_nat room.
Proof.
  revert v. induction room as [|room IH]; intros v; cbn [encodeVarint_loop].
  - zlen_lia.
  - specialize (IH (Z.shiftr v 7)). destruct (v >=? 128); zlen_lia.
Qed.

Lemma shiftl_group g shift :
  0 <= shift <= 63 -> 0 <= g -> g * 2 ^ shift < 2 ^ 64 ->
  uint64 (Z.shiftl g shift) = Z.shiftl g shift.
Proof.
  intros Hs Hg Hb. apply uint64_small. rewrite Z.shiftl_mul_pow2 by lia.
  pose proof (Z.pow_pos_nonneg 2 shift). nia.
Qed.

(** The decoder loop run on the encoder loop's output, from any point of
    the value: [acc] is what the earlier groups contributed. *)
Lemma decodeVarint_loop_encode room v rest acc :
  (room <= 9)%nat ->
  0 <= v -> v * 2 ^ (7 * (9 - Z.of_nat room)) < 2 ^ 64 ->
  0 <= acc < 2 ^ (7 * (9 - Z.of_nat room)) ->
  decodeVarint_loop (encodeVarint_loop room v ++ rest) (9 - Z.of_nat room)
    (7 * (9 - Z.of_nat room)) acc
  = (acc + v * 2 ^ (7 * (9 - Z.of_nat room)),
     9 - Z.of_nat room + zlen (encodeVarint_loop room v)).
Proof.
  revert v acc. induction room as [|room IH]; intros v acc Hr Hv Hvb Hacc.
  - cbn [encodeVarint_loop app decodeVarint_loop]. cbn in Hvb, Hacc.
    assert (v < 2) by lia.
    rewrite last_byte_low, last_byte_high by lia. cbn -[Z.lor Z.shiftl Z.pow uint64].
    rewrite shiftl_group by (cbn; lia).
    rewrite lor_shiftl_add by (cbn; lia).
    f_equal; zlen_lia.
  - set (i := 9 - Z.of_nat (S room)) in *.
    assert (9 - Z.of_nat room = i + 1) as Hi by lia.
    cbn [encodeVarint_loop]. destruct (Z.geb_spec v 128) as [Hge|Hlt].
    + cbn [app decodeVarint_loop].
      destruct (Z.geb_spec i 10) as [?|_]; [lia|].
      rewrite cont_byte_low, cont_byte_high, zlen_cons.
      pose proof (Z.mod_pos_bound v 128 eq_refl) as Hm.
      pose proof (Z.div_mod v 128 ltac:(lia)) as Hdm.
      assert (0 < 2 ^ (7 * i)) as Hp by (apply Z.pow_pos_nonneg; lia).
      rewrite shiftl_group by (try lia; nia).
      rewrite lor_shiftl_add by lia.
      replace (7 * i + 7) with (7 * (9 - Z.of_nat room)) by lia.
      rewrite <- Hi, Z.shiftr_div_pow2 by lia. change (2 ^ 7) with 128.
      assert (2 ^ (7 * (9 - Z.of_nat room)) = 128 * 2 ^ (7 * i)) as Hpow.
      { rewrite Hi. replace (7 * (i + 1)) with (7 + 7 * i) by lia.
        by rewrite Z.pow_add_r by lia. }
      rewrite IH; [|lia|apply Z.div_pos; lia|rewrite Hpow; nia|rewrite Hpow; nia].
      rewrite Hpow. f_equal; [nia|lia].
    + cbn [app decodeVarint_loop].
      destruct (Z.geb_spec i 10) as [?|_]; [lia|].
      rewrite last_byte_low, last_byte_high by lia.
      rewrite shiftl_group by lia. rewrite lor_shiftl_add by lia.
      f_equal; zlen_lia.
Qed.

Lemma decode_encodeVarint v rest :
  0 <= v < 2 ^ 64 ->
  decodeVarint (encodeVarint v ++ rest) = (v, zlen (encodeVarint v)).
Proof.
  intros H. unfold decodeVarint, encodeVarint.
  pose proof (decodeVarint_loop_encode 9 v rest 0) as E.
  change (7 * (9 - Z.of_nat 9)) with 0 in E. change (9 - Z.of_nat 9) with 0 in E.
  rewrite E by lia. f_equal; lia.
Qed.

Lemma encodeVarint_len v : 1 <= zlen (encodeVarint v) <= 10.
Proof.
  split; [apply encodeVarint_loop_pos|].
  apply (encodeVarint_loop_len 9).
Qed.

(** What the decoder returns on arbitrary bytes: a 64-bit value and how
    many of the bytes it consumed, with [(0, 0)] for a truncated or
    over-long varint. *)
Lemma decodeVarint_loop_bounds data i shift val v n :
  0 <= i -> 0 <= val < 2 ^ 64 ->
  decodeVarint_loop data i shift val = (v, n) ->
  0 <= v < 2 ^ 64 /\ (n = 0 /\ v = 0 \/ i < n <= Z.min 10 (i + zlen data)).
Proof.
  revert i shift val. induction data as [|b data IH]; cbn [decodeVarint_loop];
    intros i shift val Hi Hv Heq.
  - injection Heq as <- <-. split; [lia|by left].
  - rewrite zlen_cons. pose proof (zlen_nonneg data).
    destruct (Z.geb_spec i 10); [injection Heq as <- <-; split; [lia|by left]|].
    assert (0 <= Z.lor val (uint64 (Z.shiftl (Z.land (Zb b) 127) shift)) < 2 ^ 64).
    { apply lor_bound; [lia|done|apply uint64_range]. }
    destruct (Z.land (Zb b) 128 =? 0).
    + injection Heq as <- <-. split; [done|right; lia].
    + apply IH in Heq as [? [?|?]]; [split; [done|by left]|split; [done|right; lia]|lia|done].
Qed.

Lemma decodeVarint_bounds data v n :
  decodeVarint data = (v, n) ->
  0 <= v < 2 ^ 64 /\ (n = 0 /\ v = 0 \/ 1 <= n <= Z.min 10 (zlen data)).
Proof.
  intros H. apply decodeVarint_loop_bounds in H; [|lia..].
  destruct H as [? [?|?]]; split; try done; [by left|right; lia].
Qed.

Lemma decodeVarint_loop_take m data i shift val :
  decodeVarint_loop (take m data) i shift val = decodeVarint_loop data i shift val
  \/ decodeVarint_loop (take m data) i shift val = (0, 0).
Proof.
  revert m i shift val. induction data as [|b data IH]; intros m i shift val.
  - rewrite take_nil. by left.
  - destruct m as [|m]; [by right|]. cbn [take decodeVarint_loop].
    destruct (i >=? 10); [by left|].
    destruct (Z.land (Zb b) 128 =? 0); [by left|]. apply IH.
Qed.

(** ** Benign inputs

    [sane_lengths]: no byte offset of the input decodes as a varint of
    [2^62] or more, so no declared length can wrap a position around. *)
Definition sane_lengths (data : bytes) : Prop :=
  forall k, (decodeVarint (drop k data)).1 < 2 ^ 62.

Definition sane_lengthsb (data : bytes) : bool :=
  forallb (fun k => (decodeVarint (drop k data)).1 <? 2 ^ 62) (seq 0 (length data)).

Lemma sane_lengthsb_spec data : sane_lengthsb data = true -> sane_lengths data.
Proof.
  unfold sane_lengthsb, sane_lengths. rewrite forallb_forall. intros H k.
  destruct (decide (k < length data)%nat) as [Hk|Hk].
  - apply Z.ltb_lt, H, in_seq. lia.
  - rewrite drop_ge by lia. done.
Qed.

Lemma sane_lengths_slice data k m :
  sane_lengths data -> sane_lengths (take m (drop k data)).
Proof.
  intros H j. rewrite skipn_firstn_comm, drop_drop.
  destruct (decodeVarint_loop_take (m - j) (drop (k + j) data) 0 0 0) as [E|E];
    unfold decodeVarint at 1; rewrite E; [apply H|done].
Qed.

Definition benign (data : bytes) : Prop := zlen data < 2 ^ 62 /\ sane_lengths data.

Lemma slice_benign data lo hi :
  benign data -> 0 <= lo <= hi -> hi <= zlen data ->
  exists sub, slice data lo hi = Ret sub /\ benign sub /\ zlen sub <= zlen data.
Proof.
  intros [Hl Hs] H1 H2. rewrite slice_ok by done. eexists; split; [done|].
  split; [split|]; [|by apply sane_lengths_slice|];
    unfold zlen in *; rewrite length_take, length_drop; lia.
Qed.

(** ** The fragments make progress on benign inputs *)
Section Progress.
Context {A : Type} (data : bytes) (a : A) (pos0 pos : Z).
Hypothesis Hpos0 : pos0 <= pos.
Hypothesis Hpos : 0 <= pos <= zlen data.

Lemma with_varint_good k :
  (forall v p, 0 <= v -> v = (decodeVarint (drop (Z.to_nat pos) data)).1 ->
     pos < p <= zlen data -> good pos0 (k v p)) ->
  good pos0 (with_varint data a pos k).
Proof.
  intros Hk. unfold with_varint. rewrite slice_from_ok by done. cbn [obind].
  destruct (decodeVarint (drop (Z.to_nat pos) data)) as [v n] eqn:E.
  destruct (decodeVarint_bounds _ _ _ E) as [Hv [[-> _]|Hn]]; [done|].
  destruct (Z.eqb_spec n 0); [lia|]. unfold zlen in Hn.
  rewrite length_drop in Hn. apply Hk; [lia|done|unfold zlen in *; lia].
Qed.

Lemma with_tag_good k :
  (forall f w p, pos < p <= zlen data -> good pos0 (k f w p)) ->
  good pos0 (with_tag data a pos k).
Proof. intros Hk. apply with_varint_good. intros. by apply Hk. Qed.

Lemma with_length_good a' k :
  benign data ->
  (forall lo hi, pos < lo -> lo <= hi <= zlen data -> good pos0 (k lo hi)) ->
  good pos0 (with_length data a a' pos k).
Proof.
  intros [Hl Hs] Hk. apply with_varint_good. intros v p Hv0 -> Hp.
  specialize (Hs (Z.to_nat pos)). cbv zeta.
  rewrite !int64_small by (rewrite ?int64_small; lia).
  destruct (Z.gtb_spec (p + (decodeVarint (drop (Z.to_nat pos) data)).1) (zlen data));
    [done|]. apply Hk; lia.
Qed.

Lemma with_bytes2_good a' k :
  benign data ->
  (forall sub p, benign sub -> zlen sub <= zlen data -> pos < p <= zlen data ->
     good pos0 (k sub p)) ->
  good pos0 (with_bytes2 data a a' pos k).
Proof.
  intros Hb Hk. apply with_length_good; [done|]. intros lo hi Hlo Hhi.
  destruct (slice_benign data lo hi Hb) as (sub & -> & Hsub & Hz); [lia..|].
  cbn [obind]. apply Hk; [done|done|lia].
Qed.

Lemma with_bytes_good k :
  benign data ->
  (forall sub p, benign sub -> zlen sub <= zlen data -> pos < p <= zlen data ->
     good pos0 (k sub p)) ->
  good pos0 (with_bytes data a pos k).
Proof. apply with_bytes2_good. Qed.

Lemma with_fixed32_good k :
  (forall v p, pos < p <= zlen data -> good pos0 (k v p)) ->
  good pos0 (with_fixed32 data a pos k).
Proof.
  intros Hk. unfold with_fixed32. destruct (Z.gtb_spec (pos + 4) (zlen data)); [done|].
  rewrite slice_ok by lia. cbn [obind]. apply Hk. lia.
Qed.

Lemma skipVarint_range d p : skipVarint d p = -1 \/ p < skipVarint d p.
Proof.
  revert p. induction d as [|b d IH]; intros p; cbn; [by left|].
  destruct (Z.land (Zb b) 128 =? 0); [right; lia|].
  destruct (IH (p + 1)) as [->|?]; [by left|right; lia].
Qed.

Lemma skip_other_good w : benign data -> good pos0 (skip_other data a pos w).
Proof.
  intros [Hl Hs]. unfold skip_other, skipField.
  assert (forall p, p = -1 \/ pos < p ->
    good pos0 (if p <? 0 then Ret (Stop a) else Ret (Next a p))) as Hfin.
  { intros p Hp. destruct (Z.ltb_spec p 0); cbn; [done|lia]. }
  destruct (w =? 0).
  { destruct (Z.ltb_spec pos 0); [lia|]. apply Hfin, skipVarint_range. }
  destruct (w =? 1); [apply Hfin; lia|].
  destruct (w =? 2).
  { rewrite slice_from_ok by done. cbn [obind].
    specialize (Hs (Z.to_nat pos)).
    destruct (decodeVarint (drop (Z.to_nat pos) data)) as [v n] eqn:E.
    destruct (decodeVarint_bounds _ _ _ E) as [Hv [[-> _]|Hn]]; [done|].
    cbn [fst] in Hs. destruct (Z.eqb_spec n 0); [lia|]. apply Hfin.
    unfold zlen in *. rewrite length_drop in Hn.
    rewrite !int64_small by (rewrite ?int64_small; lia).
    lia. }
  destruct (w =? 5); apply Hfin; lia.
Qed.
End Progress.

Lemma good_bind {A B} pos (m : outcome B) (k : B -> outcome (step A)) :
  (exists r, m = Ret r) -> (forall r, good pos (k r)) -> good pos (obind m k).
Proof. intros [r ->] H. apply H. Qed.

(** Totality of the sub-message decoders, resolved by the tactics below. *)
Create HintDb total.

(** [good_tac]: the body of a decoder loop makes progress. *)
Ltac good_tac :=
  repeat first
    [ progress intros
    | progress cbn [fst snd]
    | exact I
    | match goal with
      | |- good _ (with_tag _ _ _ _) => apply with_tag_good; [lia..|]
      | |- good _ (with_varint _ _ _ _) => apply with_varint_good; [lia..|]
      | |- good _ (with_bytes _ _ _ _) => apply with_bytes_good; [first [assumption|lia]..|]
      | |- good _ (with_bytes2 _ _ _ _ _) => apply with_bytes2_good; [first [assumption|lia]..|]
      | |- good _ (with_length _ _ _ _ _) => apply with_length_good; [first [assumption|lia]..|]
      | |- good _ (with_fixed32 _ _ _ _) => apply with_fixed32_good; [lia..|]
      | |- good _ (skip_other _ _ _ _) => apply skip_other_good; first [assumption|lia]
      | |- good _ (if ?b then _ else _) => destruct b
      | |- good _ (Ret (Next _ _)) => cbn [good]; lia
      | |- good _ (obind _ _) => apply good_bind; [solve [eauto with total lia]|]
      end ].

(** [total_tac]: a decoder, or the dispatch to its sub-decoders, returns. *)
Ltac bind_total :=
  match goal with
  | |- exists r, obind ?m _ = Ret r =>
      let r := fresh "r" in let E := fresh "E" in
      assert (exists r', m = Ret r') as [r E] by eauto with total lia;
      rewrite E; cbn [obind]
  end.
Ltac total_tac :=
  repeat first
    [ progress intros
    | match goal with
      | |- exists r, Ret _ = Ret r => eexists; reflexivity
      | |- exists r, scan _ _ _ _ _ = Ret r => apply scan_total; [good_tac|lia|lia]
      | |- exists r, (if ?b then _ else _) = Ret r => destruct b
      end
    | bind_total ].

(** ** Reading back what the writers wrote

    [suffix_at data pos rest]: the unread input at [pos] is [rest]. *)
Definition suffix_at (data : bytes) (pos : Z) (rest : bytes) : Prop :=
  0 <= pos <= zlen data /\ drop (Z.to_nat pos) data = rest.

Lemma suffix_at_0 data : suffix_at data 0 data.
Proof. split; [pose proof (zlen_nonneg data); lia|done]. Qed.

Lemma suffix_at_app data pos x rest :
  suffix_at data pos (x ++ rest) -> suffix_at data (pos + zlen x) rest.
Proof.
  intros [Hp Hd]. assert (zlen (drop (Z.to_nat pos) data) = zlen (x ++ rest)) as Hl
    by by rewrite Hd.
  unfold zlen in Hl. rewrite length_drop, length_app in Hl.
  split; [unfold zlen in *; lia|].
  replace (Z.to_nat (pos + zlen x)) with (Z.to_nat pos + length x)%nat
    by (unfold zlen; lia).
  by rewrite <- drop_drop, Hd, drop_app_length.
Qed.

Lemma suffix_at_end data pos rest :
  suffix_at data pos rest -> zlen data = pos + zlen rest.
Proof. intros [Hp <-]. unfold zlen in *. rewrite length_drop. lia. Qed.

Lemma suffix_at_slice data pos x rest :
  suffix_at data pos (x ++ rest) -> slice data pos (pos + zlen x) = Ret x.
Proof.
  intros H. pose proof (suffix_at_end _ _ _ H) as He. destruct H as [Hp Hd].
  rewrite zlen_app in He. zlen_nonneg_facts.
  rewrite slice_ok by lia. rewrite Hd.
  replace (Z.to_nat (pos + zlen x - pos)) with (length x) by (unfold zlen; lia).
  by rewrite take_app_length.
Qed.

Lemma wire_tag_split f w :
  0 <= f < 2 ^ 61 -> 0 <= w < 8 ->
  let tag := Z.lor (uint64 (Z.shiftl f 3)) w in
  0 <= tag < 2 ^ 64 /\ Z.shiftr tag 3 = f /\ Z.land tag 7 = w.
Proof.
  intros Hf Hw. cbv zeta.
  rewrite uint64_small by (rewrite Z.shiftl_mul_pow2; lia).
  rewrite Z.lor_comm, lor_shiftl_add by (cbn; lia). change (2 ^ 3) with 8.
  split; [lia|]. rewrite land_7, Z.shiftr_div_pow2 by lia. change (2 ^ 3) with 8.
  rewrite Z.div_add, Z.mod_add, Z.div_small, Z.mod_small by lia. lia.
Qed.

Section ReadBack.
Context {A : Type} (data : bytes) (a : A) (pos : Z).

Lemma with_varint_read v rest k :
  suffix_at data pos (encodeVarint v ++ rest) -> 0 <= v < 2 ^ 64 ->
  with_varint data a pos k = k v (pos + zlen (encodeVarint v)).
Proof.
  intros [Hp Hd] Hv. unfold with_varint. rewrite slice_from_ok by done.
  cbn [obind]. rewrite Hd, decode_encodeVarint by done.
  pose proof (encodeVarint_len v). destruct (Z.eqb_spec (zlen (encodeVarint v)) 0); [lia|done].
Qed.

Lemma with_tag_read f w rest k :
  suffix_at data pos (encodeVarint (Z.lor (uint64 (Z.shiftl f 3)) w) ++ rest) ->
  0 <= f < 2 ^ 61 -> 0 <= w < 8 ->
  with_tag data a pos k
  = k f w (pos + zlen (encodeVarint (Z.lor (uint64 (Z.shiftl f 3)) w))).
Proof.
  intros H Hf Hw. destruct (wire_tag_split f w Hf Hw) as (Ht & H1 & H2).
  unfold with_tag. rewrite (with_varint_read _ rest) by done.
  by rewrite H1, H2.
Qed.

Lemma with_bytes_read sub rest k :
  suffix_at data pos (encodeVarint (zlen sub) ++ sub ++ rest) ->
  zlen data < 2 ^ 62 ->
  with_bytes data a pos k
  = k sub (pos + zlen (encodeVarint (zlen sub)) + zlen sub).
Proof.
  intros H Hl. pose proof (suffix_at_end _ _ _ H) as He.
  pose proof (encodeVarint_len (zlen sub)).
  autorewrite with zlen in He. destruct H as [Hp Hd] eqn:EH; clear EH.
  assert (suffix_at data (pos + zlen (encodeVarint (zlen sub))) (sub ++ rest)) as H'
    by (by apply suffix_at_app).
  zlen_nonneg_facts.
  unfold with_bytes, with_bytes2, with_length. rewrite (with_varint_read _ (sub ++ rest)) by (done || lia).
  cbv zeta. rewrite !int64_small by (rewrite ?int64_small; lia).
  destruct (Z.gtb_spec (pos + zlen (encodeVarint (zlen sub)) + zlen sub) (zlen data)); [lia|].
  by rewrite (suffix_at_slice _ _ _ rest).
Qed.

Lemma le32_encodeFixed32 v : 0 <= v < 2 ^ 32 -> le32 (encodeFixed32 v) = v.
Proof.
  intros H. cbn [le32 encodeFixed32]. rewrite !Zb_byte_of_Z, !Z.shiftr_div_pow2 by lia.
  change (2 ^ 8) with 256. change (2 ^ 16) with (256 * 256).
  change (2 ^ 24) with (256 * 256 * 256).
  rewrite <- !Z.div_div by lia.
  pose proof (Z.div_mod v 256 ltac:(lia)).
  pose proof (Z.div_mod (v / 256) 256 ltac:(lia)).
  pose proof (Z.div_mod (v / 256 / 256) 256 ltac:(lia)).
  pose proof (Z.div_mod (v / 256 / 256 / 256) 256 ltac:(lia)).
  assert (v / 256 / 256 / 256 / 256 = 0).
  { rewrite !Z.div_div by lia. apply Z.div_small. lia. }
  lia.
Qed.

Lemma with_fixed32_read v rest k :
  suffix_at data pos (encodeFixed32 v ++ rest) -> 0 <= v < 2 ^ 32 ->
  with_fixed32 data a pos k = k v (pos + 4).
Proof.
  intros H Hv. pose proof (suffix_at_end _ _ _ H) as He. rewrite zlen_app in He.
  change (zlen (encodeFixed32 v)) with 4 in He. zlen_nonneg_facts.
  unfold with_fixed32. destruct (Z.gtb_spec (pos + 4) (zlen data)); [lia|].
  pose proof (suffix_at_slice _ _ _ _ H) as Hs.
  change (zlen (encodeFixed32 v)) with 4 in Hs. rewrite Hs. cbn [obind].
  by rewrite le32_encodeFixed32.
Qed.
End ReadBack.

(** ** Reading a written message field by field

    One step of a decoder loop over a field the writers produced: the value
    is updated by the decoder's [switch] and the position moves behind the
    field.  [K] is the body of the loop after the tag. *)
Section FieldSteps.
Context {A : Type} (data : bytes) (body : A -> Z -> outcome (step A)) (fuel : nat) (a : A)
  (pos f : Z) (rest : bytes) (K : Z -> Z -> Z -> outcome (step A)) (r : outcome A).
Hypothesis Hf : 0 <= f < 2 ^ 61.
Hypothesis Hbody : body a pos = with_tag data a pos K.

Lemma scan_field w v a' :
  suffix_at data pos (encodeVarint (Z.lor (uint64 (Z.shiftl f 3)) w) ++ v ++ rest) ->
  0 <= w < 8 ->
  (forall p, suffix_at data p (v ++ rest) -> K f w p = Ret (Next a' (p + zlen v))) ->
  (forall p, suffix_at data p rest -> scan fuel (zlen data) body a' p = r) ->
  scan (S fuel) (zlen data) body a pos = r.
Proof.
  intros Hs Hw HK Hr. set (tag := encodeVarint _) in Hs.
  assert (1 <= zlen tag <= 10) as Ht by apply encodeVarint_len.
  pose proof (suffix_at_end _ _ _ Hs) as He. rewrite !zlen_app in He. zlen_nonneg_facts.
  apply suffix_at_app in Hs as Hs1. apply suffix_at_app in Hs1 as Hs2.
  erewrite scan_next; [by apply Hr, Hs2|lia|].
  rewrite Hbody, (with_tag_read _ _ _ f w (v ++ rest)) by done. by apply HK.
Qed.

Lemma scan_varint_field v g :
  suffix_at data pos (encodeVarintField f v ++ rest) -> 0 <= v < 2 ^ 64 ->
  (forall p, K f 0 p = with_varint data a p (fun val q => Ret (Next (g val) q))) ->
  (forall p, suffix_at data p rest -> scan fuel (zlen data) body (g v) p = r) ->
  scan (S fuel) (zlen data) body a pos = r.
Proof.
  unfold encodeVarintField. rewrite <- app_assoc. intros Hs Hv HK.
  apply (scan_field 0 (encodeVarint v)); [done|lia|]. intros p Hp.
  by rewrite HK, (with_varint_read _ _ _ v rest).
Qed.

Lemma scan_fixed32_field v g :
  suffix_at data pos (encodeFixed32Field f v ++ rest) -> 0 <= v < 2 ^ 32 ->
  (forall p, K f 5 p = with_fixed32 data a p (fun val q => Ret (Next (g val) q))) ->
  (forall p, suffix_at data p rest -> scan fuel (zlen data) body (g v) p = r) ->
  scan (S fuel) (zlen data) body a pos = r.
Proof.
  unfold encodeFixed32Field. rewrite <- app_assoc. intros Hs Hv HK.
  apply (scan_field 5 (encodeFixed32 v)); [done|lia|]. intros p Hp.
  by rewrite HK, (with_fixed32_read _ _ _ v rest).
Qed.

Lemma scan_bytes_field sub k a' :
  suffix_at data pos (encodeLengthDelimited f sub ++ rest) -> zlen data < 2 ^ 62 ->
  (forall p, K f 2 p = with_bytes data a p k) ->
  (forall q, k sub q = Ret (Next a' q)) ->
  (forall p, suffix_at data p rest -> scan fuel (zlen data) body a' p = r) ->
  scan (S fuel) (zlen data) body a pos = r.
Proof.
  unfold encodeLengthDelimited. rewrite <- !app_assoc. intros Hs Hd HK Hk.
  apply (scan_field 2 (encodeVarint (zlen sub) ++ sub)); [by rewrite <- app_assoc|lia|].
  intros p. rewrite <- app_assoc. intros Hp.
  by rewrite HK, (with_bytes_read _ _ _ sub rest), Hk, zlen_app, Z.add_assoc.
Qed.
End FieldSteps.

Lemma scan_end {A} data pos fuel (body : A -> Z -> outcome (step A)) a r :
  suffix_at data pos [] -> Ret a = r -> scan fuel (zlen data) body a pos = r.
Proof.
  intros H%suffix_at_end <-. change (zlen (@nil byte)) with 0 in H.
  apply scan_done. lia.
Qed.

Lemma zlen_encodeVarintField f v : zlen (encodeVarintField f v) <= 20.
Proof.
  unfold encodeVarintField. rewrite zlen_app.
  pose proof (encodeVarint_len (Z.lor (uint64 (Z.shiftl f 3)) 0)).
  pose proof (encodeVarint_len v). lia.
Qed.

Lemma zlen_encodeFixed32Field f v : zlen (encodeFixed32Field f v) <= 14.
Proof.
  unfold encodeFixed32Field. rewrite zlen_app.
  pose proof (encodeVarint_len (Z.lor (uint64 (Z.shiftl f 3)) 5)).
  change (zlen (encodeFixed32 v)) with 4. lia.
Qed.

Lemma zlen_encodeLengthDelimited f sub : zlen (encodeLengthDelimited f sub) <= 20 + zlen sub.
Proof.
  unfold encodeLengthDelimited. rewrite !zlen_app.
  pose proof (encodeVarint_len (Z.lor (uint64 (Z.shiftl f 3)) 2)).
  pose proof (encodeVarint_len (zlen sub)). lia.
Qed.

(** Upper bounds on the size of written messages, nested ones included. *)
Ltac wire_fact x :=
  lazymatch x with
  | encodeVarintField ?f ?v =>
      lazymatch goal with H : zlen x <= 20 |- _ => fail | _ => idtac end;
      pose proof (zlen_encodeVarintField f v)
  | encodeFixed32Field ?f ?v =>
      lazymatch goal with H : zlen x <= 14 |- _ => fail | _ => idtac end;
      pose proof (zlen_encodeFixed32Field f v)
  | encodeLengthDelimited ?f ?v =>
      lazymatch goal with H : zlen x <= 20 + _ |- _ => fail | _ => idtac end;
      pose proof (zlen_encodeLengthDelimited f v)
  end.
Ltac wire_size :=
  rewrite ?zlen_app;
  repeat (match goal with
          | |- context [zlen ?x] => wire_fact x
          | H : context [zlen ?x] |- _ => wire_fact x
          end; rewrite ?zlen_app in * );
  change (zlen (@nil byte)) with 0 in *; zlen_nonneg_facts.

(** [read_fields]: run a decoder loop over a message made of written fields. *)
Ltac read_field :=
  match goal with
  | H : suffix_at ?d ?p [] |- scan _ (zlen ?d) _ _ ?p = _ => apply (scan_end _ _ _ _ _ _ H)
  | H : suffix_at ?d ?p (encodeVarintField ?f ?v) |- scan _ (zlen ?d) _ _ ?p = _ =>
      rewrite <- (app_nil_r (encodeVarintField f v)) in H
  | H : suffix_at ?d ?p (encodeFixed32Field ?f ?v) |- scan _ (zlen ?d) _ _ ?p = _ =>
      rewrite <- (app_nil_r (encodeFixed32Field f v)) in H
  | H : suffix_at ?d ?p (encodeLengthDelimited ?f ?v) |- scan _ (zlen ?d) _ _ ?p = _ =>
      rewrite <- (app_nil_r (encodeLengthDelimited f v)) in H
  | H : suffix_at ?d ?p (encodeVarintField ?f ?v ++ ?rest) |- scan _ (zlen ?d) _ _ ?p = _ =>
      eapply (scan_varint_field d _ _ _ p f rest);
        [lia|reflexivity|exact H|try lia|intros ?; cbn [Z.eqb Pos.eqb]; reflexivity|];
      [..|clear H; let p' := fresh "p" in let H' := fresh "Hs" in intros p' H']
  | H : suffix_at ?d ?p (encodeFixed32Field ?f ?v ++ ?rest) |- scan _ (zlen ?d) _ _ ?p = _ =>
      eapply (scan_fixed32_field d _ _ _ p f rest);
        [lia|reflexivity|exact H|try lia|intros ?; cbn [Z.eqb Pos.eqb]; reflexivity|];
      [..|clear H; let p' := fresh "p" in let H' := fresh "Hs" in intros p' H']
  | H : suffix_at ?d ?p (encodeLengthDelimited ?f ?v ++ ?rest) |- scan _ (zlen ?d) _ _ ?p = _ =>
      eapply (scan_bytes_field d _ _ _ p f rest);
        [lia|reflexivity|exact H|try lia|intros ?; cbn [Z.eqb Pos.eqb]; reflexivity| |];
      [..|clear H; let p' := fresh "p" in let H' := fresh "Hs" in intros p' H']
  end.

(** ** Declared lengths of [2^63] and more *)
Lemma encodeVarint_loop_full room v :
  2 ^ (7 * Z.of_nat room) <= v -> zlen (encodeVarint_loop room v) = 1 + Z.of_nat room.
Proof.
  revert v. induction room as [|room IH]; intros v Hv; cbn [encodeVarint_loop]; [zlen_lia|].
  assert (2 ^ (7 * Z.of_nat (S room)) = 128 * 2 ^ (7 * Z.of_nat room)) as Hp.
  { replace (7 * Z.of_nat (S room)) with (7 + 7 * Z.of_nat room) by lia.
    by rewrite Z.pow_add_r by lia. }
  pose proof (Z.pow_pos_nonneg 2 (7 * Z.of_nat room)).
  destruct (Z.geb_spec v 128); [|lia]. rewrite zlen_cons, IH; [lia|].
  rewrite Z.shiftr_div_pow2 by lia. change (2 ^ 7) with 128.
  apply Z.div_le_lower_bound; lia.
Qed.

Lemma encodeVarint_len_huge v : 2 ^ 63 <= v -> zlen (encodeVarint v) = 10.
Proof. apply (encodeVarint_loop_full 9). Qed.

(** [int(length)] of such a length is negative, so the end position wraps
    to a place before the payload. *)
Lemma huge_stop pos len :
  0 <= pos < 2 ^ 62 -> 2 ^ 63 <= len < 2 ^ 64 ->
  int64 (pos + int64 len) = pos + len - 2 ^ 64.
Proof. intros Hp Hl. rewrite (int64_high len) by done. rewrite int64_small; lia. Qed.

Lemma with_bytes2_huge {A} data (a a' : A) pos len rest k :
  suffix_at data pos (encodeVarint len ++ rest) -> zlen data < 2 ^ 62 ->
  2 ^ 63 <= len < 2 ^ 64 -> with_bytes2 data a a' pos k = Panic.
Proof.
  intros H Hd Hl. pose proof (suffix_at_end _ _ _ H) as He.
  assert (0 <= pos) by apply H. autorewrite with zlen in He. zlen_nonneg_facts.
  unfold with_bytes2, with_length. rewrite (with_varint_read _ _ _ len rest) by (done || lia).
  cbv zeta. rewrite huge_stop by lia.
  match goal with |- context [if ?c >? ?d then _ else _] => destruct (Z.gtb_spec c d) end;
    [lia|]. by rewrite slice_inverted by lia.
Qed.

(** A length-delimited field the decoder skips, whose length takes the
    position back to the field's own tag. *)
Definition backward_field (fieldNum : Z) : bytes :=
  let tag := encodeVarint (Z.lor (uint64 (Z.shiftl fieldNum 3)) 2) in
  tag ++ encodeVarint (2 ^ 64 - 10 - zlen tag).

Lemma skip_other_backward {A} (a : A) f rest pos data :
  suffix_at data pos (backward_field f ++ rest) -> zlen data < 2 ^ 62 ->
  skip_other data a
    (pos + zlen (encodeVarint (Z.lor (uint64 (Z.shiftl f 3)) 2))) 2
  = Ret (Next a pos).
Proof.
  set (tag := encodeVarint _). intros H Hd. unfold backward_field in H.
  fold tag in H. rewrite <- app_assoc in H.
  assert (1 <= zlen tag <= 10) as Ht by apply encodeVarint_len.
  assert (0 <= pos) as Hp0 by apply H.
  pose proof (suffix_at_end _ _ _ H) as He. apply suffix_at_app in H as H'.
  destruct H' as [Hp Hdrop]. autorewrite with zlen in He. zlen_nonneg_facts.
  unfold skip_other, skipField. cbn [Z.eqb].
  rewrite slice_from_ok by lia. cbn [obind].
  rewrite Hdrop, decode_encodeVarint by lia.
  rewrite encodeVarint_len_huge by lia. cbn [Z.eqb].
  rewrite (int64_high (2 ^ 64 - 10 - zlen tag)) by lia.
  rewrite int64_small by lia. cbn [obind].
  replace (pos + zlen tag + 10 + (2 ^ 64 - 10 - zlen tag - 2 ^ 64)) with pos by lia.
  cbn. destruct (Z.ltb_spec pos 0); [lia|done].
Qed.

(** A decoder loop that meets such fields first. *)
Lemma scan_backward {A} fuel f rest (body : A -> Z -> outcome (step A)) a K :
  let data := backward_field f ++ rest in
  0 <= f < 2 ^ 61 -> zlen rest < 2 ^ 61 ->
  body a 0 = with_tag data a 0 K -> (forall p, K f 2 p = skip_other data a p 2) ->
  scan fuel (zlen data) body a 0 = Diverge.
Proof.
  intros data Hf Hr Hb HK. unfold data in *. clear data. unfold backward_field in *.
  set (tag := encodeVarint (Z.lor (uint64 (Z.shiftl f 3)) 2)) in *.
  set (len := encodeVarint (2 ^ 64 - 10 - zlen tag)) in *.
  set (data := (tag ++ len) ++ rest) in *.
  assert (1 <= zlen tag <= 10) as Ht by apply encodeVarint_len.
  assert (1 <= zlen len <= 10) as Hn by apply encodeVarint_len.
  assert (0 < zlen data < 2 ^ 62) as Hd by (unfold data; zlen_lia).
  pose proof (suffix_at_0 data) as Hs.
  assert (suffix_at data 0 (tag ++ (len ++ rest))) as Hs'
    by (unfold data in Hs at 2; by rewrite <- app_assoc in Hs).
  apply scan_cycle; [lia|]. rewrite Hb, (with_tag_read _ _ _ f 2 (len ++ rest)) by (done || lia).
  rewrite HK. apply (skip_other_backward _ f rest); [exact Hs|lia].
Qed.

Lemma scan_huge {A} fuel f len rest (body : A -> Z -> outcome (step A)) a K a1 a2 a3 k :
  let data := encodeVarint (Z.lor (uint64 (Z.shiftl f 3)) 2) ++ encodeVarint len ++ rest in
  0 <= f < 2 ^ 61 -> 2 ^ 63 <= len < 2 ^ 64 -> zlen rest < 2 ^ 61 ->
  body a 0 = with_tag data a1 0 K -> (forall p, K f 2 p = with_bytes2 data a2 a3 p k) ->
  scan (S fuel) (zlen data) body a 0 = Panic.
Proof.
  intros data Hf Hl Hr Hb HK. set (tag := encodeVarint (Z.lor _ 2)) in data.
  assert (1 <= zlen tag <= 10) as Ht by apply encodeVarint_len.
  pose proof (encodeVarint_len len) as Hn.
  assert (zlen data = zlen tag + (zlen (encodeVarint len) + zlen rest)) as Hd
    by (unfold data; by rewrite !zlen_app).
  pose proof (zlen_nonneg rest). pose proof (suffix_at_0 data) as Hs.
  fold tag in Ht. apply scan_panic; [lia|].
  rewrite Hb, (with_tag_read _ _ _ f 2 (encodeVarint len ++ rest)) by (done || lia).
  rewrite HK. apply with_bytes2_huge with (len := len) (rest := rest); [|lia|lia].
  fold tag. apply (suffix_at_app data 0 tag). apply Hs.
Qed.
