(* ===== verification/Frame.v ===== *)
(** The Meshtastic serial framing: [FrameDecoder.Feed] and [EncodeFrame] of
    [internal/serial/framing.go].

    The decoder is a five-state machine fed one byte at a time; the theorems
    say that it inverts [EncodeFrame] on any sequence of frames separated by
    noise, that how the serial port chunks the stream does not matter, and
    that its buffer stays within the 512-byte limit. *)
From S2P Require Import Prelude.

(** ** Definitions *)
Definition frameStart1 : byte := x94.
Definition frameStart2 : byte := xc3.
Definition maxFrameLen : Z := 512.

Inductive frameState : Type :=
| stateWaitStart1
| stateWaitStart2
| stateWaitLenMSB
| stateWaitLenLSB
| stateReadPayload.

#[export] Instance frameState_eq_dec : EqDecision frameState.
Proof. solve_decision. Defined.

Record FrameDecoder : Type := mkFrameDecoder {
  buf : bytes;
  state : frameState;
  payloadLen : Z;
}.

Definition NewFrameDecoder : FrameDecoder := mkFrameDecoder [] stateWaitStart1 0.

(** One iteration of the loop of [Feed]: the new decoder and the frame the
    byte completed, if any. *)
Definition feed_byte (d : FrameDecoder) (b : byte) : FrameDecoder * option bytes :=
  match state d with
  | stateWaitStart1 =>
      if decide (b = frameStart1)
      then (mkFrameDecoder (buf d) stateWaitStart2 (payloadLen d), None)
      else (d, None)
  | stateWaitStart2 =>
      if decide (b = frameStart2)
      then (mkFrameDecoder [] stateWaitLenMSB (payloadLen d), None)
      else (mkFrameDecoder (buf d) stateWaitStart1 (payloadLen d), None)
  | stateWaitLenMSB =>
      (mkFrameDecoder (buf d) stateWaitLenLSB (Z.shiftl (Zb b) 8), None)
  | stateWaitLenLSB =>
      let n := Z.lor (payloadLen d) (Zb b) in
      if (n >? maxFrameLen) || (n =? 0)
      then (mkFrameDecoder (buf d) stateWaitStart1 n, None)
      else (mkFrameDecoder (buf d) stateReadPayload n, None)
  | stateReadPayload =>
      let buf' := buf d ++ [b] in
      if zlen buf' >=? payloadLen d
      then (mkFrameDecoder buf' stateWaitStart1 (payloadLen d),
            Some (take (Z.to_nat (payloadLen d)) buf'))
      else (mkFrameDecoder buf' stateReadPayload (payloadLen d), None)
  end.

Fixpoint Feed (d : FrameDecoder) (data : bytes) : FrameDecoder * list bytes :=
  match data with
  | [] => (d, [])
  | b :: data' =>
      let '(d1, frame) := feed_byte d b in
      let '(d2, frames) := Feed d1 data' in
      (d2, match frame with Some f => f :: frames | None => frames end)
  end.

(** [nil] is the empty slice. *)
Definition EncodeFrame (payload : bytes) : bytes :=
  if zlen payload >? maxFrameLen then []
  else frameStart1 :: frameStart2
       :: byte_of_Z (Z.shiftr (zlen payload) 8) :: byte_of_Z (zlen payload) :: payload.

(** ** Lemmas *)
(** The reads of [readLoopBinary]: the same decoder fed chunk after chunk. *)
Fixpoint Feed_chunks (d : FrameDecoder) (chunks : list bytes)
    : FrameDecoder * list bytes :=
  match chunks with
  | [] => (d, [])
  | c :: chunks' =>
      let '(d1, fs1) := Feed d c in
      let '(d2, fs2) := Feed_chunks d1 chunks' in
      (d2, fs1 ++ fs2)
  end.

(** Frames as they appear on the link, each after some noise. *)
Definition stream (l : list (bytes * bytes)) : bytes :=
  concat (map (fun '(noise, payload) => noise ++ EncodeFrame payload) l).

Definition idle (d : FrameDecoder) : Prop := state d = stateWaitStart1.

(** Buffer and length are within bounds in every state that uses them. *)
Definition frame_wf (d : FrameDecoder) : Prop :=
  zlen (buf d) <= maxFrameLen /\
  match state d with
  | stateWaitLenMSB => buf d = []
  | stateWaitLenLSB => buf d = [] /\ exists m, 0 <= m < 256 /\ payloadLen d = m * 256
  | stateReadPayload => 0 < payloadLen d <= maxFrameLen /\ zlen (buf d) < payloadLen d
  | _ => True
  end.

Lemma Feed_cons d b data :
  Feed d (b :: data)
  = let '(d1, frame) := feed_byte d b in
    let '(d2, frames) := Feed d1 data in
    (d2, match frame with Some f => f :: frames | None => frames end).
Proof. done. Qed.

Lemma Feed_app_eq d xs ys :
  Feed d (xs ++ ys)
  = let '(d1, fs1) := Feed d xs in
    let '(d2, fs2) := Feed d1 ys in (d2, fs1 ++ fs2).
Proof.
  revert d. induction xs as [|x xs IH]; intros d.
  - cbn. by destruct (Feed d ys).
  - rewrite <- app_comm_cons, !Feed_cons. destruct (feed_byte d x) as [d1 f].
    rewrite IH. destruct (Feed d1 xs) as [d2 fs]. destruct (Feed d2 ys) as [d3 fs'].
    by destruct f.
Qed.

Lemma header_len m l :
  0 <= m < 256 -> Z.lor (m * 256) (Zb l) = m * 256 + Zb l.
Proof.
  intros H. pose proof (Zb_range l).
  rewrite Z.lor_comm. replace (m * 256) with (Z.shiftl m 8)
    by (by rewrite Z.shiftl_mul_pow2).
  rewrite lor_shiftl_add by (cbn; lia). rewrite Z.shiftl_mul_pow2 by lia. lia.
Qed.

Lemma feed_byte_wf d b d' f :
  frame_wf d -> feed_byte d b = (d', f) ->
  frame_wf d' /\
  match f with Some p => 1 <= zlen p <= maxFrameLen | None => True end.
Proof.
  unfold frame_wf, feed_byte, maxFrameLen. intros [Hbuf Hwf] Heq.
  pose proof (Zb_range b) as Hb256.
  destruct (state d) eqn:Es; repeat case_decide; simplify_eq/=;
    try (rewrite ?Es; done).
  - split; [split; [done|split; [done|]]|done]. exists (Zb b).
    rewrite Z.shiftl_mul_pow2 by lia. lia.
  - destruct Hwf as (Hb & m & Hm & Hp). rewrite Hp, header_len in Heq by done.
    destruct (Z.gtb_spec (m * 256 + Zb b) 512), (Z.eqb_spec (m * 256 + Zb b) 0);
      simplify_eq/=; try done.
    rewrite Hb. change (zlen (@nil byte)) with 0. lia.
  - destruct Hwf as [Hp Hb]. autorewrite with zlen in Heq.
    destruct (Z.geb_spec (zlen (buf d) + (1 + 0)) (payloadLen d)); simplify_eq/=.
    + split; [split; [zlen_lia|done]|].
      unfold zlen in *. rewrite length_take, length_app. cbn. lia.
    + zlen_lia.
Qed.

Lemma Feed_wf d data d' fs :
  frame_wf d -> Feed d data = (d', fs) ->
  frame_wf d' /\ Forall (fun p => 1 <= zlen p <= maxFrameLen) fs.
Proof.
  revert d d' fs. induction data as [|b data IH]; intros d d' fs Hwf Heq.
  - by simplify_eq/=.
  - rewrite Feed_cons in Heq. destruct (feed_byte d b) as [d1 f] eqn:E1.
    destruct (Feed d1 data) as [d2 fs2] eqn:E2. simplify_eq/=.
    destruct (feed_byte_wf _ _ _ _ Hwf E1) as [H1 Hf].
    destruct (IH _ _ _ H1 E2) as [H2 Hfs]. split; [done|].
    destruct f; [by constructor|done].
Qed.

(** Noise without a start byte leaves an idle decoder idle. *)
Lemma Feed_noise d noise :
  idle d -> frameStart1 ∉ noise -> Feed d noise = (d, []).
Proof.
  intros Hd. induction noise as [|b noise IH]; intros Hn; [done|].
  rewrite Feed_cons. unfold feed_byte. rewrite Hd.
  apply not_elem_of_cons in Hn as [Hb Hn].
  case_decide; [congruence|]. by rewrite IH.
Qed.

(** Reading the tail of a payload whose head is already buffered. *)
Lemma Feed_payload d xs :
  state d = stateReadPayload -> xs <> [] ->
  payloadLen d = zlen (buf d) + zlen xs ->
  exists d', Feed d xs = (d', [buf d ++ xs]) /\ idle d'.
Proof.
  revert d. induction xs as [|x xs IH]; intros d Hs Hne Hlen; [done|].
  rewrite Feed_cons. unfold feed_byte. rewrite Hs. autorewrite with zlen in *.
  destruct xs as [|y xs].
  - autorewrite with zlen in Hlen.
    destruct (Z.geb_spec (zlen (buf d) + (1 + 0)) (payloadLen d)); [|lia].
    cbn. rewrite take_ge; [by eexists|].
    unfold zlen in Hlen. rewrite length_app. cbn. lia.
  - autorewrite with zlen in Hlen. zlen_nonneg_facts.
    destruct (Z.geb_spec (zlen (buf d) + (1 + 0)) (payloadLen d)); [lia|].
    destruct (IH (mkFrameDecoder (buf d ++ [x]) stateReadPayload (payloadLen d)))
      as (d' & E & Hd'); [done|discriminate|cbn; zlen_lia|].
    exists d'. rewrite E. cbn. by rewrite <- app_assoc.
Qed.

Lemma Feed_frame_idle d payload :
  idle d -> 1 <= zlen payload <= maxFrameLen ->
  exists d', Feed d (EncodeFrame payload) = (d', [payload]) /\ idle d'.
Proof.
  intros Hd Hlen. unfold EncodeFrame, maxFrameLen in *.
  destruct (Z.gtb_spec (zlen payload) 512); [lia|].
  rewrite Feed_cons. unfold feed_byte at 1. rewrite Hd, decide_True by done.
  rewrite Feed_cons. unfold feed_byte at 1. cbn [state buf payloadLen].
  rewrite decide_True by done.
  do 2 (rewrite Feed_cons; unfold feed_byte at 1; cbn [state buf payloadLen]).
  rewrite !Zb_byte_of_Z.
  assert (Z.lor (Z.shiftl (Z.shiftr (zlen payload) 8 mod 256) 8) (zlen payload mod 256)
          = zlen payload) as ->.
  { rewrite Z.lor_comm, Z.shiftr_div_pow2 by lia. change (2 ^ 8) with 256.
    rewrite (Z.mod_small (_ / 256)) by
      (split; [apply Z.div_pos; lia|apply Z.div_lt_upper_bound; lia]).
    rewrite lor_shiftl_add by (cbn; try lia; apply Z.mod_pos_bound; lia).
    change (2 ^ 8) with 256. pose proof (Z.div_mod (zlen payload) 256). lia. }
  unfold maxFrameLen.
  destruct (Z.gtb_spec (zlen payload) 512), (Z.eqb_spec (zlen payload) 0); try lia.
  cbn [orb].
  edestruct (Feed_payload (mkFrameDecoder [] stateReadPayload (zlen payload)) payload)
    as (d' & E & Hi); [done| |done|rewrite E; by exists d'].
  intros ->. autorewrite with zlen in *. lia.
Qed.

Lemma Feed_chunks_concat d chunks : Feed_chunks d chunks = Feed d (concat chunks).
Proof.
  revert d. induction chunks as [|c chunks IH]; intros d; [done|].
  cbn [Feed_chunks concat]. rewrite Feed_app_eq. destruct (Feed d c) as [d1 fs1].
  by rewrite IH.
Qed.

Lemma Feed_stream d l :
  idle d ->
  Forall (fun np => (frameStart1 ∉ np.1) /\ 1 <= zlen np.2 <= maxFrameLen) l ->
  exists d', Feed d (stream l) = (d', map snd l) /\ idle d'.
Proof.
  intros Hd Hl. revert d Hd. induction Hl as [|[n p] l [Hn Hp] Hl IH]; intros d Hd.
  - by exists d.
  - cbn [stream map concat]. rewrite !Feed_app_eq, Feed_noise by done.
    destruct (Feed_frame_idle d p Hd Hp) as (d1 & -> & Hd1).
    destruct (IH d1 Hd1) as (d2 & E & Hd2). unfold stream in E. rewrite E.
    by exists d2.
Qed.

(** ** Properties *)

(** C1: the decoder inverts the framing of any number of payloads.  For any
    payloads of 1 to 512 bytes, each framed by [EncodeFrame] and preceded by
    noise free of the start byte, and for any way the reads of the serial
    port cut the byte stream into chunks, feeding the chunks to an idle
    decoder returns exactly the payloads, in order, and leaves it idle. *)
Theorem feed_chunks_roundtrip d l chunks :
  idle d ->
  Forall (fun np => (frameStart1 ∉ np.1) /\ 1 <= zlen np.2 <= maxFrameLen) l ->
  concat chunks = stream l ->
  exists d', Feed_chunks d chunks = (d', map snd l) /\ idle d'.
Proof.
  intros Hd Hl Hc. rewrite Feed_chunks_concat, Hc. by apply Feed_stream.
Qed.

Lemma feed_chunks_roundtrip_witness :
  exists d', Feed_chunks NewFrameDecoder
    [[x00; x94]; [xc3; x00]; [x02; xaa; x94; x94; xc3; x00; x01]; [x07]]
    = (d', [[xaa; x94]; [x07]]) /\ idle d'.
Proof.
  apply (feed_chunks_roundtrip NewFrameDecoder [([x00], [xaa; x94]); ([], [x07])]).
  - reflexivity.
  - repeat apply Forall_cons_2; [..|apply Forall_nil_2];
      (split; [apply (bool_decide_unpack _); reflexivity|by vm_compute]).
  - reflexivity.
Defined.

(** Whatever bytes arrive, from power-up on, the decoder's buffer never
    exceeds 512 bytes, its state stays well formed, and every frame it
    returns has between 1 and 512 bytes. *)
Theorem feed_bounds chunks d fs :
  Feed_chunks NewFrameDecoder chunks = (d, fs) ->
  frame_wf d /\ zlen (buf d) <= 512 /\ Forall (fun p => 1 <= zlen p <= 512) fs.
Proof.
  rewrite Feed_chunks_concat. intros H. apply Feed_wf in H as [Hd Hf]; [|done].
  split; [done|split; [apply Hd|done]].
Qed.

Lemma feed_bounds_witness :
  frame_wf (Feed_chunks NewFrameDecoder [[x94; xc3; x00; x02; x01]]).1 /\
  zlen (buf (Feed_chunks NewFrameDecoder [[x94; xc3; x00; x02; x01]]).1) <= 512 /\
  Forall (fun p => 1 <= zlen p <= 512)
    (Feed_chunks NewFrameDecoder [[x94; xc3; x00; x02; x01]]).2.
Proof. apply (feed_bounds [[x94; xc3; x00; x02; x01]]). reflexivity. Defined.

(** The state machine gives up on a second start byte.  An idle decoder
    that sees a stray [0x94] directly before a frame loses the frame
    (unless a later byte happens to be a start byte): it leaves
    [stateWaitStart2] for [stateWaitStart1] on the frame's own [0x94]
    instead of staying in [stateWaitStart2]. *)
Theorem feed_stray_start_loses_frame d payload :
  idle d -> 1 <= zlen payload <= maxFrameLen ->
  frameStart1 ∉ tail (EncodeFrame payload) ->
  exists d', Feed d (frameStart1 :: EncodeFrame payload) = (d', []) /\ idle d'.
Proof.
  intros Hd Hlen Hn. unfold EncodeFrame, maxFrameLen in *.
  destruct (Z.gtb_spec (zlen payload) 512); [lia|]. cbn [tail] in Hn.
  rewrite Feed_cons. unfold feed_byte at 1. rewrite Hd, decide_True by done.
  rewrite Feed_cons. unfold feed_byte at 1. cbn [state].
  rewrite decide_False by done. rewrite Feed_noise by done. by eexists.
Qed.

Lemma feed_stray_start_loses_frame_witness :
  exists d', Feed NewFrameDecoder (frameStart1 :: EncodeFrame [x07; x08]) = (d', [])
             /\ idle d'.
Proof.
  apply (feed_stray_start_loses_frame NewFrameDecoder [x07; x08]);
    [reflexivity|by vm_compute|apply (bool_decide_unpack _); reflexivity].
Defined.
