(* ===== verification/Messages.v ===== *)
(** The decoded Meshtastic messages: the structs of
    [internal/serial/framing.go], one module per struct with its zero value
    and one update function per field the decoders assign.

    Unsigned and signed 32-bit fields are [Z]; a [float32] is its IEEE 754
    bit pattern; a pointer field is an [option].  The field
    [NodeInfoLite.DeviceMetrics] is called [Metrics] here. *)
From S2P Require Import Prelude.

Module MyNodeInfo.
Record t : Type := mk {
  MyNodeNum : Z;
  RebootCount : Z;
  MinAppVersion : Z;
  MaxChannels : Z;
}.
Definition zero : t := mk 0 0 0 0.
Definition set_MyNodeNum (v : Z) (r : t) : t :=
  mk v (RebootCount r) (MinAppVersion r) (MaxChannels r).
Definition set_RebootCount (v : Z) (r : t) : t :=
  mk (MyNodeNum r) v (MinAppVersion r) (MaxChannels r).
Definition set_MaxChannels (v : Z) (r : t) : t :=
  mk (MyNodeNum r) (RebootCount r) (MinAppVersion r) v.
End MyNodeInfo.

Module UserInfo.
Record t : Type := mk {
  ID : string;
  LongName : string;
  ShortName : string;
  MacAddr : string;
  HWModel : string;
  Role : string;
  IsLicensed : bool;
}.
Definition zero : t := mk "" "" "" "" "" "" false.
Definition set_ID (v : string) (r : t) : t :=
  mk v (LongName r) (ShortName r) (MacAddr r) (HWModel r) (Role r) (IsLicensed r).
Definition set_LongName (v : string) (r : t) : t :=
  mk (ID r) v (ShortName r) (MacAddr r) (HWModel r) (Role r) (IsLicensed r).
Definition set_ShortName (v : string) (r : t) : t :=
  mk (ID r) (LongName r) v (MacAddr r) (HWModel r) (Role r) (IsLicensed r).
Definition set_MacAddr (v : string) (r : t) : t :=
  mk (ID r) (LongName r) (ShortName r) v (HWModel r) (Role r) (IsLicensed r).
Definition set_HWModel (v : string) (r : t) : t :=
  mk (ID r) (LongName r) (ShortName r) (MacAddr r) v (Role r) (IsLicensed r).
Definition set_Role (v : string) (r : t) : t :=
  mk (ID r) (LongName r) (ShortName r) (MacAddr r) (HWModel r) v (IsLicensed r).
Definition set_IsLicensed (v : bool) (r : t) : t :=
  mk (ID r) (LongName r) (ShortName r) (MacAddr r) (HWModel r) (Role r) v.
End UserInfo.

Module PositionData.
Record t : Type := mk {
  LatitudeI : Z;
  LongitudeI : Z;
  Altitude : Z;
  Time : Z;
  Sats : Z;
}.
Definition zero : t := mk 0 0 0 0 0.
Definition set_LatitudeI (v : Z) (r : t) : t :=
  mk v (LongitudeI r) (Altitude r) (Time r) (Sats r).
Definition set_LongitudeI (v : Z) (r : t) : t :=
  mk (LatitudeI r) v (Altitude r) (Time r) (Sats r).
Definition set_Altitude (v : Z) (r : t) : t :=
  mk (LatitudeI r) (LongitudeI r) v (Time r) (Sats r).
Definition set_Time (v : Z) (r : t) : t :=
  mk (LatitudeI r) (LongitudeI r) (Altitude r) v (Sats r).
Definition set_Sats (v : Z) (r : t) : t :=
  mk (LatitudeI r) (LongitudeI r) (Altitude r) (Time r) v.
End PositionData.

Module DeviceMetrics.
Record t : Type := mk {
  BatteryLevel : Z;
  Voltage : Z;
  ChannelUtilization : Z;
  AirUtilTx : Z;
  UptimeSeconds : Z;
}.
Definition zero : t := mk 0 0 0 0 0.
Definition set_BatteryLevel (v : Z) (r : t) : t :=
  mk v (Voltage r) (ChannelUtilization r) (AirUtilTx r) (UptimeSeconds r).
Definition set_Voltage (v : Z) (r : t) : t :=
  mk (BatteryLevel r) v (ChannelUtilization r) (AirUtilTx r) (UptimeSeconds r).
Definition set_ChannelUtilization (v : Z) (r : t) : t :=
  mk (BatteryLevel r) (Voltage r) v (AirUtilTx r) (UptimeSeconds r).
Definition set_AirUtilTx (v : Z) (r : t) : t :=
  mk (BatteryLevel r) (Voltage r) (ChannelUtilization r) v (UptimeSeconds r).
Definition set_UptimeSeconds (v : Z) (r : t) : t :=
  mk (BatteryLevel r) (Voltage r) (ChannelUtilization r) (AirUtilTx r) v.
End DeviceMetrics.

Module EnvironmentMetrics.
Record t : Type := mk {
  Temperature : Z;
  RelativeHumidity : Z;
  BarometricPressure : Z;
}.
Definition zero : t := mk 0 0 0.
Definition set_Temperature (v : Z) (r : t) : t :=
  mk v (RelativeHumidity r) (BarometricPressure r).
Definition set_RelativeHumidity (v : Z) (r : t) : t :=
  mk (Temperature r) v (BarometricPressure r).
Definition set_BarometricPressure (v : Z) (r : t) : t :=
  mk (Temperature r) (RelativeHumidity r) v.
End EnvironmentMetrics.

Module NodeInfoLite.
Record t : Type := mk {
  Num : Z;
  User : option UserInfo.t;
  Position : option PositionData.t;
  SNR : Z;
  LastHeard : Z;
  Metrics : option DeviceMetrics.t;
  Channel : Z;
  IsFavorite : bool;
}.
Definition zero : t := mk 0 None None 0 0 None 0 false.
Definition set_Num (v : Z) (r : t) : t :=
  mk v (User r) (Position r) (SNR r) (LastHeard r) (Metrics r) (Channel r) (IsFavorite r).
Definition set_User (v : option UserInfo.t) (r : t) : t :=
  mk (Num r) v (Position r) (SNR r) (LastHeard r) (Metrics r) (Channel r) (IsFavorite r).
Definition set_Position (v : option PositionData.t) (r : t) : t :=
  mk (Num r) (User r) v (SNR r) (LastHeard r) (Metrics r) (Channel r) (IsFavorite r).
Definition set_SNR (v : Z) (r : t) : t :=
  mk (Num r) (User r) (Position r) v (LastHeard r) (Metrics r) (Channel r) (IsFavorite r).
Definition set_LastHeard (v : Z) (r : t) : t :=
  mk (Num r) (User r) (Position r) (SNR r) v (Metrics r) (Channel r) (IsFavorite r).
Definition set_Metrics (v : option DeviceMetrics.t) (r : t) : t :=
  mk (Num r) (User r) (Position r) (SNR r) (LastHeard r) v (Channel r) (IsFavorite r).
Definition set_Channel (v : Z) (r : t) : t :=
  mk (Num r) (User r) (Position r) (SNR r) (LastHeard r) (Metrics r) v (IsFavorite r).
Definition set_IsFavorite (v : bool) (r : t) : t :=
  mk (Num r) (User r) (Position r) (SNR r) (LastHeard r) (Metrics r) (Channel r) v.
End NodeInfoLite.

Module MeshPacketData.
Record t : Type := mk {
  From : Z;
  To : Z;
  Channel : Z;
  ID : Z;
  RxTime : Z;
  RxSNR : Z;
  RxRSSI : Z;
  HopLimit : Z;
  HopStart : Z;
  Priority : Z;
  PortNum : Z;
  Payload : bytes;
  WantAck : bool;
  RequestID : Z;
}.
Definition zero : t := mk 0 0 0 0 0 0 0 0 0 0 0 [] false 0.
Definition set_From (v : Z) (r : t) : t :=
  mk v (To r) (Channel r) (ID r) (RxTime r) (RxSNR r) (RxRSSI r) (HopLimit r) (HopStart r) (Priority r) (PortNum r) (Payload r) (WantAck r) (RequestID r).
Definition set_To (v : Z) (r : t) : t :=
  mk (From r) v (Channel r) (ID r) (RxTime r) (RxSNR r) (RxRSSI r) (HopLimit r) (HopStart r) (Priority r) (PortNum r) (Payload r) (WantAck r) (RequestID r).
Definition set_Channel (v : Z) (r : t) : t :=
  mk (From r) (To r) v (ID r) (RxTime r) (RxSNR r) (RxRSSI r) (HopLimit r) (HopStart r) (Priority r) (PortNum r) (Payload r) (WantAck r) (RequestID r).
Definition set_ID (v : Z) (r : t) : t :=
  mk (From r) (To r) (Channel r) v (RxTime r) (RxSNR r) (RxRSSI r) (HopLimit r) (HopStart r) (Priority r) (PortNum r) (Payload r) (WantAck r) (RequestID r).
Definition set_RxTime (v : Z) (r : t) : t :=
  mk (From r) (To r) (Channel r) (ID r) v (RxSNR r) (RxRSSI r) (HopLimit r) (HopStart r) (Priority r) (PortNum r) (Payload r) (WantAck r) (RequestID r).
Definition set_RxSNR (v : Z) (r : t) : t :=
  mk (From r) (To r) (Channel r) (ID r) (RxTime r) v (RxRSSI r) (HopLimit r) (HopStart r) (Priority r) (PortNum r) (Payload r) (WantAck r) (RequestID r).
Definition set_RxRSSI (v : Z) (r : t) : t :=
  mk (From r) (To r) (Channel r) (ID r) (RxTime r) (RxSNR r) v (HopLimit r) (HopStart r) (Priority r) (PortNum r) (Payload r) (WantAck r) (RequestID r).
Definition set_HopLimit (v : Z) (r : t) : t :=
  mk (From r) (To r) (Channel r) (ID r) (RxTime r) (RxSNR r) (RxRSSI r) v (HopStart r) (Priority r) (PortNum r) (Payload r) (WantAck r) (RequestID r).
Definition set_HopStart (v : Z) (r : t) : t :=
  mk (From r) (To r) (Channel r) (ID r) (RxTime r) (RxSNR r) (RxRSSI r) (HopLimit r) v (Priority r) (PortNum r) (Payload r) (WantAck r) (RequestID r).
Definition set_Priority (v : Z) (r : t) : t :=
  mk (From r) (To r) (Channel r) (ID r) (RxTime r) (RxSNR r) (RxRSSI r) (HopLimit r) (HopStart r) v (PortNum r) (Payload r) (WantAck r) (RequestID r).
Definition set_PortNum (v : Z) (r : t) : t :=
  mk (From r) (To r) (Channel r) (ID r) (RxTime r) (RxSNR r) (RxRSSI r) (HopLimit r) (HopStart r) (Priority r) v (Payload r) (WantAck r) (RequestID r).
Definition set_Payload (v : bytes) (r : t) : t :=
  mk (From r) (To r) (Channel r) (ID r) (RxTime r) (RxSNR r) (RxRSSI r) (HopLimit r) (HopStart r) (Priority r) (PortNum r) v (WantAck r) (RequestID r).
Definition set_WantAck (v : bool) (r : t) : t :=
  mk (From r) (To r) (Channel r) (ID r) (RxTime r) (RxSNR r) (RxRSSI r) (HopLimit r) (HopStart r) (Priority r) (PortNum r) (Payload r) v (RequestID r).
Definition set_RequestID (v : Z) (r : t) : t :=
  mk (From r) (To r) (Channel r) (ID r) (RxTime r) (RxSNR r) (RxRSSI r) (HopLimit r) (HopStart r) (Priority r) (PortNum r) (Payload r) (WantAck r) v.
End MeshPacketData.

Module BluetoothConfig.
Record t : Type := mk {
  Enabled : bool;
  Mode : Z;
  FixedPin : Z;
}.
Definition zero : t := mk false 0 0.
Definition set_Enabled (v : bool) (r : t) : t :=
  mk v (Mode r) (FixedPin r).
Definition set_Mode (v : Z) (r : t) : t :=
  mk (Enabled r) v (FixedPin r).
Definition set_FixedPin (v : Z) (r : t) : t :=
  mk (Enabled r) (Mode r) v.
End BluetoothConfig.

Module PositionConfig.
Record t : Type := mk {
  GPSMode : Z;
  GPSEnabled : bool;
  PositionBroadcastSecs : Z;
  GPSUpdateInterval : Z;
  FixedPosition : bool;
}.
Definition zero : t := mk 0 false 0 0 false.
Definition set_GPSMode (v : Z) (r : t) : t :=
  mk v (GPSEnabled r) (PositionBroadcastSecs r) (GPSUpdateInterval r) (FixedPosition r).
Definition set_GPSEnabled (v : bool) (r : t) : t :=
  mk (GPSMode r) v (PositionBroadcastSecs r) (GPSUpdateInterval r) (FixedPosition r).
Definition set_PositionBroadcastSecs (v : Z) (r : t) : t :=
  mk (GPSMode r) (GPSEnabled r) v (GPSUpdateInterval r) (FixedPosition r).
Definition set_GPSUpdateInterval (v : Z) (r : t) : t :=
  mk (GPSMode r) (GPSEnabled r) (PositionBroadcastSecs r) v (FixedPosition r).
Definition set_FixedPosition (v : bool) (r : t) : t :=
  mk (GPSMode r) (GPSEnabled r) (PositionBroadcastSecs r) (GPSUpdateInterval r) v.
End PositionConfig.

Module DisplayConfig.
Record t : Type := mk {
  ScreenOnSecs : Z;
  FlipScreen : bool;
}.
Definition zero : t := mk 0 false.
Definition set_ScreenOnSecs (v : Z) (r : t) : t :=
  mk v (FlipScreen r).
Definition set_FlipScreen (v : bool) (r : t) : t :=
  mk (ScreenOnSecs r) v.
End DisplayConfig.

Module LoRaConfig.
Record t : Type := mk {
  Region : Z;
  UsePreset : bool;
  HopLimit : Z;
  TxEnabled : bool;
  TxPower : Z;
}.
Definition zero : t := mk 0 false 0 false 0.
Definition set_Region (v : Z) (r : t) : t :=
  mk v (UsePreset r) (HopLimit r) (TxEnabled r) (TxPower r).
Definition set_UsePreset (v : bool) (r : t) : t :=
  mk (Region r) v (HopLimit r) (TxEnabled r) (TxPower r).
Definition set_HopLimit (v : Z) (r : t) : t :=
  mk (Region r) (UsePreset r) v (TxEnabled r) (TxPower r).
Definition set_TxEnabled (v : bool) (r : t) : t :=
  mk (Region r) (UsePreset r) (HopLimit r) v (TxPower r).
Definition set_TxPower (v : Z) (r : t) : t :=
  mk (Region r) (UsePreset r) (HopLimit r) (TxEnabled r) v.
End LoRaConfig.

Module PowerConfig.
Record t : Type := mk {
  IsPowerSaving : bool;
  DeviceBatteryINAAddr : Z;
}.
Definition zero : t := mk false 0.
Definition set_IsPowerSaving (v : bool) (r : t) : t :=
  mk v (DeviceBatteryINAAddr r).
Definition set_DeviceBatteryINAAddr (v : Z) (r : t) : t :=
  mk (IsPowerSaving r) v.
End PowerConfig.

Module ConfigPayload.
Record t : Type := mk {
  Section : string;
  Raw : bytes;
  Bluetooth : option BluetoothConfig.t;
  Position : option PositionConfig.t;
  Display : option DisplayConfig.t;
  LoRa : option LoRaConfig.t;
  Power : option PowerConfig.t;
}.
Definition zero : t := mk "" [] None None None None None.
Definition set_Section (v : string) (r : t) : t :=
  mk v (Raw r) (Bluetooth r) (Position r) (Display r) (LoRa r) (Power r).
Definition set_Raw (v : bytes) (r : t) : t :=
  mk (Section r) v (Bluetooth r) (Position r) (Display r) (LoRa r) (Power r).
Definition set_Bluetooth (v : option BluetoothConfig.t) (r : t) : t :=
  mk (Section r) (Raw r) v (Position r) (Display r) (LoRa r) (Power r).
Definition set_Position (v : option PositionConfig.t) (r : t) : t :=
  mk (Section r) (Raw r) (Bluetooth r) v (Display r) (LoRa r) (Power r).
Definition set_Display (v : option DisplayConfig.t) (r : t) : t :=
  mk (Section r) (Raw r) (Bluetooth r) (Position r) v (LoRa r) (Power r).
Definition set_LoRa (v : option LoRaConfig.t) (r : t) : t :=
  mk (Section r) (Raw r) (Bluetooth r) (Position r) (Display r) v (Power r).
Definition set_Power (v : option PowerConfig.t) (r : t) : t :=
  mk (Section r) (Raw r) (Bluetooth r) (Position r) (Display r) (LoRa r) v.
End ConfigPayload.

Module DeviceMetadata.
Record t : Type := mk {
  FirmwareVersion : string;
  DeviceStateVersion : Z;
  HasBluetooth : bool;
  HasWifi : bool;
  HasEthernet : bool;
}.
Definition zero : t := mk "" 0 false false false.
Definition set_FirmwareVersion (v : string) (r : t) : t :=
  mk v (DeviceStateVersion r) (HasBluetooth r) (HasWifi r) (HasEthernet r).
Definition set_DeviceStateVersion (v : Z) (r : t) : t :=
  mk (FirmwareVersion r) v (HasBluetooth r) (HasWifi r) (HasEthernet r).
Definition set_HasBluetooth (v : bool) (r : t) : t :=
  mk (FirmwareVersion r) (DeviceStateVersion r) v (HasWifi r) (HasEthernet r).
Definition set_HasWifi (v : bool) (r : t) : t :=
  mk (FirmwareVersion r) (DeviceStateVersion r) (HasBluetooth r) v (HasEthernet r).
Definition set_HasEthernet (v : bool) (r : t) : t :=
  mk (FirmwareVersion r) (DeviceStateVersion r) (HasBluetooth r) (HasWifi r) v.
End DeviceMetadata.

(** The payload variants of a FromRadio message. *)
Inductive FromRadioType : Type :=
| FromRadioUnknown
| FromRadioMyInfo
| FromRadioNodeInfo
| FromRadioMeshPacket
| FromRadioConfig
| FromRadioChannel
| FromRadioMetadata
| FromRadioConfigComplete
| FromRadioRebooted.

#[export] Instance FromRadioType_eq_dec : EqDecision FromRadioType.
Proof. solve_decision. Defined.

(** [Channel *ChannelPayload] is never assigned by the program and is left
    out. *)
Module FromRadioPacket.
Record t : Type := mk {
  Type_ : FromRadioType;
  Raw : bytes;
  MyInfo : option MyNodeInfo.t;
  NodeInfo : option NodeInfoLite.t;
  MeshPacket : option MeshPacketData.t;
  Config : option ConfigPayload.t;
  Metadata : option DeviceMetadata.t;
}.
Definition set_Type (v : FromRadioType) (r : t) : t :=
  mk v (Raw r) (MyInfo r) (NodeInfo r) (MeshPacket r) (Config r) (Metadata r).
Definition set_MyInfo (v : option MyNodeInfo.t) (r : t) : t :=
  mk (Type_ r) (Raw r) v (NodeInfo r) (MeshPacket r) (Config r) (Metadata r).
Definition set_NodeInfo (v : option NodeInfoLite.t) (r : t) : t :=
  mk (Type_ r) (Raw r) (MyInfo r) v (MeshPacket r) (Config r) (Metadata r).
Definition set_MeshPacket (v : option MeshPacketData.t) (r : t) : t :=
  mk (Type_ r) (Raw r) (MyInfo r) (NodeInfo r) v (Config r) (Metadata r).
Definition set_Config (v : option ConfigPayload.t) (r : t) : t :=
  mk (Type_ r) (Raw r) (MyInfo r) (NodeInfo r) (MeshPacket r) v (Metadata r).
Definition set_Metadata (v : option DeviceMetadata.t) (r : t) : t :=
  mk (Type_ r) (Raw r) (MyInfo r) (NodeInfo r) (MeshPacket r) (Config r) v.
End FromRadioPacket.

(** ** Enum names *)
Fixpoint zassoc (k : Z) (l : list (Z * string)) : option string :=
  match l with
  | [] => None
  | (k', v) :: l' => if k =? k' then Some v else zassoc k l'
  end.

Definition hwModelNames : list (Z * string) :=
  [ (0, "UNSET"%string);
    (1, "TLORA_V2"%string);
    (2, "TLORA_V1"%string);
    (3, "TLORA_V2_1_1P6"%string);
    (4, "TBEAM"%string);
    (5, "HELTEC_V2_0"%string);
    (6, "TBEAM_V0P7"%string);
    (7, "T_ECHO"%string);
    (8, "TLORA_V1_1P3"%string);
    (9, "RAK4631"%string);
    (10, "HELTEC_V2_1"%string);
    (11, "HELTEC_V1"%string);
    (12, "LILYGO_TBEAM_S3_CORE"%string);
    (13, "RAK11200"%string);
    (14, "NANO_G1"%string);
    (15, "TLORA_V2_1_1P8"%string);
    (16, "TLORA_T3_S3"%string);
    (17, "NANO_G1_EXPLORER"%string);
    (18, "NANO_G2_ULTRA"%string);
    (19, "LORA_TYPE"%string);
    (20, "WIPHONE"%string);
    (21, "WIO_WM1110"%string);
    (22, "RAK2560"%string);
    (23, "HELTEC_HRU_3601"%string);
    (24, "HELTEC_WIRELESS_BRIDGE"%string);
    (25, "STATION_G1"%string);
    (26, "RAK11310"%string);
    (27, "SENSELORA_RP2040"%string);
    (28, "SENSELORA_S3"%string);
    (29, "CANARYONE"%string);
    (30, "RP2040_LORA"%string);
    (31, "STATION_G2"%string);
    (32, "LORA_RELAY_V1"%string);
    (33, "T_ECHO_PLUS"%string);
    (34, "PPR"%string);
    (35, "GENIEBLOCKS"%string);
    (36, "NRF52_UNKNOWN"%string);
    (37, "PORTDUINO"%string);
    (38, "ANDROID_SIM"%string);
    (39, "DIY_V1"%string);
    (40, "NRF52840_PCA10059"%string);
    (41, "DR_DEV"%string);
    (42, "M5STACK"%string);
    (43, "HELTEC_V3"%string);
    (44, "HELTEC_WSL_V3"%string);
    (45, "BETAFPV_2400_TX"%string);
    (46, "BETAFPV_900_NANO_TX"%string);
    (47, "RPI_PICO"%string);
    (48, "HELTEC_WIRELESS_TRACKER"%string);
    (49, "HELTEC_WIRELESS_PAPER"%string);
    (50, "T_DECK"%string);
    (51, "T_WATCH_S3"%string);
    (52, "PICOMPUTER_S3"%string);
    (53, "HELTEC_HT62"%string);
    (54, "EBYTE_ESP32_S3"%string);
    (55, "ESP32_S3_PICO"%string);
    (56, "CHATTER_2"%string);
    (57, "HELTEC_WIRELESS_PAPER_V1_0"%string);
    (58, "HELTEC_WIRELESS_TRACKER_V1_0"%string);
    (59, "UNPHONE"%string);
    (60, "TD_LORAC"%string);
    (61, "CDEBYTE_EORA_S3"%string);
    (62, "TWC_MESH_V4"%string);
    (63, "NRF52_PROMICRO_DIY"%string);
    (64, "RADIOMASTER_900_BANDIT_NANO"%string);
    (65, "HELTEC_CAPSULE_SENSOR_V3"%string);
    (66, "HELTEC_VISION_MASTER_T190"%string);
    (67, "HELTEC_VISION_MASTER_E213"%string);
    (68, "HELTEC_VISION_MASTER_E290"%string);
    (69, "HELTEC_MESH_NODE_T114"%string);
    (70, "SENSECAP_INDICATOR"%string);
    (71, "TRACKER_T1000_E"%string);
    (72, "RAK3172"%string);
    (73, "WIO_E5"%string);
    (74, "RADIOMASTER_900_BANDIT"%string);
    (75, "ME25LS01_4Y10TD"%string);
    (76, "RP2040_FEATHER_RFM95"%string);
    (77, "M5STACK_COREBASIC"%string);
    (78, "M5STACK_CORE2"%string);
    (79, "RPI_PICO2"%string);
    (80, "M5STACK_CORES3"%string);
    (81, "SEEED_XIAO_S3"%string);
    (82, "MS24SF1"%string);
    (83, "TLORA_C6"%string);
    (84, "WISMESH_TAP"%string);
    (85, "ROUTASTIC"%string);
    (86, "MESH_TAB"%string);
    (87, "MESHLINK"%string);
    (88, "XIAO_NRF52_KIT"%string);
    (89, "THINKNODE_M1"%string);
    (90, "THINKNODE_M2"%string);
    (91, "T_ETH_ELITE"%string);
    (92, "HELTEC_SENSOR_HUB"%string);
    (93, "MUZI_BASE"%string);
    (94, "HELTEC_MESH_POCKET"%string);
    (95, "SEEED_SOLAR_NODE"%string);
    (96, "NOMADSTAR_METEOR_PRO"%string);
    (97, "CROWPANEL"%string);
    (98, "LINK_32"%string);
    (99, "SEEED_WIO_TRACKER_L1"%string);
    (100, "SEEED_WIO_TRACKER_L1_EINK"%string);
    (101, "MUZI_R1_NEO"%string);
    (102, "T_DECK_PRO"%string);
    (103, "T_LORA_PAGER"%string);
    (104, "M5STACK_RESERVED"%string);
    (105, "WISMESH_TAG"%string);
    (106, "RAK3312"%string);
    (107, "THINKNODE_M5"%string);
    (108, "HELTEC_MESH_SOLAR"%string);
    (109, "T_ECHO_LITE"%string);
    (110, "HELTEC_V4"%string);
    (111, "M5STACK_C6L"%string);
    (112, "M5STACK_CARDPUTER_ADV"%string);
    (113, "HELTEC_WIRELESS_TRACKER_V2"%string);
    (114, "T_WATCH_ULTRA"%string);
    (115, "THINKNODE_M3"%string);
    (116, "WISMESH_TAP_V2"%string);
    (117, "RAK3401"%string);
    (118, "RAK6421"%string);
    (119, "THINKNODE_M4"%string);
    (120, "THINKNODE_M6"%string);
    (121, "MESHSTICK_1262"%string);
    (122, "TBEAM_1_WATT"%string);
    (123, "T5_S3_EPAPER_PRO"%string);
    (124, "TBEAM_BPF"%string);
    (125, "MINI_EPAPER_S3"%string);
    (126, "TDISPLAY_S3_PRO"%string);
    (127, "HELTEC_MESH_NODE_T096"%string);
    (128, "TRACKER_T1000_E_PRO"%string);
    (129, "THINKNODE_M7"%string);
    (130, "THINKNODE_M8"%string);
    (131, "THINKNODE_M9"%string);
    (132, "HELTEC_V4_R8"%string);
    (255, "PRIVATE_HW"%string) ].

Definition roleNames : list (Z * string) :=
  [ (0, "CLIENT"%string);
    (1, "CLIENT_MUTE"%string);
    (2, "ROUTER"%string);
    (3, "REPEATER"%string);
    (4, "TRACKER"%string);
    (5, "SENSOR"%string);
    (6, "TAK"%string);
    (7, "CLIENT_HIDDEN"%string);
    (8, "LOST_AND_FOUND"%string);
    (9, "SENSOR_MANAGED"%string) ].
