(* ===== verification/FromRadio.v ===== *)
(** The FromRadio decoders of [internal/serial/framing.go].

    One definition per Go function.  Each decoder is the loop [scan] over a
    body that reads a tag and then, by wire type, a varint, a
    length-delimited payload or a fixed word; the inner [switch fieldNum] of
    each Go decoder is a [..._varint], [..._bytes] or [..._fixed32]
    function.  The fuel bounds the iterations of every loop; on inputs whose
    declared lengths are sane, the length of the input is enough
    ([decode_from_radio_total]). *)
From S2P Require Import Prelude GoStrings Varint Messages.

(** ** Enum names *)
Definition hwModelName (model : Z) : string :=
  match zassoc model hwModelNames with
  | Some name => name
  | None => "HW_" +:+ itoa model
  end.

Definition roleName (role : Z) : string :=
  match zassoc role roleNames with
  | Some name => name
  | None => "ROLE_" +:+ itoa role
  end.

Definition nonzero (v : Z) : bool := negb (v =? 0).

(** ** decodeMyInfo *)
Definition decodeMyInfo_varint (info : MyNodeInfo.t) (fieldNum val : Z) : MyNodeInfo.t :=
  if fieldNum =? 1 then MyNodeInfo.set_MyNodeNum (uint32 val) info
  else if fieldNum =? 8 then MyNodeInfo.set_RebootCount (uint32 val) info
  else if fieldNum =? 11 then MyNodeInfo.set_MaxChannels (uint32 val) info
  else info.

Definition decodeMyInfo_body (data : bytes) (info : MyNodeInfo.t) (pos : Z)
    : outcome (step MyNodeInfo.t) :=
  with_tag data info pos (fun fieldNum wireType pos =>
    if wireType =? 0 then
      with_varint data info pos (fun val pos =>
        Ret (Next (decodeMyInfo_varint info fieldNum val) pos))
    else skip_other data info pos wireType).

Definition decodeMyInfo (fuel : nat) (data : bytes) : outcome MyNodeInfo.t :=
  scan fuel (zlen data) (decodeMyInfo_body data) MyNodeInfo.zero 0.

(** ** decodeUserInfo *)

(** [fmt.Sprintf("%02X:%02X:%02X:%02X:%02X:%02X", raw[0], ..., raw[5])] *)
Definition formatMac (raw : bytes) : string :=
  String.concat ":" (map hex02X raw).

Definition decodeUserInfo_bytes (user : UserInfo.t) (fieldNum : Z) (raw : bytes)
    : UserInfo.t :=
  if fieldNum =? 1 then UserInfo.set_ID (string_of_bytes raw) user
  else if fieldNum =? 2 then UserInfo.set_LongName (string_of_bytes raw) user
  else if fieldNum =? 3 then UserInfo.set_ShortName (string_of_bytes raw) user
  else if fieldNum =? 4 then
    if zlen raw =? 6 then UserInfo.set_MacAddr (formatMac raw) user else user
  else user.

Definition decodeUserInfo_varint (user : UserInfo.t) (fieldNum val : Z) : UserInfo.t :=
  if fieldNum =? 5 then UserInfo.set_HWModel (hwModelName (int64 val)) user
  else if fieldNum =? 6 then UserInfo.set_IsLicensed (nonzero val) user
  else if fieldNum =? 7 then UserInfo.set_Role (roleName (int64 val)) user
  else user.

Definition decodeUserInfo_body (data : bytes) (user : UserInfo.t) (pos : Z)
    : outcome (step UserInfo.t) :=
  with_tag data user pos (fun fieldNum wireType pos =>
    if wireType =? 2 then
      with_bytes data user pos (fun raw pos =>
        Ret (Next (decodeUserInfo_bytes user fieldNum raw) pos))
    else if wireType =? 0 then
      with_varint data user pos (fun val pos =>
        Ret (Next (decodeUserInfo_varint user fieldNum val) pos))
    else skip_other data user pos wireType).

Definition decodeUserInfo (fuel : nat) (data : bytes) : outcome UserInfo.t :=
  scan fuel (zlen data) (decodeUserInfo_body data) UserInfo.zero 0.

(** ** decodePosition *)
Definition decodePosition_fixed32 (p : PositionData.t) (fieldNum val : Z) : PositionData.t :=
  if fieldNum =? 1 then PositionData.set_LatitudeI (int32 val) p
  else if fieldNum =? 2 then PositionData.set_LongitudeI (int32 val) p
  else p.

Definition decodePosition_varint (p : PositionData.t) (fieldNum val : Z) : PositionData.t :=
  if fieldNum =? 3 then PositionData.set_Altitude (int32 val) p
  else if fieldNum =? 4 then PositionData.set_Time (uint32 val) p
  else if fieldNum =? 21 then PositionData.set_Sats (uint32 val) p
  else p.

Definition decodePosition_body (data : bytes) (p : PositionData.t) (pos : Z)
    : outcome (step PositionData.t) :=
  with_tag data p pos (fun fieldNum wireType pos =>
    if wireType =? 5 then
      with_fixed32 data p pos (fun val pos =>
        Ret (Next (decodePosition_fixed32 p fieldNum val) pos))
    else if wireType =? 0 then
      with_varint data p pos (fun val pos =>
        Ret (Next (decodePosition_varint p fieldNum val) pos))
    else skip_other data p pos wireType).

Definition decodePosition (fuel : nat) (data : bytes) : outcome PositionData.t :=
  scan fuel (zlen data) (decodePosition_body data) PositionData.zero 0.

(** ** decodeDeviceMetrics *)
Definition decodeDeviceMetrics_varint (dm : DeviceMetrics.t) (fieldNum val : Z)
    : DeviceMetrics.t :=
  if fieldNum =? 1 then DeviceMetrics.set_BatteryLevel (uint32 val) dm
  else if fieldNum =? 5 then DeviceMetrics.set_UptimeSeconds (uint32 val) dm
  else dm.

Definition decodeDeviceMetrics_fixed32 (dm : DeviceMetrics.t) (fieldNum f : Z)
    : DeviceMetrics.t :=
  if fieldNum =? 2 then DeviceMetrics.set_Voltage f dm
  else if fieldNum =? 3 then DeviceMetrics.set_ChannelUtilization f dm
  else if fieldNum =? 4 then DeviceMetrics.set_AirUtilTx f dm
  else dm.

Definition decodeDeviceMetrics_body (data : bytes) (dm : DeviceMetrics.t) (pos : Z)
    : outcome (step DeviceMetrics.t) :=
  with_tag data dm pos (fun fieldNum wireType pos =>
    if wireType =? 0 then
      with_varint data dm pos (fun val pos =>
        Ret (Next (decodeDeviceMetrics_varint dm fieldNum val) pos))
    else if wireType =? 5 then
      with_fixed32 data dm pos (fun f pos =>
        Ret (Next (decodeDeviceMetrics_fixed32 dm fieldNum f) pos))
    else skip_other data dm pos wireType).

Definition decodeDeviceMetrics (fuel : nat) (data : bytes) : outcome DeviceMetrics.t :=
  scan fuel (zlen data) (decodeDeviceMetrics_body data) DeviceMetrics.zero 0.

(** ** decodeNodeInfo *)
Definition decodeNodeInfo_varint (info : NodeInfoLite.t) (fieldNum val : Z) : NodeInfoLite.t :=
  if fieldNum =? 1 then NodeInfoLite.set_Num (uint32 val) info
  else if fieldNum =? 7 then NodeInfoLite.set_Channel (uint32 val) info
  else if fieldNum =? 10 then NodeInfoLite.set_IsFavorite (nonzero val) info
  else info.

Definition decodeNodeInfo_bytes (fuel : nat) (info : NodeInfoLite.t) (fieldNum : Z)
    (subData : bytes) : outcome NodeInfoLite.t :=
  if fieldNum =? 2 then
    let! u := decodeUserInfo fuel subData in Ret (NodeInfoLite.set_User (Some u) info)
  else if fieldNum =? 3 then
    let! p := decodePosition fuel subData in Ret (NodeInfoLite.set_Position (Some p) info)
  else if fieldNum =? 6 then
    let! m := decodeDeviceMetrics fuel subData in
    Ret (NodeInfoLite.set_Metrics (Some m) info)
  else Ret info.

Definition decodeNodeInfo_fixed32 (info : NodeInfoLite.t) (fieldNum u32 : Z) : NodeInfoLite.t :=
  if fieldNum =? 1 then NodeInfoLite.set_Num u32 info
  else if fieldNum =? 4 then NodeInfoLite.set_SNR u32 info
  else if fieldNum =? 5 then NodeInfoLite.set_LastHeard u32 info
  else info.

Definition decodeNodeInfo_body (fuel : nat) (data : bytes) (info : NodeInfoLite.t) (pos : Z)
    : outcome (step NodeInfoLite.t) :=
  with_tag data info pos (fun fieldNum wireType pos =>
    if wireType =? 0 then
      with_varint data info pos (fun val pos =>
        Ret (Next (decodeNodeInfo_varint info fieldNum val) pos))
    else if wireType =? 2 then
      with_bytes data info pos (fun subData pos =>
        let! info := decodeNodeInfo_bytes fuel info fieldNum subData in
        Ret (Next info pos))
    else if wireType =? 5 then
      with_fixed32 data info pos (fun u32 pos =>
        Ret (Next (decodeNodeInfo_fixed32 info fieldNum u32) pos))
    else skip_other data info pos wireType).

Definition decodeNodeInfo (fuel : nat) (data : bytes) : outcome NodeInfoLite.t :=
  scan fuel (zlen data) (decodeNodeInfo_body fuel data) NodeInfoLite.zero 0.

(** ** decodeDataPayload

    The named results [portNum], [payload] and [requestID] as one record. *)
Module DataPayload.
Record t : Type := mk { portNum : Z; payload : bytes; requestID : Z }.
Definition zero : t := mk 0 [] 0.
End DataPayload.

Definition decodeDataPayload_varint (d : DataPayload.t) (fieldNum val : Z) : DataPayload.t :=
  if fieldNum =? 1
  then DataPayload.mk (uint32 val) (DataPayload.payload d) (DataPayload.requestID d)
  else d.

Definition decodeDataPayload_fixed32 (d : DataPayload.t) (fieldNum u32 : Z) : DataPayload.t :=
  if fieldNum =? 6
  then DataPayload.mk (DataPayload.portNum d) (DataPayload.payload d) u32
  else d.

(** Only field 2 slices the input ([copy(payload, data[pos:pos+int(length)])]);
    for the other fields the position moves without a bounds check. *)
Definition decodeDataPayload_body (data : bytes) (d : DataPayload.t) (pos : Z)
    : outcome (step DataPayload.t) :=
  with_tag data d pos (fun fieldNum wireType pos =>
    if wireType =? 0 then
      with_varint data d pos (fun val pos =>
        Ret (Next (decodeDataPayload_varint d fieldNum val) pos))
    else if wireType =? 2 then
      with_length data d d pos (fun lo hi =>
        if fieldNum =? 2 then
          let! p := slice data lo hi in
          Ret (Next (DataPayload.mk (DataPayload.portNum d) p (DataPayload.requestID d)) hi)
        else Ret (Next d hi))
    else if wireType =? 5 then
      with_fixed32 data d pos (fun u32 pos =>
        Ret (Next (decodeDataPayload_fixed32 d fieldNum u32) pos))
    else skip_other data d pos wireType).

Definition decodeDataPayload (fuel : nat) (data : bytes) : outcome DataPayload.t :=
  scan fuel (zlen data) (decodeDataPayload_body data) DataPayload.zero 0.

(** ** decodeMeshPacket *)
Definition decodeMeshPacket_varint (mp : MeshPacketData.t) (fieldNum val : Z)
    : MeshPacketData.t :=
  if fieldNum =? 1 then MeshPacketData.set_From (uint32 val) mp
  else if fieldNum =? 2 then MeshPacketData.set_To (uint32 val) mp
  else if fieldNum =? 3 then MeshPacketData.set_Channel (uint32 val) mp
  else if fieldNum =? 6 then MeshPacketData.set_ID (uint32 val) mp
  else if fieldNum =? 7 then MeshPacketData.set_RxTime (uint32 val) mp
  else if fieldNum =? 9 then MeshPacketData.set_RxRSSI (int32 (decodeZigzag val)) mp
  else if fieldNum =? 10 then MeshPacketData.set_HopLimit (uint32 val) mp
  else if fieldNum =? 11 then MeshPacketData.set_WantAck (nonzero val) mp
  else if fieldNum =? 12 then MeshPacketData.set_Priority (uint32 val) mp
  else if fieldNum =? 15 then MeshPacketData.set_HopStart (uint32 val) mp
  else mp.

Definition decodeMeshPacket_bytes (fuel : nat) (mp : MeshPacketData.t) (fieldNum : Z)
    (subData : bytes) : outcome MeshPacketData.t :=
  if fieldNum =? 4 then
    let! d := decodeDataPayload fuel subData in
    Ret (MeshPacketData.set_RequestID (DataPayload.requestID d)
          (MeshPacketData.set_Payload (DataPayload.payload d)
            (MeshPacketData.set_PortNum (DataPayload.portNum d) mp)))
  else Ret mp.

Definition decodeMeshPacket_fixed32 (mp : MeshPacketData.t) (fieldNum u32 : Z)
    : MeshPacketData.t :=
  if fieldNum =? 1 then MeshPacketData.set_From u32 mp
  else if fieldNum =? 2 then MeshPacketData.set_To u32 mp
  else if fieldNum =? 6 then MeshPacketData.set_ID u32 mp
  else if fieldNum =? 7 then MeshPacketData.set_RxTime u32 mp
  else if fieldNum =? 8 then MeshPacketData.set_RxSNR u32 mp
  else if fieldNum =? 9 then MeshPacketData.set_RxRSSI (int32 u32) mp
  else mp.

Definition decodeMeshPacket_body (fuel : nat) (data : bytes) (mp : MeshPacketData.t) (pos : Z)
    : outcome (step MeshPacketData.t) :=
  with_tag data mp pos (fun fieldNum wireType pos =>
    if wireType =? 0 then
      with_varint data mp pos (fun val pos =>
        Ret (Next (decodeMeshPacket_varint mp fieldNum val) pos))
    else if wireType =? 2 then
      with_bytes data mp pos (fun subData pos =>
        let! mp := decodeMeshPacket_bytes fuel mp fieldNum subData in
        Ret (Next mp pos))
    else if wireType =? 5 then
      with_fixed32 data mp pos (fun u32 pos =>
        Ret (Next (decodeMeshPacket_fixed32 mp fieldNum u32) pos))
    else skip_other data mp pos wireType).

Definition decodeMeshPacket (fuel : nat) (data : bytes) : outcome MeshPacketData.t :=
  scan fuel (zlen data) (decodeMeshPacket_body fuel data) MeshPacketData.zero 0.

(** ** The Config sub-messages

    These five leave the loop on any wire type they do not expect. *)
Definition decodeBluetoothConfig_varint (bt : BluetoothConfig.t) (fieldNum val : Z)
    : BluetoothConfig.t :=
  if fieldNum =? 1 then BluetoothConfig.set_Enabled (nonzero val) bt
  else if fieldNum =? 2 then BluetoothConfig.set_Mode (uint32 val) bt
  else if fieldNum =? 3 then BluetoothConfig.set_FixedPin (uint32 val) bt
  else bt.

Definition decodeBluetoothConfig (fuel : nat) (data : bytes) : outcome BluetoothConfig.t :=
  scan fuel (zlen data) (fun bt pos =>
    with_tag data bt pos (fun fieldNum wireType pos =>
      if wireType =? 0 then
        with_varint data bt pos (fun val pos =>
          Ret (Next (decodeBluetoothConfig_varint bt fieldNum val) pos))
      else Ret (Stop bt))) BluetoothConfig.zero 0.

Definition decodePositionConfig_varint (pc : PositionConfig.t) (fieldNum val : Z)
    : PositionConfig.t :=
  if fieldNum =? 1 then PositionConfig.set_PositionBroadcastSecs (uint32 val) pc
  else if fieldNum =? 3 then PositionConfig.set_FixedPosition (nonzero val) pc
  else if fieldNum =? 4 then PositionConfig.set_GPSEnabled (nonzero val) pc
  else if fieldNum =? 5 then PositionConfig.set_GPSUpdateInterval (uint32 val) pc
  else if fieldNum =? 13 then PositionConfig.set_GPSMode (uint32 val) pc
  else pc.

Definition decodePositionConfig (fuel : nat) (data : bytes) : outcome PositionConfig.t :=
  scan fuel (zlen data) (fun pc pos =>
    with_tag data pc pos (fun fieldNum wireType pos =>
      if wireType =? 0 then
        with_varint data pc pos (fun val pos =>
          Ret (Next (decodePositionConfig_varint pc fieldNum val) pos))
      else Ret (Stop pc))) PositionConfig.zero 0.

Definition decodeDisplayConfig_varint (dc : DisplayConfig.t) (fieldNum val : Z)
    : DisplayConfig.t :=
  if fieldNum =? 1 then DisplayConfig.set_ScreenOnSecs (uint32 val) dc
  else if fieldNum =? 5 then DisplayConfig.set_FlipScreen (nonzero val) dc
  else dc.

Definition decodeDisplayConfig (fuel : nat) (data : bytes) : outcome DisplayConfig.t :=
  scan fuel (zlen data) (fun dc pos =>
    with_tag data dc pos (fun fieldNum wireType pos =>
      if wireType =? 0 then
        with_varint data dc pos (fun val pos =>
          Ret (Next (decodeDisplayConfig_varint dc fieldNum val) pos))
      else Ret (Stop dc))) DisplayConfig.zero 0.

(** [if pos+n > len(data) { break }; pos += n] *)
Definition skip_fixed {A} (data : bytes) (a : A) (pos n : Z) : outcome (step A) :=
  if pos + n >? zlen data then Ret (Stop a) else Ret (Next a (pos + n)).

Definition decodeLoRaConfig_varint (lc : LoRaConfig.t) (fieldNum val : Z) : LoRaConfig.t :=
  if fieldNum =? 1 then LoRaConfig.set_UsePreset (nonzero val) lc
  else if fieldNum =? 7 then LoRaConfig.set_Region (uint32 val) lc
  else if fieldNum =? 8 then LoRaConfig.set_HopLimit (uint32 val) lc
  else if fieldNum =? 9 then LoRaConfig.set_TxEnabled (nonzero val) lc
  else if fieldNum =? 10 then LoRaConfig.set_TxPower (int32 val) lc
  else lc.

Definition decodeLoRaConfig (fuel : nat) (data : bytes) : outcome LoRaConfig.t :=
  scan fuel (zlen data) (fun lc pos =>
    with_tag data lc pos (fun fieldNum wireType pos =>
      if wireType =? 0 then
        with_varint data lc pos (fun val pos =>
          Ret (Next (decodeLoRaConfig_varint lc fieldNum val) pos))
      else if wireType =? 5 then skip_fixed data lc pos 4
      else if wireType =? 1 then skip_fixed data lc pos 8
      else Ret (Stop lc))) LoRaConfig.zero 0.

Definition decodePowerConfig_varint (pc : PowerConfig.t) (fieldNum val : Z) : PowerConfig.t :=
  if fieldNum =? 1 then PowerConfig.set_IsPowerSaving (nonzero val) pc
  else if fieldNum =? 9 then PowerConfig.set_DeviceBatteryINAAddr (uint32 val) pc
  else pc.

Definition decodePowerConfig (fuel : nat) (data : bytes) : outcome PowerConfig.t :=
  scan fuel (zlen data) (fun pc pos =>
    with_tag data pc pos (fun fieldNum wireType pos =>
      if wireType =? 0 then
        with_varint data pc pos (fun val pos =>
          Ret (Next (decodePowerConfig_varint pc fieldNum val) pos))
      else if wireType =? 5 then skip_fixed data pc pos 4
      else Ret (Stop pc))) PowerConfig.zero 0.

(** ** decodeConfig *)
Definition decodeConfig_bytes (fuel : nat) (cfg : ConfigPayload.t) (fieldNum : Z) (sub : bytes)
    : outcome ConfigPayload.t :=
  if fieldNum =? 2 then
    let! c := decodePositionConfig fuel sub in
    Ret (ConfigPayload.set_Position (Some c) (ConfigPayload.set_Section "position" cfg))
  else if fieldNum =? 3 then
    let! c := decodePowerConfig fuel sub in
    Ret (ConfigPayload.set_Power (Some c) (ConfigPayload.set_Section "power" cfg))
  else if fieldNum =? 5 then
    let! c := decodeDisplayConfig fuel sub in
    Ret (ConfigPayload.set_Display (Some c) (ConfigPayload.set_Section "display" cfg))
  else if fieldNum =? 6 then
    let! c := decodeLoRaConfig fuel sub in
    Ret (ConfigPayload.set_LoRa (Some c) (ConfigPayload.set_Section "lora" cfg))
  else if fieldNum =? 7 then
    let! c := decodeBluetoothConfig fuel sub in
    Ret (ConfigPayload.set_Bluetooth (Some c) (ConfigPayload.set_Section "bluetooth" cfg))
  else Ret (ConfigPayload.set_Section ("unknown_" +:+ itoa fieldNum) cfg).

Definition decodeConfig_body (fuel : nat) (data : bytes) (cfg : ConfigPayload.t) (pos : Z)
    : outcome (step ConfigPayload.t) :=
  with_tag data cfg pos (fun fieldNum wireType pos =>
    if wireType =? 2 then
      with_bytes data cfg pos (fun sub pos =>
        let! cfg := decodeConfig_bytes fuel cfg fieldNum sub in
        Ret (Next cfg pos))
    else if wireType =? 0 then
      with_varint data cfg pos (fun _ pos => Ret (Next cfg pos))
    else Ret (Stop cfg)).

Definition decodeConfig (fuel : nat) (data : bytes) : outcome ConfigPayload.t :=
  scan fuel (zlen data) (decodeConfig_body fuel data)
    (ConfigPayload.set_Raw data ConfigPayload.zero) 0.

(** ** decodeMetadata *)
Definition decodeMetadata_varint (meta : DeviceMetadata.t) (fieldNum val : Z)
    : DeviceMetadata.t :=
  if fieldNum =? 2 then DeviceMetadata.set_DeviceStateVersion (uint32 val) meta
  else if fieldNum =? 4 then DeviceMetadata.set_HasBluetooth (nonzero val) meta
  else if fieldNum =? 5 then DeviceMetadata.set_HasWifi (nonzero val) meta
  else if fieldNum =? 6 then DeviceMetadata.set_HasEthernet (nonzero val) meta
  else meta.

Definition decodeMetadata_body (data : bytes) (meta : DeviceMetadata.t) (pos : Z)
    : outcome (step DeviceMetadata.t) :=
  with_tag data meta pos (fun fieldNum wireType pos =>
    if wireType =? 2 then
      with_bytes data meta pos (fun s pos =>
        Ret (Next (if fieldNum =? 1
                   then DeviceMetadata.set_FirmwareVersion (string_of_bytes s) meta
                   else meta) pos))
    else if wireType =? 0 then
      with_varint data meta pos (fun val pos =>
        Ret (Next (decodeMetadata_varint meta fieldNum val) pos))
    else skip_other data meta pos wireType).

Definition decodeMetadata (fuel : nat) (data : bytes) : outcome DeviceMetadata.t :=
  scan fuel (zlen data) (decodeMetadata_body data) DeviceMetadata.zero 0.

(** ** DecodeFromRadio *)
Inductive decodeError : Type :=
| ErrEmptyFrame
| ErrTruncatedVarint (fieldNum : Z)
| ErrTruncatedLength (fieldNum : Z)
| ErrTruncatedPayload (fieldNum : Z)
| ErrTruncatedFixed32 (fieldNum : Z)
| ErrTruncatedFixed64 (fieldNum : Z)
| ErrUnknownWireType (wireType fieldNum : Z).

Definition DecodeFromRadio_varint (pkt : FromRadioPacket.t) (fieldNum : Z) : FromRadioPacket.t :=
  if fieldNum =? 7 then FromRadioPacket.set_Type FromRadioConfigComplete pkt
  else if fieldNum =? 8 then FromRadioPacket.set_Type FromRadioRebooted pkt
  else pkt.

Definition DecodeFromRadio_bytes (fuel : nat) (pkt : FromRadioPacket.t) (fieldNum : Z)
    (subData : bytes) : outcome FromRadioPacket.t :=
  if fieldNum =? 2 then
    let! mp := decodeMeshPacket fuel subData in
    Ret (FromRadioPacket.set_MeshPacket (Some mp)
          (FromRadioPacket.set_Type FromRadioMeshPacket pkt))
  else if fieldNum =? 3 then
    let! i := decodeMyInfo fuel subData in
    Ret (FromRadioPacket.set_MyInfo (Some i) (FromRadioPacket.set_Type FromRadioMyInfo pkt))
  else if fieldNum =? 4 then
    let! i := decodeNodeInfo fuel subData in
    Ret (FromRadioPacket.set_NodeInfo (Some i) (FromRadioPacket.set_Type FromRadioNodeInfo pkt))
  else if fieldNum =? 5 then
    let! c := decodeConfig fuel subData in
    Ret (FromRadioPacket.set_Config (Some c) (FromRadioPacket.set_Type FromRadioConfig pkt))
  else if fieldNum =? 9 then
    Ret (FromRadioPacket.set_Config (Some (ConfigPayload.set_Raw subData ConfigPayload.zero))
          (FromRadioPacket.set_Type FromRadioConfig pkt))
  else if fieldNum =? 10 then Ret (FromRadioPacket.set_Type FromRadioChannel pkt)
  else if fieldNum =? 13 then
    let! m := decodeMetadata fuel subData in
    Ret (FromRadioPacket.set_Metadata (Some m) (FromRadioPacket.set_Type FromRadioMetadata pkt))
  else Ret pkt.

(** The loop state is the packet and, once the function has returned one,
    the error. *)
Definition DecodeFromRadio_body (fuel : nat) (data : bytes)
    (st : FromRadioPacket.t * option decodeError) (pos : Z)
    : outcome (step (FromRadioPacket.t * option decodeError)) :=
  let pkt := st.1 in
  with_tag data (pkt, None) pos (fun fieldNum wireType pos =>
    if wireType =? 0 then
      with_varint data (pkt, Some (ErrTruncatedVarint fieldNum)) pos (fun _ pos =>
        Ret (Next (DecodeFromRadio_varint pkt fieldNum, None) pos))
    else if wireType =? 2 then
      with_bytes2 data (pkt, Some (ErrTruncatedLength fieldNum))
        (pkt, Some (ErrTruncatedPayload fieldNum)) pos (fun subData pos =>
        let! pkt := DecodeFromRadio_bytes fuel pkt fieldNum subData in
        Ret (Next (pkt, None) pos))
    else if wireType =? 5 then
      if pos + 4 >? zlen data then Ret (Stop (pkt, Some (ErrTruncatedFixed32 fieldNum)))
      else Ret (Next (pkt, None) (pos + 4))
    else if wireType =? 1 then
      if pos + 8 >? zlen data then Ret (Stop (pkt, Some (ErrTruncatedFixed64 fieldNum)))
      else Ret (Next (pkt, None) (pos + 8))
    else Ret (Stop (pkt, Some (ErrUnknownWireType wireType fieldNum)))).

(** The packet is [nil] on the empty frame and only then. *)
Definition DecodeFromRadio (fuel : nat) (data : bytes)
    : outcome (option FromRadioPacket.t * option decodeError) :=
  if zlen data =? 0 then Ret (None, Some ErrEmptyFrame)
  else
    let! r := scan fuel (zlen data) (DecodeFromRadio_body fuel data)
                (FromRadioPacket.mk FromRadioUnknown data None None None None None, None) 0 in
    Ret (Some r.1, r.2).

(** [BuildWantConfig]: ToRadio field 3, [want_config_id = 1]. *)
Definition BuildWantConfig : bytes :=
  encodeVarint (Z.lor (Z.shiftl 3 3) 0) ++ encodeVarint (uint64 (uint32 1)).

(** The name of a packet type ([FromRadioType.String]). *)
Definition FromRadioType_String (t : FromRadioType) : string :=
  match t with
  | FromRadioMyInfo => "MyInfo"
  | FromRadioNodeInfo => "NodeInfo"
  | FromRadioMeshPacket => "MeshPacket"
  | FromRadioConfig => "Config"
  | FromRadioChannel => "Channel"
  | FromRadioMetadata => "Metadata"
  | FromRadioConfigComplete => "ConfigComplete"
  | FromRadioRebooted => "Rebooted"
  | FromRadioUnknown => "Unknown(0)"
  end.

(** ** The decoders return on benign inputs *)
#[local] Hint Extern 2 (_ <= _) => lia : total.

Lemma skip_fixed_good {A} data (a : A) pos0 pos n :
  pos0 <= pos -> 0 < n -> good pos0 (skip_fixed data a pos n).
Proof.
  intros. unfold skip_fixed. destruct (pos + n >? zlen data); cbn; [done|lia].
Qed.

Section Totality.
Variable fuel : nat.
Variable data : bytes.
Hypothesis Hbenign : benign data.
Hypothesis Hfuel : zlen data <= Z.of_nat fuel.

Lemma decodeMyInfo_total : exists r, decodeMyInfo fuel data = Ret r.
Proof. unfold decodeMyInfo, decodeMyInfo_body. total_tac. Qed.

Lemma decodeUserInfo_total : exists r, decodeUserInfo fuel data = Ret r.
Proof. unfold decodeUserInfo, decodeUserInfo_body. total_tac. Qed.

Lemma decodePosition_total : exists r, decodePosition fuel data = Ret r.
Proof. unfold decodePosition, decodePosition_body. total_tac. Qed.

Lemma decodeDeviceMetrics_total : exists r, decodeDeviceMetrics fuel data = Ret r.
Proof. unfold decodeDeviceMetrics, decodeDeviceMetrics_body. total_tac. Qed.

Lemma decodeDataPayload_total : exists r, decodeDataPayload fuel data = Ret r.
Proof.
  unfold decodeDataPayload. apply scan_total; [|lia..].
  intros d pos Hpos. unfold decodeDataPayload_body. good_tac.
  destruct (slice_benign data lo hi) as (sub & -> & _); [done|lia..|]. good_tac.
Qed.

Lemma decodeMetadata_total : exists r, decodeMetadata fuel data = Ret r.
Proof. unfold decodeMetadata, decodeMetadata_body. total_tac. Qed.
End Totality.

(** The five configuration decoders never read a declared length, so they
    return on every input. *)
Section ConfigTotality.
Variable fuel : nat.
Variable data : bytes.
Hypothesis Hfuel : zlen data <= Z.of_nat fuel.

Lemma decodeBluetoothConfig_total : exists r, decodeBluetoothConfig fuel data = Ret r.
Proof. unfold decodeBluetoothConfig. total_tac. Qed.

Lemma decodePositionConfig_total : exists r, decodePositionConfig fuel data = Ret r.
Proof. unfold decodePositionConfig. total_tac. Qed.

Lemma decodeDisplayConfig_total : exists r, decodeDisplayConfig fuel data = Ret r.
Proof. unfold decodeDisplayConfig. total_tac. Qed.

Lemma decodeLoRaConfig_total : exists r, decodeLoRaConfig fuel data = Ret r.
Proof.
  unfold decodeLoRaConfig. apply scan_total; [|lia..].
  good_tac; apply skip_fixed_good; lia.
Qed.

Lemma decodePowerConfig_total : exists r, decodePowerConfig fuel data = Ret r.
Proof.
  unfold decodePowerConfig. apply scan_total; [|lia..].
  good_tac; apply skip_fixed_good; lia.
Qed.
End ConfigTotality.

#[export] Hint Resolve decodeMyInfo_total decodeUserInfo_total decodePosition_total
  decodeDeviceMetrics_total decodeDataPayload_total decodeMetadata_total
  decodeBluetoothConfig_total decodePositionConfig_total decodeDisplayConfig_total
  decodeLoRaConfig_total decodePowerConfig_total : total.

Section NestedTotality.
Variable fuel : nat.

Lemma decodeNodeInfo_bytes_total info f sub :
  benign sub -> zlen sub <= Z.of_nat fuel ->
  exists r, decodeNodeInfo_bytes fuel info f sub = Ret r.
Proof. unfold decodeNodeInfo_bytes. total_tac. Qed.

Lemma decodeMeshPacket_bytes_total mp f sub :
  benign sub -> zlen sub <= Z.of_nat fuel ->
  exists r, decodeMeshPacket_bytes fuel mp f sub = Ret r.
Proof. unfold decodeMeshPacket_bytes. total_tac. Qed.

Lemma decodeConfig_bytes_total cfg f sub :
  zlen sub <= Z.of_nat fuel ->
  exists r, decodeConfig_bytes fuel cfg f sub = Ret r.
Proof. unfold decodeConfig_bytes. total_tac. Qed.

#[local] Hint Resolve decodeNodeInfo_bytes_total decodeMeshPacket_bytes_total
  decodeConfig_bytes_total : total.

Lemma decodeNodeInfo_total data :
  benign data -> zlen data <= Z.of_nat fuel ->
  exists r, decodeNodeInfo fuel data = Ret r.
Proof. unfold decodeNodeInfo, decodeNodeInfo_body. total_tac. Qed.

Lemma decodeMeshPacket_total data :
  benign data -> zlen data <= Z.of_nat fuel ->
  exists r, decodeMeshPacket fuel data = Ret r.
Proof. unfold decodeMeshPacket, decodeMeshPacket_body. total_tac. Qed.

Lemma decodeConfig_total data :
  benign data -> zlen data <= Z.of_nat fuel ->
  exists r, decodeConfig fuel data = Ret r.
Proof. unfold decodeConfig, decodeConfig_body. total_tac. Qed.

#[local] Hint Resolve decodeNodeInfo_total decodeMeshPacket_total
  decodeConfig_total : total.

Lemma DecodeFromRadio_bytes_total pkt f sub :
  benign sub -> zlen sub <= Z.of_nat fuel ->
  exists r, DecodeFromRadio_bytes fuel pkt f sub = Ret r.
Proof. unfold DecodeFromRadio_bytes. total_tac. Qed.

#[local] Hint Resolve DecodeFromRadio_bytes_total : total.

Lemma DecodeFromRadio_scan_total data st :
  benign data -> zlen data <= Z.of_nat fuel ->
  exists r, scan fuel (zlen data) (DecodeFromRadio_body fuel data) st 0 = Ret r.
Proof. unfold DecodeFromRadio_body. total_tac. Qed.
End NestedTotality.

(** ** Properties *)

(** C34: decoding is total on benign input.  When no byte offset of a frame
    decodes as a varint of [2^62] or more, [DecodeFromRadio] returns, with
    no panic and no endless loop, within as many loop iterations as the
    frame has bytes, nested messages included; and it returns a nil packet
    exactly on the empty frame, with an error. *)
Theorem decode_from_radio_total fuel data :
  benign data -> zlen data <= Z.of_nat fuel ->
  exists pkt err, DecodeFromRadio fuel data = Ret (pkt, err) /\
    (pkt = None <-> data = []) /\ (data = [] -> err = Some ErrEmptyFrame).
Proof.
  intros Hb Hf. unfold DecodeFromRadio. destruct (Z.eqb_spec (zlen data) 0) as [E|E].
  - assert (data = []) as -> by (destruct data; [done|zlen_lia]). by eexists _, _.
  - destruct (DecodeFromRadio_scan_total fuel data
      (FromRadioPacket.mk FromRadioUnknown data None None None None None, None) Hb Hf)
      as [r Hr]. rewrite Hr. cbn [obind].
    eexists _, _. split; [done|]. split; [split; [done|by intros ->]|by intros ->].
Qed.

Lemma decode_from_radio_total_witness :
  exists pkt err, DecodeFromRadio 6 [x22; x04; x12; x02; x08; x05] = Ret (pkt, err) /\
    (pkt = None <-> [x22; x04; x12; x02; x08; x05] = []) /\
    ([x22; x04; x12; x02; x08; x05] = [] -> err = Some ErrEmptyFrame).
Proof.
  apply decode_from_radio_total;
    [split; [by vm_compute|by apply sane_lengthsb_spec]|by vm_compute].
Defined.

(** A declared length of [2^63] or more crashes the process.  For any
    field number, a frame whose first field is length-delimited with such a
    length makes [int(length)] negative: the guard [pos+int(length) >
    len(data)] passes and the slice expression panics, whatever follows. *)
Theorem decode_from_radio_huge_length_panics fuel f len rest :
  0 <= f < 2 ^ 61 -> 2 ^ 63 <= len < 2 ^ 64 -> zlen rest < 2 ^ 61 ->
  DecodeFromRadio (S fuel)
    (encodeVarint (Z.lor (uint64 (Z.shiftl f 3)) 2) ++ encodeVarint len ++ rest) = Panic.
Proof.
  intros Hf Hl Hr. unfold DecodeFromRadio.
  match goal with |- context [zlen ?d =? 0] => destruct (Z.eqb_spec (zlen d) 0) as [E|_] end.
  { pose proof (encodeVarint_len len). autorewrite with zlen in E. zlen_lia. }
  match goal with |- obind ?m _ = _ => assert (m = Panic) as ->; [|done] end.
  by eapply scan_huge.
Qed.

Lemma decode_from_radio_huge_length_panics_witness :
  DecodeFromRadio 1
    (encodeVarint (Z.lor (uint64 (Z.shiftl 2 3)) 2) ++ encodeVarint (2 ^ 64 - 1) ++ []) = Panic.
Proof. apply (decode_from_radio_huge_length_panics 0 2 (2 ^ 64 - 1) []); by vm_compute. Defined.

(** A skipped length-delimited field can take the position backwards.
    The decoders of positions, device metrics and my-info messages skip such
    fields with [skipField], which adds a possibly negative [int(length)]:
    on [backward_field] they come back to the field they started from and
    never return, whatever the fuel and the field number. *)
Theorem skipped_negative_length_diverges fuel f rest :
  0 <= f < 2 ^ 61 -> zlen rest < 2 ^ 61 ->
  decodePosition fuel (backward_field f ++ rest) = Diverge /\
  decodeDeviceMetrics fuel (backward_field f ++ rest) = Diverge /\
  decodeMyInfo fuel (backward_field f ++ rest) = Diverge.
Proof. intros Hf Hr. split; [|split]; by eapply scan_backward. Qed.

Lemma skipped_negative_length_diverges_witness :
  decodePosition 1000 (backward_field 1 ++ []) = Diverge /\
  decodeDeviceMetrics 1000 (backward_field 1 ++ []) = Diverge /\
  decodeMyInfo 1000 (backward_field 1 ++ []) = Diverge.
Proof. apply (skipped_negative_length_diverges 1000 1 []); by vm_compute. Defined.
