(* ===== verification/Encode.v ===== *)
(** The packet builders of [internal/serial/encode.go].

    Each builder returns the bytes of a ToRadio message: field 1 holds a
    MeshPacket whose field 4 is a Data message with the port number and the
    payload.  The four random bytes [rand.Read] fills are the argument
    [rnd].  The theorems read every message back with the decoders of
    [FromRadio.v]. *)
From S2P Require Import Prelude GoStrings Varint Frame Messages FromRadio.

(** ** Definitions *)
Definition PortNumTextMessage : Z := 1.
Definition PortNumPosition : Z := 3.
Definition PortNumNodeInfo : Z := 4.
Definition PortNumAdmin : Z := 6.
Definition PortNumTelemetry : Z := 67.
Definition BroadcastAddr : Z := 0xFFFFFFFF.

Definition buildDataMessage (portNum : Z) (payload : bytes) : bytes :=
  encodeVarintField 1 (uint64 portNum) ++ encodeLengthDelimited 2 payload.

Definition buildDataMessageWithResponse (portNum : Z) (payload : bytes) : bytes :=
  encodeVarintField 1 (uint64 portNum) ++ encodeLengthDelimited 2 payload ++
  encodeVarintField 3 1.

Definition randomPacketID (rnd : bytes) : Z :=
  let id := le32 rnd in if id =? 0 then 1 else id.

Definition buildMeshPacket (rnd : bytes) (to : Z) (data : bytes) : bytes :=
  encodeFixed32Field 2 to ++
  encodeVarintField 3 0 ++
  encodeLengthDelimited 4 data ++
  encodeFixed32Field 6 (randomPacketID rnd) ++
  encodeVarintField 10 3 ++
  encodeVarintField 11 1.

Definition buildToRadio (meshPacket : bytes) : bytes := encodeLengthDelimited 1 meshPacket.

Definition BuildHeartbeat : bytes := encodeLengthDelimited 7 [].

Definition BuildTextMessage (rnd : bytes) (to : Z) (text : string) : bytes :=
  buildToRadio (buildMeshPacket rnd to
    (buildDataMessage PortNumTextMessage (bytes_of_string text))).

(** [uint64(altitude)] sign-extends a negative [int32]. *)
Definition positionPayload (latI lonI altitude : Z) : bytes :=
  encodeSFixed32Field 1 latI ++ encodeSFixed32Field 2 lonI ++
  (if negb (altitude =? 0) then encodeVarintField 3 (uint64 altitude) else []).

Definition BuildPosition (rnd : bytes) (latI lonI altitude : Z) : bytes :=
  buildToRadio (buildMeshPacket rnd BroadcastAddr
    (buildDataMessage PortNumPosition (positionPayload latI lonI altitude))).

(** [voltage > 0] on the bit pattern of a [float32]: sign bit clear, not
    zero and not a NaN. *)
Definition float32_positive (bits : Z) : bool := (0 <? bits) && (bits <=? 0x7F800000).

Definition deviceMetricsPayload (batteryLevel voltage : Z) : bytes :=
  (if batteryLevel >? 0 then encodeVarintField 1 (uint64 batteryLevel) else []) ++
  (if float32_positive voltage then encodeFloat32Field 2 voltage else []).

Definition BuildDeviceMetrics (rnd : bytes) (batteryLevel voltage : Z) : bytes :=
  let telemetry := encodeLengthDelimited 2 (deviceMetricsPayload batteryLevel voltage) in
  buildToRadio (buildMeshPacket rnd BroadcastAddr
    (buildDataMessage PortNumTelemetry telemetry)).

Definition BuildAdminShutdown (rnd : bytes) (nodeNum seconds : Z) : bytes :=
  let admin := encodeVarintField 98 (uint64 seconds) in
  buildToRadio (buildMeshPacket rnd nodeNum (buildDataMessage PortNumAdmin admin)).

Definition displayConfigPayload (screenOnSecs : Z) : bytes :=
  encodeLengthDelimited 5 (encodeVarintField 1 (uint64 screenOnSecs)).

Definition BuildAdminDisplayConfig (rnd : bytes) (nodeNum screenOnSecs : Z) : bytes :=
  let admin := encodeLengthDelimited 34 (displayConfigPayload screenOnSecs) in
  buildToRadio (buildMeshPacket rnd nodeNum (buildDataMessage PortNumAdmin admin)).

Definition bluetoothConfigPayload (enabled : bool) (mode fixedPin : Z) : bytes :=
  encodeLengthDelimited 7
    (encodeVarintField 1 (if enabled then 1 else 0) ++
     encodeVarintField 2 (uint64 mode) ++
     (if fixedPin >? 0 then encodeVarintField 3 (uint64 fixedPin) else [])).

Definition BuildAdminBluetoothConfig (rnd : bytes) (nodeNum : Z) (enabled : bool)
    (mode fixedPin : Z) : bytes :=
  let admin := encodeLengthDelimited 34 (bluetoothConfigPayload enabled mode fixedPin) in
  buildToRadio (buildMeshPacket rnd nodeNum (buildDataMessage PortNumAdmin admin)).

Definition positionConfigPayload (gpsMode : Z) : bytes :=
  encodeLengthDelimited 2 (encodeVarintField 13 (uint64 gpsMode)).

Definition BuildAdminPositionConfig (rnd : bytes) (nodeNum gpsMode : Z) : bytes :=
  let admin := encodeLengthDelimited 34 (positionConfigPayload gpsMode) in
  buildToRadio (buildMeshPacket rnd nodeNum (buildDataMessage PortNumAdmin admin)).

Definition BuildAdminNodedbReset (rnd : bytes) (nodeNum : Z) : bytes :=
  let admin := encodeVarintField 100 1 in
  buildToRadio (buildMeshPacket rnd nodeNum (buildDataMessage PortNumAdmin admin)).

Definition BuildAdminSetFixedPosition (rnd : bytes) (nodeNum latI lonI altitude timestamp : Z)
    : bytes :=
  let pos := positionPayload latI lonI altitude ++
             (if negb (timestamp =? 0) then encodeFixed32Field 7 timestamp else []) in
  let admin := encodeLengthDelimited 41 pos in
  buildToRadio (buildMeshPacket rnd nodeNum (buildDataMessage PortNumAdmin admin)).

Definition BuildAdminReboot (rnd : bytes) (nodeNum seconds : Z) : bytes :=
  let admin := encodeVarintField 97 (uint64 seconds) in
  buildToRadio (buildMeshPacket rnd nodeNum (buildDataMessage PortNumAdmin admin)).

Definition BuildTelemetryRequest (rnd : bytes) (nodeNum : Z) : bytes :=
  buildToRadio (buildMeshPacket rnd nodeNum
    (buildDataMessageWithResponse PortNumTelemetry [])).

Definition BuildNodeInfoRequest (rnd : bytes) (nodeNum : Z) : bytes :=
  let nodeNum := if nodeNum =? 0 then BroadcastAddr else nodeNum in
  buildToRadio (buildMeshPacket rnd nodeNum
    (buildDataMessageWithResponse PortNumNodeInfo [])).

(** ** Reading the builders' output back *)
Lemma randomPacketID_range rnd : 1 <= randomPacketID rnd < 2 ^ 32.
Proof.
  assert (0 <= le32 rnd < 2 ^ 32) as H.
  { unfold le32. destruct rnd as [|b0 [|b1 [|b2 [|b3 [|? ?]]]]]; try lia.
    pose proof (Zb_range b0). pose proof (Zb_range b1).
    pose proof (Zb_range b2). pose proof (Zb_range b3). lia. }
  unfold randomPacketID. destruct (Z.eqb_spec (le32 rnd) 0); lia.
Qed.

(** The message [decodeMeshPacket] makes of what [buildMeshPacket] wrote. *)
Definition sentPacket (rnd : bytes) (to portNum : Z) (payload : bytes) : MeshPacketData.t :=
  MeshPacketData.mk 0 to 0 (randomPacketID rnd) 0 0 0 3 0 0 portNum payload true 0.

Section DataMessage.
Variables (portNum : Z) (payload : bytes).
Hypothesis Hport : 0 <= portNum < 2 ^ 32.
Hypothesis Hpayload : zlen payload < 2 ^ 61.

Lemma decode_buildDataMessage fuel :
  (2 <= fuel)%nat ->
  decodeDataPayload fuel (buildDataMessage portNum payload)
  = Ret (DataPayload.mk portNum payload 0).
Proof.
  intros Hfuel. do 2 (destruct fuel as [|fuel]; [lia|]). clear Hfuel.
  unfold decodeDataPayload, buildDataMessage.
  rewrite (uint64_small portNum) by lia. set (data := _ ++ _).
  assert (zlen data < 2 ^ 62) by (unfold data; wire_size; lia).
  pose proof (suffix_at_0 data) as Hs. unfold data in Hs at 2.
  repeat read_field; [reflexivity|]. cbn. by rewrite uint32_small.
Qed.

Lemma decode_buildDataMessageWithResponse fuel :
  (3 <= fuel)%nat ->
  decodeDataPayload fuel (buildDataMessageWithResponse portNum payload)
  = Ret (DataPayload.mk portNum payload 0).
Proof.
  intros Hfuel. do 3 (destruct fuel as [|fuel]; [lia|]). clear Hfuel.
  unfold decodeDataPayload, buildDataMessageWithResponse.
  rewrite (uint64_small portNum) by lia. set (data := _ ++ _).
  assert (zlen data < 2 ^ 62) by (unfold data; wire_size; lia).
  pose proof (suffix_at_0 data) as Hs. unfold data in Hs at 2.
  repeat read_field; [reflexivity|]. cbn. by rewrite uint32_small.
Qed.
End DataMessage.

(** Both forms of the Data message, with and without [want_response]. *)
Definition dataMessage (wantResponse : bool) (portNum : Z) (payload : bytes) : bytes :=
  if wantResponse then buildDataMessageWithResponse portNum payload
  else buildDataMessage portNum payload.

Lemma decode_dataMessage fuel wantResponse portNum payload :
  (3 <= fuel)%nat -> 0 <= portNum < 2 ^ 32 -> zlen payload < 2 ^ 60 ->
  decodeDataPayload fuel (dataMessage wantResponse portNum payload)
  = Ret (DataPayload.mk portNum payload 0).
Proof.
  intros. destruct wantResponse; cbn [dataMessage].
  - apply decode_buildDataMessageWithResponse; lia.
  - apply decode_buildDataMessage; lia.
Qed.

Lemma zlen_dataMessage w portNum payload :
  zlen (dataMessage w portNum payload) <= 60 + zlen payload.
Proof.
  destruct w; cbn [dataMessage]; unfold buildDataMessageWithResponse, buildDataMessage;
    wire_size; lia.
Qed.

Lemma decode_buildMeshPacket fuel rnd to data portNum payload :
  (6 <= fuel)%nat -> 0 <= to < 2 ^ 32 -> zlen data < 2 ^ 61 ->
  decodeDataPayload fuel data = Ret (DataPayload.mk portNum payload 0) ->
  decodeMeshPacket fuel (buildMeshPacket rnd to data)
  = Ret (sentPacket rnd to portNum payload).
Proof.
  intros Hfuel Hto Hdata Hd. do 6 (destruct fuel as [|fuel]; [lia|]).
  pose proof (randomPacketID_range rnd). unfold decodeMeshPacket, buildMeshPacket.
  set (pkt := _ ++ _). assert (zlen pkt < 2 ^ 62) by (unfold pkt; wire_size; lia).
  pose proof (suffix_at_0 pkt) as Hs. unfold pkt in Hs at 2.
  repeat read_field.
  { intros q. unfold decodeMeshPacket_bytes. cbn [Z.eqb Pos.eqb].
    rewrite Hd. cbn [obind]. reflexivity. }
  reflexivity.
Qed.

(** C37: sending and decoding a packet agree.  Whatever the destination, the
    port, the payload and the random bytes, the MeshPacket the builders write
    is decoded by [decodeMeshPacket] to the same destination, port and
    payload, with a non-zero packet id, hop limit 3 and an acknowledgement
    wanted, and nothing else set; six loop iterations are enough. *)
Theorem mesh_packet_roundtrip fuel rnd wantResponse to portNum payload :
  (6 <= fuel)%nat -> 0 <= to < 2 ^ 32 -> 0 <= portNum < 2 ^ 32 -> zlen payload < 2 ^ 60 ->
  decodeMeshPacket fuel (buildMeshPacket rnd to (dataMessage wantResponse portNum payload))
  = Ret (sentPacket rnd to portNum payload) /\
  MeshPacketData.ID (sentPacket rnd to portNum payload) <> 0.
Proof.
  intros Hfuel Hto Hport Hpay. pose proof (zlen_dataMessage wantResponse portNum payload).
  split; [|cbn; pose proof (randomPacketID_range rnd); lia].
  apply decode_buildMeshPacket; [done|done|lia|]. apply decode_dataMessage; lia || done.
Qed.

Lemma mesh_packet_roundtrip_witness :
  decodeMeshPacket 6 (buildMeshPacket [x00; x00; x00; x00] 0xFFFFFFFF
    (dataMessage false 1 [x48; x69]))
  = Ret (sentPacket [x00; x00; x00; x00] 0xFFFFFFFF 1 [x48; x69]) /\
  MeshPacketData.ID (sentPacket [x00; x00; x00; x00] 0xFFFFFFFF 1 [x48; x69]) <> 0.
Proof. apply (mesh_packet_roundtrip 6); [lia|by vm_compute..]. Defined.


(** *** The payloads *)
Lemma int32_uint64 z : - 2 ^ 31 <= z < 2 ^ 31 -> int32 (uint64 z) = z.
Proof.
  intros H. unfold int32, uint64.
  assert (z mod 2 ^ 64 = z \/ z mod 2 ^ 64 = z + 2 ^ 64) as [-> | ->].
  { destruct (Z.le_gt_cases 0 z); [left; apply Z.mod_small; lia|right].
    replace z with ((z + 2 ^ 64) + (-1) * 2 ^ 64) at 1 by lia.
    rewrite Z.mod_add by lia. apply Z.mod_small. lia. }
  - rewrite Z.mod_small; lia.
  - replace (z + 2 ^ 64 + 2 ^ 31) with (z + 2 ^ 31 + 2 ^ 32 * 2 ^ 32) by lia.
    rewrite Z.mod_add by lia. rewrite Z.mod_small; lia.
Qed.

Lemma decode_positionPayload fuel latI lonI altitude :
  (3 <= fuel)%nat -> - 2 ^ 31 <= latI < 2 ^ 31 -> - 2 ^ 31 <= lonI < 2 ^ 31 ->
  - 2 ^ 31 <= altitude < 2 ^ 31 ->
  decodePosition fuel (positionPayload latI lonI altitude)
  = Ret (PositionData.mk latI lonI altitude 0 0).
Proof.
  intros Hfuel Hlat Hlon Halt. do 3 (destruct fuel as [|fuel]; [lia|]).
  unfold decodePosition, positionPayload, encodeSFixed32Field.
  pose proof (uint32_range latI). pose proof (uint32_range lonI).
  pose proof (uint64_range altitude).
  destruct (Z.eqb_spec altitude 0) as [->|Hne]; cbn [negb]; set (pkt := _ ++ _);
    pose proof (suffix_at_0 pkt) as Hs; unfold pkt in Hs at 2;
    repeat read_field; cbn;
    rewrite ?(int32_uint32 latI), ?(int32_uint32 lonI), ?(int32_uint64 altitude) by lia;
    reflexivity.
Qed.

Lemma decode_displayConfigPayload fuel secs :
  (1 <= fuel)%nat -> 0 <= secs < 2 ^ 32 ->
  decodeConfig fuel (displayConfigPayload secs)
  = Ret (ConfigPayload.set_Display (Some (DisplayConfig.mk secs false))
          (ConfigPayload.set_Section "display"
            (ConfigPayload.set_Raw (displayConfigPayload secs) ConfigPayload.zero))).
Proof.
  intros Hfuel Hsecs. destruct fuel as [|fuel]; [lia|].
  unfold displayConfigPayload. rewrite (uint64_small secs) by lia.
  assert (decodeDisplayConfig (S fuel) (encodeVarintField 1 secs)
          = Ret (DisplayConfig.mk secs false)) as Hsub.
  { unfold decodeDisplayConfig. set (pkt := encodeVarintField 1 secs).
    pose proof (suffix_at_0 pkt) as Hs. unfold pkt in Hs at 2.
    repeat read_field. cbn. by rewrite uint32_small. }
  unfold decodeConfig. set (pkt := encodeLengthDelimited 5 _).
  assert (zlen pkt < 2 ^ 62) by (unfold pkt; wire_size; lia).
  pose proof (suffix_at_0 pkt) as Hs. unfold pkt in Hs at 2.
  repeat read_field; [|reflexivity].
  intros q. unfold decodeConfig_bytes. cbn [Z.eqb Pos.eqb]. by rewrite Hsub.
Qed.

Lemma decode_bluetoothConfigPayload fuel enabled mode fixedPin :
  (3 <= fuel)%nat -> 0 <= mode < 2 ^ 32 -> 0 <= fixedPin < 2 ^ 32 ->
  decodeConfig fuel (bluetoothConfigPayload enabled mode fixedPin)
  = Ret (ConfigPayload.set_Bluetooth (Some (BluetoothConfig.mk enabled mode fixedPin))
          (ConfigPayload.set_Section "bluetooth"
            (ConfigPayload.set_Raw (bluetoothConfigPayload enabled mode fixedPin)
              ConfigPayload.zero))).
Proof.
  intros Hfuel Hmode Hpin. do 3 (destruct fuel as [|fuel]; [lia|]).
  unfold bluetoothConfigPayload. rewrite (uint64_small mode), (uint64_small fixedPin) by lia.
  set (sub := encodeVarintField 1 _ ++ _).
  assert (decodeBluetoothConfig (S (S (S fuel))) sub
          = Ret (BluetoothConfig.mk enabled mode fixedPin)) as Hsub.
  { unfold decodeBluetoothConfig. pose proof (suffix_at_0 sub) as Hs. unfold sub in Hs at 2.
    destruct enabled, (Z.gtb_spec fixedPin 0); repeat read_field; cbn;
      rewrite ?(uint32_small mode), ?(uint32_small fixedPin) by lia; try done.
    all: by assert (fixedPin = 0) as -> by lia. }
  unfold decodeConfig. set (pkt := encodeLengthDelimited 7 _).
  assert (zlen pkt < 2 ^ 62).
  { unfold pkt, sub. destruct (fixedPin >? 0); wire_size; lia. }
  pose proof (suffix_at_0 pkt) as Hs. unfold pkt in Hs at 2.
  repeat read_field; [|reflexivity].
  intros q. unfold decodeConfig_bytes. cbn [Z.eqb Pos.eqb]. by rewrite Hsub.
Qed.

Lemma decode_positionConfigPayload fuel gpsMode :
  (1 <= fuel)%nat -> 0 <= gpsMode < 2 ^ 32 ->
  decodeConfig fuel (positionConfigPayload gpsMode)
  = Ret (ConfigPayload.set_Position (Some (PositionConfig.mk gpsMode false 0 0 false))
          (ConfigPayload.set_Section "position"
            (ConfigPayload.set_Raw (positionConfigPayload gpsMode) ConfigPayload.zero))).
Proof.
  intros Hfuel Hgps. destruct fuel as [|fuel]; [lia|].
  unfold positionConfigPayload. rewrite (uint64_small gpsMode) by lia.
  assert (decodePositionConfig (S fuel) (encodeVarintField 13 gpsMode)
          = Ret (PositionConfig.mk gpsMode false 0 0 false)) as Hsub.
  { unfold decodePositionConfig. set (pkt := encodeVarintField 13 gpsMode).
    pose proof (suffix_at_0 pkt) as Hs. unfold pkt in Hs at 2.
    repeat read_field. cbn. by rewrite uint32_small. }
  unfold decodeConfig. set (pkt := encodeLengthDelimited 2 _).
  assert (zlen pkt < 2 ^ 62) by (unfold pkt; wire_size; lia).
  pose proof (suffix_at_0 pkt) as Hs. unfold pkt in Hs at 2.
  repeat read_field; [|reflexivity].
  intros q. unfold decodeConfig_bytes. cbn [Z.eqb Pos.eqb]. by rewrite Hsub.
Qed.

(** Positions survive the trip.  For every latitude, longitude and
    altitude that fits [int32], negative ones included, [BuildPosition]
    wraps a broadcast MeshPacket on the position port whose payload
    [decodePosition] reads back exactly; [uint64(altitude)] sign-extends, and
    the truncation to [int32] undoes it. *)
Theorem build_position_roundtrip fuel rnd latI lonI altitude :
  (6 <= fuel)%nat -> - 2 ^ 31 <= latI < 2 ^ 31 -> - 2 ^ 31 <= lonI < 2 ^ 31 ->
  - 2 ^ 31 <= altitude < 2 ^ 31 ->
  exists mp payload,
    BuildPosition rnd latI lonI altitude = encodeLengthDelimited 1 mp /\
    decodeMeshPacket fuel mp = Ret (sentPacket rnd BroadcastAddr PortNumPosition payload) /\
    decodePosition fuel payload = Ret (PositionData.mk latI lonI altitude 0 0).
Proof.
  intros Hfuel Hlat Hlon Halt.
  exists (buildMeshPacket rnd BroadcastAddr
    (dataMessage false PortNumPosition (positionPayload latI lonI altitude))),
    (positionPayload latI lonI altitude).
  split; [done|]. split; [|apply decode_positionPayload; lia].
  assert (zlen (positionPayload latI lonI altitude) < 100) as Hp.
  { unfold positionPayload, encodeSFixed32Field.
    destruct (negb (altitude =? 0)); wire_size; lia. }
  pose proof (zlen_dataMessage false PortNumPosition (positionPayload latI lonI altitude)).
  apply decode_buildMeshPacket; [done|by vm_compute|lia|].
  apply decode_dataMessage; [lia|by vm_compute|lia].
Qed.

Lemma build_position_roundtrip_witness :
  exists mp payload,
    BuildPosition [x01; x02; x03; x04] (-337654321) 1512345678 (-12)
    = encodeLengthDelimited 1 mp /\
    decodeMeshPacket 6 mp
    = Ret (sentPacket [x01; x02; x03; x04] BroadcastAddr PortNumPosition payload) /\
    decodePosition 6 payload = Ret (PositionData.mk (-337654321) 1512345678 (-12) 0 0).
Proof. apply build_position_roundtrip; lia. Defined.

(** Configuration payloads are read back.  The display, bluetooth and
    position sections the admin builders write decode, with [decodeConfig],
    to the named section with exactly the values written. *)
Theorem admin_config_roundtrip fuel enabled mode fixedPin secs gpsMode :
  (3 <= fuel)%nat -> 0 <= mode < 2 ^ 32 -> 0 <= fixedPin < 2 ^ 32 ->
  0 <= secs < 2 ^ 32 -> 0 <= gpsMode < 2 ^ 32 ->
  (exists c, decodeConfig fuel (displayConfigPayload secs) = Ret c /\
     ConfigPayload.Section c = "display" /\
     ConfigPayload.Display c = Some (DisplayConfig.mk secs false)) /\
  (exists c, decodeConfig fuel (bluetoothConfigPayload enabled mode fixedPin) = Ret c /\
     ConfigPayload.Section c = "bluetooth" /\
     ConfigPayload.Bluetooth c = Some (BluetoothConfig.mk enabled mode fixedPin)) /\
  (exists c, decodeConfig fuel (positionConfigPayload gpsMode) = Ret c /\
     ConfigPayload.Section c = "position" /\
     ConfigPayload.Position c = Some (PositionConfig.mk gpsMode false 0 0 false)).
Proof.
  intros Hfuel Hmode Hpin Hsecs Hgps. split; [|split].
  - rewrite decode_displayConfigPayload by (done || lia). by eexists.
  - rewrite decode_bluetoothConfigPayload by (done || lia). by eexists.
  - rewrite decode_positionConfigPayload by (done || lia). by eexists.
Qed.

Lemma admin_config_roundtrip_witness :
  (exists c, decodeConfig 3 (displayConfigPayload 600) = Ret c /\
     ConfigPayload.Section c = "display" /\
     ConfigPayload.Display c = Some (DisplayConfig.mk 600 false)) /\
  (exists c, decodeConfig 3 (bluetoothConfigPayload true 1 123456) = Ret c /\
     ConfigPayload.Section c = "bluetooth" /\
     ConfigPayload.Bluetooth c = Some (BluetoothConfig.mk true 1 123456)) /\
  (exists c, decodeConfig 3 (positionConfigPayload 1) = Ret c /\
     ConfigPayload.Section c = "position" /\
     ConfigPayload.Position c = Some (PositionConfig.mk 1 false 0 0 false)).
Proof. apply admin_config_roundtrip; lia. Defined.

(** *** What fits into a frame *)
Lemma zlen_encodeVarint_le v : 0 <= v < 16384 -> zlen (encodeVarint v) <= 2.
Proof.
  intros H. unfold encodeVarint. cbn [encodeVarint_loop].
  destruct (Z.geb_spec v 128); [|done]. rewrite Z.shiftr_div_pow2 by lia.
  change (2 ^ 7) with 128.
  destruct (Z.geb_spec (v / 128) 128) as [Hge|]; [|done].
  assert (v / 128 < 128) by (apply Z.div_lt_upper_bound; lia). lia.
Qed.

Lemma zlen_encodeVarint_ge v : 128 <= v -> 2 <= zlen (encodeVarint v).
Proof.
  intros H. unfold encodeVarint. cbn [encodeVarint_loop].
  destruct (Z.geb_spec v 128); [|lia]. rewrite zlen_cons.
  destruct (_ >=? 128); zlen_lia.
Qed.

Lemma zlen_textMessage rnd to text :
  let t := zlen (bytes_of_string text) in
  (t <= 485 -> 1 <= zlen (BuildTextMessage rnd to text) <= 512) /\
  (485 < t -> 512 < zlen (BuildTextMessage rnd to text)).
Proof.
  cbv zeta. unfold BuildTextMessage. set (b := bytes_of_string text).
  unfold buildToRadio, buildMeshPacket, buildDataMessage.
  unfold encodeLengthDelimited, encodeVarintField, encodeFixed32Field.
  rewrite !zlen_app.
  change (zlen (encodeFixed32 to)) with 4.
  change (zlen (encodeFixed32 (randomPacketID rnd))) with 4.
  repeat match goal with
  | |- context [zlen (encodeVarint ?x)] =>
      lazymatch x with context [b] => fail | _ =>
        let n := eval vm_compute in (zlen (encodeVarint x)) in
        change (zlen (encodeVarint x)) with n end
  end.
  pose proof (zlen_nonneg b).
  repeat match goal with
  | |- context [zlen (encodeVarint ?x)] =>
      lazymatch x with context [encodeVarint] => fail | _ => idtac end;
      pose proof (zlen_encodeVarint_le x); pose proof (zlen_encodeVarint_ge x);
      pose proof (encodeVarint_len x); generalize dependent (zlen (encodeVarint x)); intros
  end.
  split; lia.
Qed.

(** C40: text messages of up to 485 bytes arrive, longer ones are dropped.
    For a text of at most 485 bytes, an idle decoder fed the frame
    [EncodeFrame] makes of [BuildTextMessage] returns exactly that ToRadio
    message, and the MeshPacket in it is decoded back to the text.  For any
    longer text the message exceeds the 512-byte limit and [EncodeFrame]
    returns [nil]. *)
Theorem text_message_delivery fuel rnd to text :
  (6 <= fuel)%nat -> 0 <= to < 2 ^ 32 ->
  (zlen (bytes_of_string text) <= 485 ->
   exists d mp,
     Feed NewFrameDecoder (EncodeFrame (BuildTextMessage rnd to text))
     = (d, [encodeLengthDelimited 1 mp]) /\
     decodeMeshPacket fuel mp
     = Ret (sentPacket rnd to PortNumTextMessage (bytes_of_string text))) /\
  (485 < zlen (bytes_of_string text) -> EncodeFrame (BuildTextMessage rnd to text) = []).
Proof.
  intros Hfuel Hto. pose proof (zlen_textMessage rnd to text) as [Hs Hl].
  split; intros Ht.
  - destruct (Feed_frame_idle NewFrameDecoder (BuildTextMessage rnd to text))
      as (d & HF & _); [done|by apply Hs|]. exists d. eexists. split; [exact HF|].
    apply (decode_buildMeshPacket _ _ _ (dataMessage false _ _)); [done|done| |].
    + pose proof (zlen_dataMessage false PortNumTextMessage (bytes_of_string text)). lia.
    + apply decode_dataMessage; [lia|by vm_compute|lia].
  - unfold EncodeFrame, maxFrameLen. specialize (Hl Ht).
    destruct (Z.gtb_spec (zlen (BuildTextMessage rnd to text)) 512); [done|lia].
Qed.

Lemma text_message_delivery_witness :
  (zlen (bytes_of_string "@ALL STATUS") <= 485 ->
   exists d mp,
     Feed NewFrameDecoder
       (EncodeFrame (BuildTextMessage [x01; x00; x00; x00] 7 "@ALL STATUS"))
     = (d, [encodeLengthDelimited 1 mp]) /\
     decodeMeshPacket 6 mp
     = Ret (sentPacket [x01; x00; x00; x00] 7 PortNumTextMessage
              (bytes_of_string "@ALL STATUS"))) /\
  (485 < zlen (bytes_of_string "@ALL STATUS") ->
   EncodeFrame (BuildTextMessage [x01; x00; x00; x00] 7 "@ALL STATUS") = []).
Proof. apply text_message_delivery; lia. Defined.
