(* ===== verification/MeshPayload.v ===== *)
(** The payload decoders of [internal/meshtastic/dispatcher.go].

    The dispatcher decodes the payloads of position and telemetry packets
    with its own copies of the wire helpers; [Varint.v] models both copies,
    which are the same code.  These payloads come from any node of the mesh,
    so what the decoders do on hostile bytes matters. *)
From S2P Require Import Prelude Varint Messages FromRadio Encode.

(** ** Definitions *)
Definition decodePositionPayload_fixed32 (pos : PositionData.t) (fieldNum val : Z)
    : PositionData.t :=
  if fieldNum =? 1 then PositionData.set_LatitudeI val pos
  else if fieldNum =? 2 then PositionData.set_LongitudeI val pos
  else pos.

Definition decodePositionPayload_varint (pos : PositionData.t) (fieldNum val : Z)
    : PositionData.t :=
  if fieldNum =? 3 then PositionData.set_Altitude (int32 val) pos
  else if fieldNum =? 4 then PositionData.set_Time (uint32 val) pos
  else if fieldNum =? 21 then PositionData.set_Sats (uint32 val) pos
  else pos.

Definition decodePositionPayload_body (data : bytes) (pos : PositionData.t) (p : Z)
    : outcome (step PositionData.t) :=
  with_tag data pos p (fun fieldNum wireType p =>
    if wireType =? 5 then
      with_fixed32 data pos p (fun u32 p =>
        Ret (Next (decodePositionPayload_fixed32 pos fieldNum (int32 u32)) p))
    else if wireType =? 0 then
      with_varint data pos p (fun val p =>
        Ret (Next (decodePositionPayload_varint pos fieldNum val) p))
    else skip_other data pos p wireType).

Definition decodePositionPayload (fuel : nat) (data : bytes) : outcome PositionData.t :=
  scan fuel (zlen data) (decodePositionPayload_body data) PositionData.zero 0.

Definition decodeDeviceMetricsPayload_varint (dm : DeviceMetrics.t) (fieldNum val : Z)
    : DeviceMetrics.t :=
  if fieldNum =? 1 then DeviceMetrics.set_BatteryLevel (uint32 val) dm
  else if fieldNum =? 5 then DeviceMetrics.set_UptimeSeconds (uint32 val) dm
  else dm.

Definition decodeDeviceMetricsPayload_fixed32 (dm : DeviceMetrics.t) (fieldNum f : Z)
    : DeviceMetrics.t :=
  if fieldNum =? 2 then DeviceMetrics.set_Voltage f dm
  else if fieldNum =? 3 then DeviceMetrics.set_ChannelUtilization f dm
  else if fieldNum =? 4 then DeviceMetrics.set_AirUtilTx f dm
  else dm.

Definition decodeDeviceMetricsPayload_body (data : bytes) (dm : DeviceMetrics.t) (p : Z)
    : outcome (step DeviceMetrics.t) :=
  with_tag data dm p (fun fieldNum wireType p =>
    if wireType =? 0 then
      with_varint data dm p (fun val p =>
        Ret (Next (decodeDeviceMetricsPayload_varint dm fieldNum val) p))
    else if wireType =? 5 then
      with_fixed32 data dm p (fun f p =>
        Ret (Next (decodeDeviceMetricsPayload_fixed32 dm fieldNum f) p))
    else skip_other data dm p wireType).

Definition decodeDeviceMetricsPayload (fuel : nat) (data : bytes) : outcome DeviceMetrics.t :=
  scan fuel (zlen data) (decodeDeviceMetricsPayload_body data) DeviceMetrics.zero 0.

Definition decodeEnvironmentMetricsPayload_fixed32 (em : EnvironmentMetrics.t)
    (fieldNum f : Z) : EnvironmentMetrics.t :=
  if fieldNum =? 1 then EnvironmentMetrics.set_Temperature f em
  else if fieldNum =? 2 then EnvironmentMetrics.set_RelativeHumidity f em
  else if fieldNum =? 3 then EnvironmentMetrics.set_BarometricPressure f em
  else em.

Definition decodeEnvironmentMetricsPayload_body (data : bytes) (em : EnvironmentMetrics.t)
    (p : Z) : outcome (step EnvironmentMetrics.t) :=
  with_tag data em p (fun fieldNum wireType p =>
    if wireType =? 5 then
      with_fixed32 data em p (fun f p =>
        Ret (Next (decodeEnvironmentMetricsPayload_fixed32 em fieldNum f) p))
    else skip_other data em p wireType).

Definition decodeEnvironmentMetricsPayload (fuel : nat) (data : bytes)
    : outcome EnvironmentMetrics.t :=
  scan fuel (zlen data) (decodeEnvironmentMetricsPayload_body data)
    EnvironmentMetrics.zero 0.

(** The results [dm] and [em], nil until their field is seen. *)
Definition metrics : Type := option DeviceMetrics.t * option EnvironmentMetrics.t.

Definition decodeTelemetryPayload_bytes (fuel : nat) (m : metrics) (fieldNum : Z)
    (subData : bytes) : outcome metrics :=
  if fieldNum =? 2 then
    let! dm := decodeDeviceMetricsPayload fuel subData in Ret (Some dm, m.2)
  else if fieldNum =? 3 then
    let! em := decodeEnvironmentMetricsPayload fuel subData in Ret (m.1, Some em)
  else Ret m.

Definition decodeTelemetryPayload_body (fuel : nat) (data : bytes) (m : metrics) (p : Z)
    : outcome (step metrics) :=
  with_tag data m p (fun fieldNum wireType p =>
    if wireType =? 2 then
      with_bytes data m p (fun subData p =>
        let! m := decodeTelemetryPayload_bytes fuel m fieldNum subData in
        Ret (Next m p))
    else skip_other data m p wireType).

Definition decodeTelemetryPayload (fuel : nat) (data : bytes) : outcome metrics :=
  scan fuel (zlen data) (decodeTelemetryPayload_body fuel data) (None, None) 0.

(** ** The decoders return on benign payloads *)
#[local] Hint Extern 2 (_ <= _) => lia : total.

Section Totality.
Variable fuel : nat.
Variable data : bytes.
Hypothesis Hbenign : benign data.
Hypothesis Hfuel : zlen data <= Z.of_nat fuel.

Lemma decodePositionPayload_total : exists r, decodePositionPayload fuel data = Ret r.
Proof. unfold decodePositionPayload, decodePositionPayload_body. total_tac. Qed.

Lemma decodeDeviceMetricsPayload_total :
  exists r, decodeDeviceMetricsPayload fuel data = Ret r.
Proof. unfold decodeDeviceMetricsPayload, decodeDeviceMetricsPayload_body. total_tac. Qed.

Lemma decodeEnvironmentMetricsPayload_total :
  exists r, decodeEnvironmentMetricsPayload fuel data = Ret r.
Proof.
  unfold decodeEnvironmentMetricsPayload, decodeEnvironmentMetricsPayload_body. total_tac.
Qed.
End Totality.

#[export] Hint Resolve decodePositionPayload_total decodeDeviceMetricsPayload_total
  decodeEnvironmentMetricsPayload_total : total.

Lemma decodeTelemetryPayload_bytes_total fuel m f sub :
  benign sub -> zlen sub <= Z.of_nat fuel ->
  exists r, decodeTelemetryPayload_bytes fuel m f sub = Ret r.
Proof. unfold decodeTelemetryPayload_bytes. total_tac. Qed.
#[local] Hint Resolve decodeTelemetryPayload_bytes_total : total.

Lemma decodeTelemetryPayload_total fuel data :
  benign data -> zlen data <= Z.of_nat fuel ->
  exists r, decodeTelemetryPayload fuel data = Ret r.
Proof. unfold decodeTelemetryPayload, decodeTelemetryPayload_body. total_tac. Qed.
#[export] Hint Resolve decodeTelemetryPayload_total : total.

(** ** The copies agree with the serial package's decoders *)
Lemma scan_ext {A} fuel len (body body' : A -> Z -> outcome (step A)) a pos :
  (forall a pos, body a pos = body' a pos) ->
  scan fuel len body a pos = scan fuel len body' a pos.
Proof.
  intros H. revert a pos. induction fuel as [|fuel IH]; intros a pos; cbn [scan]; [done|].
  destruct (pos <? len); [|done]. rewrite H.
  destruct (body' a pos) as [[]| |]; cbn; [apply IH|done..].
Qed.

(** The two position decoders differ in where they truncate to [int32]. *)
Lemma decodePositionPayload_serial fuel data :
  decodePositionPayload fuel data = decodePosition fuel data.
Proof. by apply scan_ext. Qed.

Lemma decodeDeviceMetricsPayload_serial fuel data :
  decodeDeviceMetricsPayload fuel data = decodeDeviceMetrics fuel data.
Proof. by apply scan_ext. Qed.

(** *** Hostile payloads *)
Lemma decodePositionPayload_backward fuel f rest :
  0 <= f < 2 ^ 61 -> zlen rest < 2 ^ 61 ->
  decodePositionPayload fuel (backward_field f ++ rest) = Diverge.
Proof. intros. by eapply scan_backward. Qed.

Lemma decodeTelemetryPayload_huge fuel f len rest :
  0 <= f < 2 ^ 61 -> 2 ^ 63 <= len < 2 ^ 64 -> zlen rest < 2 ^ 61 ->
  decodeTelemetryPayload (S fuel)
    (encodeVarint (Z.lor (uint64 (Z.shiftl f 3)) 2) ++ encodeVarint len ++ rest) = Panic.
Proof. intros. by eapply scan_huge. Qed.

(** *** What [BuildDeviceMetrics] sends *)
Lemma decode_deviceMetricsPayload fuel batteryLevel voltage :
  (2 <= fuel)%nat -> 0 <= batteryLevel < 2 ^ 32 -> 0 <= voltage < 2 ^ 32 ->
  decodeDeviceMetricsPayload fuel (deviceMetricsPayload batteryLevel voltage)
  = Ret (DeviceMetrics.mk batteryLevel
           (if float32_positive voltage then voltage else 0) 0 0 0).
Proof.
  intros Hfuel Hb Hv. do 2 (destruct fuel as [|fuel]; [lia|]).
  unfold decodeDeviceMetricsPayload, deviceMetricsPayload, encodeFloat32Field.
  rewrite (uint64_small batteryLevel) by lia.
  set (pkt := _ ++ _).
  pose proof (suffix_at_0 pkt) as Hs. unfold pkt in Hs at 2.
  destruct (Z.gtb_spec batteryLevel 0), (float32_positive voltage); cbn [app] in Hs;
    rewrite ?app_nil_r in Hs; repeat read_field; cbn;
    rewrite ?(uint32_small batteryLevel) by lia; try done.
  all: by assert (batteryLevel = 0) as -> by lia.
Qed.

(** Telemetry survives the trip.  The MeshPacket [BuildDeviceMetrics]
    broadcasts is decoded to the telemetry port, and its payload by
    [decodeTelemetryPayload] to device metrics with the given battery level,
    the given voltage when it is a positive number, and nothing else. *)
Theorem device_metrics_roundtrip fuel rnd batteryLevel voltage :
  (6 <= fuel)%nat -> 0 <= batteryLevel < 2 ^ 32 -> 0 <= voltage < 2 ^ 32 ->
  exists mp payload,
    BuildDeviceMetrics rnd batteryLevel voltage = encodeLengthDelimited 1 mp /\
    decodeMeshPacket fuel mp = Ret (sentPacket rnd BroadcastAddr PortNumTelemetry payload) /\
    decodeTelemetryPayload fuel payload
    = Ret (Some (DeviceMetrics.mk batteryLevel
                   (if float32_positive voltage then voltage else 0) 0 0 0), None).
Proof.
  intros Hfuel Hb Hv. set (dmp := deviceMetricsPayload batteryLevel voltage).
  exists (buildMeshPacket rnd BroadcastAddr
    (dataMessage false PortNumTelemetry (encodeLengthDelimited 2 dmp))),
    (encodeLengthDelimited 2 dmp).
  assert (zlen dmp < 100) as Hd.
  { unfold dmp, deviceMetricsPayload, encodeFloat32Field.
    destruct (batteryLevel >? 0), (float32_positive voltage); wire_size; lia. }
  pose proof (zlen_encodeLengthDelimited 2 dmp) as Hl.
  pose proof (zlen_dataMessage false PortNumTelemetry (encodeLengthDelimited 2 dmp)).
  split; [done|split].
  - apply decode_buildMeshPacket; [done|by vm_compute|lia|].
    apply decode_dataMessage; [lia|by vm_compute|lia].
  - destruct fuel as [|fuel]; [lia|]. unfold decodeTelemetryPayload.
    set (pkt := encodeLengthDelimited 2 dmp) in *.
    pose proof (suffix_at_0 pkt) as Hs. unfold pkt in Hs at 2.
    repeat read_field; [|reflexivity].
    intros q. unfold decodeTelemetryPayload_bytes. cbn [Z.eqb Pos.eqb].
    unfold dmp. by rewrite decode_deviceMetricsPayload by lia.
Qed.

Lemma device_metrics_roundtrip_witness :
  exists mp payload,
    BuildDeviceMetrics [x01; x02; x03; x04] 87 0x40833333 = encodeLengthDelimited 1 mp /\
    decodeMeshPacket 6 mp
    = Ret (sentPacket [x01; x02; x03; x04] BroadcastAddr PortNumTelemetry payload) /\
    decodeTelemetryPayload 6 payload
    = Ret (Some (DeviceMetrics.mk 87
                   (if float32_positive 0x40833333 then 0x40833333 else 0) 0 0 0), None).
Proof. apply device_metrics_roundtrip; lia. Defined.
