(* ===== verification/Classify.v ===== *)
(** What the dispatcher reads off a text message: the text functions at the
    top of [internal/meshtastic/dispatcher.go] ([extractSensorShortID],
    [isAHSensorOutput], [isGateSensorData]) and the [PortNum] names of
    [portnums.go].

    The two regular expressions are written out as matchers over the bytes
    of the message. *)
From S2P Require Import Prelude GoStrings.

(** ** Definitions *)

(** *** [^([A-Z0-9]{2,5}):\s] *)
Definition isUpperAlnum (c : Ascii.ascii) : bool :=
  (65 <=? code c) && (code c <=? 90) || (48 <=? code c) && (code c <=? 57).

(** [\s] is a tab, newline, form feed, carriage return or blank. *)
Definition isRegexpSpace (c : Ascii.ascii) : bool :=
  (code c =? 9) || (code c =? 10) || (code c =? 12) || (code c =? 13) || (code c =? 32).

(** The longest prefix of characters satisfying [f], and what follows it. *)
Fixpoint spanWhile (f : Ascii.ascii -> bool) (s : string) : string * string :=
  match s with
  | EmptyString => (EmptyString, EmptyString)
  | String c s' =>
      if f c then let '(a, b) := spanWhile f s' in (String c a, b)
      else (EmptyString, s)
  end.

(** A colon is not in the class, so the group is the longest run. *)
Definition sensorShortIDRe (s : string) : option string :=
  let '(id, rest) := spanWhile isUpperAlnum s in
  match rest with
  | String c (String d _) =>
      if (2 <=? slen id) && (slen id <=? 5) && (code c =? 58) && isRegexpSpace d
      then Some id else None
  | _ => None
  end.

Definition sensorShortIDReservedKeywords : list string :=
  ["ALL"; "STATUS"; "DRONE"; "SCAN"; "TARGET"; "DEVICE"; "ATTACK"; "GPS"; "CAM"; "TAMPER";
   "SETUP"; "ERASE"; "RTC"; "CONFIG"; "STOP"; "REBOOT"; "HB"; "BASE"; "RANDOM"; "DEAUTH";
   "TRI"; "BATT"; "VIBR"; "ANOM"; "STARTUP"; "NODE"].

Definition extractSensorShortID (payload : string) : string :=
  match sensorShortIDRe (TrimLeft_blank payload) with
  | None => ""
  | Some id => if bool_decide (id ∈ sensorShortIDReservedKeywords) then "" else id
  end.

(** *** [(?i)\bType:([A-Za-z][A-Za-z0-9_]+)\b]

    Under [(?i)] the letter classes also hold the two characters whose case
    folding is ASCII, U+017F and U+212A; [\b] is an ASCII word boundary. *)
Definition isWordChar (c : Ascii.ascii) : bool :=
  (65 <=? code c) && (code c <=? 90) || (97 <=? code c) && (code c <=? 122) ||
  (48 <=? code c) && (code c <=? 57) || (code c =? 95).

Definition longS : string := bytes_string [0xC5; 0xBF].
Definition kelvin : string := bytes_string [0xE2; 0x84; 0xAA].

(** One character of [A-Za-z0-9_], case folded, and the rest. *)
Definition classRune (s : string) : option (string * string) :=
  if HasPrefix s longS then Some (longS, string_drop 2 s)
  else if HasPrefix s kelvin then Some (kelvin, string_drop 3 s)
  else match s with
       | String c s' => if isWordChar c then Some (String c EmptyString, s') else None
       | EmptyString => None
       end.

Fixpoint classRun (fuel : nat) (s : string) : list string :=
  match fuel with
  | O => []
  | S fuel' =>
      match classRune s with
      | Some (r, s') => r :: classRun fuel' s'
      | None => []
      end
  end.

Definition wordRune (r : string) : bool :=
  match r with String c EmptyString => isWordChar c | _ => false end.

Definition letterRune (r : string) : bool :=
  match r with
  | String c EmptyString =>
      (65 <=? code c) && (code c <=? 90) || (97 <=? code c) && (code c <=? 122)
  | _ => true
  end.

(** The longest prefix of the run, of [2] or more characters, that ends at a
    word boundary: what the greedy [+] followed by [\b] settles on. *)
Fixpoint longestAtBoundary (k : nat) (acc : string) (runes : list string) : option string :=
  match runes with
  | [] => None
  | r :: rs =>
      let next := match rs with r' :: _ => wordRune r' | [] => false end in
      match longestAtBoundary (S k) (acc +:+ r) rs with
      | Some m => Some m
      | None => if (1 <=? k)%nat && xorb (wordRune r) next then Some (acc +:+ r) else None
      end
  end.

Definition typeFieldHere (s : string) : option string :=
  if bool_decide (smap lowerASCII (String.substring 0 5 s) = "type:")
  then match classRun (String.length s) (string_drop 5 s) with
       | r :: rs => if letterRune r then longestAtBoundary 0 EmptyString (r :: rs) else None
       | [] => None
       end
  else None.

(** The leftmost match; [prev] says that a word character precedes [s]. *)
Fixpoint sensorTypeFieldRe_from (prev : bool) (s : string) : option string :=
  match s with
  | EmptyString => None
  | String c s' =>
      match (if prev then None else typeFieldHere s) with
      | Some m => Some m
      | None => sensorTypeFieldRe_from (isWordChar c) s'
      end
  end.
Definition sensorTypeFieldRe (s : string) : option string := sensorTypeFieldRe_from false s.

Definition knownSensorTypes : list string :=
  ["GATESENSOR"; "GATE"; "DOOR"; "WINDOW"; "MOTION"].

Definition ahKeywords : list string :=
  ["STATUS:"; "DRONE:"; "TARGET:"; "DEVICE:"; "ATTACK:"; "ANOMALY-"; "VIBRATION:";
   "BASELINE_STATUS:"; "TRIANGULATE_"; "CAM:"; "CAM_FACE:"; "CAM_PLATE:"; "HEARTBEAT:";
   "NODE_HB"; "STARTUP:"; "TAMPER_"; "_ACK:"; "_ACK "; "ANTIHUNTER"; "T_D:"; "T_F:"; "T_C:";
   "_DONE:"; "ERASE_"; "IDENTITY:"; "SETUP_MODE:"; "BATTERY_SAVER"; "RTC_SYNC:"].

Section Text.
Context `{Unicode}.

Definition isAHSensorOutput (text : string) : bool :=
  let upper := ToUpper text in
  if HasPrefix (TrimLeft_blank upper) "@" then false
  else existsb (Contains upper) ahKeywords ||
       Contains upper "TEMP:" && Contains upper "GPS:".

Definition isGateSensorData (text : string) : bool :=
  if negb (Contains (ToUpper text) "STATUS:") then false
  else match sensorTypeFieldRe text with
       | None => false
       | Some m => bool_decide (ToUpper m ∈ knownSensorTypes)
       end.
End Text.

(** *** Port numbers *)
Definition PortNumUnknown : Z := 0.
Definition PortNumTextMessage : Z := 1.
Definition PortNumPosition : Z := 3.
Definition PortNumNodeInfo : Z := 4.
Definition PortNumRouting : Z := 5.
Definition PortNumAdmin : Z := 6.
Definition PortNumDetectionSensor : Z := 10.
Definition PortNumTelemetry : Z := 67.
Definition PortNumTraceroute : Z := 70.

Definition portNames : list (Z * string) :=
  [(0, "UNKNOWN"); (1, "TEXT_MESSAGE"); (2, "REMOTE_HARDWARE"); (3, "POSITION");
   (4, "NODEINFO"); (5, "ROUTING"); (6, "ADMIN"); (7, "TEXT_MESSAGE_COMPRESSED");
   (8, "WAYPOINT"); (9, "AUDIO"); (10, "DETECTION_SENSOR"); (32, "REPLY");
   (33, "IP_TUNNEL"); (34, "PAXCOUNTER"); (64, "SERIAL"); (65, "STORE_FORWARD");
   (66, "RANGE_TEST"); (67, "TELEMETRY"); (68, "ZPS"); (69, "SIMULATOR");
   (70, "TRACEROUTE"); (71, "NEIGHBOR_INFO"); (72, "ATAK_PLUGIN"); (73, "MAP_REPORT");
   (74, "POWER_STRESS"); (256, "PRIVATE"); (257, "ATAK_FORWARDER")].

Definition PortNum_String (p : Z) : string :=
  match find (fun '(q, _) => p =? q) portNames with
  | Some (_, name) => name
  | None => "UNKNOWN"
  end.

(** ** Examples *)
Example shortID_ex : extractSensorShortID " HB64: STATUS: Mode:BLE" = "HB64".
Proof. reflexivity. Qed.
Example shortID_reserved : extractSensorShortID "DRONE: abc" = "".
Proof. reflexivity. Qed.
Example shortID_long : extractSensorShortID "TOOLONG: abc" = "".
Proof. reflexivity. Qed.
Example gate_ex : @isGateSensorData asciiUnicode "Front: STATUS: Mode:X type:Gate, a" = true.
Proof. reflexivity. Qed.
Example gate_no_boundary :
  @isGateSensorData asciiUnicode "Front: STATUS: SubType:Gate" = false.
Proof. reflexivity. Qed.
Example gate_command : @isGateSensorData asciiUnicode "@ALL STATUS: Type:DOOR" = true.
Proof. reflexivity. Qed.

(** ** Lemmas *)
Lemma TrimLeft_blank_first s :
  match TrimLeft_blank s with
  | String c _ => code c <> 32 /\ code c <> 9
  | EmptyString => True
  end.
Proof.
  induction s as [|c s IH]; cbn; [done|].
  destruct (Z.eqb_spec (code c) 32), (Z.eqb_spec (code c) 9); cbn; done.
Qed.

Lemma code_upperASCII c :
  (code (upperASCII c) = 32 <-> code c = 32) /\
  (code (upperASCII c) = 9 <-> code c = 9) /\
  (code (upperASCII c) = 64 <-> code c = 64).
Proof. destruct c as [[] [] [] [] [] [] [] []]; vm_compute; naive_solver. Qed.

Lemma HasPrefix_char s c :
  HasPrefix s (String c EmptyString)
  = match s with String d _ => bool_decide (c = d) | EmptyString => false end.
Proof.
  destruct s as [|d s]; [done|]. rewrite HasPrefix_cons.
  assert (HasPrefix s "" = true) as -> by (by destruct s).
  rewrite andb_true_r. apply bool_decide_ext. naive_solver.
Qed.

Lemma sensorShortIDRe_upper s id c s' :
  sensorShortIDRe s = Some id -> s = String c s' -> isUpperAlnum c = true.
Proof.
  unfold sensorShortIDRe. intros Hm ->. cbn [spanWhile] in Hm.
  destruct (isUpperAlnum c); [done|].
  change (slen EmptyString) with 0 in Hm. cbn in Hm. by destruct s'.
Qed.

Lemma TrimLeft_blank_ToUpper `{UL : UnicodeLaws} s c s' :
  TrimLeft_blank s = String c s' -> code c < 128 ->
  TrimLeft_blank (ToUpper s) = String (upperASCII c) (ToUpper s').
Proof.
  intros Ht Hc. pose proof (TrimLeft_blank_first s) as Hb. rewrite Ht in Hb.
  revert Ht. induction s as [|d s IH]; [done|]. cbn [TrimLeft_blank].
  destruct (code_upperASCII d) as (H1 & H2 & _).
  destruct (Z.eqb_spec (code d) 32) as [E|E], (Z.eqb_spec (code d) 9) as [E'|E'];
    cbn [orb]; intros Ht; [lia| | |].
  1,2: rewrite ToUpper_cons by lia; cbn [TrimLeft_blank].
  - destruct (Z.eqb_spec (code (upperASCII d)) 32); [cbn [orb]; by apply IH|tauto].
  - destruct (Z.eqb_spec (code (upperASCII d)) 9); [rewrite orb_true_r; by apply IH|tauto].
  - injection Ht as -> ->. rewrite ToUpper_cons by done. cbn [TrimLeft_blank].
    destruct (Z.eqb_spec (code (upperASCII c)) 32), (Z.eqb_spec (code (upperASCII c)) 9);
      cbn [orb]; tauto.
Qed.

(** An operator's command, [@TARGET ...]. *)
Definition operatorCommand (text : string) : bool := HasPrefix (TrimLeft_blank text) "@".

Lemma operatorCommand_inv text :
  operatorCommand text = true ->
  exists s, TrimLeft_blank text = String (byte_char 64) s.
Proof.
  unfold operatorCommand. rewrite HasPrefix_char.
  destruct (TrimLeft_blank text) as [|c s]; [done|]. case_bool_decide as Hc; [|done].
  intros _. exists s. by rewrite <- Hc.
Qed.

Lemma command_not_AH `{UL : UnicodeLaws} text :
  operatorCommand text = true -> isAHSensorOutput text = false.
Proof.
  intros (s & Hs)%operatorCommand_inv. unfold isAHSensorOutput.
  by rewrite (TrimLeft_blank_ToUpper _ _ _ Hs), HasPrefix_char by done.
Qed.

Lemma command_no_shortID text :
  operatorCommand text = true -> extractSensorShortID text = "".
Proof.
  intros (s & Hs)%operatorCommand_inv. unfold extractSensorShortID. rewrite Hs.
  destruct (sensorShortIDRe _) as [id|] eqn:E; [|done].
  pose proof (sensorShortIDRe_upper _ _ _ _ E eq_refl). done.
Qed.

(** A short id is never a keyword, and it is 2 to 5 upper-case letters or
    digits. *)
Lemma spanWhile_all f s : forallb f (String.list_ascii_of_string (spanWhile f s).1) = true.
Proof.
  induction s as [|c s IH]; [done|]. cbn [spanWhile].
  destruct (f c) eqn:E; [|done]. destruct (spanWhile f s) as [a b]. cbn in *.
  by rewrite E.
Qed.

Lemma extractSensorShortID_shape payload :
  extractSensorShortID payload <> "" ->
  (extractSensorShortID payload ∉ sensorShortIDReservedKeywords) /\
  2 <= slen (extractSensorShortID payload) <= 5 /\
  forallb isUpperAlnum (String.list_ascii_of_string (extractSensorShortID payload)) = true.
Proof.
  unfold extractSensorShortID, sensorShortIDRe.
  pose proof (spanWhile_all isUpperAlnum (TrimLeft_blank payload)) as Ha.
  destruct (spanWhile isUpperAlnum _) as [id [|c [|d rest]]]; try done.
  destruct (Z.leb_spec 2 (slen id)), (Z.leb_spec (slen id) 5); cbn [andb]; try done.
  destruct (_ && _); [|done]. case_bool_decide; [done|]. done.
Qed.
