(* ===== verification/Dispatcher.v ===== *)
(** The packet dispatcher, [internal/meshtastic/dispatcher.go].

    [HandlePacket] takes the dispatcher state and a decoded FromRadio packet
    and returns the new state with the calls it makes on the registered
    handlers, in order.  A panic or an endless loop in a payload decoder is
    the outcome of the whole call. *)
From Stdlib Require Import Sorting.Sorted.
From S2P Require Import Prelude GoStrings Varint Messages MeshPayload Classify.

(** ** Definitions *)

(** Durations and instants are nanoseconds. *)
Definition second : Z := 1000000000.
Definition dedupWindow : Z := 15 * second.

(** [metricsReqCh]: [None] is nil, [Some slot] the one-slot channel. *)
Record Dispatcher : Type := mkDispatcher {
  dedup : gmap Z Z;
  localNodeSeen : bool;
  localNodeNum : Z;
  pendingFirmware : string;
  metricsReqCh : option (option DeviceMetrics.t)
}.

Definition NewDispatcher : Dispatcher := mkDispatcher ∅ false 0 "" None.

Definition set_dedup (m : gmap Z Z) (d : Dispatcher) : Dispatcher :=
  mkDispatcher m (localNodeSeen d) (localNodeNum d) (pendingFirmware d) (metricsReqCh d).
Definition set_local (num : Z) (d : Dispatcher) : Dispatcher :=
  mkDispatcher (dedup d) true num (pendingFirmware d) (metricsReqCh d).
Definition set_pendingFirmware (fw : string) (d : Dispatcher) : Dispatcher :=
  mkDispatcher (dedup d) (localNodeSeen d) (localNodeNum d) fw (metricsReqCh d).
Definition set_metricsReqCh (ch : option (option DeviceMetrics.t)) (d : Dispatcher)
    : Dispatcher :=
  mkDispatcher (dedup d) (localNodeSeen d) (localNodeNum d) (pendingFirmware d) ch.

(** Which handlers and callbacks are registered (not nil). *)
Record wiring : Type := mkWiring {
  nodeHandler : bool; droneHandler : bool; chatHandler : bool;
  statusRequestHandler : bool; adminReplyHandler : bool; strandedHook : bool;
  onDeviceTime : bool; onAlertEval : bool; onWebhookFire : bool; serialMgr : bool
}.
Definition allWired : wiring :=
  mkWiring true true true true true true true true true true.

(** The calls the dispatcher makes. *)
Inductive action : Type :=
| OnDeviceTimeNow (now : Z)
| OnDeviceTime (unixSeconds : Z)
| TouchNode (nodeNum rxSNR rxRSSI : Z)
| ClassifyNode (nodeNum : Z) (nodeType : string)
| MarkLocal (nodeNum : Z)
| SetFirmwareVersion (nodeNum : Z) (firmware : string)
| HandleNodeInfo (info : NodeInfoLite.t)
| StoreConfig (cfg : ConfigPayload.t)
| ObserveInboundPacket (from : Z) (channelHash portNum : Z)
| HandleTextMessage (from to channel : Z) (text : string)
| HandleStatusRequest (from to channel : Z) (text : string)
| WebhookTextMessage (from to channel : Z) (text : string)
| ProcessMeshText (from to channel : Z) (text : string)
| SetLastMessage (nodeNum : Z) (msg : string)
| SetSensorShortID (nodeNum : Z) (shortID : string)
| HandlePosition (from : Z) (pos : PositionData.t)
| WebhookPosition (from : Z) (pos : PositionData.t)
| HandleTelemetry (from : Z) (metrics : DeviceMetrics.t)
| HandleEnvironment (from : Z) (env : EnvironmentMetrics.t)
| HandleDroneDetection (from : Z) (payload : bytes)
| AlertEval (nodeID : string)
| WebhookDroneDetection (from payloadLen : Z)
| HandleRoutingAck (from requestID : Z) (payload : bytes)
| HandleAdminReply (from requestID : Z) (payload : bytes).

Definition when (b : bool) (l : list action) : list action := if b then l else [].

(** *** Duplicate suppression *)
Definition dedupKey (mp : MeshPacketData.t) : Z :=
  Z.lor (Z.shiftl (MeshPacketData.From mp) 32) (MeshPacketData.ID mp).

Definition prune (now : Z) (m : gmap Z Z) : gmap Z Z :=
  if (512 <? size m)%nat
  then filter (fun kt => ~ kt.2 < now - dedupWindow) m
  else m.

Definition isDuplicate (m : gmap Z Z) (mp : MeshPacketData.t) (now : Z) : bool * gmap Z Z :=
  let key := dedupKey mp in
  let dup := match m !! key with
             | Some last => now - last <? dedupWindow
             | None => false
             end in
  if dup then (true, m) else (false, prune now (<[key := now]> m)).

(** *** handleMeshPacket *)
Section Handlers.
Context `{Unicode}.
Variable fuel : nat.
Variable w : wiring.

(** [GetLongName] is the node handler's answer at the time of the call. *)
Variable GetLongName : Z -> string.

Definition classifyText (from : Z) (text : string) : string :=
  if isGateSensorData text then "gatesensor"
  else if negb (bool_decide (extractSensorShortID text = "")) || isAHSensorOutput text
  then "antihunter"
  else if HasPrefix (GetLongName from) "GoTailMe" then "gotailme"
  else "operator".

Definition touchAndClassify (mp : MeshPacketData.t) : list action :=
  let from := MeshPacketData.From mp in
  let portNum := MeshPacketData.PortNum mp in
  when (nodeHandler w && negb (from =? 0))
    (TouchNode from (MeshPacketData.RxSNR mp) (MeshPacketData.RxRSSI mp) ::
     (if (portNum =? PortNumTextMessage) && (zlen (MeshPacketData.Payload mp) >? 0)
      then [ClassifyNode from (classifyText from (string_of_bytes (MeshPacketData.Payload mp)))]
      else when (portNum =? PortNumDetectionSensor) [ClassifyNode from "antihunter"])).

Definition handleText (mp : MeshPacketData.t) : list action :=
  let from := MeshPacketData.From mp in
  let to := MeshPacketData.To mp in
  let channel := MeshPacketData.Channel mp in
  let payload := string_of_bytes (MeshPacketData.Payload mp) in
  let nonEmpty := zlen (MeshPacketData.Payload mp) >? 0 in
  when (chatHandler w && nonEmpty) [HandleTextMessage from to channel payload] ++
  when (statusRequestHandler w && nonEmpty) [HandleStatusRequest from to channel payload] ++
  when (onWebhookFire w && nonEmpty) [WebhookTextMessage from to channel payload] ++
  when (serialMgr w && nonEmpty)
    (ProcessMeshText from to channel payload ::
     when (nodeHandler w && isAHSensorOutput payload)
       (SetLastMessage from payload ::
        when (negb (bool_decide (extractSensorShortID payload = "")))
          [SetSensorShortID from (extractSensorShortID payload)])).

Definition handlePosition (mp : MeshPacketData.t) : outcome (list action) :=
  let from := MeshPacketData.From mp in
  if nodeHandler w && (zlen (MeshPacketData.Payload mp) >? 0) then
    let! pos := decodePositionPayload fuel (MeshPacketData.Payload mp) in
    Ret (HandlePosition from pos ::
         when ((PositionData.Time pos >? 0) && onDeviceTime w)
           [OnDeviceTime (PositionData.Time pos)] ++
         when (onWebhookFire w) [WebhookPosition from pos])
  else Ret [].

(** The non-blocking send on the one-slot channel. *)
Definition deliverMetricsResponse (dm : DeviceMetrics.t) (d : Dispatcher) : Dispatcher :=
  match metricsReqCh d with
  | Some None => set_metricsReqCh (Some (Some dm)) d
  | _ => d
  end.

Definition handleTelemetry (mp : MeshPacketData.t) (d : Dispatcher)
    : outcome (Dispatcher * list action) :=
  let from := MeshPacketData.From mp in
  if zlen (MeshPacketData.Payload mp) >? 0 then
    let! m := decodeTelemetryPayload fuel (MeshPacketData.Payload mp) in
    let acts :=
      match m.1 with
      | Some dm => when (nodeHandler w) [HandleTelemetry from dm]
      | None => []
      end ++
      match m.2 with
      | Some em => when (nodeHandler w) [HandleEnvironment from em]
      | None => []
      end in
    let d' :=
      match m.1 with
      | Some dm => if from =? localNodeNum d then deliverMetricsResponse dm d else d
      | None => d
      end in
    Ret (d', acts)
  else Ret (d, []).

Definition handleDetection (mp : MeshPacketData.t) : list action :=
  let from := MeshPacketData.From mp in
  when (droneHandler w) [HandleDroneDetection from (MeshPacketData.Payload mp)] ++
  when (onAlertEval w) [AlertEval ("!" +:+ hex08x from)] ++
  when (onWebhookFire w) [WebhookDroneDetection from (zlen (MeshPacketData.Payload mp))].

Definition handleMeshPacket (now : Z) (mp : MeshPacketData.t) (d : Dispatcher)
    : outcome (Dispatcher * list action) :=
  let '(dup, m) := isDuplicate (dedup d) mp now in
  if dup then Ret (d, [])
  else
    let d := set_dedup m d in
    let from := MeshPacketData.From mp in
    let portNum := MeshPacketData.PortNum mp in
    let observe :=
      when (strandedHook w && negb (from =? 0) && negb (from =? localNodeNum d))
        [ObserveInboundPacket from (uint8 (MeshPacketData.Channel mp)) portNum] in
    let first := observe ++ touchAndClassify mp in
    if portNum =? PortNumTextMessage then Ret (d, first ++ handleText mp)
    else if portNum =? PortNumPosition then
      let! acts := handlePosition mp in Ret (d, first ++ acts)
    else if portNum =? PortNumTelemetry then
      let! r := handleTelemetry mp d in Ret (r.1, first ++ r.2)
    else if portNum =? PortNumDetectionSensor then Ret (d, first ++ handleDetection mp)
    else if portNum =? PortNumRouting then
      Ret (d, first ++ when (adminReplyHandler w)
        [HandleRoutingAck from (MeshPacketData.RequestID mp) (MeshPacketData.Payload mp)])
    else if portNum =? PortNumAdmin then
      Ret (d, first ++ when (adminReplyHandler w)
        [HandleAdminReply from (MeshPacketData.RequestID mp) (MeshPacketData.Payload mp)])
    else Ret (d, first).

(** *** HandlePacket *)
Definition reportFirmware (num : Z) (d : Dispatcher) : list action :=
  when (negb (bool_decide (pendingFirmware d = "")))
    [SetFirmwareVersion num (pendingFirmware d)].

Definition handleMyInfo (now : Z) (info : MyNodeInfo.t) (d : Dispatcher)
    : Dispatcher * list action :=
  let num := MyNodeInfo.MyNodeNum info in
  let d' := if negb (num =? 0) then set_local num d else d in
  (d', when (onDeviceTime w) [OnDeviceTimeNow now] ++
       when (nodeHandler w && negb (num =? 0))
         ([TouchNode num 0 0; ClassifyNode num "gotailme"; MarkLocal num] ++
          reportFirmware num d')).

Definition handleNodeInfo (info : NodeInfoLite.t) (d : Dispatcher)
    : Dispatcher * list action :=
  let num := NodeInfoLite.Num info in
  if nodeHandler w then
    if negb (localNodeSeen d) && negb (num =? 0) then
      (set_local num d, HandleNodeInfo info :: MarkLocal num :: reportFirmware num d)
    else if (num =? localNodeNum d) && negb (localNodeNum d =? 0) then
      (d, HandleNodeInfo info :: MarkLocal num :: reportFirmware num d)
    else (d, [HandleNodeInfo info])
  else (d, []).

Definition handleMetadata (meta : DeviceMetadata.t) (d : Dispatcher)
    : Dispatcher * list action :=
  let fw := DeviceMetadata.FirmwareVersion meta in
  if bool_decide (fw = "") then (d, [])
  else
    (set_pendingFirmware fw d,
     when (nodeHandler w && localNodeSeen d && negb (localNodeNum d =? 0))
       [SetFirmwareVersion (localNodeNum d) fw]).

Definition HandlePacket (now : Z) (pkt : FromRadioPacket.t) (d : Dispatcher)
    : outcome (Dispatcher * list action) :=
  match FromRadioPacket.Type_ pkt with
  | FromRadioMyInfo =>
      match FromRadioPacket.MyInfo pkt with
      | Some info => Ret (handleMyInfo now info d)
      | None => Ret (d, [])
      end
  | FromRadioNodeInfo =>
      match FromRadioPacket.NodeInfo pkt with
      | Some info => Ret (handleNodeInfo info d)
      | None => Ret (d, [])
      end
  | FromRadioMeshPacket =>
      match FromRadioPacket.MeshPacket pkt with
      | Some mp => handleMeshPacket now mp d
      | None => Ret (d, [])
      end
  | FromRadioConfig =>
      match FromRadioPacket.Config pkt with
      | Some cfg => Ret (d, when (serialMgr w) [StoreConfig cfg])
      | None => Ret (d, [])
      end
  | FromRadioMetadata =>
      match FromRadioPacket.Metadata pkt with
      | Some meta => Ret (handleMetadata meta d)
      | None => Ret (d, [])
      end
  | _ => Ret (d, [])
  end.

(** The serial manager calls [HandlePacket] for each packet in turn. *)
Fixpoint HandlePackets (l : list (Z * FromRadioPacket.t)) (d : Dispatcher)
    : outcome (Dispatcher * list action) :=
  match l with
  | [] => Ret (d, [])
  | (now, pkt) :: l' =>
      let! r := HandlePacket now pkt d in
      let! r' := HandlePackets l' r.1 in
      Ret (r'.1, r.2 ++ r'.2)
  end.
End Handlers.

(** *** RequestDeviceMetrics

    The call up to its blocking [select] ([begin]) and its return
    ([finish]); between the two, packets are dispatched.  [sendOK] is the
    result of [SendToRadio]. *)
Inductive metricsError : Type :=
| ErrNoSerialManager
| ErrLocalNodeUnknown
| ErrRequestInFlight
| ErrSendFailed
| ErrContextDone.

Definition RequestDeviceMetrics_begin (w : wiring) (sendOK : bool) (d : Dispatcher)
    : Dispatcher * option metricsError :=
  if negb (serialMgr w) then (d, Some ErrNoSerialManager)
  else if localNodeNum d =? 0 then (d, Some ErrLocalNodeUnknown)
  else match metricsReqCh d with
       | Some _ => (d, Some ErrRequestInFlight)
       | None =>
           if sendOK then (set_metricsReqCh (Some None) d, None)
           else (set_metricsReqCh None d, Some ErrSendFailed)
       end.

(** [select]: the response, or the context's end; when both are ready the
    choice is arbitrary ([preferCtx]).  The deferred function clears the
    channel.  [None] is "still blocked". *)
Definition RequestDeviceMetrics_finish (ctxDone preferCtx : bool) (d : Dispatcher)
    : option (Dispatcher * (DeviceMetrics.t + metricsError)) :=
  match metricsReqCh d with
  | Some (Some dm) =>
      Some (set_metricsReqCh None d,
            if ctxDone && preferCtx then inr ErrContextDone else inl dm)
  | _ => if ctxDone then Some (set_metricsReqCh None d, inr ErrContextDone) else None
  end.

(** ** Duplicate suppression against its history

    The specification keeps every accepted packet for ever: a packet is a
    duplicate when one with the same sender and id was accepted less than
    15 seconds ago. *)
Definition arrival : Type := Z * MeshPacketData.t.

Definition samePacket (mp mp' : MeshPacketData.t) : Prop :=
  MeshPacketData.From mp = MeshPacketData.From mp' /\
  MeshPacketData.ID mp = MeshPacketData.ID mp'.

#[export] Instance samePacket_dec mp mp' : Decision (samePacket mp mp').
Proof. apply _. Defined.

Definition seenRecently (now : Z) (mp : MeshPacketData.t) (accepted : list arrival) : Prop :=
  Exists (fun a => samePacket a.2 mp /\ now - a.1 < dedupWindow) accepted.

#[export] Instance seenRecently_dec now mp acc : Decision (seenRecently now mp acc).
Proof. apply Exists_dec. intros a. apply _. Defined.

(** The verdicts on a sequence of arrivals: by the code and by the
    specification. *)
Fixpoint dedupRun (m : gmap Z Z) (l : list arrival) : list bool :=
  match l with
  | [] => []
  | (now, mp) :: l' => let '(dup, m') := isDuplicate m mp now in dup :: dedupRun m' l'
  end.

Fixpoint dedupSpec (accepted : list arrival) (l : list arrival) : list bool :=
  match l with
  | [] => []
  | (now, mp) :: l' =>
      let dup := bool_decide (seenRecently now mp accepted) in
      dup :: dedupSpec (if dup then accepted else (now, mp) :: accepted) l'
  end.

Definition packetIds (mp : MeshPacketData.t) : Prop :=
  0 <= MeshPacketData.From mp < 2 ^ 32 /\ 0 <= MeshPacketData.ID mp < 2 ^ 32.

Lemma dedupKey_inj mp mp' :
  packetIds mp -> packetIds mp' -> dedupKey mp = dedupKey mp' <-> samePacket mp mp'.
Proof.
  intros [Hf Hi] [Hf' Hi']. unfold dedupKey, samePacket.
  rewrite !(Z.lor_comm (Z.shiftl _ 32)), !lor_shiftl_add by lia. lia.
Qed.

Lemma prune_lookup now m k t :
  now - dedupWindow <= t -> m !! k = Some t -> prune now m !! k = Some t.
Proof.
  intros Ht Hk. unfold prune. destruct (512 <? size m)%nat; [|done].
  apply map_lookup_filter_Some. cbn. split; [done|lia].
Qed.

Lemma prune_lookup_inv now m k t : prune now m !! k = Some t -> m !! k = Some t.
Proof.
  unfold prune. destruct (512 <? size m)%nat; [|done].
  by intros [? _]%map_lookup_filter_Some.
Qed.

(** The simulation relation at time [now]: every entry stands for an
    accepted packet, and every accepted packet of the last 15 seconds has an
    entry with its time. *)
Definition dedupRel (now : Z) (m : gmap Z Z) (accepted : list arrival) : Prop :=
  Forall (fun a => packetIds a.2) accepted /\
  (forall k t, m !! k = Some t -> exists mp, (t, mp) ∈ accepted /\ dedupKey mp = k) /\
  (forall t mp, (t, mp) ∈ accepted -> now - t < dedupWindow -> m !! dedupKey mp = Some t).

Lemma dedupRel_later now now' m acc : now <= now' -> dedupRel now m acc -> dedupRel now' m acc.
Proof.
  intros Hle (H1 & H2 & H3). split; [done|split; [done|]]. intros. apply H3; [done|lia].
Qed.

Lemma dedupRel_verdict now m acc mp :
  dedupRel now m acc -> packetIds mp ->
  (isDuplicate m mp now).1 = bool_decide (seenRecently now mp acc).
Proof.
  intros (H1 & H2 & H3) Hmp. rewrite Forall_forall in H1. unfold isDuplicate.
  assert ((match m !! dedupKey mp with
           | Some last => now - last <? dedupWindow | None => false end) = true
          <-> seenRecently now mp acc) as Hiff.
  { unfold seenRecently. rewrite Exists_exists. split.
    - destruct (m !! dedupKey mp) as [t|] eqn:E; [|done]. intros Ht%Z.ltb_lt.
      destruct (H2 _ _ E) as (mp' & Hin & Hk). exists (t, mp'). split; [done|split; [|done]].
      apply (dedupKey_inj mp' mp); [by apply (H1 _ Hin)|done..].
    - intros ((t & mp') & Hin & Hs & Ht). cbn in Hs, Ht.
      rewrite <- (dedupKey_inj mp' mp) in Hs by (done || by apply (H1 _ Hin)).
      rewrite <- Hs, (H3 _ _ Hin Ht). by apply Z.ltb_lt. }
  destruct (match m !! dedupKey mp with Some _ => _ | None => _ end); cbn [fst].
  - symmetry. by apply bool_decide_true, Hiff.
  - symmetry. apply bool_decide_false. by intros Hs%Hiff.
Qed.

Lemma dedupRel_accept now m acc mp m' :
  dedupRel now m acc -> packetIds mp -> isDuplicate m mp now = (false, m') ->
  dedupRel now m' ((now, mp) :: acc).
Proof.
  intros HR Hmp HD. pose proof (dedupRel_verdict now m acc mp HR Hmp) as Hv.
  rewrite HD in Hv. symmetry in Hv. cbn in Hv. apply bool_decide_eq_false in Hv.
  unfold isDuplicate in HD.
  destruct (match m !! dedupKey mp with Some _ => _ | None => _ end); [done|].
  injection HD as <-. destruct HR as (H1 & H2 & H3). split; [by constructor|split].
  - intros k t [[<- <-]|[Hne Hk]]%prune_lookup_inv%lookup_insert_Some.
    + exists mp. split; [by left|done].
    + destruct (H2 _ _ Hk) as (mp' & Hin & Hk'). exists mp'. split; [by right|done].
  - intros t mp' Hin Ht. apply prune_lookup; [lia|]. apply lookup_insert_Some.
    apply elem_of_cons in Hin as [[= -> ->]|Hin]; [by left|].
    rewrite Forall_forall in H1. right. split; [|by apply H3].
    intros Hk. apply Hv, Exists_exists. exists (t, mp'). split; [done|split; [|done]].
    apply (dedupKey_inj mp' mp); [by apply (H1 _ Hin)|done..].
Qed.

Lemma dedupRun_spec now m acc l :
  dedupRel now m acc -> Forall (fun a => packetIds a.2) l ->
  StronglySorted (fun a b => a.1 <= b.1) l -> Forall (fun a => now <= a.1) l ->
  dedupRun m l = dedupSpec acc l.
Proof.
  revert now m acc. induction l as [|[t mp] l IH]; intros now m acc HR Hids Hs Hnow; [done|].
  cbn [dedupRun dedupSpec]. apply Forall_cons in Hids as [Hmp Hids].
  apply Forall_cons in Hnow as [Ht _]. apply StronglySorted_inv in Hs as [Hs Hall].
  apply (dedupRel_later _ t) in HR; [|done]. cbn [fst snd] in *.
  pose proof (dedupRel_verdict _ _ _ _ HR Hmp) as Hv.
  destruct (isDuplicate m mp t) as [dup m'] eqn:E. cbn [fst] in Hv.
  rewrite <- Hv. f_equal.
  destruct dup.
  - apply (IH t); [|done..]. unfold isDuplicate in E.
    destruct (match m !! dedupKey mp with Some _ => _ | None => _ end); by simplify_eq.
  - apply (IH t); [|done..]. by eapply dedupRel_accept.
Qed.

(** ** Traces *)
Lemma isDuplicate_dup m mp now m' : isDuplicate m mp now = (true, m') -> m' = m.
Proof.
  unfold isDuplicate.
  destruct (match m !! dedupKey mp with Some _ => _ | None => _ end); congruence.
Qed.

(** The firmware version last reported in a trace. *)
Fixpoint lastFirmware (acts : list action) (acc : option (Z * string)) : option (Z * string) :=
  match acts with
  | [] => acc
  | SetFirmwareVersion num fw :: acts' => lastFirmware acts' (Some (num, fw))
  | _ :: acts' => lastFirmware acts' acc
  end.

Lemma lastFirmware_app a b acc : lastFirmware (a ++ b) acc = lastFirmware b (lastFirmware a acc).
Proof.
  revert acc. induction a as [|x a IH]; intros acc; [done|].
  cbn [app lastFirmware]. destruct x; apply IH.
Qed.

(** A trace that reports no firmware version. *)
Definition quiet (acts : list action) : Prop := forall acc, lastFirmware acts acc = acc.

Definition reportsFirmware (a : action) : bool :=
  match a with SetFirmwareVersion _ _ => true | _ => false end.

Lemma quiet_nil : quiet [].
Proof. done. Qed.
Lemma quiet_app a b : quiet a -> quiet b -> quiet (a ++ b).
Proof. intros Ha Hb acc. by rewrite lastFirmware_app, Ha, Hb. Qed.
Lemma quiet_when b a : quiet a -> quiet (when b a).
Proof. by destruct b. Qed.
Lemma quiet_cons x a :
  reportsFirmware x = false -> quiet a -> quiet (x :: a).
Proof. intros Hx Ha acc. by destruct x; cbn [lastFirmware]. Qed.

Create HintDb quiet.
#[export] Hint Resolve quiet_nil quiet_app quiet_when quiet_cons : quiet.
#[export] Hint Extern 0 (reportsFirmware _ = false) => reflexivity : quiet.

Section Lemmas.
Context `{Unicode}.
Variable fuel : nat.
Variable w : wiring.
Variable GetLongName : Z -> string.

Abbreviation handleMesh := (handleMeshPacket fuel w GetLongName).
Abbreviation handleOne := (HandlePacket fuel w GetLongName).
Abbreviation handleAll := (HandlePackets fuel w GetLongName).

Lemma quiet_touchAndClassify mp : quiet (touchAndClassify w GetLongName mp).
Proof. unfold touchAndClassify. destruct (_ && (zlen _ >? 0)); auto with quiet. Qed.

Lemma quiet_handleText mp : quiet (handleText w mp).
Proof. unfold handleText. auto 20 with quiet. Qed.

Lemma quiet_handleDetection mp : quiet (handleDetection w mp).
Proof. unfold handleDetection. auto 20 with quiet. Qed.

#[local] Hint Resolve quiet_touchAndClassify quiet_handleText quiet_handleDetection : quiet.

(** [handleMeshPacket] after the duplicate test. *)
Lemma handleMeshPacket_fresh now mp d m :
  isDuplicate (dedup d) mp now = (false, m) ->
  forall r, handleMesh now mp d = Ret r ->
  dedup r.1 = m /\ localNodeSeen r.1 = localNodeSeen d /\
  localNodeNum r.1 = localNodeNum d /\ pendingFirmware r.1 = pendingFirmware d /\ quiet r.2.
Proof.
  intros HD r Hr. unfold handleMeshPacket in Hr. rewrite HD in Hr.
  repeat match goal with
  | H : (if ?b then _ else _) = Ret r |- _ => destruct b
  end; try (injection Hr as <-; cbn [fst snd]; repeat split;
            auto 20 with quiet).
  - unfold handlePosition in Hr. destruct (_ && _).
    + destruct (decodePositionPayload _ _); [|done..]. injection Hr as <-.
      cbn [fst snd obind]. repeat split. auto 20 with quiet.
    + injection Hr as <-. cbn [fst snd]. repeat split. auto 20 with quiet.
  - unfold handleTelemetry in Hr. destruct (_ >? 0).
    + destruct (decodeTelemetryPayload _ _) as [[dm em]| |]; [|done..].
      injection Hr as <-. cbn [fst snd]. unfold deliverMetricsResponse.
      destruct dm; [destruct (_ =? _); [destruct (metricsReqCh _) as [[]|]|]|];
        destruct em; repeat split; auto 20 with quiet.
    + injection Hr as <-. cbn [fst snd]. repeat split. auto 20 with quiet.
Qed.

Lemma handleMeshPacket_frame now mp d r :
  handleMesh now mp d = Ret r ->
  localNodeSeen r.1 = localNodeSeen d /\ localNodeNum r.1 = localNodeNum d /\
  pendingFirmware r.1 = pendingFirmware d /\ quiet r.2.
Proof.
  destruct (isDuplicate (dedup d) mp now) as [[] m] eqn:HD; intros Hr.
  - unfold handleMeshPacket in Hr. rewrite HD in Hr. by injection Hr as <-.
  - by eapply handleMeshPacket_fresh in Hr as (_ & ?).
Qed.
(** What the node handler knows about the local node after a trace. *)
Definition localInv (d : Dispatcher) (tr : list action) : Prop :=
  localNodeSeen d = true ->
  localNodeNum d <> 0 /\ MarkLocal (localNodeNum d) ∈ tr /\
  (pendingFirmware d <> "" ->
   lastFirmware tr None = Some (localNodeNum d, pendingFirmware d)).

Lemma localInv_quiet d d' tr acts :
  localNodeSeen d' = localNodeSeen d -> localNodeNum d' = localNodeNum d ->
  pendingFirmware d' = pendingFirmware d -> quiet acts ->
  localInv d tr -> localInv d' (tr ++ acts).
Proof.
  unfold localInv. intros -> -> -> Hq HI Hseen. destruct (HI Hseen) as (H1 & H2 & H3).
  split; [done|split]; [apply elem_of_app; by left|].
  intros Hfw. by rewrite lastFirmware_app, Hq, H3.
Qed.

Lemma reportFirmware_last num d pre acc :
  pendingFirmware d <> "" -> 
  lastFirmware (pre ++ reportFirmware num d) acc = Some (num, pendingFirmware d).
Proof.
  intros Hfw. rewrite lastFirmware_app. unfold reportFirmware.
  by rewrite bool_decide_false.
Qed.

Hypothesis Hnode : nodeHandler w = true.

Lemma handleMyInfo_inv now info d tr :
  localInv d tr -> localInv (handleMyInfo w now info d).1 (tr ++ (handleMyInfo w now info d).2).
Proof.
  intros HI. unfold handleMyInfo. rewrite Hnode. cbn [fst snd andb].
  destruct (Z.eqb_spec (MyNodeInfo.MyNodeNum info) 0) as [E|E]; cbn [negb].
  - rewrite app_nil_r. apply (localInv_quiet d); auto with quiet.
  - intros _. cbn [set_local localNodeNum localNodeSeen pendingFirmware]. split; [done|split].
    + rewrite !elem_of_app. right. right. right. right. left.
    + intros Hfw. unfold when. rewrite !app_assoc. by rewrite (reportFirmware_last _ (set_local _ d)).
Qed.

Lemma localInv_pinned num d tr acts :
  num <> 0 -> localNodeNum d = num -> MarkLocal num ∈ acts ->
  (pendingFirmware d <> "" -> forall acc, lastFirmware acts acc = Some (num, pendingFirmware d)) ->
  localInv d (tr ++ acts).
Proof.
  intros Hnum <- Hm Hf _. split; [done|split]; [apply elem_of_app; by right|].
  intros Hfw. by rewrite lastFirmware_app, Hf.
Qed.

Lemma handleNodeInfo_inv info d tr :
  localInv d tr -> localInv (handleNodeInfo w info d).1 (tr ++ (handleNodeInfo w info d).2).
Proof.
  intros HI. unfold handleNodeInfo. rewrite Hnode.
  assert (forall num acc, pendingFirmware d <> "" ->
    lastFirmware (HandleNodeInfo info :: MarkLocal num :: reportFirmware num d) acc
    = Some (num, pendingFirmware d)) as Hlast.
  { intros num acc. apply (reportFirmware_last num d [HandleNodeInfo info; MarkLocal num]). }
  destruct (localNodeSeen d) eqn:Es, (Z.eqb_spec (NodeInfoLite.Num info) 0) as [E|E],
    (Z.eqb_spec (NodeInfoLite.Num info) (localNodeNum d)) as [El|El],
    (Z.eqb_spec (localNodeNum d) 0) as [E0|E0]; cbn [negb andb fst snd]; try lia;
    solve [ apply (localInv_quiet d); auto with quiet
          | apply (localInv_pinned (NodeInfoLite.Num info)); [done|done| |intros; by apply Hlast];
            rewrite !elem_of_cons; tauto ].
Qed.

Lemma handleMetadata_inv meta d tr :
  localInv d tr -> localInv (handleMetadata w meta d).1 (tr ++ (handleMetadata w meta d).2).
Proof.
  intros HI. unfold handleMetadata. rewrite Hnode. case_bool_decide as Hfw.
  - apply (localInv_quiet d); auto with quiet.
  - intros Hseen. destruct (HI Hseen) as (H1 & H2 & H3). cbn in Hseen |- *. rewrite Hseen.
    destruct (Z.eqb_spec (localNodeNum d) 0); [done|]. split; [done|split].
    + apply elem_of_app. by left.
    + intros _. by rewrite lastFirmware_app.
Qed.

Lemma HandlePacket_inv now pkt d tr r :
  handleOne now pkt d = Ret r -> localInv d tr -> localInv r.1 (tr ++ r.2).
Proof.
  intros Hr HI. unfold HandlePacket in Hr. destruct (FromRadioPacket.Type_ pkt).
  4: { destruct (FromRadioPacket.MeshPacket pkt) as [mp|].
       - apply handleMeshPacket_frame in Hr as (E1 & E2 & E3 & Hq). by apply (localInv_quiet d).
       - injection Hr as <-. apply (localInv_quiet d); auto with quiet. }
  all: repeat match goal with
       | H : context [match ?o with Some _ => _ | None => _ end] |- _ => destruct o
       end; injection Hr as <-; try (apply (localInv_quiet d); cbn [fst snd]; auto with quiet; done);
       auto using handleMyInfo_inv, handleNodeInfo_inv, handleMetadata_inv.
Qed.

Lemma HandlePackets_inv l d tr r :
  handleAll l d = Ret r -> localInv d tr -> localInv r.1 (tr ++ r.2).
Proof.
  revert d tr r. induction l as [|[now pkt] l IH]; intros d tr r Hr HI; cbn [HandlePackets] in Hr.
  - injection Hr as <-. cbn. by rewrite app_nil_r.
  - destruct (handleOne now pkt d) as [r1| |] eqn:E1; [|done..]. cbn [obind] in Hr.
    destruct (handleAll l r1.1) as [r2| |] eqn:E2; [|done..]. injection Hr as <-. cbn [fst snd].
    rewrite app_assoc. apply (IH r1.1); [done|]. by eapply HandlePacket_inv.
Qed.
End Lemmas.

(** ** Classification of operator commands *)
Lemma operator_command_quiet_text `{UL : UnicodeLaws} w GetLongName mp :
  operatorCommand (string_of_bytes (MeshPacketData.Payload mp)) = true ->
  MeshPacketData.PortNum mp = PortNumTextMessage ->
  forall a, a ∈ touchAndClassify w GetLongName mp ++ handleText w mp ->
  match a with
  | ClassifyNode _ t => t <> "antihunter"
  | SetLastMessage _ _ | SetSensorShortID _ _ => False
  | _ => True
  end.
Proof.
  intros Hop Hport a. unfold touchAndClassify, handleText, classifyText.
  rewrite Hport, (command_not_AH _ Hop), (command_no_shortID _ Hop), andb_false_r.
  change (negb (bool_decide ("" = ""))) with false.
  change (PortNumTextMessage =? PortNumTextMessage) with true.
  change (PortNumTextMessage =? PortNumDetectionSensor) with false.
  cbn [orb andb]. unfold when.
  repeat match goal with
  | |- context [if ?b then _ else _] => destruct b
  end; rewrite ?elem_of_app, ?elem_of_cons, ?elem_of_nil;
    intros; destruct_or?; try done; subst a; done.
Qed.

(** ** Metrics requests *)
Lemma handleMeshPacket_metrics `{Unicode} fuel w GetLongName now mp d r :
  handleMeshPacket fuel w GetLongName now mp d = Ret r ->
  metricsReqCh r.1 = metricsReqCh d \/
  (metricsReqCh d = Some None /\ MeshPacketData.From mp = localNodeNum d /\
   MeshPacketData.PortNum mp = PortNumTelemetry /\
   exists dm em, decodeTelemetryPayload fuel (MeshPacketData.Payload mp) = Ret (Some dm, em) /\
                 metricsReqCh r.1 = Some (Some dm)).
Proof.
  unfold handleMeshPacket. intros Hr.
  destruct (isDuplicate (dedup d) mp now) as [[] m]; [left; by injection Hr as <-|].
  destruct (Z.eqb_spec (MeshPacketData.PortNum mp) PortNumTextMessage);
    [left; by injection Hr as <-|].
  destruct (Z.eqb_spec (MeshPacketData.PortNum mp) PortNumPosition).
  { left. destruct (handlePosition _ _ _); [|done..]. by injection Hr as <-. }
  destruct (Z.eqb_spec (MeshPacketData.PortNum mp) PortNumTelemetry) as [Ht|].
  2: { left. lazy beta iota in Hr.
       repeat match type of Hr with (if ?b then _ else _) = _ => destruct b end;
         by injection Hr as <-. }
  unfold handleTelemetry in Hr.
  destruct (_ >? 0); [|left; by injection Hr as <-].
  destruct (decodeTelemetryPayload _ _) as [[dm em]| |]; [|done..].
  cbn [obind fst snd] in Hr. injection Hr as <-. cbn [fst].
  destruct dm as [dm|]; [|by left].
  destruct (Z.eqb_spec (MeshPacketData.From mp) (localNodeNum d)); [|by left].
  unfold deliverMetricsResponse. change (metricsReqCh (set_dedup m d)) with (metricsReqCh d).
  destruct (metricsReqCh d) as [[]|] eqn:E; [by left| |by left].
  right. repeat split; try done. by eexists _, _.
Qed.

(** ** Hostile payloads are not empty *)
Lemma zlen_app_pos (x y : bytes) : 1 <= zlen x -> (zlen (x ++ y) >? 0) = true.
Proof.
  intros Hx. rewrite zlen_app. pose proof (zlen_nonneg y).
  destruct (Z.gtb_spec (zlen x + zlen y) 0); [done|lia].
Qed.

Lemma backward_field_len f : 1 <= zlen (backward_field f).
Proof.
  unfold backward_field. set (a := encodeVarint (Z.lor _ 2)). rewrite zlen_app.
  assert (1 <= zlen a) by apply encodeVarint_len. zlen_nonneg_facts. lia.
Qed.

(** ** Properties *)

(** C26: duplicate suppression is exact.  However many packets arrive and
    whatever is pruned, the verdicts of [isDuplicate] on a sequence with
    non-decreasing arrival times are those of the unbounded specification: a
    packet is dropped exactly when a packet with the same sender and id was
    accepted less than 15 seconds before. *)
Theorem dedup_refines_history l :
  StronglySorted (fun a b => a.1 <= b.1) l -> Forall (fun a => packetIds a.2) l ->
  dedupRun ∅ l = dedupSpec [] l.
Proof.
  intros Hs Hids. destruct l as [|[t mp] l]; [done|].
  apply (dedupRun_spec t); [|done|done|].
  - split; [done|split]; [intros k t'; by rewrite lookup_empty|by intros ? ? ?%elem_of_nil].
  - apply StronglySorted_inv in Hs as [_ Hall]. by constructor.
Qed.

Definition pktA : MeshPacketData.t := MeshPacketData.set_From 7 (MeshPacketData.set_ID 9 MeshPacketData.zero).

Lemma dedup_refines_history_witness :
  dedupRun ∅ [(0, pktA); (14 * second, pktA); (15 * second, pktA)]
  = dedupSpec [] [(0, pktA); (14 * second, pktA); (15 * second, pktA)].
Proof.
  apply dedup_refines_history.
  - repeat (constructor; [|by repeat (constructor; [by vm_compute|])]). constructor.
  - repeat (constructor; [by vm_compute|]). constructor.
Defined.

(** A rebroadcast reaches no handler.  After a packet was accepted, any
    packet with the same sender and id that arrives less than 15 seconds
    later changes nothing and makes no call, whatever its contents. *)
Theorem rebroadcast_ignored `{Unicode} fuel w GetLongName now now' mp mp' d d1 acts m :
  isDuplicate (dedup d) mp now = (false, m) ->
  handleMeshPacket fuel w GetLongName now mp d = Ret (d1, acts) ->
  samePacket mp mp' -> now <= now' < now + dedupWindow ->
  handleMeshPacket fuel w GetLongName now' mp' d1 = Ret (d1, []).
Proof.
  intros HD Hr [Hf Hi] Hnow.
  destruct (handleMeshPacket_fresh _ _ _ _ _ _ _ HD _ Hr) as (Hm & _).
  assert (m !! dedupKey mp = Some now) as Hk.
  { unfold isDuplicate in HD.
    destruct (match dedup d !! dedupKey mp with Some _ => _ | None => _ end); [done|].
    injection HD as <-. apply prune_lookup; [unfold dedupWindow, second; lia|].
    by rewrite lookup_insert_eq. }
  unfold handleMeshPacket, isDuplicate. cbn [fst] in Hm.
  assert (dedupKey mp' = dedupKey mp) as -> by (unfold dedupKey; congruence).
  rewrite Hm, Hk. by destruct (Z.ltb_spec (now' - now) dedupWindow); [|lia].
Qed.

Lemma rebroadcast_ignored_witness :
  @handleMeshPacket asciiUnicode 10 allWired (fun _ => "") (14 * second) pktA
    (set_dedup {[dedupKey pktA := 0]} NewDispatcher)
  = Ret (set_dedup {[dedupKey pktA := 0]} NewDispatcher, []).
Proof.
  eapply (@rebroadcast_ignored asciiUnicode 10 allWired (fun _ => "") 0 (14 * second)
            pktA pktA NewDispatcher); [reflexivity|reflexivity|done|by vm_compute].
Defined.

(** The local node stays identified.  From start-up and over any
    sequence of packets, once the local node number is known the node handler
    has been told to mark exactly that node as local, and the firmware
    version last reported is the local node's with the latest version
    received, whether the metadata arrives before or after the identity. *)
Theorem local_node_tracked `{Unicode} fuel w GetLongName l d acts :
  nodeHandler w = true ->
  HandlePackets fuel w GetLongName l NewDispatcher = Ret (d, acts) ->
  localNodeSeen d = true ->
  localNodeNum d <> 0 /\ MarkLocal (localNodeNum d) ∈ acts /\
  (pendingFirmware d <> "" ->
   lastFirmware acts None = Some (localNodeNum d, pendingFirmware d)).
Proof.
  intros Hw Hr. by apply (HandlePackets_inv fuel w GetLongName Hw l NewDispatcher [] (d, acts)).
Qed.

Definition metadataPkt (fw : string) : FromRadioPacket.t :=
  FromRadioPacket.mk FromRadioMetadata [] None None None None
    (Some (DeviceMetadata.set_FirmwareVersion fw DeviceMetadata.zero)).
Definition myInfoPkt (num : Z) : FromRadioPacket.t :=
  FromRadioPacket.mk FromRadioMyInfo [] (Some (MyNodeInfo.set_MyNodeNum num MyNodeInfo.zero))
    None None None None.

Lemma local_node_tracked_witness :
  exists d acts,
    @HandlePackets asciiUnicode 10 allWired (fun _ => "")
      [(0, metadataPkt "2.6.1"); (1, myInfoPkt 42)] NewDispatcher = Ret (d, acts) /\
    (localNodeNum d <> 0 /\ MarkLocal (localNodeNum d) ∈ acts /\
     (pendingFirmware d <> "" ->
      lastFirmware acts None = Some (localNodeNum d, pendingFirmware d))).
Proof.
  eexists _, _. split; [reflexivity|].
  by eapply (@local_node_tracked asciiUnicode 10 allWired (fun _ => "")
    [(0, metadataPkt "2.6.1"); (1, myInfoPkt 42)]).
Defined.

(** Operator commands are not sensor output.  A text message that
    begins with [@] after blanks is never classified as coming from an
    AntiHunter sensor, and neither replaces the node's last message nor sets
    its sensor id, whatever follows and whatever handlers are registered. *)
Theorem operator_command_not_sensor `{UL : UnicodeLaws} fuel w GetLongName now mp d d' acts a :
  operatorCommand (string_of_bytes (MeshPacketData.Payload mp)) = true ->
  MeshPacketData.PortNum mp = PortNumTextMessage ->
  handleMeshPacket fuel w GetLongName now mp d = Ret (d', acts) -> a ∈ acts ->
  match a with
  | ClassifyNode _ t => t <> "antihunter"
  | SetLastMessage _ _ | SetSensorShortID _ _ => False
  | _ => True
  end.
Proof.
  intros Hop Hport Hr Ha. unfold handleMeshPacket in Hr. rewrite Hport in Hr.
  destruct (isDuplicate (dedup d) mp now) as [[] m].
  { injection Hr as <- <-. by apply elem_of_nil in Ha. }
  cbn [Z.eqb Pos.eqb PortNumTextMessage] in Hr. injection Hr as <- <-.
  rewrite <- app_assoc, elem_of_app in Ha. destruct Ha as [Ha|Ha].
  - unfold when in Ha. destruct (_ && _); [|by apply elem_of_nil in Ha].
    by apply list_elem_of_singleton in Ha as ->.
  - by eapply operator_command_quiet_text.
Qed.

Definition statusCommand : MeshPacketData.t :=
  MeshPacketData.set_Payload (bytes_of_string "@AH64 STATUS: HEARTBEAT:")
    (MeshPacketData.set_PortNum 1 (MeshPacketData.set_From 7 MeshPacketData.zero)).

Lemma operator_command_not_sensor_witness :
  exists d' acts,
    @handleMeshPacket asciiUnicode 10 allWired (fun _ => "") 0 statusCommand NewDispatcher
    = Ret (d', acts) /\ (ClassifyNode 7 "operator" ∈ acts) /\ "operator" <> "antihunter".
Proof.
  eexists _, _. split; [reflexivity|].
  split; [right; right; by left|].
  eapply (operator_command_not_sensor (U := asciiUnicode) 10 allWired (fun _ => "") 0
    statusCommand NewDispatcher _ _ (ClassifyNode 7 "operator"));
    [reflexivity|reflexivity|reflexivity|right; right; by left].
Defined.

(** Handling a packet terminates on benign payloads.  Unless the packet
    carries a mesh payload some byte offset of which decodes as a varint of
    [2^62] or more, [HandlePacket] returns, whatever the state and the
    registered handlers, within as many loop iterations as the payload has
    bytes. *)
Theorem handle_packet_total `{Unicode} fuel w GetLongName now pkt d :
  (forall mp, FromRadioPacket.MeshPacket pkt = Some mp ->
     benign (MeshPacketData.Payload mp) /\
     zlen (MeshPacketData.Payload mp) <= Z.of_nat fuel) ->
  exists r, HandlePacket fuel w GetLongName now pkt d = Ret r.
Proof.
  intros Hb. unfold HandlePacket. destruct (FromRadioPacket.Type_ pkt); eauto;
    try (match goal with |- context [match ?o with Some _ => _ | None => _ end] =>
           destruct o as [mp|] eqn:E end; eauto; fail).
  destruct (FromRadioPacket.MeshPacket pkt) as [mp|] eqn:E; [|by eexists].
  destruct (Hb mp eq_refl) as [Hp Hf]. unfold handleMeshPacket.
  destruct (isDuplicate (dedup d) mp now) as [[] m]; [by eexists|].
  repeat match goal with
  | |- exists r, (if ?b then _ else _) = Ret r => destruct b
  end; eauto; unfold handlePosition, handleTelemetry.
  - destruct (_ && _); [|by eexists].
    destruct (decodePositionPayload_total fuel _ Hp Hf) as [pos ->]. by eexists.
  - destruct (_ >? 0); [|by eexists].
    destruct (decodeTelemetryPayload_total fuel _ Hp Hf) as [r ->]. by eexists.
Qed.

Definition positionPkt (payload : bytes) : FromRadioPacket.t :=
  FromRadioPacket.mk FromRadioMeshPacket [] None None
    (Some (MeshPacketData.set_Payload payload
      (MeshPacketData.set_PortNum 3 (MeshPacketData.set_From 7 MeshPacketData.zero)))) None None.

Lemma handle_packet_total_witness :
  exists r, @HandlePacket asciiUnicode 5 allWired (fun _ => "") 0
    (positionPkt [x0d; x01; x00; x00; x00]) NewDispatcher = Ret r.
Proof.
  apply handle_packet_total. intros mp [= <-].
  split; [split; [by vm_compute|by apply sane_lengthsb_spec]|by vm_compute].
Defined.

(** Any node of the mesh can crash the server.  A telemetry packet from
    any sender that is not a duplicate, and whose payload starts with a
    length-delimited field declaring [2^63] bytes or more, makes
    [HandlePacket] panic, whatever the state and the handlers. *)
Theorem hostile_telemetry_panics `{Unicode} fuel w GetLongName now pkt d mp m f len rest :
  FromRadioPacket.Type_ pkt = FromRadioMeshPacket ->
  FromRadioPacket.MeshPacket pkt = Some mp ->
  isDuplicate (dedup d) mp now = (false, m) ->
  0 <= f < 2 ^ 61 -> 2 ^ 63 <= len < 2 ^ 64 -> zlen rest < 2 ^ 61 ->
  MeshPacketData.PortNum mp = PortNumTelemetry ->
  MeshPacketData.Payload mp
  = encodeVarint (Z.lor (uint64 (Z.shiftl f 3)) 2) ++ encodeVarint len ++ rest ->
  HandlePacket (S fuel) w GetLongName now pkt d = Panic.
Proof.
  intros Ht Hmp HD Hf Hl Hr Hport Hpay. unfold HandlePacket, handleMeshPacket.
  rewrite Ht, Hmp, HD, Hport. cbn -[Z.gtb]. unfold handleTelemetry.
  rewrite Hpay, zlen_app_pos by apply encodeVarint_len.
  by rewrite decodeTelemetryPayload_huge.
Qed.

Definition telemetryPkt (payload : bytes) : FromRadioPacket.t :=
  FromRadioPacket.mk FromRadioMeshPacket [] None None
    (Some (MeshPacketData.set_Payload payload
      (MeshPacketData.set_PortNum 67 (MeshPacketData.set_From 7 MeshPacketData.zero)))) None None.

Lemma hostile_telemetry_panics_witness :
  @HandlePacket asciiUnicode 1 allWired (fun _ => "") 0
    (telemetryPkt (encodeVarint (Z.lor (uint64 (Z.shiftl 2 3)) 2) ++
                   encodeVarint (2 ^ 64 - 1) ++ [])) NewDispatcher = Panic.
Proof.
  eapply (@hostile_telemetry_panics asciiUnicode 0 allWired (fun _ => "") 0 _ NewDispatcher
            _ _ 2 (2 ^ 64 - 1) []);
    [reflexivity|reflexivity|reflexivity|lia|lia|by vm_compute|reflexivity|reflexivity].
Defined.

(** Any node of the mesh can hang the server.  A position packet from
    any sender that is not a duplicate, and whose payload starts with
    [backward_field], keeps [HandlePacket] in an endless loop: it does not
    return for any fuel. *)
Theorem hostile_position_loops `{Unicode} fuel w GetLongName now pkt d mp m f rest :
  FromRadioPacket.Type_ pkt = FromRadioMeshPacket ->
  FromRadioPacket.MeshPacket pkt = Some mp ->
  isDuplicate (dedup d) mp now = (false, m) ->
  0 <= f < 2 ^ 61 -> zlen rest < 2 ^ 61 -> nodeHandler w = true ->
  MeshPacketData.PortNum mp = PortNumPosition ->
  MeshPacketData.Payload mp = backward_field f ++ rest ->
  HandlePacket fuel w GetLongName now pkt d = Diverge.
Proof.
  intros Ht Hmp HD Hf Hr Hw Hport Hpay. unfold HandlePacket, handleMeshPacket.
  rewrite Ht, Hmp, HD, Hport. cbn -[Z.gtb]. unfold handlePosition.
  rewrite Hpay, Hw, zlen_app_pos by apply backward_field_len.
  cbn [andb]. by rewrite decodePositionPayload_backward.
Qed.

Lemma hostile_position_loops_witness :
  @HandlePacket asciiUnicode 1000 allWired (fun _ => "") 0
    (positionPkt (backward_field 1 ++ [])) NewDispatcher = Diverge.
Proof.
  eapply (@hostile_position_loops asciiUnicode 1000 allWired (fun _ => "") 0 _ NewDispatcher
            _ _ 1 []);
    [reflexivity|reflexivity|reflexivity|lia|by vm_compute|reflexivity|reflexivity|reflexivity].
Defined.

(** Metrics requests.  While a request is in flight every further one is
    refused without touching it; its channel is filled only by a telemetry
    packet from the local node that carries device metrics, and then the
    request returns exactly those metrics, unless the context's end is
    chosen; when it returns the channel is cleared, so that a new request can
    start. *)
Theorem metrics_request_protocol `{Unicode} fuel w GetLongName now mp sendOK d r :
  metricsReqCh d = Some None -> serialMgr w = true -> localNodeNum d <> 0 ->
  handleMeshPacket fuel w GetLongName now mp d = Ret r ->
  RequestDeviceMetrics_begin w sendOK d = (d, Some ErrRequestInFlight) /\
  (metricsReqCh r.1 = Some None /\ RequestDeviceMetrics_finish false false r.1 = None \/
   MeshPacketData.From mp = localNodeNum d /\
   MeshPacketData.PortNum mp = PortNumTelemetry /\
   exists dm em,
     decodeTelemetryPayload fuel (MeshPacketData.Payload mp) = Ret (Some dm, em) /\
     RequestDeviceMetrics_finish false false r.1 = Some (set_metricsReqCh None r.1, inl dm)) /\
  (forall ctxDone preferCtx d' res,
     RequestDeviceMetrics_finish ctxDone preferCtx r.1 = Some (d', res) ->
     metricsReqCh d' = None).
Proof.
  intros Hch Hw Hnum Hr. split; [|split].
  - unfold RequestDeviceMetrics_begin. rewrite Hw, Hch. cbn [negb].
    by destruct (Z.eqb_spec (localNodeNum d) 0).
  - destruct (handleMeshPacket_metrics _ _ _ _ _ _ _ Hr) as [E|(_ & Hf & Hp & dm & em & Hd & E)].
    + left. unfold RequestDeviceMetrics_finish. by rewrite E, Hch.
    + right. split; [done|split; [done|]]. exists dm, em. split; [done|].
      unfold RequestDeviceMetrics_finish. by rewrite E.
  - intros ctxDone preferCtx d' res. unfold RequestDeviceMetrics_finish.
    destruct (metricsReqCh r.1) as [[]|], ctxDone; intros [= <- _]; done.
Qed.

Lemma metrics_request_protocol_witness :
  let d := set_metricsReqCh (Some None) (set_local 7 NewDispatcher) in
  let mp := MeshPacketData.set_Payload [x12; x02; x08; x57]
    (MeshPacketData.set_PortNum 67 (MeshPacketData.set_From 7 MeshPacketData.zero)) in
  exists r, @handleMeshPacket asciiUnicode 5 allWired (fun _ => "") 0 mp d = Ret r /\
  RequestDeviceMetrics_begin allWired true d = (d, Some ErrRequestInFlight).
Proof.
  eexists. split; [reflexivity|].
  eapply (@metrics_request_protocol asciiUnicode 5 allWired (fun _ => "") 0
    (MeshPacketData.set_Payload [x12; x02; x08; x57]
      (MeshPacketData.set_PortNum 67 (MeshPacketData.set_From 7 MeshPacketData.zero))) true
    (set_metricsReqCh (Some None) (set_local 7 NewDispatcher)));
    [reflexivity|reflexivity|done|reflexivity].
Defined.
