(* ===== verification/Tracker.v ===== *)
(** The admin transaction tracker, [internal/fleetsec/transactions.go].

    [Tracker] correlates routing acknowledgements and admin replies with
    outbound packets.  Its methods, its watcher goroutines and the contexts
    they wait on run concurrently; the model is a state with one [event] per
    atomic piece of code (a critical section, a call of [cancel], a channel
    send followed by its close), and every interleaving is a list of events.
    Transactions are objects in a heap: the map holds pointers to them, and a
    goroutine between its critical section and its channel send holds one
    too.

    The generated protobuf package is not part of the sources: its message
    types and [proto.Unmarshal] are parameters. *)
From S2P Require Import Prelude.

(** ** Definitions *)
Inductive ReplyKind : Type :=
| ReplyRoutingAck
| ReplyAdminMsg
| ReplyTimeout
| ReplyCancelled.

Inductive replyErr : Type :=
| ErrTransactionTimeout
| ErrParentContext
| ErrUnmarshal.

Inductive beginErr : Type :=
| ErrZeroID
| ErrDuplicateID.

(** [txCtx.Err()]: nil, [DeadlineExceeded] or [Canceled]. *)
Inductive ctxState : Type := Live | DeadlineExceeded | Canceled.

#[export] Instance ctxState_eq_dec : EqDecision ctxState.
Proof. solve_decision. Defined.
#[export] Instance ReplyKind_eq_dec : EqDecision ReplyKind.
Proof. solve_decision. Defined.

(** meshpb and proto.Unmarshal. *)
Class MeshPB : Type := {
  Routing : Type;
  AdminMessage : Type;
  errorReasonNone : Routing -> bool;  (** [GetErrorReason() == Routing_NONE] *)
  unmarshalRouting : bytes -> option Routing;
  unmarshalAdmin : bytes -> option AdminMessage;
}.

Section Tracker.
Context `{PB : MeshPB}.

Record Reply : Type := mkReply {
  Kind : ReplyKind;
  From : Z;
  rRouting : option Routing;
  rAdmin : option AdminMessage;
  Err : option replyErr
}.

Definition Successful (r : Reply) : bool :=
  match Kind r, rRouting r with
  | ReplyRoutingAck, Some routing => errorReasonNone routing
  | _, _ => false
  end.

(** [reply] holds the values sent on the channel; [watching] says that the
    watcher goroutine has not run yet; [parentDone] is [ctx.Err() != nil]
    for the caller's context. *)
Record pendingTx : Type := mkTx {
  id : Z;
  kind : string;
  reply : list Reply;
  closed : bool;
  txCtx : ctxState;
  parentDone : bool;
  watching : bool;
  expectsAdminReply : bool;
  expectedFrom : Z
}.

Definition set_ctx (c : ctxState) (t : pendingTx) : pendingTx :=
  mkTx (id t) (kind t) (reply t) (closed t) c (parentDone t) (watching t)
    (expectsAdminReply t) (expectedFrom t).
Definition set_parentDone (t : pendingTx) : pendingTx :=
  mkTx (id t) (kind t) (reply t) (closed t) (txCtx t) true (watching t)
    (expectsAdminReply t) (expectedFrom t).
Definition stop_watching (t : pendingTx) : pendingTx :=
  mkTx (id t) (kind t) (reply t) (closed t) (txCtx t) (parentDone t) false
    (expectsAdminReply t) (expectedFrom t).
Definition send_close (r : Reply) (t : pendingTx) : pendingTx :=
  mkTx (id t) (kind t) (reply t ++ [r]) true (txCtx t) (parentDone t) (watching t)
    (expectsAdminReply t) (expectedFrom t).

(** A goroutine that took a transaction out of the map and is about to
    call [tx.cancel()] (unless [dCancelled]) and send its reply. *)
Record delivery : Type := mkDelivery { dTx : nat; dReply : Reply; dCancelled : bool }.

Record State : Type := mkState {
  transactions : gmap Z nat;
  heap : list pendingTx;
  delivering : list delivery
}.

Definition NewTracker : State := mkState ∅ [] [].

Definition update (p : nat) (f : pendingTx -> pendingTx) (s : State) : State :=
  mkState (transactions s) (alter f p (heap s)) (delivering s).

(** *** Begin *)
Definition Begin (id : Z) (kind : string) (expectsAdminReply : bool) (expectedFrom : Z)
    (s : State) : State * (nat + beginErr) :=
  if id =? 0 then (s, inr ErrZeroID)
  else match transactions s !! id with
       | Some _ => (s, inr ErrDuplicateID)
       | None =>
           let p := length (heap s) in
           (mkState (<[id := p]> (transactions s))
              (heap s ++ [mkTx id kind [] false Live false true expectsAdminReply expectedFrom])
              (delivering s), inl p)
       end.

(** The critical section of [removeAndClose], and of the two handlers once
    they decided to resolve the transaction. *)
Definition take (id : Z) (p : nat) (r : Reply) (s : State) : State :=
  mkState (delete id (transactions s)) (heap s) (delivering s ++ [mkDelivery p r false]).

(** *** The watcher goroutine, once [txCtx.Done()] is closed *)
Definition watcherReply (t : pendingTx) : Reply :=
  match txCtx t with
  | DeadlineExceeded => mkReply ReplyTimeout 0 None None (Some ErrTransactionTimeout)
  | _ => mkReply ReplyCancelled 0 None None
           (if parentDone t then Some ErrParentContext else None)
  end.

Definition watcher (p : nat) (s : State) : State :=
  match heap s !! p with
  | Some t =>
      if watching t && bool_decide (txCtx t <> Live) then
        let s := update p stop_watching s in
        match transactions s !! id t with
        | Some q => take (id t) q (watcherReply t) s
        | None => s
        end
      else s
  | None => s
  end.

(** *** HandleRoutingAck and HandleAdminReply *)
Definition accepts (from : Z) (t : pendingTx) : bool :=
  negb (negb (expectedFrom t =? 0) && negb (from =? expectedFrom t)).

Definition routingFailed (payload : bytes) : bool :=
  match unmarshalRouting payload with
  | None => true
  | Some routing => negb (errorReasonNone routing)
  end.

Definition routingReply (from : Z) (payload : bytes) : Reply :=
  match unmarshalRouting payload with
  | None => mkReply ReplyRoutingAck from None None (Some ErrUnmarshal)
  | Some routing => mkReply ReplyRoutingAck from (Some routing) None None
  end.

Definition adminReply (from : Z) (payload : bytes) : Reply :=
  match unmarshalAdmin payload with
  | None => mkReply ReplyAdminMsg from None None (Some ErrUnmarshal)
  | Some admin => mkReply ReplyAdminMsg from None (Some admin) None
  end.

(** The transaction [t.transactions[requestID]]. *)
Definition lookupTx (requestID : Z) (s : State) : option (nat * pendingTx) :=
  match transactions s !! requestID with
  | Some p => match heap s !! p with Some t => Some (p, t) | None => None end
  | None => None
  end.

Definition HandleRoutingAck (from requestID : Z) (payload : bytes) (s : State) : State :=
  if requestID =? 0 then s
  else match lookupTx requestID s with
       | None => s
       | Some (p, t) =>
           if negb (accepts from t) then s
           else if expectsAdminReply t && negb (routingFailed payload) then s
           else take requestID p (routingReply from payload) s
       end.

Definition HandleAdminReply (from requestID : Z) (payload : bytes) (s : State) : State :=
  if requestID =? 0 then s
  else match lookupTx requestID s with
       | None => s
       | Some (p, t) =>
           if negb (accepts from t) then s
           else take requestID p (adminReply from payload) s
       end.

Definition Pending (s : State) : nat := size (transactions s).

(** *** Deliveries: [tx.cancel()], then [tx.reply <- r; close(tx.reply)] *)
Definition cancel (t : pendingTx) : pendingTx :=
  if decide (txCtx t = Live) then set_ctx Canceled t else t.

Definition callCancel (k : nat) (s : State) : State :=
  match delivering s !! k with
  | Some (mkDelivery p r false) =>
      mkState (transactions s) (alter cancel p (heap s))
        (<[k := mkDelivery p r true]> (delivering s))
  | _ => s
  end.

(** Sending on a closed channel panics. *)
Definition sendReply (k : nat) (s : State) : outcome State :=
  match delivering s !! k with
  | Some (mkDelivery p r true) =>
      match heap s !! p with
      | Some t =>
          if closed t then Panic
          else Ret (mkState (transactions s) (alter (send_close r) p (heap s))
                      (delete k (delivering s)))
      | None => Ret s
      end
  | _ => Ret s
  end.

(** *** Interleavings

    [EDeadline] and [EParentCancel] are the context package at work; an
    event that is not enabled does nothing. *)
Inductive event : Type :=
| EBegin (id : Z) (kind : string) (expectsAdminReply : bool) (expectedFrom : Z)
| EDeadline (p : nat)
| EParentCancel (p : nat)
| EWatcher (p : nat)
| ERoutingAck (from requestID : Z) (payload : bytes)
| EAdminReply (from requestID : Z) (payload : bytes)
| ECancel (k : nat)
| ESend (k : nat).

Definition deadline (t : pendingTx) : pendingTx :=
  if decide (txCtx t = Live) then set_ctx DeadlineExceeded t else t.

Definition exec (e : event) (s : State) : outcome State :=
  match e with
  | EBegin id kind ea ef => Ret (Begin id kind ea ef s).1
  | EDeadline p => Ret (update p deadline s)
  | EParentCancel p => Ret (update p (fun t => cancel (set_parentDone t)) s)
  | EWatcher p => Ret (watcher p s)
  | ERoutingAck from rid payload => Ret (HandleRoutingAck from rid payload s)
  | EAdminReply from rid payload => Ret (HandleAdminReply from rid payload s)
  | ECancel k => Ret (callCancel k s)
  | ESend k => sendReply k s
  end.

Fixpoint run (es : list event) (s : State) : outcome State :=
  match es with
  | [] => Ret s
  | e :: es' => let! s' := exec e s in run es' s'
  end.
(** ** The invariant

    Every transaction object is in exactly one of three places: the map
    (pending), a goroutine about to deliver, or done with exactly one reply
    on its closed channel. *)
Definition dptrs (s : State) : list nat := dTx <$> delivering s.
Definition drefs (s : State) : list (nat * Reply) :=
  (fun d => (dTx d, dReply d)) <$> delivering s.

(** The replies a transaction may get. *)
Definition legit (t : pendingTx) (r : Reply) : Prop :=
  match Kind r with
  | ReplyRoutingAck =>
      (expectedFrom t <> 0 -> From r = expectedFrom t) /\
      (expectsAdminReply t = true -> Successful r = false)
  | ReplyAdminMsg => expectedFrom t <> 0 -> From r = expectedFrom t
  | _ => From r = 0 /\ rRouting r = None /\ rAdmin r = None
  end.

Record inv (s : State) : Prop := {
  inv_nodup : NoDup (dptrs s);
  inv_map i p : transactions s !! i = Some p ->
    exists t, heap s !! p = Some t /\ id t = i /\ closed t = false /\ (p ∉ dptrs s);
  inv_owner p : p ∈ dptrs s -> exists t, heap s !! p = Some t /\ closed t = false;
  inv_tx p t : heap s !! p = Some t ->
    (closed t = true /\ exists r, reply t = [r]) \/
    (closed t = false /\ reply t = [] /\ (transactions s !! id t = Some p \/ p ∈ dptrs s));
  inv_deliv d t : d ∈ delivering s -> heap s !! dTx d = Some t -> legit t (dReply d);
  inv_legit p t r : heap s !! p = Some t -> r ∈ reply t -> legit t r
}.

(** Two objects that differ in their context and watcher only. *)
Definition core (t t' : pendingTx) : Prop :=
  id t' = id t /\ reply t' = reply t /\ closed t' = closed t /\
  expectsAdminReply t' = expectsAdminReply t /\ expectedFrom t' = expectedFrom t.

Lemma core_refl t : core t t.
Proof. done. Qed.
Lemma core_trans t1 t2 t3 : core t1 t2 -> core t2 t3 -> core t1 t3.
Proof. unfold core. intros. destruct_and!. repeat split; congruence. Qed.
Lemma core_stop t : core t (stop_watching t).
Proof. done. Qed.
Lemma core_cancel t : core t (cancel t).
Proof. unfold cancel. by case_decide. Qed.
Lemma core_deadline t : core t (deadline t).
Proof. unfold deadline. by case_decide. Qed.
Lemma core_parent t : core t (cancel (set_parentDone t)).
Proof. by eapply core_trans, core_cancel. Qed.

Lemma legit_core t t' r : core t t' -> legit t r -> legit t' r.
Proof. unfold core, legit. intros (_ & _ & _ & -> & ->). done. Qed.

(** A step that keeps the map, the goroutines' replies and the core of every
    object keeps the invariant. *)
Lemma inv_core s s' :
  transactions s' = transactions s ->
  drefs s' = drefs s ->
  (forall p t', heap s' !! p = Some t' -> exists t, heap s !! p = Some t /\ core t t') ->
  (forall p t, heap s !! p = Some t -> exists t', heap s' !! p = Some t' /\ core t t') ->
  inv s -> inv s'.
Proof.
  intros Hm Hd Hb Hf [A B C D E F].
  assert (dptrs s' = dptrs s) as Hp.
  { apply (f_equal (fmap fst)) in Hd. unfold drefs in Hd. by rewrite <- !list_fmap_compose in Hd. }
  split; rewrite ?Hm, ?Hp; [done| | | | |].
  - intros i p (t & Ht & <- & Hc & Hn)%B. destruct (Hf _ _ Ht) as (t' & Ht' & Hco).
    exists t'. split; [done|]. destruct Hco as (-> & _ & -> & _). done.
  - intros p (t & Ht & Hc)%C. destruct (Hf _ _ Ht) as (t' & Ht' & Hco).
    exists t'. split; [done|]. by destruct Hco as (_ & _ & -> & _).
  - intros p t' (t & Ht & (-> & -> & -> & _))%Hb. by apply D.
  - intros d t' Hin (t & Ht & Hco)%Hb.
    apply (list_elem_of_fmap_2 (fun d => (dTx d, dReply d))) in Hin.
    fold (drefs s') in Hin. rewrite Hd in Hin. apply list_elem_of_fmap_1 in Hin as (d0 & [= Hdt Hdr] & Hin).
    rewrite Hdr. rewrite Hdt in Ht. by eapply legit_core, E.
  - intros p t' r (t & Ht & Hco)%Hb Hin. eapply legit_core; [done|].
    apply (F p); [done|]. by destruct Hco as (_ & <- & _).
Qed.

Lemma heap_alter_core (h : list pendingTx) p f :
  (forall t, core t (f t)) ->
  (forall q t', alter f p h !! q = Some t' -> exists t, h !! q = Some t /\ core t t') /\
  (forall q t, h !! q = Some t -> exists t', alter f p h !! q = Some t' /\ core t t').
Proof.
  intros Hf. split; intros q t; rewrite list_lookup_alter; case_decide as Hq.
  - subst q. destruct (h !! p) as [t0|]; [|done]. intros [= <-]. by exists t0.
  - intros Ht. exists t. by split.
  - subst q. intros ->. by exists (f t).
  - intros Ht. exists t. by split.
Qed.

Lemma inv_update s p f : (forall t, core t (f t)) -> inv s -> inv (update p f s).
Proof.
  intros Hf. destruct (heap_alter_core (heap s) p f Hf). by apply inv_core.
Qed.

Lemma inv_callCancel s k : inv s -> inv (callCancel k s).
Proof.
  intros HI. unfold callCancel. destruct (delivering s !! k) as [[p r []]|] eqn:E; [done| |done].
  destruct (heap_alter_core (heap s) p cancel core_cancel).
  apply (inv_core s); [done| |done..|done]. unfold drefs. cbn [delivering].
  rewrite list_fmap_insert. apply list_insert_id. by rewrite list_lookup_fmap, E.
Qed.

Lemma dptrs_take i p r s : dptrs (take i p r s) = dptrs s ++ [p].
Proof. unfold dptrs, take. cbn [delivering]. by rewrite fmap_app. Qed.

Lemma inv_take i p r s t :
  inv s -> transactions s !! i = Some p -> heap s !! p = Some t -> legit t r ->
  inv (take i p r s).
Proof.
  intros HI Hm Ht Hr. destruct HI as [A B C D E F].
  destruct (B _ _ Hm) as (t0 & Ht0 & Hid & Hc & Hn). assert (t0 = t) as -> by congruence.
  split; rewrite ?dptrs_take; cbn [take transactions heap delivering].
  - apply NoDup_app. split; [done|]. split; [|apply NoDup_singleton].
    by intros q Hq ->%list_elem_of_singleton.
  - intros j q [Hj Hq]%lookup_delete_Some. destruct (B _ _ Hq) as (u & Hu & Hju & Hcu & Hnu).
    exists u. split; [done|split; [done|split; [done|]]]. rewrite elem_of_app.
    intros [?|Hqp%list_elem_of_singleton]; [done|]. subst q. congruence.
  - intros q [Hq| ->%list_elem_of_singleton]%elem_of_app; [by apply C|by exists t].
  - intros q u Hu. destruct (D q u Hu) as [?|(Hcu & Hru & Ho)]; [by left|right].
    split; [done|split; [done|]]. rewrite elem_of_app.
    destruct Ho as [Ho|Ho]; [|by right; left].
    destruct (decide (id u = i)) as [<-|Hne].
    + right. right. apply list_elem_of_singleton. congruence.
    + left. by rewrite lookup_delete_ne by congruence.
  - intros d u [Hd| ->%list_elem_of_singleton]%elem_of_app Hu; [by eapply E|].
    cbn [dTx dReply] in *. by simplify_eq.
  - done.
Qed.

Lemma inv_Begin i k ea ef s : inv s -> inv (Begin i k ea ef s).1.
Proof.
  intros HI. unfold Begin. destruct (i =? 0); [done|].
  destruct (transactions s !! i) eqn:Hi; [done|]. destruct HI as [A B C D E F]. cbn [fst].
  set (tx := mkTx i k [] false Live false true ea ef).
  assert (forall q u, (heap s ++ [tx]) !! q = Some u ->
            heap s !! q = Some u \/ q = length (heap s) /\ u = tx) as Happ.
  { intros q u [?|[Hge Hq]]%lookup_app_Some; [by left|right].
    apply list_lookup_singleton_Some in Hq as [? <-]. split; [lia|done]. }
  assert (forall q u, heap s !! q = Some u -> (heap s ++ [tx]) !! q = Some u) as Hold.
  { intros q u Hq. by apply lookup_app_l_Some. }
  assert ((heap s ++ [tx]) !! length (heap s) = Some tx) as Hnew.
  { rewrite lookup_app_r by lia. by rewrite Nat.sub_diag. }
  assert (length (heap s) ∉ dptrs s) as Hfresh.
  { intros (u & Hu & _)%C. apply lookup_lt_Some in Hu. lia. }
  split; cbn [transactions heap delivering];
    change (dptrs (mkState _ _ (delivering s))) with (dptrs s); [done| | | | |].
  - intros j q [[<- <-]|[Hne Hq]]%lookup_insert_Some; [by exists tx|].
    destruct (B _ _ Hq) as (u & Hu & ?). exists u. split; [by apply Hold|done].
  - intros q (u & Hu & Hc)%C. exists u. split; [by apply Hold|done].
  - intros q u [Hu|[-> ->]]%Happ.
    + destruct (D q u Hu) as [?|(Hcu & Hru & Ho)]; [by left|right].
      split; [done|split; [done|]]. destruct Ho as [Ho|Ho]; [left|by right].
      rewrite lookup_insert_ne; [done|]. intros ->. congruence.
    + right. split; [done|split; [done|]]. left. by rewrite lookup_insert_eq.
  - intros d u Hd [Hu|[Hp _]]%Happ; [by eapply E|].
    exfalso. apply Hfresh. rewrite <- Hp. by apply list_elem_of_fmap_2.
  - intros q u r [Hu|[-> ->]]%Happ; [by eapply F|by intros ?%elem_of_nil].
Qed.

(** Sending: the invariant rules out the panic. *)
Lemma inv_sendReply k s : inv s -> exists s', sendReply k s = Ret s' /\ inv s'.
Proof.
  intros HI. unfold sendReply.
  destruct (delivering s !! k) as [[p r []]|] eqn:Hk; [|by eexists..].
  pose proof (list_elem_of_lookup_2 _ _ _ Hk) as Hin.
  assert (p ∈ dptrs s) as Hp by apply (list_elem_of_fmap_2 dTx _ _ Hin).
  destruct (inv_owner s HI p Hp) as (t & Ht & Hc). rewrite Ht, Hc. eexists; split; [done|].
  pose proof (inv_deliv s HI _ t Hin Ht) as Hr. cbn in Hr.
  assert (transactions s !! id t <> Some p) as Hnm.
  { intros (? & _ & _ & _ & Hn)%(inv_map s HI). done. }
  destruct HI as [A B C D E F].
  destruct (D p t Ht) as [[? _]|(_ & Hempty & _)]; [congruence|].
  assert (dptrs (mkState (transactions s) (alter (send_close r) p (heap s))
            (delete k (delivering s))) = delete k (dptrs s)) as Hdp.
  { unfold dptrs. cbn [delivering]. apply list_fmap_delete. }
  assert (dptrs s !! k = Some p) as Hkp by (unfold dptrs; by rewrite list_lookup_fmap, Hk).
  destruct (NoDup_delete_elem _ _ _ A Hkp) as [HN Hmem].
  split; rewrite ?Hdp; [done| | | | |]; cbn [transactions heap delivering].
  - intros j q Hq. destruct (B _ _ Hq) as (u & Hu & Hj & Hcu & Hnq).
    exists u. rewrite list_lookup_alter_ne by congruence. rewrite Hmem.
    split; [done|split; [done|split; [done|]]]. by intros [? _].
  - intros q [Hq Hne]%Hmem. destruct (C q Hq) as (u & Hu & Hcu). exists u.
    by rewrite list_lookup_alter_ne by congruence.
  - intros q u Hu. rewrite list_lookup_alter in Hu. case_decide as Hpq.
    + subst q. rewrite Ht in Hu. injection Hu as <-. left. split; [done|].
      exists r. cbn [reply send_close]. by rewrite Hempty.
    + destruct (D q u Hu) as [?|(Hcu & Hru & Ho)]; [by left|right].
      split; [done|split; [done|]]. destruct Ho as [Ho|Ho]; [by left|right].
      apply Hmem. by split.
  - intros d u Hd%elem_of_delete Hu. rewrite list_lookup_alter in Hu. case_decide as Hpq.
    + rewrite Ht in Hu. injection Hu as <-. rewrite Hpq in Ht. by apply (E d t).
    + by eapply E.
  - intros q u r' Hu Hr'. rewrite list_lookup_alter in Hu. case_decide as Hpq.
    + rewrite Ht in Hu. injection Hu as <-. cbn [reply send_close] in Hr'.
      rewrite Hempty in Hr'. by apply list_elem_of_singleton in Hr' as ->.
    + by eapply F.
Qed.

(** *** The handlers and the watcher *)
Lemma lookupTx_Some i s p t :
  lookupTx i s = Some (p, t) -> transactions s !! i = Some p /\ heap s !! p = Some t.
Proof.
  unfold lookupTx. destruct (transactions s !! i) as [q|]; [|done].
  destruct (heap s !! q) as [u|] eqn:E; [|done]. by intros [= <- <-].
Qed.

Lemma accepts_from from t : accepts from t = true -> expectedFrom t <> 0 -> from = expectedFrom t.
Proof.
  unfold accepts. intros Ha Hne. apply Z.eqb_eq.
  destruct (Z.eqb_spec (expectedFrom t) 0); [done|]. by destruct (from =? expectedFrom t).
Qed.

Lemma routingReply_kind from payload :
  Kind (routingReply from payload) = ReplyRoutingAck /\ From (routingReply from payload) = from /\
  Successful (routingReply from payload) = negb (routingFailed payload).
Proof.
  unfold routingReply, routingFailed. destruct (unmarshalRouting payload); cbn; [|done].
  by rewrite negb_involutive.
Qed.

Lemma adminReply_kind from payload :
  Kind (adminReply from payload) = ReplyAdminMsg /\ From (adminReply from payload) = from.
Proof. unfold adminReply. by destruct (unmarshalAdmin payload). Qed.

Lemma watcherReply_legit t t' : legit t (watcherReply t').
Proof. unfold watcherReply, legit. by destruct (txCtx t'). Qed.

Lemma inv_HandleRoutingAck from rid payload s : inv s -> inv (HandleRoutingAck from rid payload s).
Proof.
  intros HI. unfold HandleRoutingAck. destruct (rid =? 0); [done|].
  destruct (lookupTx rid s) as [[p t]|] eqn:E; [|done].
  apply lookupTx_Some in E as [Hm Ht].
  destruct (accepts from t) eqn:Ha; cbn [negb]; [|done].
  destruct (expectsAdminReply t && negb (routingFailed payload)) eqn:Hf; [done|].
  destruct (routingReply_kind from payload) as (Hk & Hfr & Hs).
  apply (inv_take rid p _ s t); try done. unfold legit. rewrite Hk, Hfr, Hs. split.
  - by apply accepts_from.
  - intros Hea. by rewrite Hea in Hf.
Qed.

Lemma inv_HandleAdminReply from rid payload s : inv s -> inv (HandleAdminReply from rid payload s).
Proof.
  intros HI. unfold HandleAdminReply. destruct (rid =? 0); [done|].
  destruct (lookupTx rid s) as [[p t]|] eqn:E; [|done].
  apply lookupTx_Some in E as [Hm Ht].
  destruct (accepts from t) eqn:Ha; cbn [negb]; [|done].
  destruct (adminReply_kind from payload) as (Hk & Hfr).
  apply (inv_take rid p _ s t); try done. unfold legit. rewrite Hk, Hfr.
  by apply accepts_from.
Qed.

Lemma inv_watcher p s : inv s -> inv (watcher p s).
Proof.
  intros HI. unfold watcher. destruct (heap s !! p) as [t|]; [|done].
  destruct (_ && _); [|done]. apply (inv_update _ p stop_watching core_stop) in HI.
  destruct (transactions (update p stop_watching s) !! id t) as [q|] eqn:E; [|done].
  destruct (inv_map _ HI _ _ E) as (u & Hu & _).
  by apply (inv_take _ _ _ _ u); [..|apply watcherReply_legit].
Qed.

Lemma inv_exec e s : inv s -> exists s', exec e s = Ret s' /\ inv s'.
Proof.
  intros HI. destruct e; cbn [exec]; [..|by apply inv_sendReply]; eexists; (split; [done|]);
    auto using inv_Begin, inv_update, inv_watcher, inv_HandleRoutingAck,
      inv_HandleAdminReply, inv_callCancel, core_deadline, core_parent.
Qed.

Lemma inv_NewTracker : inv NewTracker.
Proof.
  split; unfold dptrs; cbn [NewTracker transactions heap delivering fmap list_fmap].
  - apply NoDup_nil_2.
  - intros i p. by rewrite lookup_empty.
  - by intros p ?%elem_of_nil.
  - intros p t Hp. by rewrite lookup_nil in Hp.
  - by intros d t ?%elem_of_nil.
  - intros p t r Hp. by rewrite lookup_nil in Hp.
Qed.

Lemma inv_run es s : inv s -> exists s', run es s = Ret s' /\ inv s'.
Proof.
  revert s. induction es as [|e es IH]; intros s HI; cbn [run]; [by exists s|].
  destruct (inv_exec e s HI) as (s1 & -> & H1). cbn [obind]. by apply IH.
Qed.

(** ** Ended transactions get their reply

    A watcher runs once, and once it ran its transaction is not pending. *)
Definition watched (s : State) : Prop :=
  forall p t, heap s !! p = Some t -> watching t = false ->
  transactions s !! id t <> Some p.

Lemma watched_update s p f :
  (forall t, core t (f t) /\ watching (f t) = watching t) -> watched s -> watched (update p f s).
Proof.
  intros Hf HW q t Ht Hw. cbn [update heap transactions] in *.
  rewrite list_lookup_alter in Ht. case_decide as Hpq; [|by apply HW].
  subst q. destruct (heap s !! p) as [u|] eqn:Hu; [|done]. injection Ht as <-.
  destruct (Hf u) as [(-> & _) Hw']. apply HW; congruence.
Qed.

Lemma watched_delete s s' i :
  heap s' = heap s -> transactions s' = delete i (transactions s) -> watched s -> watched s'.
Proof.
  intros Hh Hm HW q t. rewrite Hh, Hm. intros Ht Hw [_ Hq]%lookup_delete_Some. by eapply HW.
Qed.

Lemma watched_take s i p r : watched s -> watched (take i p r s).
Proof. by apply watched_delete with (i := i). Qed.

Lemma watched_watcher p s : watched s -> watched (watcher p s).
Proof.
  intros HW. unfold watcher. destruct (heap s !! p) as [t|] eqn:Ht; [|done].
  destruct (_ && _) eqn:Hen; [|done]. cbn [update transactions].
  intros q u Hu Hw. assert (heap (update p stop_watching s) !! q = Some u) as Hu'.
  { destruct (transactions s !! id t); done. }
  cbn [update heap] in Hu'. rewrite list_lookup_alter in Hu'. case_decide as Hpq.
  - subst q. rewrite Ht in Hu'. injection Hu' as <-. cbn [id stop_watching] in *.
    destruct (transactions s !! id t) eqn:E; cbn [take transactions update].
    + by rewrite lookup_delete_eq.
    + by rewrite E.
  - specialize (HW q u Hu' Hw). destruct (transactions s !! id t) eqn:E; [|done].
    cbn [take transactions update]. by intros [_ ?]%lookup_delete_Some.
Qed.

Lemma watched_exec e s s' : inv s -> watched s -> exec e s = Ret s' -> watched s'.
Proof.
  intros HI HW. destruct e; cbn [exec]; [..|intros Hs; apply (f_equal Some) in Hs];
    try intros [= <-].
  - unfold Begin. destruct (id0 =? 0); [done|].
    destruct (transactions s !! id0) eqn:E; [done|]. cbn [fst].
    intros q u Hu Hw. cbn [heap transactions] in *.
    apply lookup_app_Some in Hu as [Hu|[Hge Hu]].
    + rewrite lookup_insert. case_decide as Hid; [|by apply HW].
      intros [= <-]. apply lookup_lt_Some in Hu. lia.
    + by apply list_lookup_singleton_Some in Hu as [_ <-].
  - apply watched_update; [|done]. intros t. split; [apply core_deadline|].
    unfold deadline. by case_decide.
  - apply watched_update; [|done]. intros t. split; [apply core_parent|].
    unfold cancel. by case_decide.
  - by apply watched_watcher.
  - unfold HandleRoutingAck. destruct (_ =? 0); [done|]. destruct (lookupTx _ _) as [[]|]; [|done].
    destruct (negb _); [done|]. destruct (_ && _); [done|]. by apply watched_take.
  - unfold HandleAdminReply. destruct (_ =? 0); [done|]. destruct (lookupTx _ _) as [[]|]; [|done].
    destruct (negb _); [done|]. by apply watched_take.
  - unfold callCancel. destruct (delivering s !! k) as [[p r []]|]; [done| |done].
    apply (watched_update s p cancel); [|done]. intros t. split; [apply core_cancel|].
    unfold cancel. by case_decide.
  - injection Hs as Hs. unfold sendReply in Hs.
    destruct (delivering s !! k) as [[p r []]|]; [|by injection Hs as <-..].
    destruct (heap s !! p) as [t|] eqn:Ht; [|by injection Hs as <-].
    destruct (closed t); [done|]. injection Hs as <-.
    intros q u Hu Hw. cbn [heap transactions] in *. rewrite list_lookup_alter in Hu.
    case_decide as Hpq; [|by apply HW]. subst q. rewrite Ht in Hu. injection Hu as <-.
    exact (HW p t Ht Hw).
Qed.

Definition quiescent (s : State) : Prop :=
  delivering s = [] /\
  forall p t, heap s !! p = Some t -> txCtx t <> Live -> watching t = false.

Lemma quiescent_replied s p t :
  inv s -> watched s -> quiescent s -> heap s !! p = Some t -> txCtx t <> Live ->
  exists r, reply t = [r].
Proof.
  intros HI HW [Hd Hq] Ht Hc. destruct (inv_tx s HI p t Ht) as [[_ ?]|(_ & _ & Ho)]; [done|].
  exfalso. destruct Ho as [Ho|Ho]; [by apply (HW p t Ht (Hq p t Ht Hc))|].
  unfold dptrs in Ho. rewrite Hd in Ho. by apply elem_of_nil in Ho.
Qed.

(** *** The pending work decreases *)
Definition internal (e : event) : Prop :=
  match e with EWatcher _ | ECancel _ | ESend _ => True | _ => False end.

Definition wwork (t : pendingTx) : nat := if watching t then 3 else 0.
Definition dwork (d : delivery) : nat := if dCancelled d then 1 else 2.
Definition work (s : State) : nat :=
  (sum_list_with wwork (heap s) + sum_list_with dwork (delivering s))%nat.

Lemma sum_alter {A} (f : A -> nat) g l p x :
  l !! p = Some x ->
  (sum_list_with f (alter g p l) + f x = sum_list_with f l + f (g x))%nat.
Proof.
  revert p. induction l as [|y l IH]; intros [|p] Hp; try done; cbn in *.
  - injection Hp as ->. lia.
  - specialize (IH p Hp). lia.
Qed.

Lemma sum_alter_same {A} (f : A -> nat) g l p :
  (forall x, f (g x) = f x) -> sum_list_with f (alter g p l) = sum_list_with f l.
Proof.
  intros Hg. revert p. induction l as [|y l IH]; intros [|p]; try done; cbn; auto.
Qed.

Lemma work_decreases s :
  inv s -> ~ quiescent s ->
  exists e s', internal e /\ exec e s = Ret s' /\ (work s' < work s)%nat.
Proof.
  intros HI Hnq. destruct (delivering s) as [|[p r c] ds] eqn:Hd.
  - assert (exists p t, heap s !! p = Some t /\ txCtx t <> Live /\ watching t = true)
      as (p & t & Ht & Hc & Hw).
    { destruct (decide (Exists (fun t => txCtx t <> Live /\ watching t = true) (heap s)))
        as [Hex|Hno].
      - apply Exists_exists in Hex as (t & [p Ht]%list_elem_of_lookup & Hc & Hw). by exists p, t.
      - exfalso. apply Hnq. split; [done|]. intros p t Ht Hc.
        destruct (watching t) eqn:Hw; [|done]. exfalso. apply Hno, Exists_exists.
        exists t. by split; [apply list_elem_of_lookup; exists p|]. }
    exists (EWatcher p), (watcher p s). split; [done|split; [done|]].
    unfold watcher. rewrite Ht, Hw, bool_decide_true by done. cbn [andb].
    pose proof (sum_alter wwork stop_watching (heap s) p t Ht) as Hs.
    unfold wwork at 2 4 in Hs. rewrite Hw in Hs. cbn [stop_watching watching] in Hs.
    destruct (transactions (update p stop_watching s) !! id t);
      unfold work; cbn [take update heap delivering]; rewrite Hd; cbn; lia.
  - destruct c.
    + destruct (inv_sendReply 0 s HI) as (s' & Hs & _).
      exists (ESend 0), s'. split; [done|split; [done|]].
      unfold sendReply in Hs. rewrite Hd in Hs. cbn [lookup list_lookup] in Hs.
      destruct (inv_owner s HI p) as (t & Ht & Hcl);
        [unfold dptrs; rewrite Hd; by left|]. rewrite Ht, Hcl in Hs. injection Hs as <-.
      unfold work. cbn [heap delivering]. rewrite Hd, sum_alter_same by done. cbn. lia.
    + exists (ECancel 0), (callCancel 0 s). split; [done|split; [done|]].
      unfold callCancel, work. rewrite Hd. cbn [lookup list_lookup heap delivering].
      rewrite sum_alter_same; [cbn; lia|]. intros t. unfold cancel. by case_decide.
Qed.

Lemma drain s :
  inv s -> watched s ->
  exists es s', Forall internal es /\ (length es <= work s)%nat /\ run es s = Ret s' /\
    quiescent s' /\ inv s' /\ watched s'.
Proof.
  remember (work s) as n eqn:Hn. revert s Hn.
  induction n as [n IH] using lt_wf_ind. intros s Hn HI HW.
  assert (quiescent s \/ ~ quiescent s) as [Hq|Hnq].
  { unfold quiescent. destruct (delivering s); [|by right; intros [? _]].
    destruct (decide (Forall (fun t => txCtx t <> Live -> watching t = false) (heap s))) as [F|F].
    - left. split; [done|]. by rewrite Forall_lookup in F.
    - right. intros [_ Hall]. by apply F, Forall_lookup. }
  - exists [], s. split; [constructor|split; [apply Nat.le_0_l|]]. done.
  - destruct (work_decreases s HI Hnq) as (e & s1 & He & Hs1 & Hlt).
    destruct (inv_exec e s HI) as (s1' & Hs1' & HI1). assert (s1' = s1) as -> by congruence.
    destruct (IH (work s1) ltac:(lia) s1 eq_refl HI1 (watched_exec _ _ _ HI HW Hs1))
      as (es & s' & Hes & Hlen & Hrun & Hrest).
    exists (e :: es), s'. split; [by constructor|split; [cbn; lia|]]. split; [|done].
    cbn [run]. by rewrite Hs1.
Qed.

(** ** Without reuse of packet ids

    [honest]: a pending transaction's context is cancelled only by its
    caller, and a timeout or cancellation is reported only to a transaction
    whose own context ended that way. *)
Definition idsDistinct (s : State) : Prop :=
  forall p q t u, heap s !! p = Some t -> heap s !! q = Some u -> id t = id u -> p = q.

Definition ended (t : pendingTx) (r : Reply) : Prop :=
  match Kind r with
  | ReplyTimeout => txCtx t = DeadlineExceeded
  | ReplyCancelled => parentDone t = true /\ Err r = Some ErrParentContext
  | _ => True
  end.

Definition honest (s : State) : Prop :=
  forall p t, heap s !! p = Some t ->
  (transactions s !! id t = Some p -> txCtx t = Canceled -> parentDone t = true) /\
  (forall r, r ∈ reply t \/ (p, r) ∈ drefs s -> ended t r).

(** Events that change the contexts of one object. *)
Lemma honest_alter s s' p f :
  transactions s' = transactions s -> heap s' = alter f p (heap s) -> drefs s' = drefs s ->
  (forall t, core t (f t)) -> (forall t r, ended t r -> ended (f t) r) ->
  (forall t, heap s !! p = Some t ->
     (transactions s !! id t = Some p -> txCtx t = Canceled -> parentDone t = true) ->
     transactions s !! id t = Some p -> txCtx (f t) = Canceled -> parentDone (f t) = true) ->
  honest s -> honest s'.
Proof.
  intros Hm Hh Hd Hcore Hend Hc HH q u Hu. rewrite Hm, Hd. rewrite Hh, list_lookup_alter in Hu.
  case_decide as Hpq; [|by apply HH]. subst q.
  destruct (heap s !! p) as [t|] eqn:Ht; [|done]. injection Hu as <-.
  destruct (HH p t Ht) as [H1 H2]. destruct (Hcore t) as (-> & -> & _).
  split; [by apply Hc|]. intros r Hr. by apply Hend, H2.
Qed.

Lemma drefs_take i p r s : drefs (take i p r s) = drefs s ++ [(p, r)].
Proof. unfold drefs, take. cbn [delivering]. by rewrite fmap_app. Qed.

Lemma honest_take i p r s :
  (forall t, heap s !! p = Some t -> ended t r) -> honest s -> honest (take i p r s).
Proof.
  intros Hr HH q t Ht. rewrite drefs_take. cbn [take heap transactions] in *.
  destruct (HH q t Ht) as [H1 H2]. split.
  - intros [_ Hq]%lookup_delete_Some. by apply H1.
  - intros r' Hr'. rewrite elem_of_app, list_elem_of_singleton in Hr'.
    destruct Hr' as [?|[?|[= -> ->]]]; [by apply H2; left|by apply H2; right|by apply Hr].
Qed.

Lemma ended_core_ctx t t' r :
  (txCtx t = DeadlineExceeded -> txCtx t' = DeadlineExceeded) ->
  (parentDone t = true -> parentDone t' = true) -> ended t r -> ended t' r.
Proof. unfold ended. destruct (Kind r); intuition. Qed.

Lemma honest_watcher p s : inv s -> idsDistinct s -> honest s -> honest (watcher p s).
Proof.
  intros HI Hids HH. unfold watcher. destruct (heap s !! p) as [t|] eqn:Ht; [|done].
  destruct (_ && _) eqn:Hen; [|done]. apply andb_true_iff in Hen as [_ Hc%bool_decide_eq_true].
  assert (honest (update p stop_watching s)) as HH'.
  { by apply (honest_alter s _ p stop_watching). }
  cbn [update transactions]. destruct (transactions s !! id t) as [q|] eqn:Hq; [|done].
  apply honest_take; [|done]. intros u Hu.
  destruct (inv_map s HI _ _ Hq) as (v & Hv & Hvt & _).
  assert (q = p) as -> by (by eapply Hids). cbn [update heap] in Hu.
  rewrite list_lookup_alter, decide_True, Ht in Hu by done. injection Hu as <-.
  destruct (HH p t Ht) as [H1 _]. unfold ended, watcherReply.
  destruct (txCtx t) eqn:Ec; cbn; [done|done|]. by rewrite (H1 Hq eq_refl).
Qed.

Definition freshFor (e : event) (s : State) : Prop :=
  match e with EBegin i _ _ _ => Forall (fun t => id t <> i) (heap s) | _ => True end.

Lemma honest_Begin i k ea ef s :
  inv s -> honest s -> honest (Begin i k ea ef s).1.
Proof.
  intros HI HH. unfold Begin. destruct (i =? 0); [done|].
  destruct (transactions s !! i) eqn:E; [done|]. cbn [fst]. intros q u Hu.
  cbn [heap transactions] in *. change (drefs (mkState _ _ (delivering s))) with (drefs s).
  apply lookup_app_Some in Hu as [Hu|[Hge Hu]].
  - destruct (HH q u Hu) as [H1 H2]. split; [|done].
    intros [[_ Hq]|[_ Hq]]%lookup_insert_Some; [|by apply H1].
    apply lookup_lt_Some in Hu. lia.
  - apply list_lookup_singleton_Some in Hu as [Hq <-]. split; [done|].
    intros r [Hr|Hr]; [by apply elem_of_nil in Hr|]. exfalso.
    assert (q ∈ dptrs s) as (v & Hv & _)%(inv_owner s HI).
    { apply list_elem_of_fmap_1 in Hr as (d & [= -> ->] & Hd). by apply list_elem_of_fmap_2. }
    apply lookup_lt_Some in Hv. lia.
Qed.

Lemma honest_callCancel k s : inv s -> honest s -> honest (callCancel k s).
Proof.
  intros HI HH. unfold callCancel.
  destruct (delivering s !! k) as [[p r []]|] eqn:E; [done| |done].
  apply (honest_alter s _ p cancel); try done.
  - unfold drefs. cbn [delivering]. rewrite list_fmap_insert.
    apply list_insert_id. by rewrite list_lookup_fmap, E.
  - apply core_cancel.
  - intros t r'. unfold cancel. case_decide as Hl; [|done].
    apply ended_core_ctx; [by rewrite Hl|done].
  - intros t Ht _ Hm. destruct (inv_map s HI _ _ Hm) as (_ & _ & _ & _ & []).
    exact (list_elem_of_fmap_2 dTx _ _ (list_elem_of_lookup_2 _ _ _ E)).
Qed.

Lemma honest_sendReply k s s' : honest s -> sendReply k s = Ret s' -> honest s'.
Proof.
  intros HH. unfold sendReply.
  destruct (delivering s !! k) as [[p r []]|] eqn:Hk; [|by intros [= <-]..].
  destruct (heap s !! p) as [t|] eqn:Ht; [|by intros [= <-]].
  destruct (closed t); [done|]. intros [= <-]. intros q u Hu. cbn [heap transactions] in *.
  assert (forall d, d ∈ drefs (mkState (transactions s) (alter (send_close r) p (heap s))
                      (delete k (delivering s))) -> d ∈ drefs s) as Hsub.
  { intros d. unfold drefs. cbn [delivering].
    rewrite list_fmap_delete. apply elem_of_delete. }
  rewrite list_lookup_alter in Hu. case_decide as Hpq.
  - subst q. rewrite Ht in Hu. injection Hu as <-. destruct (HH p t Ht) as [H1 H2].
    split; [done|]. cbn [reply send_close]. intros r' Hr'. apply H2.
    rewrite elem_of_app, list_elem_of_singleton in Hr'.
    destruct Hr' as [[?| ->]|?]; [by left| |right; by apply Hsub].
    right. apply list_elem_of_fmap. exists (mkDelivery p r true).
    split; [done|]. by eapply list_elem_of_lookup_2.
  - destruct (HH q u Hu) as [H1 H2]. split; [done|]. intros r' [?|?]; apply H2; [by left|].
    right. by apply Hsub.
Qed.

Lemma honest_exec e s s' :
  inv s -> idsDistinct s -> honest s -> exec e s = Ret s' -> honest s'.
Proof.
  intros HI Hids HH. destruct e; cbn [exec]; [..|by apply honest_sendReply]; intros [= <-].
  - by apply honest_Begin.
  - apply (honest_alter s _ p deadline); try done; [apply core_deadline| |].
    + intros t r. unfold deadline. case_decide as Hl; [|done].
      apply ended_core_ctx; [by rewrite Hl|done].
    + intros t Ht H1 Hm. unfold deadline. case_decide; [done|]. by apply H1.
  - apply (honest_alter s _ p (fun t => cancel (set_parentDone t))); try done;
      [apply core_parent| |].
    + intros t r. apply ended_core_ctx; unfold cancel; case_decide as Hl; cbn in *;
        rewrite ?Hl; done.
    + intros t Ht _ _ _. unfold cancel. by case_decide.
  - by apply honest_watcher.
  - unfold HandleRoutingAck. destruct (_ =? 0); [done|]. destruct (lookupTx _ _) as [[]|]; [|done].
    destruct (negb _); [done|]. destruct (_ && _); [done|]. apply honest_take; [|done].
    intros u _. unfold ended. by destruct (routingReply_kind from payload) as (-> & _).
  - unfold HandleAdminReply. destruct (_ =? 0); [done|]. destruct (lookupTx _ _) as [[]|]; [|done].
    destruct (negb _); [done|]. apply honest_take; [|done].
    intros u _. unfold ended. by destruct (adminReply_kind from payload) as (-> & _).
  - by apply honest_callCancel.
Qed.

Definition heapIds (s : State) : list Z := id <$> heap s.
Definition beginIds (es : list event) : list Z :=
  omap (fun e => match e with EBegin i _ _ _ => Some i | _ => None end) es.

Lemma heapIds_alter (h : list pendingTx) p f :
  (forall t, id (f t) = id t) -> id <$> alter f p h = id <$> h.
Proof.
  intros Hf. apply list_eq. intros q. rewrite !list_lookup_fmap, list_lookup_alter.
  case_decide as Hq; [|done]. subst q. destruct (h !! p); [|done]. cbn. by rewrite Hf.
Qed.

Lemma heapIds_exec e s s' :
  exec e s = Ret s' -> heapIds s' = heapIds s \/ heapIds s' = heapIds s ++ beginIds [e].
Proof.
  unfold heapIds. destruct e; cbn [exec]; [..|unfold sendReply]; try intros [= <-].
  - unfold Begin. destruct (_ =? 0); [by left|]. destruct (transactions s !! _); [by left|].
    right. cbn [fst heap]. by rewrite fmap_app.
  - left. apply heapIds_alter. intros t. apply core_deadline.
  - left. apply heapIds_alter. intros t. apply core_parent.
  - left. unfold watcher. destruct (heap s !! p); [|done]. destruct (_ && _); [|done].
    destruct (transactions _ !! _); cbn [take update heap]; by apply heapIds_alter.
  - left. unfold HandleRoutingAck. destruct (_ =? 0); [done|].
    destruct (lookupTx _ _) as [[]|]; [|done].
    destruct (negb _); [done|]. by destruct (_ && _).
  - left. unfold HandleAdminReply. destruct (_ =? 0); [done|].
    destruct (lookupTx _ _) as [[]|]; [|done]. by destruct (negb _).
  - left. unfold callCancel. destruct (delivering s !! k) as [[p r []]|]; [done| |done].
    apply heapIds_alter. intros t. apply core_cancel.
  - intros Hs. left. destruct (delivering s !! k) as [[p r []]|]; [|by injection Hs as <-..].
    destruct (heap s !! p) as [t|]; [|by injection Hs as <-].
    destruct (closed t); [done|]. injection Hs as <-. by apply heapIds_alter.
Qed.

Lemma NoDup_idsDistinct s : NoDup (heapIds s) -> idsDistinct s.
Proof.
  intros HN p q t u Hp Hq Heq. eapply (NoDup_lookup (heapIds s)); [done| |];
    unfold heapIds; rewrite list_lookup_fmap; [by rewrite Hp|rewrite Hq; cbn; congruence].
Qed.

Lemma honest_run es s s' :
  inv s -> honest s -> NoDup (heapIds s ++ beginIds es) -> run es s = Ret s' -> honest s'.
Proof.
  revert s. induction es as [|e es IH]; intros s HI HH HN Hr; cbn [run] in Hr.
  - by injection Hr as <-.
  - destruct (inv_exec e s HI) as (s1 & Hs1 & HI1). rewrite Hs1 in Hr. cbn [obind] in Hr.
    assert (beginIds (e :: es) = beginIds [e] ++ beginIds es) as Hb by (by destruct e).
    rewrite Hb, app_assoc in HN. apply (IH s1); [done| | |done].
    + apply (honest_exec e s s1); [done| |done..]. apply NoDup_idsDistinct.
      apply NoDup_app in HN as [HN _]. by apply NoDup_app in HN as [HN _].
    + destruct (heapIds_exec _ _ _ Hs1) as [-> | ->]; [|done].
      apply NoDup_app in HN as (HN1 & HN2 & HN3). apply NoDup_app in HN1 as (HN1 & _).
      apply NoDup_app. split; [done|split; [|done]].
      intros x Hx. apply HN2, elem_of_app. by left.
Qed.

Lemma honest_NewTracker : honest NewTracker.
Proof.
  intros p t Hp. change ((@nil pendingTx) !! p = Some t) in Hp. by rewrite lookup_nil in Hp.
Qed.

Lemma watched_run es s s' : inv s -> watched s -> run es s = Ret s' -> watched s'.
Proof.
  revert s. induction es as [|e es IH]; intros s HI HW Hr; cbn [run] in Hr.
  - by injection Hr as <-.
  - destruct (inv_exec e s HI) as (s1 & Hs1 & HI1). rewrite Hs1 in Hr. cbn [obind] in Hr.
    apply (IH s1); [done| |done]. by apply (watched_exec e s s1).
Qed.

Lemma watched_NewTracker : watched NewTracker.
Proof.
  intros p t Hp. change ((@nil pendingTx) !! p = Some t) in Hp. by rewrite lookup_nil in Hp.
Qed.

Lemma run_app es es' s : run (es ++ es') s = obind (run es s) (run es').
Proof.
  revert s. induction es as [|e es IH]; intros s; cbn [app run]; [done|].
  destruct (exec e s); cbn [obind]; [apply IH|done..].
Qed.
End Tracker.

(** ** A concrete protobuf package, for examples: a routing message is its
    error reason, an admin message its bytes. *)
Definition examplePB : MeshPB := {|
  Routing := byte;
  AdminMessage := bytes;
  errorReasonNone := fun r => bool_decide (r = x00);
  unmarshalRouting := fun b => match b with [r] => Some r | _ => None end;
  unmarshalAdmin := fun b => Some b
|}.

(** ** Properties *)

(** C17: at most one reply, and no panic.  Under every interleaving of
    requests, acknowledgements, admin replies, timeouts, cancellations and
    watcher goroutines, no send hits a closed channel, and every transaction
    either has an empty open channel and is still pending or about to be
    delivered, or a closed one that carried exactly one reply. *)
Theorem at_most_one_reply `{PB : MeshPB} es :
  exists s, run es NewTracker = Ret s /\
    forall p t, heap s !! p = Some t ->
      (closed t = true /\ exists r, reply t = [r]) \/
      (closed t = false /\ reply t = [] /\ (transactions s !! id t = Some p \/ p ∈ dptrs s)).
Proof.
  destruct (inv_run es NewTracker inv_NewTracker) as (s & Hs & HI). exists s. split; [done|].
  apply (inv_tx s HI).
Qed.

(** Only the expected node's answer counts.  Whatever is delivered to a
    transaction with an expected source, under every interleaving, comes from
    that node if it is an acknowledgement or an admin reply; and a successful
    acknowledgement never resolves a transaction that waits for an admin
    reply. *)
Theorem replies_from_expected_node `{PB : MeshPB} es s p t r :
  run es NewTracker = Ret s -> heap s !! p = Some t -> r ∈ reply t ->
  match Kind r with
  | ReplyRoutingAck =>
      (expectedFrom t <> 0 -> From r = expectedFrom t) /\
      (expectsAdminReply t = true -> Successful r = false)
  | ReplyAdminMsg => expectedFrom t <> 0 -> From r = expectedFrom t
  | _ => From r = 0 /\ rRouting r = None /\ rAdmin r = None
  end.
Proof.
  intros Hs Ht Hr. destruct (inv_run es NewTracker inv_NewTracker) as (s' & Hs' & HI).
  assert (s' = s) as -> by congruence. by apply (inv_legit s HI p t r).
Qed.

(** The local radio's own acknowledgement does not resolve a request to node
    7; node 7's does. *)
Definition loopbackRun : list (@event) :=
  [EBegin 5 "remote-pkc" false 7; ERoutingAck 1 5 [x00]; ERoutingAck 7 5 [x00];
   ECancel 0; ESend 0].

Lemma replies_from_expected_node_witness :
  exists s t r, @run examplePB loopbackRun NewTracker = Ret s /\ heap s !! 0%nat = Some t /\
    r ∈ reply t /\ (expectedFrom t <> 0 -> From r = expectedFrom t).
Proof.
  eexists _, _, _. split; [reflexivity|split; [reflexivity|split; [by left|]]].
  pose proof (@replies_from_expected_node examplePB loopbackRun _ 0%nat _
    (routingReply (PB := examplePB) 7 [x00]) eq_refl eq_refl ltac:(by left)) as [Hfrom _].
  exact Hfrom.
Defined.

(** C39: a transaction whose context ended gets its reply.  From every
    reachable state a bounded number of steps of the goroutines alone, the
    bound being the work they have left, reaches a state with nothing left
    to do, and there every transaction whose context is done has exactly one
    reply on its channel. *)
Theorem ended_transactions_replied `{PB : MeshPB} es s :
  run es NewTracker = Ret s ->
  exists es' s', Forall internal es' /\ (length es' <= work s)%nat /\
    run (es ++ es') NewTracker = Ret s' /\ quiescent s' /\
    forall p t, heap s' !! p = Some t -> txCtx t <> Live -> exists r, reply t = [r].
Proof.
  intros Hs. destruct (inv_run es NewTracker inv_NewTracker) as (s0 & Hs0 & HI).
  assert (s0 = s) as -> by congruence.
  pose proof (watched_run es _ _ inv_NewTracker watched_NewTracker Hs) as HW.
  destruct (drain s HI HW) as (es' & s' & H1 & H2 & H3 & H4 & H5 & H6).
  exists es', s'. split; [done|split; [done|split; [|split; [done|]]]].
  - by rewrite run_app, Hs.
  - intros p t Ht Hc. by eapply quiescent_replied.
Qed.

Lemma ended_transactions_replied_witness :
  exists s, @run examplePB [EBegin 5 "local" true 0; EDeadline 0] NewTracker = Ret s /\
  exists es' s', Forall internal es' /\ (length es' <= work s)%nat /\
    @run examplePB ([EBegin 5 "local" true 0; EDeadline 0] ++ es') NewTracker = Ret s' /\
    quiescent s' /\
    forall p t, heap s' !! p = Some t -> txCtx t <> Live -> exists r, reply t = [r].
Proof.
  eexists. split; [reflexivity|].
  by apply (@ended_transactions_replied examplePB [EBegin 5 "local" true 0; EDeadline 0]).
Defined.

(** With distinct packet ids, timeouts and cancellations are honest.
    When no id is begun twice, a timeout is delivered only to a transaction
    whose own deadline passed, and a cancellation only to one whose caller's
    context was done, with that context's error, under every interleaving. *)
Theorem timeouts_honest_without_id_reuse `{PB : MeshPB} es s p t r :
  NoDup (beginIds es) -> run es NewTracker = Ret s -> heap s !! p = Some t -> r ∈ reply t ->
  (Kind r = ReplyTimeout -> txCtx t = DeadlineExceeded) /\
  (Kind r = ReplyCancelled -> parentDone t = true /\ Err r = Some ErrParentContext).
Proof.
  intros HN Hs Ht Hr.
  pose proof (honest_run es _ _ inv_NewTracker honest_NewTracker HN Hs) as HH.
  destruct (HH p t Ht) as [_ He]. specialize (He r (or_introl Hr)). unfold ended in He.
  split; intros Hk; by rewrite Hk in He.
Qed.

Definition timeoutRun : list (@event) :=
  [EBegin 5 "local" true 0; EDeadline 0; EWatcher 0; ECancel 0; ESend 0].

Lemma timeouts_honest_without_id_reuse_witness :
  exists s t r, @run examplePB timeoutRun NewTracker = Ret s /\ heap s !! 0%nat = Some t /\
    r ∈ reply t /\ Kind r = ReplyTimeout /\ txCtx t = DeadlineExceeded.
Proof.
  eexists _, _, _. split; [reflexivity|split; [reflexivity|split; [by left|]]].
  split; [reflexivity|].
  eapply (@timeouts_honest_without_id_reuse examplePB timeoutRun _ 0%nat);
    [apply (bool_decide_unpack _); reflexivity|reflexivity|reflexivity|by left|reflexivity].
Defined.

(** Reusing an id lets an old watcher cancel a new transaction.  After a
    transaction is resolved by an acknowledgement, its watcher goroutine
    still has to run; when the same id is begun again before it does, it
    takes the new transaction out of the map and cancels it, with a nil
    error, although neither its deadline passed nor its caller gave up. *)
Theorem stale_watcher_cancels_new_transaction `{PB : MeshPB} i k ea ef from payload :
  i <> 0 ->
  exists s t,
    run [EBegin i "first" false 0; ERoutingAck from i payload; ECancel 0; ESend 0;
         EBegin i k ea ef; EWatcher 0] NewTracker = Ret s /\
    heap s !! 1%nat = Some t /\ txCtx t = Live /\ parentDone t = false /\
    transactions s !! i = None /\
    exists s' t', run [ECancel 0; ESend 0] s = Ret s' /\ heap s' !! 1%nat = Some t' /\
      reply t' = [mkReply ReplyCancelled 0 None None None].
Proof.
  intros Hi. apply Z.eqb_neq in Hi.
  set (r := routingReply from payload).
  set (t0 := mkTx i "first" [] false Live false true false 0).
  set (t0' := mkTx i "first" [r] true Canceled false true false 0).
  set (t1 := mkTx i k [] false Live false true ea ef).
  set (m1 := <[i := 0%nat]> (∅ : gmap Z nat)).
  set (m2 := <[i := 1%nat]> (delete i m1)).
  assert (exec (EBegin i "first" false 0) NewTracker = Ret (mkState m1 [t0] [])) as E1.
  { cbn [exec]. unfold Begin. by rewrite Hi. }
  assert (exec (ERoutingAck from i payload) (mkState m1 [t0] [])
          = Ret (mkState (delete i m1) [t0] [mkDelivery 0 r false])) as E2.
  { cbn [exec]. unfold HandleRoutingAck, lookupTx. rewrite Hi. cbn [transactions].
    unfold m1 at 1. by rewrite lookup_insert_eq. }
  assert (run [ECancel 0; ESend 0] (mkState (delete i m1) [t0] [mkDelivery 0 r false])
          = Ret (mkState (delete i m1) [t0'] [])) as E34 by reflexivity.
  assert (exec (EBegin i k ea ef) (mkState (delete i m1) [t0'] [])
          = Ret (mkState m2 [t0'; t1] [])) as E5.
  { cbn [exec]. unfold Begin. rewrite Hi. cbn [transactions]. by rewrite lookup_delete_eq. }
  set (c := mkReply ReplyCancelled 0 None None None).
  assert (exec (EWatcher 0) (mkState m2 [t0'; t1] [])
          = Ret (mkState (delete i m2) [stop_watching t0'; t1] [mkDelivery 1 c false])) as E6.
  { cbn [exec]. unfold watcher. cbn [heap lookup list_lookup t0' watching txCtx].
    rewrite bool_decide_true by done. cbn [andb update transactions id].
    unfold m2 at 1. by rewrite lookup_insert_eq. }
  exists (mkState (delete i m2) [stop_watching t0'; t1] [mkDelivery 1 c false]), t1. split; [|split; [reflexivity|split; [reflexivity|split; [reflexivity|]]]].
  - change (run ([EBegin i "first" false 0; ERoutingAck from i payload] ++
                 [ECancel 0; ESend 0] ++ [EBegin i k ea ef; EWatcher 0]) NewTracker = Ret
      (mkState (delete i m2) [stop_watching t0'; t1] [mkDelivery 1 c false])).
    rewrite run_app. cbn [run]. rewrite E1. cbn [obind]. rewrite E2. cbn [obind].
    rewrite run_app, E34. cbn [obind run]. rewrite E5. cbn [obind]. by rewrite E6.
  - cbn [transactions]. split; [apply lookup_delete_eq|]. eexists _, _. repeat split; reflexivity.
Qed.

Lemma stale_watcher_cancels_new_transaction_witness :
  exists s t,
    @run examplePB [EBegin 5 "first" false 0; ERoutingAck 7 5 [x00]; ECancel 0; ESend 0;
         EBegin 5 "second" true 7; EWatcher 0] NewTracker = Ret s /\
    heap s !! 1%nat = Some t /\ txCtx t = Live /\ parentDone t = false /\
    transactions s !! 5 = None /\
    exists s' t', @run examplePB [ECancel 0; ESend 0] s = Ret s' /\ heap s' !! 1%nat = Some t' /\
      reply t' = [mkReply (PB := examplePB) ReplyCancelled 0 None None None].
Proof. by apply (@stale_watcher_cancels_new_transaction examplePB). Defined.
