(* ===== verification/Jobs.v ===== *)
(** The durable job queue of fleet security, [internal/fleetsec/jobs/jobs.go].

    The table [fleet_jobs] is the list of its rows; every method of [Store]
    is one SQL statement (or one transaction, [LeaseNext]) on it.  [dbOK]
    says whether the statement reaches the database: it does not when the
    context it is given is already cancelled, and then nothing changes.
    [Loop] leases a job, runs its handler and closes the job; the events of a
    worker process and of the HTTP callers interleave. *)
From S2P Require Import Prelude.

(** ** Definitions *)
Definition KindRotatePhaseA : string := "rotate_phase_a".
Definition KindRotatePhaseB : string := "rotate_phase_b".
Definition KindRotatePhaseC : string := "rotate_phase_c".
Definition KindResetNode : string := "reset_node".
Definition KindRecoverStrand : string := "recover_stranded".
Definition KindScanForStrand : string := "scan_for_stranded".

Inductive JobState : Type :=
| StateQueued
| StateInProgress
| StateDone
| StateFailed
| StateCancelled.

#[export] Instance JobState_eq_dec : EqDecision JobState.
Proof. solve_decision. Defined.

(** A row of [fleet_jobs]; times are nanoseconds, ids abstract keys. *)
Record Job : Type := mkJob {
  ID : Z;
  Kind : string;
  RotationID : option Z;
  TargetNodeNum : option Z;
  jState : JobState;
  Attempts : Z;
  LastError : option string;
  Payload : string;
  EnqueuedAt : Z;
  StartedAt : option Z;
  FinishedAt : option Z;
  WorkerID : option string
}.

Inductive jobError : Type :=
| ErrNoWork
| ErrNotFound
| ErrDB
| ErrAlreadyStarted.

Definition minute : Z := 60 * 1000000000.
Definition staleThreshold : Z := 10 * minute.

(** [UPDATE fleet_jobs SET f WHERE p] *)
Definition update_where (p : Job -> bool) (f : Job -> Job) (t : list Job) : list Job :=
  map (fun j => if p j then f j else j) t.

(** *** Store *)
Record EnqueueOpts : Type := mkOpts {
  oKind : string; oRotationID : option Z; oTargetNodeNum : option Z; oPayload : string
}.

(** [id] is the generated UUID, [now] the database clock. *)
Definition Enqueue (dbOK : bool) (id now : Z) (o : EnqueueOpts) (t : list Job)
    : list Job * (Z + jobError) :=
  if dbOK then
    (t ++ [mkJob id (oKind o) (oRotationID o) (oTargetNodeNum o) StateQueued 0 None
             (oPayload o) now None None None], inl id)
  else (t, inr ErrDB).

Definition queued (j : Job) : bool := bool_decide (jState j = StateQueued).
Definition inProgress (j : Job) : bool := bool_decide (jState j = StateInProgress).

(** [WHERE state = 'queued' ORDER BY enqueued_at ASC FOR UPDATE SKIP LOCKED]:
    the rows no queued row that is not locked precedes. *)
Definition oldest (locked : list Z) (t : list Job) : list Job :=
  let cands := List.filter (fun j => queued j && negb (bool_decide (ID j ∈ locked))) t in
  List.filter (fun j => forallb (fun j' => EnqueuedAt j <=? EnqueuedAt j') cands) cands.

Definition lease (now : Z) (workerID : string) (j : Job) : Job :=
  mkJob (ID j) (Kind j) (RotationID j) (TargetNodeNum j) StateInProgress (Attempts j + 1)
    None (Payload j) (EnqueuedAt j) (Some now) None (Some workerID).

(** What the caller gets: the row as scanned, with the assignments at the end
    of [LeaseNext]; [LastError] and [FinishedAt] are those from before. *)
Definition leased (now : Z) (workerID : string) (j : Job) : Job :=
  mkJob (ID j) (Kind j) (RotationID j) (TargetNodeNum j) StateInProgress (Attempts j + 1)
    (Some (default "" (LastError j))) (Payload j) (EnqueuedAt j) (Some now) (FinishedAt j)
    (Some workerID).

(** Rows with equal times come in an order the database does not specify:
    [choice] picks among the oldest. *)
Definition LeaseNext (dbOK : bool) (locked : list Z) (choice : nat) (now : Z)
    (workerID : string) (t : list Job) : list Job * (Job + jobError) :=
  if dbOK then
    let os := oldest locked t in
    match nth_error os (choice mod length os) with
    | Some j => (update_where (fun r => ID r =? ID j) (lease now workerID) t,
                 inl (leased now workerID j))
    | None => (t, inr ErrNoWork)
    end
  else (t, inr ErrDB).

Definition set_done (now : Z) (j : Job) : Job :=
  mkJob (ID j) (Kind j) (RotationID j) (TargetNodeNum j) StateDone (Attempts j) None
    (Payload j) (EnqueuedAt j) (StartedAt j) (Some now) (WorkerID j).

Definition set_failed (now : Z) (msg : string) (j : Job) : Job :=
  mkJob (ID j) (Kind j) (RotationID j) (TargetNodeNum j) StateFailed (Attempts j) (Some msg)
    (Payload j) (EnqueuedAt j) (StartedAt j) (Some now) (WorkerID j).

Definition set_cancelled (now : Z) (j : Job) : Job :=
  mkJob (ID j) (Kind j) (RotationID j) (TargetNodeNum j) StateCancelled (Attempts j)
    (LastError j) (Payload j) (EnqueuedAt j) (StartedAt j) (Some now) (WorkerID j).

Definition set_requeued (j : Job) : Job :=
  mkJob (ID j) (Kind j) (RotationID j) (TargetNodeNum j) StateQueued (Attempts j)
    (Some (default "" (LastError j) +:+ " [worker died mid-run; re-queued]"))
    (Payload j) (EnqueuedAt j) (StartedAt j) (FinishedAt j) None.

Definition MarkDone (dbOK : bool) (id now : Z) (t : list Job) : list Job * option jobError :=
  if dbOK then (update_where (fun r => ID r =? id) (set_done now) t, None) else (t, Some ErrDB).

Definition MarkFailed (dbOK : bool) (id now : Z) (msg : string) (t : list Job)
    : list Job * option jobError :=
  if dbOK then (update_where (fun r => ID r =? id) (set_failed now msg) t, None)
  else (t, Some ErrDB).

Definition Cancel (dbOK : bool) (id now : Z) (t : list Job) : list Job * option jobError :=
  if dbOK then (update_where (fun r => (ID r =? id) && queued r) (set_cancelled now) t, None)
  else (t, Some ErrDB).

Definition pendingFor (kind : string) (target : Z) (j : Job) : bool :=
  bool_decide (Kind j = kind) && bool_decide (TargetNodeNum j = Some target) &&
  (queued j || inProgress j).

Definition HasPendingFor (dbOK : bool) (kind : string) (target : Z) (t : list Job)
    : bool + jobError :=
  if dbOK then inl (0 <? zlen (List.filter (pendingFor kind target) t)) else inr ErrDB.

(** [started_at < cutoff] is not true of a NULL. *)
Definition stale (cutoff : Z) (j : Job) : bool :=
  inProgress j && match StartedAt j with Some s => s <? cutoff | None => false end.

Definition ResumeStaleLeases (dbOK : bool) (now threshold : Z) (t : list Job)
    : list Job * (Z + jobError) :=
  if dbOK then
    let cutoff := now - threshold in
    (update_where (stale cutoff) set_requeued t,
     inl (zlen (List.filter (stale cutoff) t)))
  else (t, inr ErrDB).

Definition GetByID (dbOK : bool) (id : Z) (t : list Job) : Job + jobError :=
  if dbOK then
    match find (fun j => ID j =? id) t with Some j => inl j | None => inr ErrNotFound end
  else inr ErrDB.

(** [ORDER BY enqueued_at DESC]: insertion sort, newest first. *)
Fixpoint insert_desc (j : Job) (l : list Job) : list Job :=
  match l with
  | [] => [j]
  | k :: l' => if EnqueuedAt k <=? EnqueuedAt j then j :: l else k :: insert_desc j l'
  end.

Definition ListByRotation (dbOK : bool) (rotationID : Z) (t : list Job)
    : list Job + jobError :=
  if dbOK then
    inl (fold_right insert_desc []
           (List.filter (fun j => bool_decide (RotationID j = Some rotationID)) t))
  else inr ErrDB.

(** *** Loop

    [handlers kind] is the registered handler: nil for success or an error
    message; [q] is the quoting of the [%q] verb.  [dispatch] closes the job in
    the parent context, which is live unless [Stop] was called meanwhile. *)
Definition dispatch (q : string -> string) (handlers : string -> option (Job -> option string))
    (parentLive : bool) (now : Z) (job : Job) (t : list Job) : list Job :=
  match handlers (Kind job) with
  | None => (MarkFailed parentLive (ID job) now
               ("no handler registered for kind " +:+ q (Kind job)) t).1
  | Some run =>
      match run job with
      | Some err => (MarkFailed parentLive (ID job) now err t).1
      | None => (MarkDone parentLive (ID job) now t).1
      end
  end.

(** The worker process: its loop is running or not, and may be inside a
    handler. *)
Record World : Type := mkWorld {
  table : list Job;
  alive : bool;
  running : option Job
}.

(** What can happen: callers enqueue and cancel; the loop starts (resuming
    stale leases), leases, and finishes a handler; the process crashes or is
    stopped.  An event that is not enabled does nothing. *)
Inductive event : Type :=
| EEnqueue (dbOK : bool) (id now : Z) (o : EnqueueOpts)
| ECancel (dbOK : bool) (id now : Z)
| EStart (dbOK : bool) (now : Z)
| ELease (dbOK : bool) (choice : nat) (now : Z)
| EFinish (parentLive dbOK : bool) (now : Z)
| ECrash.

Section Worker.
Variable q : string -> string.
Variable handlers : string -> option (Job -> option string).
Variable workerID : string.

Definition exec (e : event) (w : World) : World :=
  match e with
  | EEnqueue ok id now o =>
      if bool_decide (id ∈ ID <$> table w) then w
      else mkWorld (Enqueue ok id now o (table w)).1 (alive w) (running w)
  | ECancel ok id now => mkWorld (Cancel ok id now (table w)).1 (alive w) (running w)
  | EStart ok now =>
      if alive w then w
      else mkWorld (ResumeStaleLeases ok now staleThreshold (table w)).1 true None
  | ELease ok choice now =>
      if alive w && bool_decide (running w = None) then
        let '(t, r) := LeaseNext ok [] choice now workerID (table w) in
        mkWorld t true (match r with inl j => Some j | inr _ => None end)
      else w
  | EFinish parentLive ok now =>
      match running w with
      | Some j => mkWorld (dispatch q handlers (parentLive && ok) now j (table w)) parentLive None
      | None => w
      end
  | ECrash => mkWorld (table w) false None
  end.

Definition run (es : list event) (w : World) : World := fold_left (fun w e => exec e w) es w.
End Worker.

(** ** Rows under updates *)
Lemma elem_of_update_where p f t r :
  r ∈ update_where p f t <-> exists r0, r0 ∈ t /\ r = (if p r0 then f r0 else r0).
Proof.
  unfold update_where. rewrite list_elem_of_fmap.
  split; intros (r0 & H1 & H2); by exists r0.
Qed.

Lemma ids_update_where p f t :
  (forall r, ID (f r) = ID r) -> ID <$> update_where p f t = ID <$> t.
Proof.
  intros Hf. unfold update_where. induction t as [|r t IH]; [done|].
  cbn. f_equal; [|done]. by destruct (p r).
Qed.

Lemma NoDup_ids_inj t r r' : NoDup (ID <$> t) -> r ∈ t -> r' ∈ t -> ID r = ID r' -> r = r'.
Proof.
  intros HN [i Hi]%list_elem_of_lookup [k Hk]%list_elem_of_lookup Heq.
  assert (i = k) as ->; [|congruence].
  eapply (NoDup_lookup _ _ _ (ID r) HN); rewrite list_lookup_fmap; [by rewrite Hi|].
  by rewrite Hk, Heq.
Qed.

(** ** The lifecycle

    [follows r r']: what one event may make of a row. *)
Definition sameJob (r r' : Job) : Prop :=
  ID r' = ID r /\ Kind r' = Kind r /\ RotationID r' = RotationID r /\
  TargetNodeNum r' = TargetNodeNum r /\ Payload r' = Payload r /\ EnqueuedAt r' = EnqueuedAt r.

Definition follows (r r' : Job) : Prop :=
  r' = r \/
  sameJob r r' /\
  match jState r, jState r' with
  | StateQueued, StateInProgress => Attempts r' = Attempts r + 1
  | StateQueued, StateCancelled | StateInProgress, StateDone
  | StateInProgress, StateFailed | StateInProgress, StateQueued => Attempts r' = Attempts r
  | _, _ => False
  end.

Definition terminal (r : Job) : Prop :=
  jState r = StateDone \/ jState r = StateFailed \/ jState r = StateCancelled.

Lemma follows_terminal r r' : terminal r -> follows r r' -> r' = r.
Proof. intros [H|[H|H]] [?|[_ Hm]]; try done; by rewrite H in Hm. Qed.

Record wf (w : World) : Prop := {
  wf_ids : NoDup (ID <$> table w);
  wf_running j : running w = Some j ->
    alive w = true /\ exists r, r ∈ table w /\ ID r = ID j /\ Kind r = Kind j /\
      jState r = StateInProgress
}.

Lemma follows_lease now wid r : jState r = StateQueued -> follows r (lease now wid r).
Proof. intros H. right. split; [done|]. by rewrite H. Qed.
Lemma follows_done now r : jState r = StateInProgress -> follows r (set_done now r).
Proof. intros H. right. split; [done|]. by rewrite H. Qed.
Lemma follows_failed now msg r : jState r = StateInProgress -> follows r (set_failed now msg r).
Proof. intros H. right. split; [done|]. by rewrite H. Qed.
Lemma follows_cancelled now r : jState r = StateQueued -> follows r (set_cancelled now r).
Proof. intros H. right. split; [done|]. by rewrite H. Qed.
Lemma follows_requeued r : jState r = StateInProgress -> follows r (set_requeued r).
Proof. intros H. right. split; [done|]. by rewrite H. Qed.

Lemma follows_update p f t r :
  (p r = true -> follows r (f r)) -> r ∈ t ->
  exists r', r' ∈ update_where p f t /\ follows r r'.
Proof.
  intros Hf Hr. exists (if p r then f r else r). split.
  - apply elem_of_update_where. by exists r.
  - destruct (p r) eqn:E; [by apply Hf|by left].
Qed.

(** ** Leasing *)
Lemma elem_of_oldest locked t r :
  r ∈ oldest locked t <->
  (r ∈ t) /\ jState r = StateQueued /\ (ID r ∉ locked) /\
  (forall r', r' ∈ t -> jState r' = StateQueued -> (ID r' ∉ locked) -> EnqueuedAt r <= EnqueuedAt r').
Proof.
  unfold oldest, queued.
  assert (forall x, In x (List.filter (fun j => bool_decide (jState j = StateQueued) &&
            negb (bool_decide (ID j ∈ locked))) t)
          <-> (x ∈ t) /\ jState x = StateQueued /\ (ID x ∉ locked)) as Hc.
  { intros x. rewrite filter_In, <- list_elem_of_In, andb_true_iff, negb_true_iff,
      bool_decide_eq_true, bool_decide_eq_false. done. }
  rewrite list_elem_of_In, filter_In, Hc, forallb_forall. setoid_rewrite Z.leb_le.
  split.
  - intros [(? & ? & ?) Hmin]. repeat split; try done. intros r' ? ? ?. by apply Hmin, Hc.
  - intros (? & ? & ? & Hmin). repeat split; try done. intros r' (? & ? & ?)%Hc. by apply Hmin.
Qed.

Lemma min_exists (l : list Job) : l <> [] ->
  exists r, r ∈ l /\ forall r', r' ∈ l -> EnqueuedAt r <= EnqueuedAt r'.
Proof.
  induction l as [|x l IH]; [done|]. intros _. destruct l as [|y l].
  - exists x. split; [by left|]. by intros r' ->%list_elem_of_singleton.
  - destruct IH as (r & Hr & Hmin); [done|].
    destruct (Z.le_gt_cases (EnqueuedAt x) (EnqueuedAt r)).
    + exists x. split; [by left|]. intros r' [->|Hr']%elem_of_cons; [lia|].
      specialize (Hmin r' Hr'). lia.
    + exists r. split; [by right|]. intros r' [->|Hr']%elem_of_cons; [lia|by apply Hmin].
Qed.

Lemma oldest_nil locked t :
  oldest locked t = [] ->
  forall r, r ∈ t -> jState r = StateQueued -> ID r ∈ locked.
Proof.
  intros Ho r Hr Hq. destruct (decide (ID r ∈ locked)) as [|Hl]; [done|]. exfalso.
  set (cands := List.filter (fun j => queued j && negb (bool_decide (ID j ∈ locked))) t).
  assert (forall x, x ∈ cands <-> (x ∈ t) /\ jState x = StateQueued /\ (ID x ∉ locked)) as Hc.
  { intros x. unfold cands, queued. rewrite list_elem_of_In, filter_In, <- list_elem_of_In,
      andb_true_iff, negb_true_iff, bool_decide_eq_true, bool_decide_eq_false. done. }
  destruct (min_exists cands) as (m & Hm & Hmin).
  { intros Hnil. assert (r ∈ cands) as Hin by (by apply Hc). rewrite Hnil in Hin.
    by apply elem_of_nil in Hin. }
  apply Hc in Hm as (Hm1 & Hm2 & Hm3).
  assert (m ∈ oldest locked t) as Hin.
  { apply elem_of_oldest. repeat split; try done. intros r' ? ? ?. by apply Hmin, Hc. }
  rewrite Ho in Hin. by apply elem_of_nil in Hin.
Qed.

Lemma LeaseNext_cases locked choice now wid t :
  (exists r, r ∈ oldest locked t /\
     LeaseNext true locked choice now wid t
     = (update_where (fun x => ID x =? ID r) (lease now wid) t, inl (leased now wid r))) \/
  (oldest locked t = [] /\ LeaseNext true locked choice now wid t = (t, inr ErrNoWork)).
Proof.
  unfold LeaseNext. destruct (oldest locked t) as [|x os] eqn:E; [right; by destruct choice|].
  left. assert ((choice mod length (x :: os) < length (x :: os))%nat) as Hlt
    by (apply Nat.mod_upper_bound; done).
  apply nth_error_Some in Hlt. destruct (nth_error (x :: os) _) as [r|] eqn:En; [|done].
  exists r. split; [|done]. apply list_elem_of_In. by eapply nth_error_In.
Qed.

Section WorkerLemmas.
Variable q : string -> string.
Variable handlers : string -> option (Job -> option string).
Variable workerID : string.
Abbreviation exec := (exec q handlers workerID).
Abbreviation run := (run q handlers workerID).

(** The row update [dispatch] makes. *)
Definition closeJob (now : Z) (job : Job) : Job -> Job :=
  match handlers (Kind job) with
  | None => set_failed now ("no handler registered for kind " +:+ q (Kind job))
  | Some h => match h job with Some err => set_failed now err | None => set_done now end
  end.

Lemma dispatch_update ok now job t :
  dispatch q handlers ok now job t
  = if ok then update_where (fun r => ID r =? ID job) (closeJob now job) t else t.
Proof.
  unfold dispatch, closeJob, MarkFailed, MarkDone.
  destruct (handlers (Kind job)) as [h|]; [destruct (h job)|]; by destruct ok.
Qed.

Lemma closeJob_follows now job r :
  jState r = StateInProgress -> follows r (closeJob now job r) /\ terminal (closeJob now job r).
Proof.
  intros Hr. unfold closeJob, terminal.
  destruct (handlers (Kind job)) as [h|]; [destruct (h job)|]; cbn;
    auto using follows_failed, follows_done.
Qed.

Lemma closeJob_ID now job r : ID (closeJob now job r) = ID r.
Proof. unfold closeJob. destruct (handlers _) as [h|]; [destruct (h job)|]; done. Qed.

(** Every event updates rows along the lifecycle. *)
Lemma exec_rows e w r :
  wf w -> r ∈ table w -> exists r', r' ∈ table (exec e w) /\ follows r r'.
Proof.
  intros [Hids Hrun] Hr.
  assert (exists r', r' ∈ table w /\ follows r r') as Hsame by (exists r; split; [done|by left]).
  destruct e; cbn [Jobs.exec].
  - case_bool_decide; [done|]. unfold Enqueue. destruct dbOK; [|done]. cbn [fst table].
    exists r. split; [apply elem_of_app; by left|by left].
  - unfold Cancel. destruct dbOK; [|done]. cbn [fst table]. apply follows_update; [|done].
    intros [_ Hq%bool_decide_eq_true]%andb_true_iff. by apply follows_cancelled.
  - destruct (alive w); [done|]. unfold ResumeStaleLeases. destruct dbOK; [|done].
    cbn [fst table]. apply follows_update; [|done].
    intros [Hp%bool_decide_eq_true _]%andb_true_iff. by apply follows_requeued.
  - destruct (alive w && _); [|done]. destruct dbOK; [|done].
    destruct (LeaseNext_cases [] choice now workerID (table w)) as [(m & Hm & ->)|[_ ->]];
      [|done]. cbn [table]. apply follows_update; [|done]. intros Heq%Z.eqb_eq.
    apply elem_of_oldest in Hm as (Hm & Hq & _).
    assert (r = m) as -> by (by eapply NoDup_ids_inj). by apply follows_lease.
  - destruct (running w) as [j|] eqn:Ej; [|done]. cbn [table]. rewrite dispatch_update.
    destruct (parentLive && dbOK); [|done]. apply follows_update; [|done].
    intros Heq%Z.eqb_eq. destruct (Hrun j eq_refl) as (_ & r0 & Hr0 & Hid & _ & Hst).
    assert (r = r0) as -> by (eapply NoDup_ids_inj; [done..|congruence]).
    by apply closeJob_follows.
  - done.
Qed.

Lemma wf_exec e w : wf w -> wf (exec e w).
Proof.
  intros HW. pose proof HW as [Hids Hrun]. destruct e; cbn [Jobs.exec].
  - case_bool_decide as Hid; [done|]. unfold Enqueue. destruct dbOK; [|by split].
    split; cbn [fst table running alive].
    + rewrite fmap_app. apply NoDup_app. split; [done|split; [|apply NoDup_singleton]].
      by intros x Hx ->%list_elem_of_singleton.
    + intros j Hj. destruct (Hrun j Hj) as (Ha & r & Hr & ?). split; [done|].
      exists r. split; [apply elem_of_app; by left|done].
  - unfold Cancel. destruct dbOK; [|by split]. split; cbn [fst table running alive].
    + by rewrite ids_update_where.
    + intros j Hj. destruct (Hrun j Hj) as (Ha & r & Hr & Hid & Hk & Hst). split; [done|].
      exists r. split; [|done]. apply elem_of_update_where. exists r. split; [done|].
      unfold queued. rewrite bool_decide_false, andb_false_r by congruence. done.
  - destruct (alive w) eqn:Ha; [done|]. unfold ResumeStaleLeases.
    split; [|done]. destruct dbOK; [|done]. cbn [fst table]. by rewrite ids_update_where.
  - destruct (alive w && _) eqn:Ha; [|done].
    destruct dbOK; [|by split]. 
    destruct (LeaseNext_cases [] choice now workerID (table w)) as [(m & Hm & ->)|[_ ->]];
      [|by split]. split; cbn [table running alive].
    + by rewrite ids_update_where.
    + intros j [= <-]. split; [done|]. apply elem_of_oldest in Hm as (Hm & _).
      exists (lease now workerID m). split; [|done]. apply elem_of_update_where.
      exists m. split; [done|]. by rewrite Z.eqb_refl.
  - destruct (running w) as [j|]; [|done]. split; [|done]. cbn [table].
    rewrite dispatch_update. destruct (_ && _); [|done].
    rewrite ids_update_where; [done|]. intros r. apply closeJob_ID.
  - by split.
Qed.

Lemma wf_run es w : wf w -> wf (run es w).
Proof.
  revert w. induction es as [|e es IH]; intros w HW; [done|]. by apply IH, wf_exec.
Qed.

Lemma terminal_exec e w r : wf w -> r ∈ table w -> terminal r -> r ∈ table (exec e w).
Proof.
  intros HW Hr Ht. destruct (exec_rows e w r HW Hr) as (r' & Hr' & Hf).
  by rewrite <- (follows_terminal r r').
Qed.

Lemma terminal_run es w r : wf w -> r ∈ table w -> terminal r -> r ∈ table (run es w).
Proof.
  revert w. induction es as [|e es IH]; intros w HW Hr Ht; [done|].
  apply (IH (exec e w)); [by apply wf_exec| |done]. by apply terminal_exec.
Qed.

(** *** Draining the queue

    One poll: lease a job, run its handler, close it. *)
Definition poll (p : nat * Z * Z) : list event :=
  [ELease true p.1.1 p.1.2; EFinish true true p.2].
Definition polls (l : list (nat * Z * Z)) : list event := concat (map poll l).

Definition idle (w : World) : Prop := alive w = true /\ running w = None.

Definition nqueued (t : list Job) : nat := length (List.filter queued t).

Lemma poll_step p w m :
  wf w -> idle w -> LeaseNext true [] p.1.1 p.1.2 workerID (table w)
    = (update_where (fun x => ID x =? ID m) (lease p.1.2 workerID) (table w),
       inl (leased p.1.2 workerID m)) ->
  run (poll p) w
  = mkWorld (update_where (fun x => ID x =? ID m)
      (fun x => closeJob p.2 (leased p.1.2 workerID m) (lease p.1.2 workerID x)) (table w)) true None.
Proof.
  intros HW [Ha Hr] Hl. unfold Jobs.run, poll. cbn [fold_left Jobs.exec].
  rewrite Ha, Hr, bool_decide_true by done. cbn [andb]. rewrite Hl. cbn [running table alive].
  f_equal. rewrite dispatch_update. cbn [andb]. unfold update_where. rewrite map_map.
  apply map_ext. intros r. cbn [leased ID]. destruct (ID r =? ID m) eqn:E; cbn [lease ID];
    rewrite E; done.
Qed.

Lemma nqueued_update t m f :
  NoDup (ID <$> t) -> m ∈ t -> jState m = StateQueued ->
  (forall r, jState r = StateQueued -> jState (f r) <> StateQueued) ->
  S (nqueued (update_where (fun x => ID x =? ID m) f t)) = nqueued t.
Proof.
  intros HN Hm Hq Hf. induction t as [|x t IH]; [by apply elem_of_nil in Hm|].
  cbn [fmap list_fmap] in HN. apply NoDup_cons in HN as [Hx HN].
  unfold nqueued, update_where in *. cbn [map List.filter].
  apply elem_of_cons in Hm as [->|Hm].
  - rewrite Z.eqb_refl.
    assert (queued (f x) = false) as -> by (by apply bool_decide_false, Hf).
    assert (queued x = true) as -> by (by apply bool_decide_true). cbn [length]. f_equal. f_equal. f_equal. rewrite <- (map_id t) at 2. apply map_ext_in.
    intros y Hy. destruct (Z.eqb_spec (ID y) (ID x)) as [E|]; [|done].
    exfalso. apply Hx. rewrite <- E. by apply list_elem_of_fmap_2, list_elem_of_In.
  - destruct (Z.eqb_spec (ID x) (ID m)) as [E|].
    + exfalso. apply Hx. rewrite E. by apply list_elem_of_fmap_2.
    + destruct (queued x); cbn [length]; rewrite <- (IH HN Hm); done.
Qed.
(** What becomes of a queued row: closed after exactly one attempt, done
    exactly when a handler is registered and returned nil. *)
Definition processed (r r' : Job) : Prop :=
  sameJob r r' /\ Attempts r' = Attempts r + 1 /\
  exists now, jState r' =
    match handlers (Kind r) with
    | Some h =>
        match h (leased now workerID r) with Some _ => StateFailed | None => StateDone end
    | None => StateFailed
    end.

Lemma processed_close (p : nat * Z * Z) r :
  processed r (closeJob p.2 (leased p.1.2 workerID r) (lease p.1.2 workerID r)) /\
  terminal (closeJob p.2 (leased p.1.2 workerID r) (lease p.1.2 workerID r)).
Proof.
  split; [|by apply closeJob_follows].
  unfold processed, closeJob. cbn [leased Kind].
  destruct (handlers (Kind r)) as [h|]; [|by split; [|split; [|exists p.1.2]]].
  destruct (h (leased p.1.2 workerID r)) eqn:E; (split; [done|split; [done|]]);
    exists p.1.2; by rewrite E.
Qed.

Lemma nqueued_zero t : nqueued t = 0%nat -> forall r, r ∈ t -> jState r <> StateQueued.
Proof.
  intros Hn r Hr Hq. unfold nqueued in Hn. apply length_zero_iff_nil in Hn.
  assert (In r (List.filter queued t)) as Hin.
  { apply filter_In. split; [by apply list_elem_of_In|]. by apply bool_decide_true. }
  by rewrite Hn in Hin.
Qed.

Lemma nqueued_none t : (forall r, r ∈ t -> jState r <> StateQueued) -> nqueued t = 0%nat.
Proof.
  intros H. unfold nqueued. apply length_zero_iff_nil.
  destruct (List.filter queued t) as [|x l] eqn:E; [done|]. exfalso.
  assert (In x (List.filter queued t)) as Hin by (rewrite E; by left).
  apply filter_In in Hin as [Hx Hq%bool_decide_eq_true]. by apply (H x); [apply list_elem_of_In|].
Qed.

Lemma drain_queue l w :
  wf w -> idle w -> length l = nqueued (table w) ->
  nqueued (table (run (polls l) w)) = 0%nat /\ idle (run (polls l) w) /\
  forall r, r ∈ table w -> jState r = StateQueued ->
    exists r', r' ∈ table (run (polls l) w) /\ processed r r' /\ terminal r'.
Proof.
  revert w. induction l as [|p l IH]; intros w HW Hi Hl.
  { split; [done|split; [done|]]. intros r Hr Hq. by destruct (nqueued_zero _ (eq_sym Hl) r Hr). }
  change (polls (p :: l)) with (poll p ++ polls l).
  assert (run (poll p ++ polls l) w = run (polls l) (run (poll p) w)) as -> by apply fold_left_app.
  destruct (LeaseNext_cases [] p.1.1 p.1.2 workerID (table w)) as [(m & Hm & HL)|[Ho _]].
  2: { exfalso. rewrite nqueued_none in Hl; [done|]. intros r Hr Hq.
       by apply (oldest_nil [] _ Ho r Hr), elem_of_nil in Hq. }
  apply elem_of_oldest in Hm as (Hm & Hmq & _).
  pose proof (wf_run (poll p) w HW) as HW1. rewrite (poll_step p w m HW Hi HL) in *.
  set (f := fun x => closeJob p.2 (leased p.1.2 workerID m) (lease p.1.2 workerID x)) in *.
  set (w1 := mkWorld _ true None) in *.
  destruct (processed_close p m) as [Hp Ht].
  assert (f m ∈ table w1) as Hfm.
  { apply elem_of_update_where. exists m. split; [done|]. by rewrite Z.eqb_refl. }
  assert (S (nqueued (table w1)) = nqueued (table w)) as Hn.
  { apply nqueued_update; [apply HW|done|done|]. intros r _.
    destruct (closeJob_follows p.2 (leased p.1.2 workerID m) (lease p.1.2 workerID r) eq_refl)
      as [_ [E|[E|E]]]; unfold f; by rewrite E. }
  destruct (IH w1 HW1) as (H1 & H2 & H3); [done|cbn in Hl; lia|].
  split; [done|split; [done|]]. intros r Hr Hq.
  destruct (decide (ID r = ID m)) as [Heq|Hne].
  - assert (r = m) as -> by (by eapply NoDup_ids_inj; [apply HW|..]).
    exists (f m). split; [|by split]. by apply terminal_run.
  - apply H3; [|done]. apply elem_of_update_where. exists r. split; [done|].
    by destruct (Z.eqb_spec (ID r) (ID m)).
Qed.

(** *** A job left in progress

    Without a process that starts more than [staleThreshold] after the
    lease, nothing touches a row that is in progress and not running. *)
Definition startsLater (s : Z) (e : event) : Prop :=
  match e with EStart _ now => now <= s + staleThreshold | _ => True end.

Lemma stranded_exec e w r s :
  wf w -> r ∈ table w -> jState r = StateInProgress -> StartedAt r = Some s ->
  (forall j, running w = Some j -> ID j <> ID r) -> startsLater s e ->
  r ∈ table (exec e w) /\ (forall j, running (exec e w) = Some j -> ID j <> ID r).
Proof.
  intros [Hids Hrun] Hr Hst Hs Hnr He.
  assert (forall p f, p r = false -> r ∈ update_where p f (table w)) as Hupd.
  { intros p f Hp. apply elem_of_update_where. exists r. by rewrite Hp. }
  assert (queued r = false) as Hnq by (apply bool_decide_false; congruence).
  destruct e; cbn [Jobs.exec].
  - case_bool_decide; [split; [exact Hr|first [exact Hnr|done]]|]. unfold Enqueue. destruct dbOK; [|split; [exact Hr|first [exact Hnr|done]]]. cbn [fst table running].
    split; [apply elem_of_app; by left|done].
  - unfold Cancel. destruct dbOK; [|split; [exact Hr|first [exact Hnr|done]]]. cbn [fst table running]. split; [|done].
    apply Hupd. by rewrite Hnq, andb_false_r.
  - destruct (alive w); [split; [exact Hr|first [exact Hnr|done]]|]. unfold ResumeStaleLeases. destruct dbOK; [|split; [exact Hr|first [exact Hnr|done]]].
    cbn [fst table running]. split; [|done]. apply Hupd. unfold stale. rewrite Hs.
    cbn [startsLater] in He. destruct (Z.ltb_spec s (now - staleThreshold)); [lia|].
    by rewrite andb_false_r.
  - destruct (alive w && _); [|split; [exact Hr|first [exact Hnr|done]]]. destruct dbOK; [|split; [exact Hr|first [exact Hnr|done]]].
    destruct (LeaseNext_cases [] choice now workerID (table w)) as [(m & Hm & ->)|[_ ->]];
      [|by split]. cbn [table running]. apply elem_of_oldest in Hm as (Hm & Hmq & _).
    assert (ID r <> ID m) as Hne.
    { intros Heq. assert (r = m) as -> by (by eapply NoDup_ids_inj). congruence. }
    split; [|by intros j [= <-] Heq]. apply Hupd. by destruct (Z.eqb_spec (ID r) (ID m)).
  - destruct (running w) as [j|] eqn:Ej; [|split; [exact Hr|by rewrite Ej]]. cbn [table running]. split; [|done].
    rewrite dispatch_update. destruct (_ && _); [|done]. apply Hupd.
    destruct (Z.eqb_spec (ID r) (ID j)); [|done]. by destruct (Hnr j eq_refl).
  - by split.
Qed.

Lemma stranded_run es w r s :
  wf w -> r ∈ table w -> jState r = StateInProgress -> StartedAt r = Some s ->
  (forall j, running w = Some j -> ID j <> ID r) -> Forall (startsLater s) es ->
  r ∈ table (run es w).
Proof.
  intros HW Hr Hst Hs Hnr Hes. revert w HW Hr Hnr.
  induction Hes as [|e es He Hes IH]; intros w HW Hr Hnr; [done|].
  destruct (stranded_exec e w r s HW Hr Hst Hs Hnr He). apply (IH (exec e w)); [|done..].
  by apply wf_exec.
Qed.
End WorkerLemmas.

Lemma HasPendingFor_true kind target t :
  HasPendingFor true kind target t = inl true <->
  exists r, r ∈ t /\ Kind r = kind /\ TargetNodeNum r = Some target /\
    (jState r = StateQueued \/ jState r = StateInProgress).
Proof.
  assert (forall r, pendingFor kind target r = true <->
    Kind r = kind /\ TargetNodeNum r = Some target /\
    (jState r = StateQueued \/ jState r = StateInProgress)) as Hp.
  { intros r. unfold pendingFor, queued, inProgress.
    rewrite !andb_true_iff, orb_true_iff, !bool_decide_eq_true. tauto. }
  unfold HasPendingFor. destruct (List.filter (pendingFor kind target) t) as [|x l] eqn:E.
  - split; [done|]. intros (r & Hr & Hk).
    assert (In r (List.filter (pendingFor kind target) t)) as Hin.
    { apply filter_In. split; [by apply list_elem_of_In|by apply Hp]. }
    by rewrite E in Hin.
  - split; [intros _|].
    + assert (In x (List.filter (pendingFor kind target) t)) as Hin by (rewrite E; by left).
      apply filter_In in Hin as [Hx Hpx]. exists x. split; [by apply list_elem_of_In|by apply Hp].
    + intros _. rewrite zlen_cons. pose proof (zlen_nonneg l).
      destruct (Z.ltb_spec 0 (1 + zlen l)); [done|lia].
Qed.

(** The empty table with a running loop. *)
Definition freshWorld : World := mkWorld [] true None.

Lemma wf_freshWorld : wf freshWorld.
Proof. by split; [apply NoDup_nil_2|]. Qed.

(** ** Properties *)

(** C29: the job lifecycle.  Under every interleaving of enqueues, cancels,
    leases, handler results, crashes and restarts, every job stays in the
    table with its kind, target and payload; it moves only from queued to
    in progress (counting one attempt) or cancelled, and from in progress to
    done, failed or back to queued; and once done, failed or cancelled its
    row never changes again. *)
Theorem job_lifecycle q handlers workerID w es e es' r :
  wf w -> r ∈ table (run q handlers workerID es w) ->
  let w1 := run q handlers workerID es w in
  (exists r', r' ∈ table (exec q handlers workerID e w1) /\ follows r r') /\
  (terminal r -> r ∈ table (run q handlers workerID es' w1)).
Proof.
  intros HW Hr w1. pose proof (wf_run q handlers workerID es w HW) as HW1.
  split; [by apply exec_rows|]. intros Ht. by apply terminal_run.
Qed.

Definition okHandlers : string -> option (Job -> option string) :=
  fun k => if bool_decide (k = KindRotatePhaseA) then Some (fun _ => None) else None.
Definition aJob : EnqueueOpts := mkOpts KindRotatePhaseA None (Some 7) "{}".
Definition aRow : Job :=
  mkJob 1 KindRotatePhaseA None (Some 7) StateQueued 0 None "{}" 100 None None None.

Lemma job_lifecycle_witness :
  (exists r', r' ∈ table (exec (fun s => s) okHandlers "w" (ELease true 0 200)
       (run (fun s => s) okHandlers "w" [EEnqueue true 1 100 aJob] freshWorld)) /\
     follows aRow r') /\
  (terminal aRow -> aRow ∈ table (run (fun s => s) okHandlers "w" [ECrash]
       (run (fun s => s) okHandlers "w" [EEnqueue true 1 100 aJob] freshWorld))).
Proof. apply job_lifecycle; [apply wf_freshWorld|by left]. Defined.

(** Leases are first in, first out.  [LeaseNext] returns a queued row
    that no queued row it may lock precedes in enqueue time, with one attempt
    more and its start time and worker set, and changes that row only;
    whichever the database picks among rows of equal time.  It reports that
    there is no work exactly when every queued row is locked by another
    transaction. *)
Theorem lease_fifo locked choice now workerID t t' res :
  NoDup (ID <$> t) -> LeaseNext true locked choice now workerID t = (t', res) ->
  match res with
  | inl j =>
      exists r, r ∈ t /\ jState r = StateQueued /\ (ID r ∉ locked) /\ j = leased now workerID r /\
        (forall r', r' ∈ t -> jState r' = StateQueued -> (ID r' ∉ locked) ->
           EnqueuedAt r <= EnqueuedAt r') /\
        (forall r', r' ∈ t' <-> (r' = lease now workerID r \/ r' ∈ t /\ r' <> r))
  | inr err =>
      t' = t /\ err = ErrNoWork /\ forall r, r ∈ t -> jState r = StateQueued -> ID r ∈ locked
  end.
Proof.
  intros HN HL.
  destruct (LeaseNext_cases locked choice now workerID t) as [(r & Hr & E)|[Ho E]];
    rewrite E in HL; injection HL as <- <-.
  - apply elem_of_oldest in Hr as (Hr & Hq & Hl & Hmin). exists r.
    split; [done|split; [done|split; [done|split; [done|split; [done|]]]]].
    intros r'. rewrite elem_of_update_where. split.
    + intros (r0 & Hr0 & ->). destruct (Z.eqb_spec (ID r0) (ID r)) as [Heq|Hne].
      * left. by assert (r0 = r) as -> by (by eapply NoDup_ids_inj).
      * right. split; [done|]. congruence.
    + intros [->|[Hr' Hne]].
      * exists r. split; [done|]. by rewrite Z.eqb_refl.
      * exists r'. split; [done|]. destruct (Z.eqb_spec (ID r') (ID r)); [|done].
        by destruct Hne; eapply NoDup_ids_inj.
  - split; [done|split; [done|]]. by apply oldest_nil.
Qed.

Lemma lease_fifo_witness :
  let t := [aRow; mkJob 2 KindRotatePhaseB None None StateQueued 0 None "{}" 50 None None None] in
  match (LeaseNext true [] 0 200 "w" t).2 with
  | inl j =>
      exists r, r ∈ t /\ jState r = StateQueued /\ (ID r ∉ @nil Z) /\ j = leased 200 "w" r /\
        (forall r', r' ∈ t -> jState r' = StateQueued -> (ID r' ∉ @nil Z) ->
           EnqueuedAt r <= EnqueuedAt r') /\
        (forall r', r' ∈ (LeaseNext true [] 0 200 "w" t).1 <->
           (r' = lease 200 "w" r \/ r' ∈ t /\ r' <> r))
  | inr err =>
      (LeaseNext true [] 0 200 "w" t).1 = t /\ err = ErrNoWork /\
      forall r, r ∈ t -> jState r = StateQueued -> ID r ∈ @nil Z
  end.
Proof.
  cbv zeta. apply (lease_fifo [] 0 200 "w"); [|reflexivity].
  apply (bool_decide_unpack _). reflexivity.
Defined.

(** The worker empties the queue.  From any well-formed state with a live
    idle loop, as many polls as there are queued rows leave no row queued
    and the loop idle; every row that was queued was attempted exactly once
    and is done if its kind has a handler that returned nil for the leased
    job, failed otherwise. *)
Theorem worker_drains_queue q handlers workerID w l :
  wf w -> idle w -> length l = nqueued (table w) ->
  let w' := run q handlers workerID (polls l) w in
  (forall r, r ∈ table w' -> jState r <> StateQueued) /\ idle w' /\
  forall r, r ∈ table w -> jState r = StateQueued ->
    exists r', r' ∈ table w' /\ processed handlers workerID r r' /\ terminal r'.
Proof.
  intros HW Hi Hl w'. destruct (drain_queue q handlers workerID l w HW Hi Hl) as (H1 & H2 & H3).
  split; [by apply nqueued_zero|by split].
Qed.

Lemma worker_drains_queue_witness :
  let w := mkWorld [aRow] true None in
  let w' := run (fun s => s) okHandlers "w" (polls [(0%nat, 200, 300)]) w in
  (forall r, r ∈ table w' -> jState r <> StateQueued) /\ idle w' /\
  forall r, r ∈ table w -> jState r = StateQueued ->
    exists r', r' ∈ table w' /\ processed okHandlers "w" r r' /\ terminal r'.
Proof.
  apply worker_drains_queue; [|done|reflexivity].
  split; [apply NoDup_singleton|done].
Defined.

(** The debounce is exact.  [HasPendingFor] answers true exactly when a
    job of that kind for that node is queued or in progress. *)
Theorem has_pending_exact kind target t :
  HasPendingFor true kind target t = inl true <->
  exists r, r ∈ t /\ Kind r = kind /\ TargetNodeNum r = Some target /\
    (jState r = StateQueued \/ jState r = StateInProgress).
Proof. apply HasPendingFor_true. Qed.

(** A stale lease is resumed.  A start more than ten minutes after a
    lease whose worker died puts the row back in the queue with its attempts
    kept, and reports how many rows it resumed. *)
Theorem stale_lease_resumed t r s now :
  r ∈ t -> jState r = StateInProgress -> StartedAt r = Some s -> s < now - staleThreshold ->
  exists t' n, ResumeStaleLeases true now staleThreshold t = (t', inl n) /\ 0 < n /\
    set_requeued r ∈ t' /\ jState (set_requeued r) = StateQueued /\
    Attempts (set_requeued r) = Attempts r /\ WorkerID (set_requeued r) = None.
Proof.
  intros Hr Hst Hs Hlt. assert (stale (now - staleThreshold) r = true) as Hstale.
  { unfold stale, inProgress. rewrite Hst, Hs, bool_decide_true by done. by apply Z.ltb_lt. }
  eexists _, _. split; [reflexivity|]. split; [|split; [|done]].
  - assert (In r (List.filter (stale (now - staleThreshold)) t)) as Hin.
    { apply filter_In. split; [by apply list_elem_of_In|done]. }
    destruct (List.filter _ t) as [|x l]; [done|]. rewrite zlen_cons.
    pose proof (zlen_nonneg l). lia.
  - apply elem_of_update_where. exists r. by rewrite Hstale.
Qed.

Definition runningRow : Job := lease 200 "w" aRow.

Lemma stale_lease_resumed_witness :
  exists t' n, ResumeStaleLeases true (11 * minute) staleThreshold [runningRow] = (t', inl n) /\
    0 < n /\ set_requeued runningRow ∈ t' /\ jState (set_requeued runningRow) = StateQueued /\
    Attempts (set_requeued runningRow) = Attempts runningRow /\
    WorkerID (set_requeued runningRow) = None.
Proof.
  apply (stale_lease_resumed [runningRow] runningRow 200);
    [by left|reflexivity|reflexivity|by vm_compute].
Defined.

(** A quick restart strands the job in progress.  When the process is
    stopped while a handler runs (the close of the job fails in the cancelled
    context, even if the handler succeeded), and every later start comes
    within ten minutes of the lease, the row stays in progress for ever,
    whatever else happens: nothing leases, closes or resumes it, and the
    debounce reports the node as pending, so that no new job is enqueued. *)
Theorem quick_restart_strands_job q handlers workerID w es now r s j node :
  wf w -> running w = Some j -> r ∈ table w -> ID r = ID j ->
  StartedAt r = Some s -> TargetNodeNum r = Some node -> Forall (startsLater s) es ->
  let w' := run q handlers workerID (EFinish false true now :: es) w in
  r ∈ table w' /\ jState r = StateInProgress /\
  HasPendingFor true (Kind r) node (table w') = inl true.
Proof.
  intros HW Hrun Hr Hid Hs Hnode Hes.
  destruct (wf_running w HW j Hrun) as (_ & r0 & Hr0 & Hid0 & _ & Hst).
  assert (r0 = r) as -> by (eapply NoDup_ids_inj; [apply HW|done..|congruence]).
  assert (exec q handlers workerID (EFinish false true now) w = mkWorld (table w) false None) as E.
  { cbn [exec]. rewrite Hrun, dispatch_update. done. }
  assert (r ∈ table (run q handlers workerID (EFinish false true now :: es) w)) as Hin.
  { unfold run. cbn [fold_left]. rewrite E. apply (stranded_run q handlers workerID es _ r s);
      [|done|done|done|done|done]. by split; [apply HW|]. }
  split; [done|split; [done|]]. apply HasPendingFor_true. exists r. tauto.
Qed.

Lemma quick_restart_strands_job_witness :
  let w' := run (fun s => s) okHandlers "w"
    [EFinish false true 300; EStart true 500; ELease true 0 600]
    (mkWorld [runningRow] true (Some (leased 200 "w" aRow))) in
  runningRow ∈ table w' /\ jState runningRow = StateInProgress /\
  HasPendingFor true (Kind runningRow) 7 (table w') = inl true.
Proof.
  apply (quick_restart_strands_job (fun s => s) okHandlers "w" _ [EStart true 500; ELease true 0 600]
           300 runningRow 200 (leased 200 "w" aRow) 7);
    [|reflexivity|by left|reflexivity|reflexivity|reflexivity|].
  - split; [apply NoDup_singleton|]. intros j [= <-]. split; [done|].
    exists runningRow. split; [by left|done].
  - repeat constructor. by vm_compute.
Defined.
