(* ===== verification/GoFloat.v ===== *)
(** Package strconv: [ParseFloat(s, 64)] and [Atoi].

    A [float64] is a [spec_float] of the Standard Library with 53 bits of
    precision.  The scanner below is the one of the package (sign, decimal or
    hexadecimal mantissa, exponent, underscores, infinities and NaN); the
    value is the exact one rounded to nearest even, and an overflow is the
    range error. *)
From Stdlib Require Import Floats.SpecFloat.
From S2P Require Import Prelude GoStrings.

(** ** Definitions *)
Definition prec64 : Z := 53.
Definition emax64 : Z := 1024.

(** [m * 2^e] with the sign, rounded. *)
Definition roundBinary (neg : bool) (m e : Z) : spec_float :=
  binary_normalize prec64 emax64 (if neg then - m else m) e neg.

(** [m * 10^e] with the sign, rounded: a negative power is divided out to 66
    bits and a sticky bit, more than the rounding looks at. *)
Definition roundDecimal (neg : bool) (m e : Z) : spec_float :=
  if m =? 0 then S754_zero neg
  else if 0 <=? e then roundBinary neg (m * 10 ^ e) 0
  else
    let d := 10 ^ (- e) in
    let s := Z.max 0 (Z.log2 d - Z.log2 m + 67) in
    let q := m * 2 ^ s / d in
    let sticky := if (m * 2 ^ s) mod d =? 0 then 0 else 1 in
    roundBinary neg (2 * q + sticky) (- s - 1).

(** *** The scanner ([readFloat]) *)
Definition chars (s : string) : list Z := map code (String.list_ascii_of_string s).

Definition isDigit (c : Z) : bool := (48 <=? c) && (c <=? 57).
Definition lowerc (c : Z) : Z := Z.lor c 32.
Definition isHexLetter (c : Z) : bool := (97 <=? lowerc c) && (lowerc c <=? 102).

Record mantState : Type := mkMant {
  mMant : Z; mNd : Z; mDp : Z; mSawdot : bool; mSawdigits : bool; mUnderscores : bool
}.
Definition mant0 : mantState := mkMant 0 0 0 false false false.

Definition mantDigit (base d : Z) (st : mantState) : mantState :=
  if (d =? 0) && (mNd st =? 0)
  then mkMant (mMant st) 0 (mDp st - 1) (mSawdot st) true (mUnderscores st)
  else mkMant (mMant st * base + d) (mNd st + 1) (mDp st) (mSawdot st) true (mUnderscores st).

Fixpoint mantLoop (hex : bool) (s : list Z) (st : mantState) : mantState * list Z :=
  match s with
  | [] => (st, [])
  | c :: s' =>
      if c =? 95 then
        mantLoop hex s' (mkMant (mMant st) (mNd st) (mDp st) (mSawdot st) (mSawdigits st) true)
      else if c =? 46 then
        if mSawdot st then (st, s)
        else mantLoop hex s'
               (mkMant (mMant st) (mNd st) (mNd st) true (mSawdigits st) (mUnderscores st))
      else if isDigit c then mantLoop hex s' (mantDigit (if hex then 16 else 10) (c - 48) st)
      else if hex && isHexLetter c then mantLoop hex s' (mantDigit 16 (lowerc c - 87) st)
      else (st, s)
  end.

Fixpoint expDigits (s : list Z) (e : Z) (us : bool) : Z * bool * list Z :=
  match s with
  | [] => (e, us, [])
  | c :: s' =>
      if c =? 95 then expDigits s' e true
      else if isDigit c then expDigits s' (if e <? 10000 then e * 10 + c - 48 else e) us
      else (e, us, s)
  end.

(** The exponent part after [e] or [p]: value, underscores, rest. *)
Definition exponent (s : list Z) : option (Z * bool * list Z) :=
  let '(esign, s) := match s with
                     | 43 :: s' => (1, s')
                     | 45 :: s' => (-1, s')
                     | _ => (1, s)
                     end in
  match s with
  | c :: _ =>
      if isDigit c
      then let '(e, us, rest) := expDigits s 0 false in Some (esign * e, us, rest)
      else None
  | [] => None
  end.

(** [underscoreOK]: an underscore stands between digits, or between the base
    prefix and a digit. *)
Inductive saw : Type := SawStart | SawDigit | SawUnderscore | SawOther.

Fixpoint underscoreLoop (hex : bool) (s : list Z) (st : saw) : bool :=
  match s with
  | [] => match st with SawUnderscore => false | _ => true end
  | c :: s' =>
      if isDigit c || hex && isHexLetter c then underscoreLoop hex s' SawDigit
      else if c =? 95 then
        match st with SawDigit => underscoreLoop hex s' SawUnderscore | _ => false end
      else match st with
           | SawUnderscore => false
           | _ => underscoreLoop hex s' SawOther
           end
  end.

Definition underscoreOK (s : list Z) : bool :=
  let s := match s with 43 :: s' | 45 :: s' => s' | _ => s end in
  match s with
  | 48 :: c :: s' =>
      if (lowerc c =? 98) || (lowerc c =? 111) || (lowerc c =? 120)
      then underscoreLoop (lowerc c =? 120) s' SawDigit
      else underscoreLoop false s SawStart
  | _ => underscoreLoop false s SawStart
  end.

(** A number that takes the whole of [s]. *)
Definition readFloat (s : list Z) : option spec_float :=
  let '(neg, s1) := match s with
                    | 43 :: s' => (false, s')
                    | 45 :: s' => (true, s')
                    | _ => (false, s)
                    end in
  let '(hex, s2) := match s1 with
                    | 48 :: c :: (_ :: _) as s' =>
                        if lowerc c =? 120 then (true, tail (tail s1)) else (false, s1)
                    | _ => (false, s1)
                    end in
  let '(st, s3) := mantLoop hex s2 mant0 in
  if negb (mSawdigits st) then None
  else
    let dp := if mSawdot st then mDp st else mNd st in
    let value (e : Z) :=
      if hex then roundBinary neg (mMant st) (4 * dp + e - 4 * mNd st)
      else roundDecimal neg (mMant st) (dp + e - mNd st) in
    match s3 with
    | c :: s4 =>
        if lowerc c =? (if hex then 112 else 101) then
          match exponent s4 with
          | Some (e, us, []) =>
              if (mUnderscores st || us) && negb (underscoreOK s) then None else Some (value e)
          | _ => None
          end
        else None
    | [] =>
        if hex then None
        else if mUnderscores st && negb (underscoreOK s) then None
        else Some (value 0)
    end.

(** Infinities and NaN, in any letter case; only the former take a sign. *)
Definition special (s : list Z) : option spec_float :=
  let '(sign, neg, s1) := match s with
                          | 43 :: s' => (true, false, s')
                          | 45 :: s' => (true, true, s')
                          | _ => (false, false, s)
                          end in
  let l := map lowerc s1 in
  if bool_decide (l = [105; 110; 102]) ||
     bool_decide (l = [105; 110; 102; 105; 110; 105; 116; 121])
  then Some (S754_infinity neg)
  else if negb sign && bool_decide (l = [110; 97; 110]) then Some S754_nan
  else None.

(** [None] is an error: syntax, or out of range. *)
Definition ParseFloat (s : string) : option spec_float :=
  match special (chars s) with
  | Some f => Some f
  | None =>
      match readFloat (chars s) with
      | Some (S754_infinity _) | None => None
      | r => r
      end
  end.

(** *** [strconv.Atoi]: an optional sign and decimal digits that fit [int] *)
Fixpoint atoiDigits (s : list Z) (n : Z) : option Z :=
  match s with
  | [] => Some n
  | c :: s' => if isDigit c then atoiDigits s' (n * 10 + c - 48) else None
  end.

Definition Atoi (s : string) : option Z :=
  let '(neg, l) := match chars s with
                   | 43 :: l => (false, l)
                   | 45 :: l => (true, l)
                   | l => (false, l)
                   end in
  match l with
  | [] => None
  | _ =>
      match atoiDigits l 0 with
      | Some n =>
          let v := if neg then - n else n in
          if (- 2 ^ 63 <=? v) && (v <? 2 ^ 63) then Some v else None
      | None => None
      end
  end.

(** Comparisons of [float64]: false when an operand is a NaN. *)
Definition float_lt (f g : spec_float) : bool := SFltb f g.
Definition isNaN (f : spec_float) : bool := match f with S754_nan => true | _ => false end.

(** Constants of the source, written in decimal. *)
Definition floatZ (z : Z) : spec_float := roundBinary (z <? 0) (Z.abs z) 0.
Definition floatTenths (z : Z) : spec_float := roundDecimal (z <? 0) (Z.abs z) (-1).

(** ** Examples *)
Example parse_int : ParseFloat "60" = Some (floatZ 60).
Proof. vm_compute. reflexivity. Qed.
Example parse_neg : ParseFloat "-120" = Some (floatZ (-120)).
Proof. vm_compute. reflexivity. Qed.
Example parse_tenth : ParseFloat "0.1" = Some (S754_finite false 7205759403792794 (-56)).
Proof. vm_compute. reflexivity. Qed.
Example parse_exp : ParseFloat "1.5e3" = Some (floatZ 1500).
Proof. vm_compute. reflexivity. Qed.
Example parse_hex : ParseFloat "0x1.8p1" = Some (floatZ 3).
Proof. vm_compute. reflexivity. Qed.
Example parse_under : ParseFloat "1_000" = Some (floatZ 1000).
Proof. vm_compute. reflexivity. Qed.
Example parse_bad : map ParseFloat [""; "abc"; "1_"; "1e"; "0x1"; "1e400"; "+nan"; "--1"; "."]
                    = [None; None; None; None; None; None; None; None; None].
Proof. vm_compute. reflexivity. Qed.
Example parse_special : map ParseFloat ["NaN"; "-Inf"; "+infinity"]
                        = [Some S754_nan; Some (S754_infinity true); Some (S754_infinity false)].
Proof. vm_compute. reflexivity. Qed.
Example parse_denorm : ParseFloat "5e-324" = Some (S754_finite false 1 (-1074)).
Proof. vm_compute. reflexivity. Qed.
Example parse_halfulp : ParseFloat "9007199254740993" = ParseFloat "9007199254740992".
Proof. vm_compute. reflexivity. Qed.
Example atoi_ex : map Atoi ["14"; "+6"; "-1"; ""; "1a"; "9223372036854775808"]
                  = [Some 14; Some 6; Some (-1); None; None; None].
Proof. vm_compute. reflexivity. Qed.
