(* ===== verification/GoFloat32.v ===== *)
(** Go's [float32] and the conversions to and from [float64].

    A [float32] is its IEEE 754 bit pattern, as the wire decoders leave it;
    a [float64] is a [spec_float] as in [GoFloat.v].  Widening is exact,
    narrowing rounds to nearest even and gives the canonical NaN. *)
From Stdlib Require Import Floats.SpecFloat.
From S2P Require Import Prelude GoStrings GoFloat.

(** ** Definitions *)
Definition sign32 (b : Z) : bool := Z.testbit b 31.
Definition expo32 (b : Z) : Z := Z.land (Z.shiftr b 23) 255.
Definition frac32 (b : Z) : Z := Z.land b (2 ^ 23 - 1).

Definition finite32 (b : Z) : bool := negb (expo32 b =? 255).
Definition isNaN32 (b : Z) : bool := (expo32 b =? 255) && negb (frac32 b =? 0).
(** [f == 0] *)
Definition isZero32 (b : Z) : bool := (expo32 b =? 0) && (frac32 b =? 0).

Definition qNaN32 : Z := Z.shiftl 255 23 + 2 ^ 22.
Definition bits32 (s : bool) (v : Z) : Z := (if s then 2 ^ 31 else 0) + v.

(** [m * 2^e] with a 53-bit mantissa. *)
Definition normal64 (s : bool) (m e : Z) : spec_float :=
  match m with
  | 0 => S754_zero s
  | _ => let k := 52 - Z.log2 m in S754_finite s (Z.to_pos (m * 2 ^ k)) (e - k)
  end.

(** [float64(f)] *)
Definition float64_of_32 (b : Z) : spec_float :=
  if expo32 b =? 255 then
    if frac32 b =? 0 then S754_infinity (sign32 b) else S754_nan
  else if expo32 b =? 0 then normal64 (sign32 b) (frac32 b) (-149)
  else normal64 (sign32 b) (frac32 b + 2 ^ 23) (expo32 b - 150).

(** [m / 2^k] rounded to nearest even. *)
Definition roundShift (m k : Z) : Z :=
  if k <=? 0 then m * 2 ^ (- k)
  else
    let q := m / 2 ^ k in
    let r := m mod 2 ^ k in
    if (2 ^ (k - 1) <? r) || ((r =? 2 ^ (k - 1)) && Z.odd q) then q + 1 else q.

(** [float32(f)] *)
Definition float32_of_64 (f : spec_float) : Z :=
  match f with
  | S754_nan => qNaN32
  | S754_infinity s => bits32 s (Z.shiftl 255 23)
  | S754_zero s => bits32 s 0
  | S754_finite s m e =>
      let et := Z.max (Z.log2 (Z.pos m) + e - 23) (-149) in
      let q := roundShift (Z.pos m) (et - e) in
      let v := if q <? 2 ^ 23 then q else (et + 150) * 2 ^ 23 + (q - 2 ^ 23) in
      bits32 s (Z.min v (Z.shiftl 255 23))
  end.

(** [f == 0] and finiteness of a [float64]. *)
Definition isZero64 (f : spec_float) : bool := match f with S754_zero _ => true | _ => false end.
Definition finite64 (f : spec_float) : bool :=
  match f with S754_zero _ | S754_finite _ _ _ => true | _ => false end.

(** [float64(i)] of a 32-bit integer. *)
Definition float64_of_int (z : Z) : spec_float := floatZ z.

(** ** Examples *)
Example widen_one : float64_of_32 0x3f800000 = floatZ 1.
Proof. vm_compute. reflexivity. Qed.
Example widen_subnormal : float64_of_32 1 = S754_finite false 4503599627370496 (-201).
Proof. vm_compute. reflexivity. Qed.
Example narrow_tenth : float32_of_64 (floatTenths 1) = 0x3dcccccd.
Proof. vm_compute. reflexivity. Qed.
Example narrow_overflow : float32_of_64 (roundDecimal true 1 39) = bits32 true (Z.shiftl 255 23).
Proof. vm_compute. reflexivity. Qed.
Example narrow_carry : float32_of_64 (floatZ (2 ^ 25 - 1)) = float32_of_64 (floatZ (2 ^ 25)).
Proof. vm_compute. reflexivity. Qed.
Example widen_specials : map float64_of_32 [0x7fc00000; 0x7f800000; 0xff800000; 0x80000000]
  = [S754_nan; S754_infinity false; S754_infinity true; S754_zero true].
Proof. vm_compute. reflexivity. Qed.

(** ** Narrowing inverts widening *)
Lemma roundShift_exact m k : 0 <= k -> roundShift (m * 2 ^ k) k = m.
Proof.
  intros Hk. unfold roundShift. destruct (k <=? 0) eqn:E.
  - assert (k = 0) as -> by lia. cbn. lia.
  - assert (0 < 2 ^ (k - 1)) by (apply Z.pow_pos_nonneg; lia).
    rewrite Z.div_mul, Z.mod_mul by (apply Z.pow_nonzero; lia).
    destruct (2 ^ (k - 1) <? 0) eqn:E1; [lia|]. destruct (0 =? 2 ^ (k - 1)) eqn:E2; [lia|]. done.
Qed.

Lemma fields32 b :
  0 <= b < 2 ^ 32 ->
  b = (if sign32 b then 2 ^ 31 else 0) + expo32 b * 2 ^ 23 + frac32 b /\
  0 <= expo32 b < 256 /\ 0 <= frac32 b < 2 ^ 23.
Proof.
  intros Hb. unfold sign32, expo32, frac32.
  change 255 with (Z.ones 8). change (2 ^ 23 - 1) with (Z.ones 23).
  rewrite !Z.land_ones, Z.shiftr_div_pow2 by lia.
  rewrite Z.testbit_odd, Z.shiftr_div_pow2 by lia.
  pose proof (Z.div_mod b (2 ^ 23) ltac:(lia)). pose proof (Z.mod_pos_bound b (2 ^ 23) ltac:(lia)).
  pose proof (Z.div_mod (b / 2 ^ 23) (2 ^ 8) ltac:(lia)). pose proof (Z.mod_pos_bound (b / 2 ^ 23) (2 ^ 8) ltac:(lia)).
  assert (b / 2 ^ 23 / 2 ^ 8 = b / 2 ^ 31) as E by (by rewrite Z.div_div by lia).
  assert (0 <= b / 2 ^ 31 < 2) as Hs.
  { split; [apply Z.div_pos; lia|]. apply Z.div_lt_upper_bound; lia. }
  assert (b / 2 ^ 31 = if Z.odd (b / 2 ^ 31) then 1 else 0) as Eo.
  { assert (b / 2 ^ 31 = 0 \/ b / 2 ^ 31 = 1) as [-> | ->] by lia; done. }
  split; [|split; [lia|lia]].
  transitivity (2 ^ 23 * (2 ^ 8 * (b / 2 ^ 31) + b / 2 ^ 23 mod 2 ^ 8) + b mod 2 ^ 23); [lia|].
  revert Eo. destruct (Z.odd (b / 2 ^ 31)); intros ->; lia.
Qed.

(** A normalised [m * 2^e] of at most 24 bits comes back. *)
Lemma narrow_normal s m e :
  0 < m < 2 ^ 24 -> -149 <= e -> (2 ^ 23 <= m \/ e = -149) -> e <= 104 ->
  float32_of_64 (normal64 s m e) =
    bits32 s (if m <? 2 ^ 23 then m else (e + 150) * 2 ^ 23 + (m - 2 ^ 23)).
Proof.
  intros Hm He Hn Hmax. unfold normal64. destruct m as [|p|p]; [lia| |lia].
  set (m := Z.pos p) in *. set (k := 52 - Z.log2 m).
  assert (0 <= Z.log2 m < 24) as Hl.
  { split; [apply Z.log2_nonneg|]. apply Z.log2_lt_pow2; lia. }
  assert (0 < m * 2 ^ k) as Hpos by (apply Z.mul_pos_pos; [lia|apply Z.pow_pos_nonneg; lia]).
  unfold float32_of_64. rewrite Z2Pos.id by done.
  rewrite Z.log2_mul_pow2 by lia.
  assert (Z.max (k + Z.log2 m + (e - k) - 23) (-149) = e) as ->.
  { destruct Hn as [Hn| ->]; [|lia].
    assert (Z.log2 m = 23) by (apply Z.log2_unique; lia). lia. }
  replace (e - (e - k)) with k by lia. rewrite roundShift_exact by lia. f_equal.
  apply Z.min_l. change (Z.shiftl 255 23) with (255 * 2 ^ 23). destruct (m <? 2 ^ 23) eqn:E; lia.
Qed.

Lemma narrow_widen b :
  0 <= b < 2 ^ 32 -> isNaN32 b = false -> float32_of_64 (float64_of_32 b) = b.
Proof.
  intros Hb Hn. destruct (fields32 b Hb) as (E & He & Hf). unfold isNaN32 in Hn. unfold float64_of_32.
  destruct (expo32 b =? 255) eqn:E1.
  - destruct (frac32 b =? 0) eqn:E2; [|done]. cbn [float32_of_64]. unfold bits32.
    change (Z.shiftl 255 23) with (255 * 2 ^ 23). lia.
  - destruct (expo32 b =? 0) eqn:E2.
    + destruct (Z.eq_dec (frac32 b) 0) as [E3|E3].
      * rewrite E3. cbn [normal64 float32_of_64]. unfold bits32. lia.
      * rewrite narrow_normal by lia. unfold bits32. destruct (frac32 b <? 2 ^ 23) eqn:E4; lia.
    + rewrite narrow_normal by lia. unfold bits32. destruct (frac32 b + 2 ^ 23 <? 2 ^ 23) eqn:E4; lia.
Qed.

Lemma normal64_zero s m e : 0 <= m -> isZero64 (normal64 s m e) = (m =? 0).
Proof. unfold normal64. by destruct m. Qed.

Lemma normal64_finite s m e : finite64 (normal64 s m e) = true.
Proof. unfold normal64. by destruct m. Qed.

Lemma isZero64_widen b : 0 <= b < 2 ^ 32 -> isZero64 (float64_of_32 b) = isZero32 b.
Proof.
  intros Hb. destruct (fields32 b Hb) as (_ & He & Hf). unfold float64_of_32, isZero32.
  destruct (expo32 b =? 255) eqn:E1.
  - replace (expo32 b =? 0) with false by lia. by destruct (frac32 b =? 0).
  - destruct (expo32 b =? 0) eqn:E2; rewrite normal64_zero by lia; cbn; lia.
Qed.

Lemma finite64_widen b : finite64 (float64_of_32 b) = finite32 b.
Proof.
  unfold float64_of_32, finite32. destruct (expo32 b =? 255); [by destruct (frac32 b =? 0)|].
  destruct (expo32 b =? 0); apply normal64_finite.
Qed.
