(* ===== verification/Builder.v ===== *)
(** The command builder, [internal/commands/builder.go].

    The catalogue of commands ([Registry]), the map from acknowledgements to
    commands ([ACKMap]), the validation of parameters and [Build], which
    turns an operator's request into the line sent over the mesh. *)
From Stdlib Require Import Floats.SpecFloat.
From S2P Require Import Prelude GoStrings GoFloat.

(** ** Definitions *)
Record ParamDef : Type := mkParam {
  Key : string;
  Label : string;
  Type_ : string;
  Required : bool;
  Min : spec_float;
  Max : spec_float;
  Options : list string;
  Placeholder : string;
  LiteralTrue : string
}.

Record CommandDef : Type := mkCommand {
  Name : string;
  Group : string;
  Description : string;
  Params : list ParamDef;
  AllowForever : bool;
  SingleNode : bool;
  SupportedTypes : list string;
  WireName : string
}.

Record BuildOutput : Type := mkOutput {
  oTarget : string;
  oName : string;
  oParams : list string;
  oLine : string
}.

Definition typeUniversal : list string := ["*"].
Definition typeAH : list string := ["antihunter"].
Definition typeGate : list string := ["gatesensor"].
Definition typeAICam : list string := ["aicam"].
Definition typeAHAICam : list string := ["antihunter"; "aicam"].

(** *** The catalogue *)
Definition registry1 : list CommandDef := [
  mkCommand "VIBRATION_OFF" "Status"
    "Disable vibration TEXTMSG broadcasts (detection still runs locally)"
    [] false false typeAH "";
  mkCommand "VIBRATION_ON" "Status"
    "Enable vibration TEXTMSG broadcasts"
    [] false false typeAH "";
  mkCommand "STATUS" "Status"
    "Request node status report"
    [] false false typeUniversal "";
  mkCommand "BASELINE_STATUS" "Diagnostics"
    "Request baseline scan status"
    [] false false typeAH "";
  mkCommand "VIBRATION_STATUS" "Diagnostics"
    "Request vibration sensor status"
    [] false false typeAH "";
  mkCommand "I2C_SCAN" "Diagnostics"
    "Probe the on-board I2C bus (RTC, INA219) and list responding addresses"
    [] false false typeAH "";
  mkCommand "C5_I2C_SCAN" "Diagnostics"
    "Probe the C5 expansion I2C bus (J_EXP / J_QWIIC) and list responding addresses"
    [] false false typeAH "";
  mkCommand "SCAN_START" "Scanning"
    "Start WiFi/BLE scanning"
    [mkParam "mode" "Mode" "select" true (floatZ 0) (floatZ 0) ["0"; "1"; "2"]
        "0=WiFi 1=BLE 2=Both" "";
      mkParam "duration" "Duration (sec)" "duration" true (floatZ 1) (floatZ 86400) []
        "" "";
      mkParam "channels" "Channels" "channels" false (floatZ 0) (floatZ 0) []
        "e.g. 1,6,11 (default) or 1..14" ""] true false typeAH "";
  mkCommand "SCAN_STOP" "Scanning"
    "Stop scanning"
    [] false false typeAH "STOP";
  mkCommand "DEVICE_SCAN_START" "Scanning"
    "Start device scan"
    [mkParam "mode" "Mode" "select" true (floatZ 0) (floatZ 0) ["0"; "1"; "2"]
        "" "";
      mkParam "duration" "Duration (sec)" "duration" true (floatZ 1) (floatZ 86400) []
        "" "";
      mkParam "captureProbes" "Capture probes" "bool" false (floatZ 0) (floatZ 0) []
        "Also record 802.11 probe requests during the scan" "+PROBE"] true false typeAH "";
  mkCommand "DEVICE_SCAN_STOP" "Scanning"
    "Stop device scan"
    [] false false typeAH "STOP";
  mkCommand "STOP" "Scanning"
    "Stop all scanning / inference activities"
    [] false false typeAHAICam "";
  mkCommand "START" "Scanning"
    "Start AI inference / detection forwarding"
    [] false false typeAICam "";
  mkCommand "PROBE_START" "Scanning"
    "Start passive probe-request sniffer. Default broadcasts only CONFIG_TARGETS matches; toggle 'broadcastAll' to push every probe (still 60s dedup per MAC+SSID)."
    [mkParam "mode" "Mode" "select" true (floatZ 0) (floatZ 0) ["0"; "1"; "2"]
        "0=WiFi 1=BLE 2=Both" "";
      mkParam "duration" "Duration (sec)" "duration" true (floatZ 1) (floatZ 86400) []
        "" "";
      mkParam "broadcastAll" "Broadcast all probes" "bool" false (floatZ 0) (floatZ 0) []
        "Push every probe (not just CONFIG_TARGETS matches)" "+ALL"] true false typeAH "";
  mkCommand "PROBE_STOP" "Scanning"
    "Stop probe-request sniffer"
    [] false false typeAH "";
  mkCommand "DRONE_START" "Detection"
    "Start drone detection"
    [mkParam "duration" "Duration (sec)" "duration" true (floatZ 1) (floatZ 86400) []
        "" ""] true false typeAH "";
  mkCommand "DRONE_STOP" "Detection"
    "Stop drone detection"
    [] false false typeAH "";
  mkCommand "DEAUTH_START" "Detection"
    "Start deauth detection"
    [mkParam "duration" "Duration (sec)" "duration" true (floatZ 1) (floatZ 86400) []
        "" ""] true false typeAH "";
  mkCommand "DEAUTH_STOP" "Detection"
    "Stop deauth detection"
    [] false false typeAH "";
  mkCommand "RANDOMIZATION_START" "Detection"
    "Start MAC randomization detection"
    [mkParam "mode" "Mode" "select" true (floatZ 0) (floatZ 0) ["0"; "1"; "2"]
        "" "";
      mkParam "duration" "Duration (sec)" "duration" true (floatZ 1) (floatZ 86400) []
        "" ""] true false typeAH "";
  mkCommand "RANDOMIZATION_STOP" "Detection"
    "Stop randomization detection"
    [] false false typeAH "";
  mkCommand "BASELINE_START" "Detection"
    "Start baseline environment scan"
    [mkParam "duration" "Duration (sec)" "duration" true (floatZ 1) (floatZ 86400) []
        "" ""] true false typeAH "";
  mkCommand "BASELINE_STOP" "Detection"
    "Stop baseline scan"
    [] false false typeAH "";
  mkCommand "TRIANGULATE_START" "Triangulation"
    "Start triangulation of a target"
    [mkParam "target" "Target MAC" "mac" true (floatZ 0) (floatZ 0) []
        "AA:BB:CC:DD:EE:FF" "";
      mkParam "duration" "Duration (sec)" "duration" true (floatZ 20) (floatZ 300) []
        "" "";
      mkParam "rfEnv" "RF Environment" "select" true (floatZ 0) (floatZ 0) ["0"; "1"; "2"; "3"; "4"]
        "0=Open 1=Suburban 2=Indoor 3=Dense 4=Industrial" "";
      mkParam "wifiPwr" "WiFi Power" "number" false (floatTenths 1) (floatTenths 50) []
        "1.5" "";
      mkParam "blePwr" "BLE Power" "number" false (floatTenths 1) (floatTenths 50) []
        "0.8" ""] true false typeAH "";
  mkCommand "TRIANGULATE_STOP" "Triangulation"
    "Stop triangulation"
    [] false false typeAH "";
  mkCommand "TRIANGULATE_RESULTS" "Triangulation"
    "Request triangulation results"
    [] false false typeAH "";
  mkCommand "CONFIG_CHANNELS" "Configuration"
    "Configure scan channels"
    [mkParam "channels" "Channels" "channels" true (floatZ 0) (floatZ 0) []
        "1,6,11 or 1..14" ""] false false typeAH "";
  mkCommand "CONFIG_TARGETS" "Configuration"
    "Configure target MACs"
    [mkParam "targets" "Target MACs" "pipeList" true (floatZ 0) (floatZ 0) []
        "AA:BB:CC:DD:EE:FF|11:22:33:44:55:66" ""] false false typeAH "";
  mkCommand "CONFIG_TARGETS_BLE" "Configuration"
    "Push BLE fingerprint targets to firmware (operator picks from saved BLE targets list)"
    [mkParam "targets" "BLE Targets" "bleTargetMultiSelect" true (floatZ 0) (floatZ 0) []
        "Pick one or more T-B-#### targets to push" ""] false false typeAH "";
  mkCommand "CONFIG_RSSI" "Configuration"
    "Configure RSSI threshold"
    [mkParam "rssi" "RSSI Threshold" "number" true (floatZ (-120)) (floatZ (-1)) []
        "" ""] false false typeAH "";
  mkCommand "CONFIG_NODEID" "Configuration"
    "Set node ID (HB + 1–3 digits, e.g. HB07. AH prefix accepted for legacy units.)"
    [mkParam "nodeId" "Node ID" "text" true (floatZ 0) (floatZ 0) []
        "HB07" ""] false true typeAH ""
].

Definition registry2 : list CommandDef := [
  mkCommand "ERASE_REQUEST" "Security"
    "Request erase token from node"
    [] false false typeAH "";
  mkCommand "ERASE_FORCE" "Security"
    "Force erase with token"
    [mkParam "token" "Erase Token" "text" true (floatZ 0) (floatZ 0) []
        "AH_XXXXXXXX_XXXXXXXX_XXXXXXXX" ""] false false typeAH "";
  mkCommand "ERASE_CANCEL" "Security"
    "Cancel pending erase"
    [] false false typeAH "";
  mkCommand "AUTOERASE_ENABLE" "Security"
    "Enable auto-erase on tamper"
    [mkParam "setupDelay" "Setup Delay (sec)" "number" false (floatZ 30) (floatZ 600) []
        "" "";
      mkParam "eraseDelay" "Erase Delay (sec)" "number" false (floatZ 10) (floatZ 300) []
        "" "";
      mkParam "vibs" "Vibration Count" "number" false (floatZ 2) (floatZ 5) []
        "" "";
      mkParam "window" "Window (sec)" "number" false (floatZ 10) (floatZ 60) []
        "" "";
      mkParam "cooldown" "Cooldown (sec)" "number" false (floatZ 300) (floatZ 3600) []
        "" ""] false false typeAH "";
  mkCommand "AUTOERASE_DISABLE" "Security"
    "Disable auto-erase"
    [] false false typeAH "";
  mkCommand "AUTOERASE_STATUS" "Diagnostics"
    "Check auto-erase status"
    [] false false typeAH "";
  mkCommand "BATTERY_SAVER_START" "Battery"
    "Start battery saver mode"
    [mkParam "interval" "Interval (min)" "number" true (floatZ 1) (floatZ 1440) []
        "" ""] true false typeAH "";
  mkCommand "BATTERY_SAVER_STOP" "Battery"
    "Stop battery saver"
    [] false false typeAH "";
  mkCommand "BATTERY_SAVER_STATUS" "Diagnostics"
    "Check battery saver status"
    [] false false typeAH "";
  mkCommand "RAW_BLE_ON" "Configuration"
    "Enable raw BLE advertisement forwarding (BLERAW: wire frames)"
    [] false true typeAH "";
  mkCommand "RAW_BLE_OFF" "Configuration"
    "Disable raw BLE advertisement forwarding"
    [] false true typeAH "";
  mkCommand "RAW_BLE_STATUS" "Diagnostics"
    "Query raw BLE forwarding state"
    [] false true typeAH "";
  mkCommand "REBOOT" "System"
    "Reboot node"
    [] false false typeUniversal "";
  mkCommand "HB_ON" "Status"
    "Enable periodic status heartbeats"
    [] false false typeUniversal "";
  mkCommand "HB_OFF" "Status"
    "Disable periodic status heartbeats"
    [] false false typeUniversal "";
  mkCommand "HB_INTERVAL" "Status"
    "Set heartbeat interval"
    [mkParam "minutes" "Interval (min)" "number" true (floatZ 1) (floatZ 60) []
        "" ""] false false typeUniversal "";
  mkCommand "TARGET_INTERVAL" "Status"
    "Set per-target hit notification interval"
    [mkParam "seconds" "Interval (s)" "number" true (floatZ 5) (floatZ 600) []
        "" ""] false false typeAH "";
  mkCommand "TRI_CYCLE_START" "Triangulation"
    "Sync participant scan cycle (coordinator only)"
    [mkParam "intervalMs" "Interval (ms)" "number" true (floatZ 1000) (floatZ 60000) []
        "" "";
      mkParam "nodes" "Node list" "text" false (floatZ 0) (floatZ 0) []
        "NODE1,NODE2,NODE3" ""] false false typeAH "";
  mkCommand "HITS_RESET" "Gate"
    "Reset the cumulative hit counter"
    [] false false typeGate "";
  mkCommand "DEBOUNCE_SET" "Gate"
    "Set RF debounce window (seconds)"
    [mkParam "seconds" "Seconds" "number" true (floatZ 1) (floatZ 60) []
        "" ""] false false typeGate "";
  mkCommand "CODE_ADD" "Gate"
    "Register (or rename) a 433 MHz sensor code"
    [mkParam "code" "Code (decimal)" "number" true (floatZ 1) (floatZ 16777215) []
        "" "";
      mkParam "name" "Gate name (optional)" "text" false (floatZ 0) (floatZ 0) []
        "factorydoor" ""] false false typeGate "";
  mkCommand "CODE_REMOVE" "Gate"
    "Unregister a 433 MHz sensor code"
    [mkParam "code" "Code (decimal)" "number" true (floatZ 1) (floatZ 16777215) []
        "" ""] false false typeGate "";
  mkCommand "CODE_LIST" "Gate"
    "List registered 433 MHz sensor codes"
    [] false false typeGate "";
  mkCommand "CODE_CLEAR" "Gate"
    "Clear all registered 433 MHz sensor codes"
    [] false false typeGate "";
  mkCommand "MODEL_LIST" "AI Camera"
    "List AI model slots and current binding"
    [] false false typeAICam "";
  mkCommand "MODEL_SET" "AI Camera"
    "Bind a WE-2 model slot (persists across reboot)"
    [mkParam "id" "Slot ID" "number" true (floatZ 1) (floatZ 5) []
        "1..5" ""] false false typeAICam "";
  mkCommand "DEDUP_INTERVAL" "AI Camera"
    "Per-class detection cooldown in seconds (persists across reboot)"
    [mkParam "seconds" "Interval (s)" "number" true (floatZ 1) (floatZ 3600) []
        "1..3600 (default 30)" ""] false false typeAICam "";
  mkCommand "CONF_THRESHOLD" "AI Camera"
    "Minimum detection confidence (strict, score > n fires; persists across reboot)"
    [mkParam "n" "Confidence (%)" "number" true (floatZ 1) (floatZ 100) []
        "1..100 (default 65)" ""] false false typeAICam "";
  mkCommand "WIFI_ON" "AI Camera"
    "Enable the bridge's Wi-Fi softAP operator console"
    [] false false typeAICam "";
  mkCommand "WIFI_OFF" "AI Camera"
    "Disable the bridge's Wi-Fi softAP"
    [] false false typeAICam "";
  mkCommand "WIFI_SSID" "AI Camera"
    "Set the Wi-Fi softAP SSID (cycle WIFI_OFF/ON to apply)"
    [mkParam "name" "SSID" "text" true (floatZ 0) (floatZ 0) []
        "1..32 chars (default aicam-bridge)" ""] false false typeAICam "";
  mkCommand "WIFI_PSK" "AI Camera"
    "Set the Wi-Fi softAP password (cycle WIFI_OFF/ON to apply)"
    [mkParam "pass" "Passphrase" "text" true (floatZ 0) (floatZ 0) []
        "8..63 chars (default aicam-12345)" ""] false false typeAICam ""
].

Definition ACKMap : gmap string string := list_to_map [
  ("SCAN_ACK", "SCAN_START");
  ("DEVICE_SCAN_ACK", "DEVICE_SCAN_START");
  ("DRONE_ACK", "DRONE_START");
  ("DEAUTH_ACK", "DEAUTH_START");
  ("RANDOMIZATION_ACK", "RANDOMIZATION_START");
  ("BASELINE_ACK", "BASELINE_START");
  ("TRI_START_ACK", "TRIANGULATE_START");
  ("TRIANGULATE_ACK", "TRIANGULATE_START");
  ("TRIANGULATE_STOP_ACK", "TRIANGULATE_STOP");
  ("ERASE_ACK", "ERASE_FORCE");
  ("CONFIG_ACK", "CONFIG_CHANNELS");
  ("AUTOERASE_ACK", "AUTOERASE_ENABLE");
  ("AUTOERASE_STATUS_ACK", "AUTOERASE_STATUS");
  ("BATTERY_SAVER_ACK", "BATTERY_SAVER_START");
  ("HB_ACK", "HB_ON");
  ("TARGET_INTERVAL_ACK", "TARGET_INTERVAL");
  ("STOP_ACK", "STOP");
  ("START_ACK", "START");
  ("REBOOT_ACK", "REBOOT");
  ("STATUS_ACK", "STATUS");
  ("VIBRATION_OFF_ACK", "VIBRATION_OFF");
  ("VIBRATION_ON_ACK", "VIBRATION_ON");
  ("PROBE_ACK", "PROBE_START");
  ("HITS_RESET_ACK", "HITS_RESET");
  ("DEBOUNCE_ACK", "DEBOUNCE_SET");
  ("CODE_ACK", "CODE_ADD");
  ("CODE_LIST_ACK", "CODE_LIST");
  ("MODEL_LIST_ACK", "MODEL_LIST");
  ("MODEL_SET_ACK", "MODEL_SET");
  ("DEDUP_ACK", "DEDUP_INTERVAL");
  ("CONF_ACK", "CONF_THRESHOLD");
  ("WIFI_ON_ACK", "WIFI_ON");
  ("WIFI_OFF_ACK", "WIFI_OFF");
  ("WIFI_SSID_ACK", "WIFI_SSID");
  ("WIFI_PSK_ACK", "WIFI_PSK");
  ("VIBRATION_STATUS_ACK", "VIBRATION_STATUS");
  ("BASELINE_STATUS_ACK", "BASELINE_STATUS");
  ("BATTERY_SAVER_STATUS_ACK", "BATTERY_SAVER_STATUS");
  ("RAW_BLE_ACK", "RAW_BLE_ON");
  ("RAW_BLE_STATUS_ACK", "RAW_BLE_STATUS");
  ("I2C_SCAN_ACK", "I2C_SCAN");
  ("C5_I2C_SCAN_ACK", "C5_I2C_SCAN");
  ("SCAN_DONE_ACK", "SCAN_START");
  ("DEVICE_SCAN_DONE_ACK", "DEVICE_SCAN_START");
  ("LIST_SCAN_DONE_ACK", "SCAN_START");
  ("DEAUTH_DONE_ACK", "DEAUTH_START");
  ("DRONE_DONE_ACK", "DRONE_START");
  ("RANDOMIZATION_DONE_ACK", "RANDOMIZATION_START");
  ("BASELINE_DONE_ACK", "BASELINE_START")
].

Definition Registry : list CommandDef := registry1 ++ registry2.

Definition lookupCommand (name : string) : option CommandDef :=
  find (fun d => bool_decide (Name d = name)) Registry.

(** *** Regular expressions *)
Definition isAlnum (c : Ascii.ascii) : bool :=
  (65 <=? code c) && (code c <=? 90) || (97 <=? code c) && (code c <=? 122) ||
  (48 <=? code c) && (code c <=? 57).
Definition isHex (c : Ascii.ascii) : bool :=
  (48 <=? code c) && (code c <=? 57) || (65 <=? code c) && (code c <=? 70) ||
  (97 <=? code c) && (code c <=? 102).
Definition isNameChar (c : Ascii.ascii) : bool :=
  isAlnum c || (code c =? 95) || (code c =? 45).

Definition all (f : Ascii.ascii -> bool) (s : string) : bool :=
  forallb f (String.list_ascii_of_string s).

(** [^@(ALL|[A-Za-z0-9]{2,6})$] *)
Definition targetRegex (s : string) : bool :=
  match s with
  | String c s' =>
      (code c =? 64) &&
      (bool_decide (s' = "ALL") || all isAlnum s' && (2 <=? slen s') && (slen s' <=? 6))
  | EmptyString => false
  end.

(** [^([0-9A-Fa-f]{2}:){5}[0-9A-Fa-f]{2}$] *)
Definition hexPair (s : string) : bool := all isHex s && (slen s =? 2).
Definition macRegex (s : string) : bool :=
  let parts := Split (byte_char 58) s in
  (zlen parts =? 6) && forallb hexPair parts.

(** [^[A-Za-z0-9_-]{1,15}$] *)
Definition gateNameRegex (s : string) : bool :=
  all isNameChar s && (1 <=? slen s) && (slen s <=? 15).

(** [^HB\d{1,3}$] *)
Definition nodeIdRegex (s : string) : bool :=
  HasPrefix s "HB" &&
  (let d := string_drop 2 s in
   all (fun c => (48 <=? code c) && (code c <=? 57)) d && (1 <=? slen d) && (slen d <=? 3)).

(** *** Validation *)
Inductive paramError : Type :=
| MustBeBool
| MustBeNumber
| MustBeBetween (min max : spec_float)
| InvalidMAC
| InvalidRange
| ChannelOutOfRange (ch : string)
| MustBeOneOf (options : list string)
| InvalidNodeID
| InvalidGateName.

(** [strings.SplitN(s, "..", 2)] *)
Fixpoint cutDots (s : string) : option (string * string) :=
  match s with
  | EmptyString => None
  | String c s' =>
      if HasPrefix s ".." then Some (EmptyString, string_drop 2 s)
      else match cutDots s' with
           | Some (a, b) => Some (String c a, b)
           | None => None
           end
  end.

Fixpoint validateCSV (chs : list string) : option paramError :=
  match chs with
  | [] => None
  | ch :: chs' =>
      match Atoi (TrimSpace ch) with
      | Some n => if (n <? 1) || (n >? 14) then Some (ChannelOutOfRange ch) else validateCSV chs'
      | None => Some (ChannelOutOfRange ch)
      end
  end.

Definition validateChannels (val : string) : option paramError :=
  match cutDots val with
  | Some (a, b) =>
      match Atoi a, Atoi b with
      | Some start, Some stop =>
          if (start <? 1) || (stop >? 14) || (start >? stop) then Some InvalidRange else None
      | _, _ => Some InvalidRange
      end
  | None => validateCSV (Split (byte_char 44) val)
  end.

Section Unicode.
Context `{Unicode}.

Definition parseBool (val : string) : bool :=
  bool_decide (ToLower (TrimSpace val) ∈ ["true"; "1"; "yes"; "on"]).

Definition validateParam (pd : ParamDef) (val : string) : option paramError :=
  if bool_decide (Type_ pd = "bool") then
    if bool_decide (ToLower (TrimSpace val) ∈
                    ["true"; "false"; "1"; "0"; "yes"; "no"; "on"; "off"; ""])
    then None else Some MustBeBool
  else if bool_decide (Type_ pd ∈ ["number"; "duration"]) then
    match ParseFloat val with
    | None => Some MustBeNumber
    | Some f =>
        if (negb (SFeqb (Min pd) (floatZ 0)) || negb (SFeqb (Max pd) (floatZ 0))) &&
           (float_lt f (Min pd) || float_lt (Max pd) f)
        then Some (MustBeBetween (Min pd) (Max pd)) else None
    end
  else if bool_decide (Type_ pd = "mac") then
    if macRegex (ToUpper val) then None else Some InvalidMAC
  else if bool_decide (Type_ pd = "channels") then validateChannels val
  else if bool_decide (Type_ pd = "select") then
    if bool_decide (val ∈ Options pd) then None else Some (MustBeOneOf (Options pd))
  else if bool_decide (Type_ pd = "text") then
    if bool_decide (Key pd = "nodeId") && negb (nodeIdRegex (ToUpper val))
    then Some InvalidNodeID
    else if bool_decide (Key pd = "name") && negb (gateNameRegex val)
    then Some InvalidGateName
    else None
  else None.

(** *** Build *)
Inductive buildError : Type :=
| ErrInvalidTarget (target : string)
| ErrUnknownCommand (name : string)
| ErrSingleNode (name : string)
| ErrMissingParam (key name : string)
| ErrParam (key : string) (err : paramError).

Definition blank (s : string) : bool := bool_decide (TrimSpace s = "").

Definition isDuration (pd : ParamDef) : bool := bool_decide (Type_ pd = "duration").
Definition isBool (pd : ParamDef) : bool := bool_decide (Type_ pd = "bool").

(** [for len(params) <= i { params = append(params, "") }] *)
Definition padTo (i : nat) (params : list string) : list string :=
  params ++ replicate (S i - length params) "".

(** The blank duration slots filled with [0]. *)
Fixpoint fillDurations (i : nat) (pds : list ParamDef) (params : list string) : list string :=
  match pds with
  | [] => params
  | pd :: pds' =>
      let params :=
        if isDuration pd then
          let params := padTo i params in
          if blank (nth i params "") then <[i := "0"]> params else params
        else params in
      fillDurations (S i) pds' params
  end.

Fixpoint dropBlank (rev_params : list string) : list string :=
  match rev_params with
  | [] => []
  | p :: ps => if blank p then dropBlank ps else rev_params
  end.
Definition trimTrailing (params : list string) : list string := rev (dropBlank (rev params)).

Fixpoint missingParam (i : nat) (pds : list ParamDef) (params : list string) : option string :=
  match pds with
  | [] => None
  | pd :: pds' =>
      if Required pd && ((length params <=? i)%nat || blank (nth i params ""))
      then Some (Key pd)
      else missingParam (S i) pds' params
  end.

(** The loop over the values; [pds] are the definitions from the current
    position on. *)
Fixpoint cleanLoop (overrideDuration : bool) (pds : list ParamDef) (vals : list string)
    : list string + buildError :=
  match vals with
  | [] => inl []
  | v :: vals' =>
      let val := TrimSpace v in
      let cons (x : list string) := match cleanLoop overrideDuration (tail pds) vals' with
                                    | inl clean => inl (x ++ clean)
                                    | inr err => inr err
                                    end in
      if bool_decide (val = "") then cons []
      else match pds with
           | [] => cons [val]
           | pd :: _ =>
               if overrideDuration && isDuration pd then cons [val]
               else match validateParam pd val with
                    | Some err => inr (ErrParam (Key pd) err)
                    | None =>
                        if isBool pd then
                          cons (if parseBool val && negb (bool_decide (LiteralTrue pd = ""))
                                then [LiteralTrue pd] else [])
                        else cons [val]
                    end
           end
  end.

Definition scanChannels (name : string) (clean : list string) : list string :=
  if bool_decide (name = "SCAN_START") then
    match clean with
    | [] => clean
    | mode :: _ =>
        if bool_decide (mode = "1") then
          if 3 <=? zlen clean then take 2 clean else clean
        else if bool_decide (mode = "0") || bool_decide (mode = "2") then
          if zlen clean =? 2 then clean ++ ["1,6,11"]
          else if (3 <=? zlen clean) && blank (nth 2 clean "")
          then <[2%nat := "1,6,11"]> clean else clean
        else clean
    end
  else clean.

(** The last index of [x], searching from the end. *)
Fixpoint lastIndex (i : nat) (x : string) (l : list string) : option nat :=
  match l with
  | [] => None
  | y :: l' =>
      match lastIndex (S i) x l' with
      | Some j => Some j
      | None => if bool_decide (y = x) then Some i else None
      end
  end.

(** Where FOREVER goes: the parameters are visited from the last to the
    first, and each literal found moves the position. *)
Definition foreverIndex (pds : list ParamDef) (clean : list string) : nat :=
  fold_left (fun insertAt pd =>
      if isBool pd && negb (bool_decide (LiteralTrue pd = ""))
      then match lastIndex 0 (LiteralTrue pd) clean with Some j => j | None => insertAt end
      else insertAt)
    (rev pds) (length clean).

Definition insertForever (pds : list ParamDef) (clean : list string) : list string :=
  let i := foreverIndex pds clean in take i clean ++ ["FOREVER"] ++ drop i clean.

Definition wireName (def : CommandDef) (name : string) : string :=
  if bool_decide (WireName def = "") then name else WireName def.

Definition formatLine (target wire : string) (clean : list string) : string :=
  target +:+ " " +:+ wire +:+ match clean with [] => "" | _ => ":" +:+ Join clean ":" end.

Definition normalizeTarget (target : string) : string :=
  let target := ToUpper (TrimSpace target) in
  if HasPrefix target "@" then target else "@" +:+ target.

Definition Build (target name : string) (params : list string) (forever : bool)
    : BuildOutput + buildError :=
  let target := normalizeTarget target in
  let name := ToUpper (TrimSpace name) in
  if negb (targetRegex target) then inr (ErrInvalidTarget target)
  else match lookupCommand name with
       | None => inr (ErrUnknownCommand name)
       | Some def =>
           if SingleNode def && bool_decide (target = "@ALL") then inr (ErrSingleNode name)
           else
             let fv := forever && AllowForever def in
             let params := if fv then fillDurations 0 (Params def) params else params in
             let params := trimTrailing params in
             match missingParam 0 (Params def) params with
             | Some key => inr (ErrMissingParam key name)
             | None =>
                 match cleanLoop fv (Params def) params with
                 | inr err => inr err
                 | inl clean =>
                     let clean := scanChannels name clean in
                     let clean := if fv then insertForever (Params def) clean else clean in
                     inl (mkOutput target name clean
                            (formatLine target (wireName def name) clean))
                 end
             end
       end.
End Unicode.

(** *** Grouping *)
Definition GroupedCommands (group : string) : list CommandDef :=
  List.filter (fun d => bool_decide (Group d = group)) Registry.

Definition GroupOrder : list string :=
  ["Status"; "Diagnostics"; "Scanning"; "Detection"; "Triangulation"; "Configuration";
   "Security"; "Battery"; "System"; "Gate"; "AI Camera"].

(** ** Examples *)
Definition build := @Build asciiUnicode.
Definition lineOf (r : BuildOutput + buildError) : option string :=
  match r with inl o => Some (oLine o) | inr _ => None end.

Example build_status : lineOf (build " ah64 " "status" [] false) = Some "@AH64 STATUS".
Proof. vm_compute. reflexivity. Qed.
Example build_scan : lineOf (build "@ALL" "SCAN_START" ["0"; "60"] false)
                     = Some "@ALL SCAN_START:0:60:1,6,11".
Proof. vm_compute. reflexivity. Qed.
Example build_scan_forever : lineOf (build "@ALL" "SCAN_START" ["1"] true)
                             = Some "@ALL SCAN_START:1:0:FOREVER".
Proof. vm_compute. reflexivity. Qed.
Example build_probe : lineOf (build "@HB01" "DEVICE_SCAN_START" ["2"; "60"; "true"] true)
                      = Some "@HB01 DEVICE_SCAN_START:2:60:FOREVER:+PROBE".
Proof. vm_compute. reflexivity. Qed.
Example build_stop : lineOf (build "@HB01" "SCAN_STOP" [] false) = Some "@HB01 STOP".
Proof. vm_compute. reflexivity. Qed.

(** ** Lemmas *)
Section Lemmas.
Context `{U : Unicode}.

(** Success of [Build], step by step. *)
Lemma Build_inv target name params forever o :
  Build target name params forever = inl o ->
  exists def clean0,
    let fv := forever && AllowForever def in
    let ps := trimTrailing (if fv then fillDurations 0 (Params def) params else params) in
    let clean := scanChannels (oName o) clean0 in
    oTarget o = normalizeTarget target /\ oName o = ToUpper (TrimSpace name) /\
    targetRegex (oTarget o) = true /\ lookupCommand (oName o) = Some def /\
    (SingleNode def = true -> oTarget o <> "@ALL") /\
    missingParam 0 (Params def) ps = None /\
    cleanLoop fv (Params def) ps = inl clean0 /\
    oParams o = (if fv then insertForever (Params def) clean else clean) /\
    oLine o = formatLine (oTarget o) (wireName def (oName o)) (oParams o).
Proof.
  unfold Build. destruct (targetRegex (normalizeTarget target)) eqn:Ht; [|done]. cbn [negb].
  destruct (lookupCommand (ToUpper (TrimSpace name))) as [def|] eqn:Hd; [|done].
  destruct (SingleNode def && bool_decide (normalizeTarget target = "@ALL")) eqn:Hs; [done|].
  destruct (missingParam 0 (Params def) _) eqn:Hm; [done|].
  destruct (cleanLoop _ (Params def) _) as [clean0|] eqn:Hc; [|done].
  intros [= <-]. exists def, clean0. cbn [oTarget oName oParams oLine].
  split; [done|split; [done|split; [done|split; [done|split; [|split; [done|done]]]]]].
  intros Hsn Heq. rewrite Hsn, bool_decide_true in Hs by done. done.
Qed.

Lemma cleanLoop_cons fv pds v vals clean :
  cleanLoop fv pds (v :: vals) = inl clean ->
  exists x clean', cleanLoop fv (tail pds) vals = inl clean' /\ clean = x ++ clean' /\
    (TrimSpace v = "" /\ x = [] \/
     TrimSpace v <> "" /\
     match pds with
     | [] => x = [TrimSpace v]
     | pd :: _ =>
         fv && isDuration pd = true /\ x = [TrimSpace v] \/
         fv && isDuration pd = false /\ validateParam pd (TrimSpace v) = None /\
         (if isBool pd
          then x = if parseBool (TrimSpace v) && negb (bool_decide (LiteralTrue pd = ""))
                   then [LiteralTrue pd] else []
          else x = [TrimSpace v])
     end).
Proof.
  cbn [cleanLoop]. case_bool_decide as Hb.
  { destruct (cleanLoop fv (tail pds) vals) as [c|] eqn:E; [|done]. intros [= <-].
    exists [], c. split; [done|split; [done|by left]]. }
  assert (forall x, match cleanLoop fv (tail pds) vals with
                    | inl c => inl (x ++ c) | inr e => inr e end = inl clean ->
    exists c, cleanLoop fv (tail pds) vals = inl c /\ clean = x ++ c) as Hk.
  { intros x. destruct (cleanLoop fv (tail pds) vals) as [c|]; [|done].
    intros [= <-]. by exists c. }
  destruct pds as [|pd pds].
  { intros (c & Hc & ->)%Hk. exists [TrimSpace v], c. split; [done|split; [done|by right]]. }
  destruct (fv && isDuration pd) eqn:Hd.
  { intros (c & Hc & ->)%Hk. exists [TrimSpace v], c.
    split; [done|split; [done|right; split; [done|by left]]]. }
  destruct (validateParam pd (TrimSpace v)) eqn:Hv; [done|].
  destruct (isBool pd) eqn:Hbo; intros (c & Hc & ->)%Hk; eexists _, c;
    (split; [done|split; [done|right; split; [done|right; done]]]).
Qed.

Lemma cleanLoop_valid fv pds vals clean i v pd :
  cleanLoop fv pds vals = inl clean -> vals !! i = Some v -> pds !! i = Some pd ->
  TrimSpace v <> "" -> fv && isDuration pd = false -> validateParam pd (TrimSpace v) = None.
Proof.
  revert pds clean i. induction vals as [|v0 vals IH]; intros pds clean i Hc Hv Hp Hb Hd;
    [done|].
  apply cleanLoop_cons in Hc as (x & c & Hc & _ & Hcase).
  destruct i as [|i]; cbn in Hv.
  - injection Hv as ->. destruct pds as [|pd0 pds]; [done|]. injection Hp as ->.
    destruct Hcase as [[? _]|[_ [[Ht _]|(_ & Hval & _)]]]; [done|congruence|done].
  - destruct pds as [|pd0 pds]; [done|]. by apply (IH pds c i).
Qed.

Lemma missingParam_none i pds params :
  missingParam i pds params = None ->
  forall k pd, pds !! k = Some pd -> Required pd = true ->
  exists v, params !! (i + k)%nat = Some v /\ TrimSpace v <> "".
Proof.
  revert i. induction pds as [|pd0 pds IH]; intros i Hm k pd Hk Hr; [done|].
  cbn [missingParam] in Hm.
  destruct (Required pd0 && _) eqn:Hb; [done|]. destruct k as [|k]; cbn in Hk.
  - injection Hk as ->. rewrite Hr in Hb. cbn [andb] in Hb.
    apply orb_false_iff in Hb as [Hl Hb]. apply Nat.leb_gt in Hl.
    destruct (lookup_lt_is_Some_2 params i Hl) as [v Hv]. exists v. rewrite Nat.add_0_r.
    split; [done|]. rewrite (nth_lookup_Some _ _ _ _ Hv) in Hb.
    by apply bool_decide_eq_false in Hb.
  - destruct (IH (S i) Hm k pd Hk Hr) as (v & Hv & ?). exists v.
    by replace (i + S k)%nat with (S i + k)%nat by lia.
Qed.

(** *** FOREVER *)
Lemma lastIndex_spec i x l j :
  lastIndex i x l = Some j -> (i <= j)%nat /\ l !! (j - i)%nat = Some x.
Proof.
  revert i. induction l as [|y l IH]; intros i; [done|]. cbn [lastIndex].
  destruct (lastIndex (S i) x l) as [j'|] eqn:E.
  - intros [= ->]. destruct (IH (S i) E) as [Hle Hl]. split; [lia|].
    by replace (j - i)%nat with (S (j - S i)) by lia.
  - case_bool_decide as Hy; [|done]. intros [= ->]. split; [lia|].
    rewrite Nat.sub_diag. cbn. by rewrite Hy.
Qed.

(** FOREVER lands at the end, or directly before a literal of a flag. *)
Lemma foreverIndex_spec pds clean :
  let i := foreverIndex pds clean in
  i = length clean \/
  exists pd, pd ∈ pds /\ isBool pd = true /\ clean !! i = Some (LiteralTrue pd).
Proof.
  cbv zeta. unfold foreverIndex.
  assert (forall l k, (forall pd, pd ∈ l -> pd ∈ pds) ->
    (k = length clean \/
     exists pd, pd ∈ pds /\ isBool pd = true /\ clean !! k = Some (LiteralTrue pd)) ->
    let i := fold_left (fun insertAt pd =>
      if isBool pd && negb (bool_decide (LiteralTrue pd = ""))
      then match lastIndex 0 (LiteralTrue pd) clean with Some j => j | None => insertAt end
      else insertAt) l k in
    i = length clean \/
    exists pd, pd ∈ pds /\ isBool pd = true /\ clean !! i = Some (LiteralTrue pd)) as Hgen.
  { induction l as [|pd l IH]; intros k Hl Hk; [done|]. cbn [fold_left].
    apply IH; [intros; apply Hl; by right|].
    destruct (isBool pd) eqn:Hb; [|done]. destruct (negb _); [|done]. cbn [andb].
    destruct (lastIndex 0 (LiteralTrue pd) clean) as [j|] eqn:E; [|done].
    right. exists pd. split; [apply Hl; by left|split; [done|]].
    apply lastIndex_spec in E as [_ E]. by rewrite Nat.sub_0_r in E. }
  apply Hgen; [|by left]. intros pd Hin. rewrite list_elem_of_In in *. by apply in_rev.
Qed.
End Lemmas.

(** *** Numbers *)
Lemma float_lt_nan f g : isNaN f = true -> float_lt f g = false /\ float_lt g f = false.
Proof.
  destruct f; try done. intros _. unfold float_lt, SFltb.
  split; [|by destruct g]. by destruct g.
Qed.

(** [a <= b] in terms of the code's test [!(b < a)]. *)
Definition inRange (pd : ParamDef) (f : spec_float) : Prop :=
  float_lt f (Min pd) = false /\ float_lt (Max pd) f = false.

Definition bounded (pd : ParamDef) : bool :=
  negb (SFeqb (Min pd) (floatZ 0)) || negb (SFeqb (Max pd) (floatZ 0)).

(** ** The catalogue, checked by computation *)
Definition noDupNames : bool := bool_decide (NoDup (Name <$> Registry)).

Definition boolsLast (d : CommandDef) : bool :=
  match rev (Params d) with
  | [] => true
  | _ :: others => forallb (fun pd => negb (isBool pd)) others
  end.

Definition reachable (d : CommandDef) : bool :=
  isASCII (Name d) && bool_decide (TrimSpace (Name d) = Name d) &&
  bool_decide (smap upperASCII (Name d) = Name d) && (1 <=? slen (Name d)).

Lemma registry_reachable : forallb reachable Registry = true.
Proof. vm_compute. reflexivity. Qed.

Lemma registry_nodup : NoDup (Name <$> Registry).
Proof. apply (bool_decide_unpack _). vm_compute. exact I. Qed.

Lemma lookupCommand_in d : d ∈ Registry -> lookupCommand (Name d) = Some d.
Proof.
  intros Hd. unfold lookupCommand.
  destruct (find _ Registry) as [d'|] eqn:E.
  - apply find_some in E as [Hin Hn%bool_decide_eq_true].
    apply list_elem_of_In in Hin. f_equal.
    apply list_elem_of_lookup in Hd as [i Hi]. apply list_elem_of_lookup in Hin as [k Hk].
    assert (k = i) as ->; [|congruence].
    eapply (NoDup_lookup _ _ _ (Name d) registry_nodup);
      rewrite list_lookup_fmap; [by rewrite Hk, <- Hn|by rewrite Hi].
  - apply list_elem_of_In in Hd. apply (find_none _ _ E) in Hd.
    by rewrite bool_decide_true in Hd.
Qed.

(** ** Properties *)



(** Numbers are in range, or not numbers.  A value of a numeric parameter
    is accepted exactly when it parses as a [float64] that is a NaN, or within
    the parameter's bounds, or the parameter has none. *)
Theorem number_accepted_iff `{U : Unicode} pd val :
  Type_ pd ∈ ["number"; "duration"] ->
  validateParam pd val = None <->
  exists f, ParseFloat val = Some f /\ (isNaN f = true \/ bounded pd = false \/ inRange pd f).
Proof.
  intros Ht. unfold validateParam.
  rewrite bool_decide_false by (intros E; rewrite E in Ht;
    repeat (apply elem_of_cons in Ht as [?|Ht]; [done|]); by apply elem_of_nil in Ht).
  rewrite bool_decide_true by done. unfold inRange.
  change (negb (SFeqb (Min pd) (floatZ 0)) || negb (SFeqb (Max pd) (floatZ 0)))
    with (bounded pd).
  destruct (ParseFloat val) as [f|]; [|split; [done|by intros (? & ? & ?)]].
  destruct (bounded pd) eqn:Hb; cbn [andb].
  - destruct (float_lt f (Min pd) || float_lt (Max pd) f) eqn:E; (split; [try done|]).
    + intros (g & [= <-] & [Hn|[?|[E1 E2]]]); [|done|by rewrite E1, E2 in E].
      destruct (float_lt_nan f (Min pd) Hn) as [E1 _], (float_lt_nan f (Max pd) Hn) as [_ E2].
      by rewrite E1, E2 in E.
    + intros _. apply orb_false_iff in E. exists f. auto.
    + done.
  - split; [|done]. intros _. exists f. auto.
Qed.

Definition minutesParam : ParamDef :=
  mkParam "minutes" "Interval (min)" "number" true (floatZ 1) (floatZ 60) [] "" "".

Lemma number_accepted_iff_witness :
  @validateParam asciiUnicode minutesParam "60" = None <->
  exists f, ParseFloat "60" = Some f /\
    (isNaN f = true \/ bounded minutesParam = false \/ inRange minutesParam f).
Proof. apply number_accepted_iff. by left. Defined.

(** NaN gets past every range check.  [HB_INTERVAL] declares an interval
    of 1 to 60 minutes, but any spelling of NaN is accepted and sent. *)
Theorem nan_bypasses_range `{U : Unicode} v :
  TrimSpace v = v -> v <> "" -> ParseFloat v = Some S754_nan ->
  Build "@HB01" "HB_INTERVAL" [v] false
  = inl (mkOutput "@HB01" "HB_INTERVAL" [v] ("@HB01 HB_INTERVAL:" +:+ v)).
Proof.
  intros Ht Hne Hp. unfold Build.
  change (normalizeTarget "@HB01") with "@HB01".
  change (ToUpper (TrimSpace "HB_INTERVAL")) with "HB_INTERVAL".
  change (targetRegex "@HB01") with true.
  assert (lookupCommand "HB_INTERVAL"
    = Some (mkCommand "HB_INTERVAL" "Status" "Set heartbeat interval" [minutesParam]
              false false typeUniversal "")) as -> by (vm_compute; reflexivity).
  cbn [negb SingleNode AllowForever Params andb].
  assert (blank v = false) as Hb by (unfold blank; rewrite Ht; by apply bool_decide_eq_false).
  unfold trimTrailing. cbn [rev app dropBlank]. rewrite Hb.
  cbn [rev app missingParam minutesParam Required length Nat.leb nth]. rewrite Hb.
  cbn [orb andb cleanLoop]. rewrite Ht, bool_decide_false by done. cbn [andb].
  assert (validateParam minutesParam v = None) as E.
  { apply number_accepted_iff; [by left|]. exists S754_nan. auto. }
  rewrite E. reflexivity.
Qed.

Lemma nan_bypasses_range_witness :
  @Build asciiUnicode "@HB01" "HB_INTERVAL" ["nan"] false
  = inl (mkOutput "@HB01" "HB_INTERVAL" ["nan"] "@HB01 HB_INTERVAL:nan").
Proof.
  apply (@nan_bypasses_range asciiUnicode "nan");
    [vm_compute; reflexivity|done|vm_compute; reflexivity].
Defined.

(** Where FOREVER goes.  In the output of an accepted FOREVER request the
    token stands once more than in the cleaned values, at the end or directly
    before the literal of a flag of the command, and nothing else moves. *)
Theorem forever_placed `{U : Unicode} target name params o :
  Build target name params true = inl o ->
  exists def clean pre post,
    lookupCommand (oName o) = Some def /\
    (AllowForever def = false -> oParams o = clean) /\
    (AllowForever def = true ->
       clean = pre ++ post /\ oParams o = pre ++ "FOREVER" :: post /\
       (post = [] \/
        exists pd rest, pd ∈ Params def /\ isBool pd = true /\ post = LiteralTrue pd :: rest)) /\
    exists clean0, clean = scanChannels (oName o) clean0 /\
      cleanLoop (AllowForever def) (Params def)
        (trimTrailing (if AllowForever def then fillDurations 0 (Params def) params else params))
      = inl clean0.
Proof.
  intros Hb. apply Build_inv in Hb as (def & clean0 & Hb). cbv zeta in Hb. cbn [andb] in Hb.
  destruct Hb as (_ & _ & _ & Hd & _ & _ & Hc & Hp & _).
  set (clean := scanChannels (oName o) clean0) in *.
  set (i := foreverIndex (Params def) clean).
  exists def, clean, (take i clean), (drop i clean).
  split; [done|split; [|split; [|by exists clean0]]].
  - intros E. by rewrite E in Hp.
  - intros E. rewrite E in Hp. split; [by rewrite take_drop|]. split; [exact Hp|].
    destruct (foreverIndex_spec (Params def) clean) as [Hi|(pd & ? & ? & Hi)]; fold i in Hi.
    + left. rewrite Hi. apply drop_all.
    + right. exists pd, (drop (S i) clean). by rewrite (drop_S _ _ _ Hi).
Qed.

Lemma forever_placed_witness :
  exists def clean pre post,
    lookupCommand "DEVICE_SCAN_START" = Some def /\
    (AllowForever def = false -> ["2"; "60"; "FOREVER"; "+PROBE"] = clean) /\
    (AllowForever def = true ->
       clean = pre ++ post /\ ["2"; "60"; "FOREVER"; "+PROBE"] = pre ++ "FOREVER" :: post /\
       (post = [] \/
        exists pd rest, pd ∈ Params def /\ isBool pd = true /\ post = LiteralTrue pd :: rest)) /\
    exists clean0, clean = scanChannels "DEVICE_SCAN_START" clean0 /\
      @cleanLoop asciiUnicode (AllowForever def) (Params def)
        (trimTrailing (if AllowForever def
                       then fillDurations 0 (Params def) ["2"; "60"; "true"]
                       else ["2"; "60"; "true"]))
      = inl clean0.
Proof.
  apply (@forever_placed asciiUnicode "@HB01" "DEVICE_SCAN_START" ["2"; "60"; "true"]
    (mkOutput "@HB01" "DEVICE_SCAN_START" ["2"; "60"; "FOREVER"; "+PROBE"]
       "@HB01 DEVICE_SCAN_START:2:60:FOREVER:+PROBE")).
  vm_compute. reflexivity.
Defined.

(** A FOREVER request lifts the check of the duration.  The code means to
    exempt the [0] it fills into a blank slot, but it exempts every value: any
    text without surrounding space reaches the line as the duration, colons
    included. *)
Theorem forever_duration_unvalidated `{U : Unicode} v :
  TrimSpace v = v -> v <> "" ->
  Build "@HB01" "DRONE_START" [v] true
  = inl (mkOutput "@HB01" "DRONE_START" [v; "FOREVER"]
           ("@HB01 DRONE_START:" +:+ v +:+ ":FOREVER")).
Proof.
  intros Ht Hne. unfold Build.
  change (normalizeTarget "@HB01") with "@HB01".
  change (ToUpper (TrimSpace "DRONE_START")) with "DRONE_START".
  change (targetRegex "@HB01") with true.
  destruct (lookupCommand "DRONE_START") as [def|] eqn:E; [|by vm_compute in E].
  vm_compute in E. injection E as <-.
  assert (blank v = false) as Hb by (unfold blank; rewrite Ht; by apply bool_decide_eq_false).
  cbn [negb SingleNode AllowForever Params andb fillDurations].
  repeat match goal with |- context [isDuration ?pd] => change (isDuration pd) with true end.
  cbn [padTo length replicate Nat.sub app nth]. rewrite Hb.
  unfold trimTrailing. cbn [rev app dropBlank]. rewrite Hb.
  cbn [rev app missingParam Required length Nat.leb nth]. rewrite Hb.
  cbn [orb andb cleanLoop]. rewrite Ht, bool_decide_false by done. reflexivity.
Qed.

Lemma forever_duration_unvalidated_witness :
  @Build asciiUnicode "@HB01" "DRONE_START" ["soon:1"] true
  = inl (mkOutput "@HB01" "DRONE_START" ["soon:1"; "FOREVER"] "@HB01 DRONE_START:soon:1:FOREVER").
Proof.
  apply (@forever_duration_unvalidated asciiUnicode "soon:1");
    [vm_compute; reflexivity|done].
Defined.

(** The catalogue holds together.  Names are unique and can be typed in
    any case, every acknowledgement answers a command of the catalogue, every
    group is displayed and every command appears in exactly one group, and a
    flag is only ever the last parameter. *)
Theorem catalogue_consistent :
  NoDup (Name <$> Registry) /\
  (forall d, d ∈ Registry ->
     lookupCommand (ToUpper (H := asciiUnicode) (TrimSpace (Name d))) = Some d /\
     Group d ∈ GroupOrder /\ d ∈ GroupedCommands (Group d) /\
     (forall g, d ∈ GroupedCommands g -> g = Group d) /\
     boolsLast d = true) /\
  (forall ack name, ACKMap !! ack = Some name -> exists d, lookupCommand name = Some d).
Proof.
  split; [apply registry_nodup|]. split.
  - intros d Hd. split; [|split; [|split; [|split]]].
    + assert (forallb (fun d => bool_decide (@ToUpper asciiUnicode (TrimSpace (Name d)) = Name d))
        Registry = true) as H by (vm_compute; reflexivity).
      rewrite forallb_forall in H. specialize (H d). rewrite <- list_elem_of_In in H.
      apply H in Hd as E. apply bool_decide_eq_true in E. rewrite E. by apply lookupCommand_in.
    + assert (forallb (fun d => bool_decide (Group d ∈ GroupOrder)) Registry = true) as H
        by (vm_compute; reflexivity).
      rewrite forallb_forall in H. specialize (H d). rewrite <- list_elem_of_In in H.
      by apply H, bool_decide_eq_true in Hd.
    + unfold GroupedCommands. rewrite list_elem_of_In, filter_In, <- list_elem_of_In.
      split; [done|]. by apply bool_decide_eq_true.
    + intros g. unfold GroupedCommands. rewrite list_elem_of_In, filter_In.
      intros [_ E%bool_decide_eq_true]. done.
    + assert (forallb boolsLast Registry = true) as H by (vm_compute; reflexivity).
      rewrite forallb_forall in H. specialize (H d). rewrite <- list_elem_of_In in H. by apply H.
  - intros ack name Hl.
    assert (forallb (fun p => bool_decide (is_Some (lookupCommand (snd p)))) (map_to_list ACKMap)
      = true) as H by (vm_compute; reflexivity).
    rewrite forallb_forall in H. specialize (H (ack, name)). rewrite <- list_elem_of_In in H.
    apply elem_of_map_to_list in Hl. by apply H, bool_decide_eq_true in Hl.
Qed.
