(* ===== verification/Commands.v ===== *)
(** The command queue, [internal/commands/service.go].

    [Service] keeps the commands that wait for an answer ([pending]), limits
    the rate per node and matches acknowledgements to commands.  Commands are
    objects in a heap: [pending], the sending goroutines and the persisting
    goroutines hold their addresses, so a command that has left the map may
    still be written to.  A method holds the mutex for all it does, except
    [send], whose two critical sections are two events with the transmission
    in between.  The clock is read once per event.  The map of results an
    acknowledgement brings belongs to the command from then on.

    A range over [pending] visits the keys in an order the runtime chooses:
    the order is an argument of the operation. *)
From Stdlib Require Import Floats.SpecFloat.
From S2P Require Import Prelude GoStrings GoFloat Builder.

(** ** Definitions *)
Inductive CommandStatus : Type :=
| StatusPending | StatusSent | StatusAcked | StatusRunning
| StatusOK | StatusFailed | StatusError | StatusTimeout.

#[export] Instance CommandStatus_eq_dec : EqDecision CommandStatus.
Proof. solve_decision. Defined.

Inductive serviceError : Type :=
| ErrCommandNotFound
| ErrRateLimited.

Record ScanDetection : Type := mkDetection {
  MAC : string;
  RSSI : Z;
  Band : string;
  Source : string;
  DetectionType : string;
  Manufacturer : string;
  LocalName : string
}.

(** What a [map[string]interface{}] holds; [VOther] is a value by its JSON
    text. *)
Inductive value : Type :=
| VInt (n : Z)
| VFloat (f : spec_float)
| VString (s : string)
| VRows (rows : list ScanDetection)
| VOther (json : string).

Abbreviation fields := (gmap string value).

(** A command; times are nanoseconds.  [Payload] is only ever marshalled, so
    it is its JSON text. *)
Record Command : Type := mkCommand {
  ID : string;
  TargetNode : Z;
  CommandType : string;
  Payload : string;
  Status : CommandStatus;
  SentAt : option Z;
  AckedAt : option Z;
  FinishedAt : option Z;
  Result : option fields;
  RetryCount : Z;
  MaxRetries : Z;
  CreatedAt : Z;
  Target : string;
  Name : string;
  Params : list string;
  Line : string;
  AckKind : string;
  AckStatus : string;
  AckNode : string;
  ResultText : string;
  ErrorText : string;
  autoRawAttached : bool;
  scanRows : list ScanDetection
}.

Definition set_Status (v : CommandStatus) (c : Command) : Command :=
  mkCommand (ID c) (TargetNode c) (CommandType c) (Payload c) v (SentAt c) (AckedAt c)
    (FinishedAt c) (Result c) (RetryCount c) (MaxRetries c) (CreatedAt c) (Target c) (Name c)
    (Params c) (Line c) (AckKind c) (AckStatus c) (AckNode c) (ResultText c) (ErrorText c)
    (autoRawAttached c) (scanRows c).
Definition set_SentAt (v : option Z) (c : Command) : Command :=
  mkCommand (ID c) (TargetNode c) (CommandType c) (Payload c) (Status c) v (AckedAt c)
    (FinishedAt c) (Result c) (RetryCount c) (MaxRetries c) (CreatedAt c) (Target c) (Name c)
    (Params c) (Line c) (AckKind c) (AckStatus c) (AckNode c) (ResultText c) (ErrorText c)
    (autoRawAttached c) (scanRows c).
Definition set_AckedAt (v : option Z) (c : Command) : Command :=
  mkCommand (ID c) (TargetNode c) (CommandType c) (Payload c) (Status c) (SentAt c) v
    (FinishedAt c) (Result c) (RetryCount c) (MaxRetries c) (CreatedAt c) (Target c) (Name c)
    (Params c) (Line c) (AckKind c) (AckStatus c) (AckNode c) (ResultText c) (ErrorText c)
    (autoRawAttached c) (scanRows c).
Definition set_FinishedAt (v : option Z) (c : Command) : Command :=
  mkCommand (ID c) (TargetNode c) (CommandType c) (Payload c) (Status c) (SentAt c) (AckedAt
    c) v (Result c) (RetryCount c) (MaxRetries c) (CreatedAt c) (Target c) (Name c) (Params c)
    (Line c) (AckKind c) (AckStatus c) (AckNode c) (ResultText c) (ErrorText c)
    (autoRawAttached c) (scanRows c).
Definition set_Result (v : option fields) (c : Command) : Command :=
  mkCommand (ID c) (TargetNode c) (CommandType c) (Payload c) (Status c) (SentAt c) (AckedAt
    c) (FinishedAt c) v (RetryCount c) (MaxRetries c) (CreatedAt c) (Target c) (Name c)
    (Params c) (Line c) (AckKind c) (AckStatus c) (AckNode c) (ResultText c) (ErrorText c)
    (autoRawAttached c) (scanRows c).
Definition set_RetryCount (v : Z) (c : Command) : Command :=
  mkCommand (ID c) (TargetNode c) (CommandType c) (Payload c) (Status c) (SentAt c) (AckedAt
    c) (FinishedAt c) (Result c) v (MaxRetries c) (CreatedAt c) (Target c) (Name c) (Params c)
    (Line c) (AckKind c) (AckStatus c) (AckNode c) (ResultText c) (ErrorText c)
    (autoRawAttached c) (scanRows c).
Definition set_MaxRetries (v : Z) (c : Command) : Command :=
  mkCommand (ID c) (TargetNode c) (CommandType c) (Payload c) (Status c) (SentAt c) (AckedAt
    c) (FinishedAt c) (Result c) (RetryCount c) v (CreatedAt c) (Target c) (Name c) (Params c)
    (Line c) (AckKind c) (AckStatus c) (AckNode c) (ResultText c) (ErrorText c)
    (autoRawAttached c) (scanRows c).
Definition set_CreatedAt (v : Z) (c : Command) : Command :=
  mkCommand (ID c) (TargetNode c) (CommandType c) (Payload c) (Status c) (SentAt c) (AckedAt
    c) (FinishedAt c) (Result c) (RetryCount c) (MaxRetries c) v (Target c) (Name c) (Params
    c) (Line c) (AckKind c) (AckStatus c) (AckNode c) (ResultText c) (ErrorText c)
    (autoRawAttached c) (scanRows c).
Definition set_AckKind (v : string) (c : Command) : Command :=
  mkCommand (ID c) (TargetNode c) (CommandType c) (Payload c) (Status c) (SentAt c) (AckedAt
    c) (FinishedAt c) (Result c) (RetryCount c) (MaxRetries c) (CreatedAt c) (Target c) (Name
    c) (Params c) (Line c) v (AckStatus c) (AckNode c) (ResultText c) (ErrorText c)
    (autoRawAttached c) (scanRows c).
Definition set_AckStatus (v : string) (c : Command) : Command :=
  mkCommand (ID c) (TargetNode c) (CommandType c) (Payload c) (Status c) (SentAt c) (AckedAt
    c) (FinishedAt c) (Result c) (RetryCount c) (MaxRetries c) (CreatedAt c) (Target c) (Name
    c) (Params c) (Line c) (AckKind c) v (AckNode c) (ResultText c) (ErrorText c)
    (autoRawAttached c) (scanRows c).
Definition set_AckNode (v : string) (c : Command) : Command :=
  mkCommand (ID c) (TargetNode c) (CommandType c) (Payload c) (Status c) (SentAt c) (AckedAt
    c) (FinishedAt c) (Result c) (RetryCount c) (MaxRetries c) (CreatedAt c) (Target c) (Name
    c) (Params c) (Line c) (AckKind c) (AckStatus c) v (ResultText c) (ErrorText c)
    (autoRawAttached c) (scanRows c).
Definition set_ResultText (v : string) (c : Command) : Command :=
  mkCommand (ID c) (TargetNode c) (CommandType c) (Payload c) (Status c) (SentAt c) (AckedAt
    c) (FinishedAt c) (Result c) (RetryCount c) (MaxRetries c) (CreatedAt c) (Target c) (Name
    c) (Params c) (Line c) (AckKind c) (AckStatus c) (AckNode c) v (ErrorText c)
    (autoRawAttached c) (scanRows c).
Definition set_ErrorText (v : string) (c : Command) : Command :=
  mkCommand (ID c) (TargetNode c) (CommandType c) (Payload c) (Status c) (SentAt c) (AckedAt
    c) (FinishedAt c) (Result c) (RetryCount c) (MaxRetries c) (CreatedAt c) (Target c) (Name
    c) (Params c) (Line c) (AckKind c) (AckStatus c) (AckNode c) (ResultText c) v
    (autoRawAttached c) (scanRows c).
Definition set_autoRawAttached (v : bool) (c : Command) : Command :=
  mkCommand (ID c) (TargetNode c) (CommandType c) (Payload c) (Status c) (SentAt c) (AckedAt
    c) (FinishedAt c) (Result c) (RetryCount c) (MaxRetries c) (CreatedAt c) (Target c) (Name
    c) (Params c) (Line c) (AckKind c) (AckStatus c) (AckNode c) (ResultText c) (ErrorText c)
    v (scanRows c).
Definition set_scanRows (v : list ScanDetection) (c : Command) : Command :=
  mkCommand (ID c) (TargetNode c) (CommandType c) (Payload c) (Status c) (SentAt c) (AckedAt
    c) (FinishedAt c) (Result c) (RetryCount c) (MaxRetries c) (CreatedAt c) (Target c) (Name
    c) (Params c) (Line c) (AckKind c) (AckStatus c) (AckNode c) (ResultText c) (ErrorText c)
    (autoRawAttached c) v.

(** What other components see, in order: [hub.Broadcast] of the command as it
    is at that moment, the call of the send function, the chat echo. *)
Inductive action : Type :=
| ABroadcast (cmd : Command)
| ATransmit (ref : Z) (nodeNum : Z) (cmdType : string) (payload : string)
| AEcho (from to channel : Z) (text : string).

(** [heap] and [next]: the objects and the next address.  [sends]: goroutines
    in front of [send], with the time their sleep ends; [sending]: goroutines
    between the two critical sections of [send]; [persists]: goroutines in
    front of [persistCommand]; [db]: the table [commands]. *)
Record Service : Type := mkService {
  heap : gmap Z Command;
  next : Z;
  pending : gmap string Z;
  nodeRate : gmap Z Z;
  hasSendFn : bool;
  hasEcho : bool;
  sends : list (Z * Z);
  sending : list Z;
  persists : list Z;
  db : gmap string Command;
  trace : list action
}.

Definition set_heap (v : gmap Z Command) (s : Service) : Service :=
  mkService v (next s) (pending s) (nodeRate s) (hasSendFn s) (hasEcho s) (sends s) (sending
    s) (persists s) (db s) (trace s).
Definition set_next (v : Z) (s : Service) : Service :=
  mkService (heap s) v (pending s) (nodeRate s) (hasSendFn s) (hasEcho s) (sends s) (sending
    s) (persists s) (db s) (trace s).
Definition set_pending (v : gmap string Z) (s : Service) : Service :=
  mkService (heap s) (next s) v (nodeRate s) (hasSendFn s) (hasEcho s) (sends s) (sending s)
    (persists s) (db s) (trace s).
Definition set_nodeRate (v : gmap Z Z) (s : Service) : Service :=
  mkService (heap s) (next s) (pending s) v (hasSendFn s) (hasEcho s) (sends s) (sending s)
    (persists s) (db s) (trace s).
Definition set_hasSendFn (v : bool) (s : Service) : Service :=
  mkService (heap s) (next s) (pending s) (nodeRate s) v (hasEcho s) (sends s) (sending s)
    (persists s) (db s) (trace s).
Definition set_hasEcho (v : bool) (s : Service) : Service :=
  mkService (heap s) (next s) (pending s) (nodeRate s) (hasSendFn s) v (sends s) (sending s)
    (persists s) (db s) (trace s).
Definition set_sends (v : list (Z * Z)) (s : Service) : Service :=
  mkService (heap s) (next s) (pending s) (nodeRate s) (hasSendFn s) (hasEcho s) v (sending s)
    (persists s) (db s) (trace s).
Definition set_sending (v : list Z) (s : Service) : Service :=
  mkService (heap s) (next s) (pending s) (nodeRate s) (hasSendFn s) (hasEcho s) (sends s) v
    (persists s) (db s) (trace s).
Definition set_persists (v : list Z) (s : Service) : Service :=
  mkService (heap s) (next s) (pending s) (nodeRate s) (hasSendFn s) (hasEcho s) (sends s)
    (sending s) v (db s) (trace s).
Definition set_db (v : gmap string Command) (s : Service) : Service :=
  mkService (heap s) (next s) (pending s) (nodeRate s) (hasSendFn s) (hasEcho s) (sends s)
    (sending s) (persists s) v (trace s).
Definition set_trace (v : list action) (s : Service) : Service :=
  mkService (heap s) (next s) (pending s) (nodeRate s) (hasSendFn s) (hasEcho s) (sends s)
    (sending s) (persists s) (db s) v.

Definition NewService : Service :=
  mkService ∅ 0 ∅ ∅ false false [] [] [] ∅ [].

Definition emit (a : action) (s : Service) : Service := set_trace (trace s ++ [a]) s.
Definition goSend (ref at_ : Z) (s : Service) : Service := set_sends (sends s ++ [(ref, at_)]) s.
Definition goPersist (ref : Z) (s : Service) : Service := set_persists (persists s ++ [ref]) s.
Definition unpend (id : string) (s : Service) : Service := set_pending (delete id (pending s)) s.

(** A write through the pointer. *)
Definition update (ref : Z) (f : Command -> Command) (s : Service) : Service :=
  set_heap (alter f ref (heap s)) s.

Definition broadcast (ref : Z) (s : Service) : Service :=
  match heap s !! ref with Some cmd => emit (ABroadcast cmd) s | None => s end.

(** A new object, entered in the map under its ID. *)
Definition allocate (cmd : Command) (s : Service) : Service :=
  set_pending (<[ID cmd := next s]> (pending s))
    (set_next (next s + 1) (set_heap (<[next s := cmd]> (heap s)) s)).

Definition newCommand (id : string) (targetNode : Z) (cmdType payload target name : string)
    (params : list string) (line : string) : Command :=
  mkCommand id targetNode cmdType payload StatusPending None None None None 0 0 0 target name
    params line "" "" "" "" "" false [].

Definition second : Z := 1000000000.
Definition autoAttachDelay : Z := 3 * second.

Definition cmdName (cmd : Command) : string :=
  if bool_decide (Name cmd = "") then CommandType cmd else Name cmd.

(** *** Scan detections *)

(** The fields of [byMAC[r.MAC].row] after another row of the same device. *)
Definition orElse (a b : string) : string := if bool_decide (a = "") then b else a.
Definition mergeRow (e r : ScanDetection) : ScanDetection :=
  mkDetection (MAC e) (RSSI r) (orElse (Band e) (Band r))
    (if bool_decide (Source r = "BLERAW") then "BLERAW" else Source e)
    (orElse (DetectionType e) (DetectionType r)) (orElse (Manufacturer e) (Manufacturer r))
    (orElse (LocalName e) (LocalName r)).

(** [byMAC] and [order] are a list in the order of first sight. *)
Fixpoint mergeInto (r : ScanDetection) (out : list ScanDetection) : list ScanDetection :=
  match out with
  | [] => [r]
  | e :: out' =>
      if bool_decide (MAC e = MAC r) then mergeRow e r :: out' else e :: mergeInto r out'
  end.

Definition mergeScanRows (rows : list ScanDetection) : list ScanDetection :=
  fold_left (fun out r => mergeInto r out) rows [].

Section Service.
Context `{Unicode}.
(** [strconv.Quote], and the UUID drawn for the object at an address. *)
Variable quote : string -> string.
Variable newCommandID : Z -> string.

Definition formatRow (r : ScanDetection) : string :=
  "[" +:+ Source r +:+ "] " +:+ MAC r +:+
  (if bool_decide (Band r = "") then "" else " " +:+ Band r) +:+
  " RSSI=" +:+ itoa (RSSI r) +:+
  (if bool_decide (DetectionType r = "") then "" else " type=" +:+ DetectionType r) +:+
  (if bool_decide (Manufacturer r = "") then "" else " mfr=" +:+ quote (Manufacturer r)) +:+
  (if bool_decide (LocalName r = "") then "" else " name=" +:+ quote (LocalName r)) +:+
  bytes_string [10].

Definition formatScanRows (rows : list ScanDetection) : string :=
  match rows with
  | [] => ""
  | _ => "Devices: " +:+ itoa (zlen rows) +:+ bytes_string [10] +:+ Join (map formatRow rows) ""
  end.

Definition setField (key : string) (v : value) (cmd : Command) : Command :=
  set_Result (Some (<[key := v]> (default ∅ (Result cmd)))) cmd.

(** The detections of a scan become part of its result. *)
Definition finaliseScan (cmd : Command) : Command :=
  if bool_decide (Name cmd ∈ ["DEVICE_SCAN_START"; "SCAN_START"]) then
    match scanRows cmd with
    | [] => cmd
    | rows =>
        let merged := mergeScanRows rows in
        setField "detections" (VRows merged) (set_ResultText (formatScanRows merged) cmd)
    end
  else cmd.

(** *** Enqueue *)
Definition rateLimited (now node : Z) (s : Service) : bool :=
  match nodeRate s !! node with
  | Some lastSent => now - lastSent <? 2 * second
  | None => false
  end.

Definition attached (now : Z) (parent : Command) (name : string) (s : Service) : Command :=
  set_MaxRetries 3 (set_CreatedAt now
    (newCommand (newCommandID (next s)) (TargetNode parent) name "null" (Target parent) name []
       (Target parent +:+ " " +:+ name))).

Definition enqueuePrecedingRawBLEOnLocked (now parent : Z) (s : Service) : Service :=
  match heap s !! parent with
  | Some cmd =>
      let rawOn := next s in
      let s := allocate (attached now cmd "RAW_BLE_ON" s) s in
      goSend parent (now + autoAttachDelay) (goSend rawOn now s)
  | None => s
  end.

Definition enqueueRawBLEFollowonLocked (now parent : Z) (name : string) (s : Service) : Service :=
  match heap s !! parent with
  | Some cmd =>
      let follow := next s in
      goSend follow (now + autoAttachDelay) (allocate (attached now cmd name s) s)
  | None => s
  end.

Definition Enqueue (now : Z) (cmd : Command) (s : Service) : Service * option serviceError :=
  if rateLimited now (TargetNode cmd) s then (s, Some ErrRateLimited)
  else
    let cmd := set_CreatedAt now (set_Status StatusPending cmd) in
    let cmd := if MaxRetries cmd =? 0 then set_MaxRetries 3 cmd else cmd in
    let ref := next s in
    let s := allocate cmd s in
    if bool_decide (Name cmd = "DEVICE_SCAN_START") then
      (enqueuePrecedingRawBLEOnLocked now ref (update ref (set_autoRawAttached true) s), None)
    else (goSend ref now s, None).

(** *** Acknowledgements *)
Definition HandleACK (now : Z) (cmdID : string) (result : option fields) (s : Service) : Service :=
  match pending s !! cmdID with
  | None => s
  | Some ref =>
      let s := update ref (fun cmd =>
        set_Result result (set_FinishedAt (Some now)
          (set_AckedAt (Some now) (set_Status StatusOK cmd)))) s in
      goPersist ref (broadcast ref (unpend cmdID s))
  end.

(** Which commands an acknowledgement covers besides the one of [ACKMap]. *)
Definition wantPrefix (ackKind : string) : string :=
  if bool_decide (ackKind = "CONFIG_ACK") then "CONFIG_"
  else if bool_decide (ackKind = "HB_ACK") then "HB_"
  else if bool_decide (ackKind = "CODE_ACK") then "CODE_"
  else if bool_decide (ackKind = "PROBE_ACK") then "PROBE_"
  else if bool_decide (ackKind = "RAW_BLE_ACK") then "RAW_BLE_"
  else "".

Definition wantSuffix (ackKind : string) : string :=
  if bool_decide (ackKind = "SCAN_DONE_ACK") then "SCAN_START"
  else if bool_decide (ackKind = "STOP_ACK") then "STOP"
  else "".

Definition nameMatches (ackKind target name : string) : bool :=
  bool_decide (name = target) ||
  negb (bool_decide (wantPrefix ackKind = "")) && HasPrefix name (wantPrefix ackKind) ||
  negb (bool_decide (wantSuffix ackKind = "")) && HasSuffix name (wantSuffix ackKind).

Definition openStatus (st : CommandStatus) : bool :=
  bool_decide (st ∈ [StatusPending; StatusSent; StatusRunning]).

(** The latest pending command that [p] accepts, the first visited of those
    created at the same time. *)
Definition latestStep (p : Command -> bool) (s : Service)
    (best : option (string * Z * Command)) (id : string) : option (string * Z * Command) :=
  match pending s !! id with
  | Some ref =>
      match heap s !! ref with
      | Some cmd =>
          if p cmd then
            match best with
            | None => Some (id, ref, cmd)
            | Some (_, _, b) => if CreatedAt b <? CreatedAt cmd then Some (id, ref, cmd) else best
            end
          else best
      | None => best
      end
  | None => best
  end.

Definition latest (p : Command -> bool) (ord : list string) (s : Service)
    : option (string * Z * Command) :=
  fold_left (latestStep p s) ord None.

Definition isRunning (upper : string) : bool := bool_decide (upper = "STARTED").

Definition isTerminalOK (ackKind upper : string) : bool :=
  negb (isRunning upper) &&
  (bool_decide (upper ∈ [""; "OK"; "COMPLETE"; "COMPLETED"; "FINISHED"; "SUCCESS"; "STOPPED";
     "ENABLED"; "DISABLED"; "ON"; "OFF"; "CANCELLED"; "CANCELED"; "UPDATED"; "EXISTS"]) ||
   HasPrefix upper "INTERVAL" ||
   bool_decide (ackKind = "TARGET_INTERVAL_ACK") && negb (HasPrefix upper "INVALID") &&
   negb (bool_decide (upper = ""))).

Definition isTerminalErr (upper : string) : bool :=
  bool_decide (upper ∈ ["ERROR"; "FAILED"; "TIMEOUT"; "FULL"; "NOT_FOUND"]) ||
  HasPrefix upper "INVALID".

Definition ackOutcome (ackKind ackStatus : string) : CommandStatus :=
  let upper := ToUpper ackStatus in
  if isRunning upper then StatusRunning
  else if isTerminalErr upper then StatusError
  else if isTerminalOK ackKind upper then StatusOK
  else StatusSent.

Definition applyAck (now : Z) (ackKind ackStatus ackNode : string) (result : option fields)
    (cmd : Command) : Command :=
  let st := ackOutcome ackKind ackStatus in
  let cmd := set_AckNode ackNode (set_AckStatus ackStatus (set_AckKind ackKind cmd)) in
  let cmd := set_Status st cmd in
  let cmd := if bool_decide (st = StatusError) then set_ErrorText ackStatus cmd else cmd in
  let cmd := set_Result result (set_AckedAt (Some now) cmd) in
  if bool_decide (st = StatusRunning) then cmd else finaliseScan (set_FinishedAt (Some now) cmd).

Definition needsRawOff (cmd : Command) : bool :=
  autoRawAttached cmd && bool_decide (Name cmd = "DEVICE_SCAN_START").

Definition rawOff (now ref : Z) (s : Service) : Service :=
  match heap s !! ref with
  | Some cmd => if needsRawOff cmd then enqueueRawBLEFollowonLocked now ref "RAW_BLE_OFF" s else s
  | None => s
  end.

(** One visit of the fan-out of [PROBE_ACK:STOPPED]. *)
Definition probeClose (now : Z) (s : Service) (id : string) : Service :=
  match pending s !! id with
  | Some ref =>
      match heap s !! ref with
      | Some cmd =>
          if bool_decide (cmdName cmd = "PROBE_START") && bool_decide (Status cmd = StatusRunning)
          then goPersist ref (broadcast ref (unpend id
                 (update ref (fun cmd => set_FinishedAt (Some now) (set_Status StatusOK cmd)) s)))
          else s
      | None => s
      end
  | None => s
  end.

Definition scanClass : list string :=
  ["SCAN_START"; "DEVICE_SCAN_START"; "BASELINE_START"; "DRONE_START"; "DEAUTH_START";
   "RANDOMIZATION_START"; "PROBE_START"].

(** The commands a stop of [target] halts. *)
Definition halted (target : string) (cmd : Command) : bool :=
  bool_decide (cmdName cmd ∈ scanClass) && bool_decide (Status cmd = StatusRunning) &&
  (bool_decide (target = "@ALL") || bool_decide (Target cmd = target)).

(** One visit of the fan-out of [STOP_ACK]. *)
Definition stopClose (now : Z) (target : string) (s : Service) (id : string) : Service :=
  match pending s !! id with
  | Some ref =>
      match heap s !! ref with
      | Some cmd =>
          if halted target cmd then
            let s := update ref (fun cmd =>
              finaliseScan (set_FinishedAt (Some now) (set_Status StatusOK cmd))) s in
            rawOff now ref (goPersist ref (broadcast ref (unpend id s)))
          else s
      | None => s
      end
  | None => s
  end.

(** The match takes the acknowledgement. *)
Definition ackOne (now : Z) (ackKind ackStatus ackNode : string) (result : option fields)
    (id : string) (ref : Z) (s : Service) : Service :=
  let s := update ref (applyAck now ackKind ackStatus ackNode result) s in
  let s := if bool_decide (ackOutcome ackKind ackStatus = StatusRunning) then s
           else rawOff now ref (unpend id s) in
  goPersist ref (broadcast ref s).

Definition fanOut (ord : list string) (now : Z) (ackKind ackStatus target : string) (s : Service)
    : Service :=
  let s := if bool_decide (ackKind = "PROBE_ACK") && bool_decide (ToUpper ackStatus = "STOPPED")
           then fold_left (probeClose now) ord s else s in
  if bool_decide (ackKind = "STOP_ACK") then fold_left (stopClose now target) ord s else s.

Definition covers (ackKind name : string) (cmd : Command) : bool :=
  nameMatches ackKind name (cmdName cmd) && openStatus (Status cmd).

Definition matched (ackKind : string) (ord : list string) (s : Service)
    : option (string * Z * Command) :=
  match ACKMap !! ackKind with
  | None => None
  | Some name => latest (covers ackKind name) ord s
  end.

(** [ord] and [ord'] are the orders of the two ranges. *)
Definition HandleStructuredACK (ord ord' : list string) (now : Z)
    (ackKind ackStatus ackNode : string) (result : option fields) (s : Service) : Service :=
  match matched ackKind ord s with
  | None => s
  | Some (id, ref, cmd) =>
      fanOut ord' now ackKind ackStatus (Target cmd)
        (ackOne now ackKind ackStatus ackNode result id ref s)
  end.

(** *** Detections and probe hits *)
Definition recordRow (nodeID : string) (det : ScanDetection) (cmd : Command) : Command :=
  if bool_decide (cmdName cmd ∈ ["DEVICE_SCAN_START"; "SCAN_START"]) &&
     bool_decide (Status cmd = StatusRunning) &&
     (bool_decide (Target cmd = "@ALL") || bool_decide (Target cmd = "@" +:+ nodeID) ||
      bool_decide (AckNode cmd = nodeID)) &&
     negb (existsb (fun r => bool_decide (MAC r = MAC det) && bool_decide (Source r = Source det))
             (scanRows cmd))
  then set_scanRows (scanRows cmd ++ [det]) cmd else cmd.

Definition RecordScanDetection (ord : list string) (nodeID : string) (det : ScanDetection)
    (s : Service) : Service :=
  if bool_decide (MAC det = "") || bool_decide (Source det = "") then s
  else fold_left (fun s id =>
         match pending s !! id with
         | Some ref => update ref (recordRow nodeID det) s
         | None => s
         end) ord s.

Definition countHit (cmd : Command) : Command :=
  setField "probeHits"
    (match default ∅ (Result cmd) !! "probeHits" with
     | Some (VFloat v) => VFloat (SFadd prec64 emax64 v (floatZ 1))
     | Some (VInt v) => VInt (int64 (v + 1))
     | _ => VInt 1
     end) cmd.

Definition RecordProbeHit (ord : list string) (ackNode : string) (s : Service) : Service :=
  match latest (fun cmd => bool_decide (cmdName cmd = "PROBE_START") &&
                           bool_decide (Status cmd = StatusRunning)) ord s with
  | None => s
  | Some (_, ref, _) => goPersist ref (broadcast ref (update ref countHit s))
  end.

(** *** Sending *)
Definition payloadOf (cmd : Command) : string :=
  if bool_decide (Line cmd = "") then Payload cmd else Line cmd.

(** The first half: reading the send function, and the transmission. *)
Definition send_begin (ref : Z) (s : Service) : Service :=
  if hasSendFn s then
    match heap s !! ref with
    | Some cmd =>
        set_sending (sending s ++ [ref])
          (emit (ATransmit ref (TargetNode cmd) (CommandType cmd) (payloadOf cmd)) s)
    | None => s
    end
  else s.

(** The bookkeeping after the transmission, [ok] when it had no error. *)
Definition sent (now : Z) (ok : bool) (cmd : Command) : Command :=
  if ok then set_SentAt (Some now) (set_Status StatusSent cmd)
  else
    let cmd := set_RetryCount (RetryCount cmd + 1) cmd in
    if MaxRetries cmd <=? RetryCount cmd then set_Status StatusError cmd else cmd.

Definition send_finish (now ref : Z) (ok : bool) (s : Service) : Service :=
  match heap s !! ref with
  | None => s
  | Some cmd =>
      let s := update ref (sent now ok) s in
      let s := if ok then set_nodeRate (<[TargetNode cmd := now]> (nodeRate s)) s
               else if MaxRetries cmd <=? RetryCount cmd + 1 then unpend (ID cmd) s else s in
      let s := broadcast ref s in
      let s := if hasEcho s && ok && negb (bool_decide (payloadOf cmd = ""))
               then emit (AEcho 0 (if TargetNode cmd =? 0 then 4294967295 else TargetNode cmd) 0
                            (payloadOf cmd)) s
               else s in
      goPersist ref s
  end.

(** *** The table *)

(** A row read back: JSON numbers are floats, the fields without a column are
    gone. *)
Definition reload (v : value) : value :=
  match v with VInt n => VFloat (floatZ n) | _ => v end.
Definition rowOf (cmd : Command) : Command :=
  set_autoRawAttached false (set_scanRows []
    (set_Result (option_map (fun m : fields => fmap (M := gmap string) reload m) (Result cmd)) cmd)).

(** [ON CONFLICT (id) DO UPDATE]: the columns of a row that is there already. *)
Definition upsert (old new : Command) : Command :=
  set_Status (Status new) (set_SentAt (SentAt new) (set_AckedAt (AckedAt new)
    (set_FinishedAt (FinishedAt new) (set_Result (Result new) (set_RetryCount (RetryCount new)
      (set_AckKind (AckKind new) (set_AckStatus (AckStatus new) (set_AckNode (AckNode new)
        (set_ResultText (ResultText new) (set_ErrorText (ErrorText new) old)))))))))).

Definition persistCommand (dbOK : bool) (ref : Z) (s : Service) : Service :=
  match heap s !! ref with
  | Some cmd =>
      if dbOK then
        let row := rowOf cmd in
        let row := match db s !! ID cmd with Some old => upsert old row | None => row end in
        set_db (<[ID cmd := row]> (db s)) s
      else s
  | None => s
  end.

Definition GetByID (dbOK : bool) (id : string) (s : Service) : Command + serviceError :=
  match pending s !! id with
  | Some ref => match heap s !! ref with Some cmd => inl cmd | None => inr ErrCommandNotFound end
  | None =>
      if dbOK then
        match db s !! id with Some row => inl row | None => inr ErrCommandNotFound end
      else inr ErrCommandNotFound
  end.

Definition Delete (dbOK : bool) (id : string) (s : Service) : Service :=
  let s := unpend id s in
  if dbOK then set_db (delete id (db s)) s else s.

Definition PruneOldCommands (now retentionDays : Z) (s : Service) : Service * Z :=
  let days := if retentionDays <=? 0 then 180 else retentionDays in
  let old := fun c => CreatedAt c <? now - days * 86400 * second in
  (set_db (filter (fun p => old p.2 = false) (db s)) s,
   Z.of_nat (size (filter (fun p => old p.2 = true) (db s)))).

(** *** The watchdog *)
Definition isForever (p : string) : bool :=
  bool_decide (smap upperASCII (TrimSpace p) = "FOREVER").

(** The command closes when its window has elapsed. *)
Definition windowElapsed (now grace : Z) (cmd : Command) : bool :=
  bool_decide (cmdName cmd = "PROBE_START") && bool_decide (Status cmd = StatusRunning) &&
  match SentAt cmd with
  | None => false
  | Some sentAt =>
      negb (existsb isForever (Params cmd)) &&
      match Params cmd with
      | _ :: duration :: _ =>
          match Atoi (TrimSpace duration) with
          | Some sec => (0 <? sec) && negb (now - sentAt <? int64 (int64 (sec * second) + grace))
          | None => false
          end
      | _ => false
      end
  end.

Definition timeoutClose (now grace : Z) (st : Service * Z) (id : string) : Service * Z :=
  let '(s, closed) := st in
  match pending s !! id with
  | Some ref =>
      match heap s !! ref with
      | Some cmd =>
          if windowElapsed now grace cmd then
            let s := update ref (fun cmd =>
              setField "closeReason" (VString "scan-window-elapsed")
                (set_FinishedAt (Some now) (set_Status StatusOK cmd))) s in
            (goPersist ref (broadcast ref (unpend id s)), closed + 1)
          else (s, closed)
      | None => (s, closed)
      end
  | None => (s, closed)
  end.

Definition EnforceScanTimeouts (ord : list string) (now grace : Z) (s : Service) : Service * Z :=
  fold_left (timeoutClose now grace) ord (s, 0).

(** *** Events *)
Inductive event : Type :=
| EWire (send echo : bool)
| EEnqueue (now : Z) (id : string) (targetNode : Z) (cmdType payload target name : string)
    (params : list string) (line : string)
| ESendBegin (k : nat) (now : Z)
| ESendFinish (k : nat) (now : Z) (ok : bool)
| EPersist (k : nat) (dbOK : bool)
| EAck (now : Z) (id : string) (result : option fields)
| EStructuredAck (ord ord' : list string) (now : Z) (kind status node : string)
    (result : option fields)
| EDetection (ord : list string) (nodeID : string) (det : ScanDetection)
| EProbeHit (ord : list string) (node : string)
| ETimeouts (ord : list string) (now grace : Z)
| EDelete (dbOK : bool) (id : string).

(** The orders a range over [pending] can have. *)
Definition keys (s : Service) : list string := (map_to_list (pending s)).*1.
Definition rangeOrder (ord : list string) (s : Service) : bool := bool_decide (ord ≡ₚ keys s).

(** One event; one that is not enabled does nothing.  The second range of
    [HandleStructuredACK] may also visit keys added meanwhile, which changes
    nothing: its order is one of the keys from before. *)
Definition exec (e : event) (s : Service) : Service :=
  match e with
  | EWire send echo => set_hasSendFn send (set_hasEcho echo s)
  | EEnqueue now id node ty payload target name params line =>
      (Enqueue now (newCommand id node ty payload target name params line) s).1
  | ESendBegin k now =>
      match sends s !! k with
      | Some (ref, at_) =>
          if at_ <=? now then send_begin ref (set_sends (delete k (sends s)) s) else s
      | None => s
      end
  | ESendFinish k now ok =>
      match sending s !! k with
      | Some ref => send_finish now ref ok (set_sending (delete k (sending s)) s)
      | None => s
      end
  | EPersist k ok =>
      match persists s !! k with
      | Some ref => persistCommand ok ref (set_persists (delete k (persists s)) s)
      | None => s
      end
  | EAck now id result => HandleACK now id result s
  | EStructuredAck ord ord' now kind status node result =>
      if rangeOrder ord s && rangeOrder ord' s
      then HandleStructuredACK ord ord' now kind status node result s else s
  | EDetection ord nodeID det =>
      if rangeOrder ord s then RecordScanDetection ord nodeID det s else s
  | EProbeHit ord node => if rangeOrder ord s then RecordProbeHit ord node s else s
  | ETimeouts ord now grace =>
      if rangeOrder ord s then (EnforceScanTimeouts ord now grace s).1 else s
  | EDelete ok id => Delete ok id s
  end.

Definition run (es : list event) (s : Service) : Service := fold_left (fun s e => exec e s) es s.
End Service.

(** ** Examples *)
Definition anyQuote (s : string) : string := s.
Definition anyUUID (ref : Z) : string := "uuid-" +:+ itoa ref.
Definition runs := @run asciiUnicode anyQuote anyUUID.
Definition ready : Service := set_hasSendFn true NewService.
Definition enqueueScan : event :=
  EEnqueue 0 "a" 7 "DEVICE_SCAN_START" "null" "@HB01" "DEVICE_SCAN_START" ["2"; "60"]
    "@HB01 DEVICE_SCAN_START:2:60".
Definition statusAt (ref : Z) (s : Service) : option CommandStatus := Status <$> heap s !! ref.

Example scan_attached :
  let s := runs [enqueueScan; ESendBegin 0 0; ESendFinish 0 1 true; ESendBegin 0 1] ready in
  (pending s !! "a", pending s !! "uuid-1", statusAt 0 s, statusAt 1 s, sends s)
  = (Some 0, Some 1, Some StatusPending, Some StatusSent, [(0, 3000000000)]).
Proof. vm_compute. reflexivity. Qed.

Example scan_finished :
  let s := runs [enqueueScan; ESendBegin 1 (3 * second); ESendFinish 0 (3 * second) true;
                 EStructuredAck ["a"; "uuid-1"] ["a"; "uuid-1"] 5 "DEVICE_SCAN_ACK" "STARTED" "x" None;
                 EDetection ["uuid-1"; "a"] "x" (mkDetection "M" (-50) "B" "DEVICE" "" "" "");
                 EStructuredAck ["a"; "uuid-1"] ["a"; "uuid-1"] 9 "SCAN_DONE_ACK" "" "x" None] ready in
  (statusAt 0 s, ResultText <$> heap s !! 0, Line <$> heap s !! 2, map fst (map_to_list (pending s)))
  = (Some StatusOK, Some ("Devices: 1" +:+ bytes_string [10] +:+ "[DEVICE] M B RSSI=-50"
                          +:+ bytes_string [10]),
     Some "@HB01 RAW_BLE_OFF", ["uuid-1"; "uuid-2"]).
Proof. vm_compute. reflexivity. Qed.

(** ** The invariant *)
Definition openCmd (cmd : Command) : Prop :=
  openStatus (Status cmd) = true /\ FinishedAt cmd = None.

Definition transmittedRef (a : action) : list Z :=
  match a with ATransmit ref _ _ _ => [ref] | _ => [] end.
Definition transmitted (s : Service) : list Z := concat (map transmittedRef (trace s)).

(** Objects are allocated below [next]; the map holds open commands under
    their own IDs; no object is transmitted twice or is waiting to be sent
    again; a retry is only counted for one transmission. *)
Record wf (s : Service) : Prop := {
  wf_next ref : is_Some (heap s !! ref) -> ref < next s;
  wf_pending id ref : pending s !! id = Some ref ->
    exists cmd, heap s !! ref = Some cmd /\ ID cmd = id /\ openCmd cmd;
  wf_once : NoDup (transmitted s ++ (sends s).*1);
  wf_alive ref : ref ∈ transmitted s ++ (sends s).*1 -> is_Some (heap s !! ref);
  wf_sending : NoDup (sending s);
  wf_flight ref : ref ∈ sending s -> ref ∈ transmitted s;
  wf_retry ref cmd : heap s !! ref = Some cmd ->
    RetryCount cmd = 0 \/ RetryCount cmd = 1 /\ (ref ∈ transmitted s) /\ (ref ∉ sending s)
}.

Lemma transmitted_emit a s : transmitted (emit a s) = transmitted s ++ transmittedRef a.
Proof.
  unfold transmitted. cbn [emit set_trace trace].
  rewrite map_app, concat_app. cbn. by rewrite app_nil_r.
Qed.

Lemma wf_quiet s s' :
  wf s -> heap s' = heap s -> next s' = next s -> pending s' = pending s -> sends s' = sends s ->
  sending s' = sending s -> transmitted s' = transmitted s -> wf s'.
Proof.
  intros [? ? ? ? ? ? ?] Hh Hn Hp Hs Hg Ht.
  constructor; rewrite ?Hh, ?Hn, ?Hp, ?Hs, ?Hg, ?Ht; done.
Qed.

Lemma wf_emit a s : transmittedRef a = [] -> wf s -> wf (emit a s).
Proof.
  intros Ha Hs. apply (wf_quiet s); try done. by rewrite transmitted_emit, Ha, app_nil_r.
Qed.

Lemma wf_broadcast ref s : wf s -> wf (broadcast ref s).
Proof. intros Hs. unfold broadcast. destruct (heap s !! ref); [by apply wf_emit|done]. Qed.

Lemma wf_goPersist ref s : wf s -> wf (goPersist ref s).
Proof. intros Hs. by apply (wf_quiet s). Qed.

Lemma wf_unpend id s : wf s -> wf (unpend id s).
Proof.
  intros Hs. constructor; try apply Hs. cbn.
  intros id' ref [_ H]%lookup_delete_Some. by apply (wf_pending s Hs).
Qed.

Lemma wf_allocate cmd s : wf s -> openCmd cmd -> RetryCount cmd = 0 -> wf (allocate cmd s).
Proof.
  intros Hs Hc Hr.
  assert (heap s !! next s = None) as Hfresh.
  { apply eq_None_not_Some. intros H%(wf_next s Hs). lia. }
  constructor; cbn; try apply Hs.
  - intros ref [->|[_ H]]%lookup_insert_is_Some; [lia|]. apply (wf_next s Hs) in H. lia.
  - intros id ref [[<- <-]|[_ H]]%lookup_insert_Some.
    + exists cmd. by rewrite lookup_insert_eq.
    + destruct (wf_pending s Hs id ref H) as (cmd' & ? & ?). exists cmd'.
      rewrite lookup_insert_ne; [done|]. intros <-. congruence.
  - intros ref H%(wf_alive s Hs). apply lookup_insert_is_Some'. by right.
  - intros ref cmd' [[<- <-]|[_ H]]%lookup_insert_Some; [by left|]. by apply (wf_retry s Hs).
Qed.

Lemma wf_goSend ref t s :
  wf s -> is_Some (heap s !! ref) -> (ref ∉ transmitted s ++ (sends s).*1) -> wf (goSend ref t s).
Proof.
  intros Hs Hr Hn. constructor; cbn; try apply Hs; rewrite fmap_app, app_assoc; cbn.
  - change (transmitted (goSend ref t s)) with (transmitted s).
    apply NoDup_app. split; [apply Hs|split; [|apply NoDup_singleton]].
    intros x Hx ->%list_elem_of_singleton. done.
  - change (transmitted (goSend ref t s)) with (transmitted s).
    intros x [Hx| ->%list_elem_of_singleton]%elem_of_app; [by apply (wf_alive s Hs)|done].
Qed.

(** A write that keeps the identity of an object, and keeps it open if it is
    pending. *)
Definition keeps (f : Command -> Command) : Prop :=
  forall cmd, ID (f cmd) = ID cmd /\ RetryCount (f cmd) = RetryCount cmd.

Definition retryOK (s : Service) (ref : Z) (n : Z) : Prop :=
  n = 0 \/ n = 1 /\ (ref ∈ transmitted s) /\ (ref ∉ sending s).

Lemma wf_write ref f s :
  wf s ->
  (forall cmd, heap s !! ref = Some cmd ->
     ID (f cmd) = ID cmd /\ retryOK s ref (RetryCount (f cmd)) /\
     (pending s !! ID cmd = Some ref -> openCmd cmd -> openCmd (f cmd))) ->
  wf (update ref f s).
Proof.
  intros Hs Hf. constructor; cbn; try apply Hs.
  - intros x H. apply lookup_alter_is_Some in H. by apply (wf_next s Hs).
  - intros id x H. destruct (wf_pending s Hs id x H) as (cmd & Hc & Hi & Hop).
    rewrite lookup_alter. case_decide as E; [|by exists cmd]. subst x id. rewrite Hc. cbn.
    destruct (Hf cmd Hc) as (? & _ & Ho). exists (f cmd). split; [done|]. split; [done|].
    by apply Ho.
  - intros x H. apply lookup_alter_is_Some. by apply (wf_alive s Hs).
  - intros x cmd [[<- (c & Hc & ->)]|[_ Hc]]%lookup_alter_Some.
    + apply (Hf c Hc).
    + by apply (wf_retry s Hs).
Qed.

Lemma wf_update ref f s :
  wf s -> keeps f ->
  (forall cmd, heap s !! ref = Some cmd -> pending s !! ID cmd = Some ref ->
     openCmd cmd -> openCmd (f cmd)) ->
  wf (update ref f s).
Proof.
  intros Hs Hf Ho. apply wf_write; [done|]. intros cmd Hc. destruct (Hf cmd) as [Hi Hr].
  split; [done|]. split; [|by apply Ho]. rewrite Hr. by apply (wf_retry s Hs).
Qed.

(** A write to an object that leaves the map. *)
Lemma wf_close id ref f s :
  wf s -> pending s !! id = Some ref -> keeps f -> wf (unpend id (update ref f s)).
Proof.
  intros Hs Hp Hf.
  apply (wf_quiet (update ref f (unpend id s))); try done.
  apply wf_update; [by apply wf_unpend|done|].
  intros cmd Hc Hpe. cbn in Hc, Hpe. apply lookup_delete_Some in Hpe as [Hne Hpe].
  destruct (wf_pending s Hs id ref Hp) as (cmd' & Hc' & Hi & _). congruence.
Qed.


(** *** Every operation keeps it *)
Section Preservation.
Context `{U : Unicode}.
Variable quote : string -> string.
Variable uuid : Z -> string.

Lemma keeps_finalise : keeps (finaliseScan quote).
Proof.
  intros cmd. unfold finaliseScan. case_bool_decide; [|done]. by destruct (scanRows cmd).
Qed.

Lemma finalise_open cmd :
  Status (finaliseScan quote cmd) = Status cmd /\ FinishedAt (finaliseScan quote cmd) = FinishedAt cmd.
Proof.
  unfold finaliseScan. case_bool_decide; [|done]. by destruct (scanRows cmd).
Qed.

Lemma keeps_applyAck now kind st node res : keeps (applyAck quote now kind st node res).
Proof.
  intros cmd. unfold applyAck.
  destruct (bool_decide (ackOutcome kind st = StatusRunning)).
  - by destruct (bool_decide (ackOutcome kind st = StatusError)).
  - destruct (keeps_finalise (set_FinishedAt (Some now) (set_Result res (set_AckedAt (Some now)
      (if bool_decide (ackOutcome kind st = StatusError)
       then set_ErrorText st (set_Status (ackOutcome kind st)
              (set_AckNode node (set_AckStatus st (set_AckKind kind cmd))))
       else set_Status (ackOutcome kind st)
              (set_AckNode node (set_AckStatus st (set_AckKind kind cmd)))))))) as [-> ->].
    by destruct (bool_decide (ackOutcome kind st = StatusError)).
Qed.

Lemma wf_attach cmd t s :
  wf s -> openCmd cmd -> RetryCount cmd = 0 -> wf (goSend (next s) t (allocate cmd s)).
Proof.
  intros Hs Hc Hr. apply wf_goSend; [by apply wf_allocate| |].
  - cbn. by rewrite lookup_insert_eq.
  - change (transmitted (allocate cmd s)) with (transmitted s). cbn.
    intros H%(wf_alive s Hs)%(wf_next s Hs). lia.
Qed.

Lemma wf_followon now parent name s :
  wf s -> wf (enqueueRawBLEFollowonLocked uuid now parent name s).
Proof.
  intros Hs. unfold enqueueRawBLEFollowonLocked. destruct (heap s !! parent); [|done].
  by apply wf_attach.
Qed.

Lemma wf_rawOff now ref s : wf s -> wf (rawOff uuid now ref s).
Proof.
  intros Hs. unfold rawOff. destruct (heap s !! ref) as [cmd|]; [|done].
  destruct (needsRawOff cmd); [by apply wf_followon|done].
Qed.

Lemma wf_Enqueue now cmd s :
  wf s -> FinishedAt cmd = None -> RetryCount cmd = 0 -> wf (Enqueue uuid now cmd s).1.
Proof.
  intros Hs Hf Hr. unfold Enqueue. destruct (rateLimited _ _ _); [done|].
  set (c := if MaxRetries (set_CreatedAt now (set_Status StatusPending cmd)) =? 0
            then set_MaxRetries 3 (set_CreatedAt now (set_Status StatusPending cmd))
            else set_CreatedAt now (set_Status StatusPending cmd)).
  assert (openCmd c /\ RetryCount c = 0) as [Hc Hc'].
  { unfold c. by destruct (MaxRetries _ =? 0). }
  case_bool_decide; cbn [fst]; [|by apply wf_attach].
  unfold enqueuePrecedingRawBLEOnLocked. cbn [update heap set_heap allocate set_pending set_next].
  rewrite lookup_alter_eq, lookup_insert_eq. cbn [fmap option_fmap option_map].
  set (s1 := update (next s) (set_autoRawAttached true) (allocate c s)).
  assert (wf s1) as Hs1 by (apply wf_update; [by apply wf_allocate|done|by intros]).
  apply (wf_goSend (next s)).
  - by apply wf_attach.
  - cbn. rewrite lookup_insert_is_Some'. right. by rewrite lookup_alter_eq, lookup_insert_eq.
  - change (transmitted _) with (transmitted s). cbn. rewrite fmap_app, app_assoc.
    rewrite elem_of_app. cbn. intros [Hin|Hin%list_elem_of_singleton]; [|lia].
    apply (wf_alive s Hs), (wf_next s Hs) in Hin. lia.
Qed.

Lemma wf_HandleACK now id res s : wf s -> wf (HandleACK now id res s).
Proof.
  intros Hs. unfold HandleACK. destruct (pending s !! id) as [ref|] eqn:Hp; [|done].
  apply wf_goPersist, wf_broadcast. by apply wf_close.
Qed.

(** Folding over the keys of a range. *)
Lemma wf_fold {A} (f : A -> Service) (step : A -> string -> A) ord a :
  (forall a id, wf (f a) -> wf (f (step a id))) -> wf (f a) -> wf (f (fold_left step ord a)).
Proof.
  intros Hstep. revert a. induction ord as [|id ord IH]; intros a Ha; [done|].
  by apply IH, Hstep.
Qed.

Lemma wf_probeClose now s id : wf s -> wf (probeClose now s id).
Proof.
  intros Hs. unfold probeClose. destruct (pending s !! id) as [ref|] eqn:Hp; [|done].
  destruct (heap s !! ref); [|done]. destruct (_ && _); [|done].
  apply wf_goPersist, wf_broadcast. by apply wf_close.
Qed.

Lemma wf_stopClose now target s id : wf s -> wf (stopClose quote uuid now target s id).
Proof.
  intros Hs. unfold stopClose. destruct (pending s !! id) as [ref|] eqn:Hp; [|done].
  destruct (heap s !! ref); [|done]. destruct (halted _ _); [|done].
  apply wf_rawOff, wf_goPersist, wf_broadcast. apply wf_close; [done|done|].
  intros cmd. apply (keeps_finalise (set_FinishedAt (Some now) (set_Status StatusOK cmd))).
Qed.

(** What [latest] finds: the best of the keys visited. *)
Definition bestOf (p : Command -> bool) (s : Service) (ord : list string)
    (best : option (string * Z * Command)) : Prop :=
  match best with
  | Some (id, ref, cmd) =>
      (id ∈ ord) /\ pending s !! id = Some ref /\ heap s !! ref = Some cmd /\ p cmd = true /\
      forall id' ref' cmd', id' ∈ ord -> pending s !! id' = Some ref' ->
        heap s !! ref' = Some cmd' -> p cmd' = true -> CreatedAt cmd' <= CreatedAt cmd
  | None =>
      forall id' ref' cmd', id' ∈ ord -> pending s !! id' = Some ref' ->
        heap s !! ref' = Some cmd' -> p cmd' = false
  end.

Lemma bestOf_skip p s ord id best :
  (forall ref cmd, pending s !! id = Some ref -> heap s !! ref = Some cmd -> p cmd = false) ->
  bestOf p s ord best -> bestOf p s (ord ++ [id]) best.
Proof.
  intros Hid. destruct best as [[[id0 ref0] b]|]; cbn.
  - intros (Hin & ? & ? & ? & Hmax). split; [apply elem_of_app; by left|].
    repeat (split; [done|]). intros id' ref' cmd' [Hi| ->%list_elem_of_singleton]%elem_of_app Hp' Hc' Hp.
    + by apply (Hmax id' ref').
    + by rewrite (Hid ref' cmd') in Hp.
  - intros Hnone id' ref' cmd' [Hi| ->%list_elem_of_singleton]%elem_of_app Hp' Hc'.
    + by apply (Hnone id' ref').
    + by apply (Hid ref').
Qed.

Lemma bestOf_take p s ord id ref cmd best :
  pending s !! id = Some ref -> heap s !! ref = Some cmd -> p cmd = true ->
  (match best with Some (_, _, b) => CreatedAt b < CreatedAt cmd | None => True end) ->
  bestOf p s ord best -> bestOf p s (ord ++ [id]) (Some (id, ref, cmd)).
Proof.
  intros Hp Hc Hpc Hlt Hb. split; [apply elem_of_app; right; by left|].
  repeat (split; [done|]).
  intros id' ref' cmd' [Hi| ->%list_elem_of_singleton]%elem_of_app Hp' Hc' Hpc'.
  - destruct best as [[[id0 ref0] b]|]; cbn in Hb.
    + destruct Hb as (_ & _ & _ & _ & Hmax). specialize (Hmax id' ref' cmd' Hi Hp' Hc' Hpc'). lia.
    + by rewrite (Hb id' ref' cmd' Hi Hp' Hc') in Hpc'.
  - simplify_eq. lia.
Qed.

Lemma latestStep_best p s ord id best :
  bestOf p s ord best -> bestOf p s (ord ++ [id]) (latestStep p s best id).
Proof.
  intros Hb. unfold latestStep.
  destruct (pending s !! id) as [ref|] eqn:Hp; [|apply bestOf_skip; [congruence|done]].
  destruct (heap s !! ref) as [cmd|] eqn:Hc; [|apply bestOf_skip; [congruence|done]].
  destruct (p cmd) eqn:Hpc; [|apply bestOf_skip; [congruence|done]].
  destruct best as [[[id0 ref0] b]|]; [|by apply (bestOf_take _ _ _ _ _ _ None)].
  destruct (CreatedAt b <? CreatedAt cmd) eqn:Hlt.
  - apply (bestOf_take _ _ _ _ _ _ (Some (id0, ref0, b))); [done..|by apply Z.ltb_lt|done].
  - apply Z.ltb_ge in Hlt. cbn in Hb. destruct Hb as (? & ? & ? & ? & Hmax).
    split; [apply elem_of_app; by left|]. repeat (split; [done|]).
    intros id' ref' cmd' [Hi| ->%list_elem_of_singleton]%elem_of_app Hp' Hc' ?.
    + by apply (Hmax id' ref').
    + simplify_eq. lia.
Qed.

Lemma latest_best p ord s : bestOf p s ord (latest p ord s).
Proof.
  unfold latest. assert (forall l best, bestOf p s l best ->
    bestOf p s (l ++ ord) (fold_left (latestStep p s) ord best)) as Hgen.
  { induction ord as [|id ord IH]; intros l best Hb; [by rewrite app_nil_r|].
    replace (l ++ id :: ord) with ((l ++ [id]) ++ ord) by by rewrite <- app_assoc.
    by apply IH, latestStep_best. }
  apply (Hgen []). intros ? ? ? Hin. by apply elem_of_nil in Hin.
Qed.

Lemma wf_ackOne now kind st node res id ref s :
  wf s -> pending s !! id = Some ref -> wf (ackOne quote uuid now kind st node res id ref s).
Proof.
  intros Hs Hp. unfold ackOne. apply wf_goPersist, wf_broadcast. case_bool_decide as Hrun.
  - apply wf_update; [done|apply keeps_applyAck|]. intros c _ _ [_ Hfin].
    unfold openCmd, applyAck. rewrite Hrun, bool_decide_true by done.
    by rewrite bool_decide_false by done.
  - apply wf_rawOff, wf_close; [done|done|apply keeps_applyAck].
Qed.

Lemma wf_fanOut ord now kind st target s : wf s -> wf (fanOut quote uuid ord now kind st target s).
Proof.
  intros Hs. unfold fanOut.
  assert (forall b : bool, wf (if b then fold_left (probeClose now) ord s else s)) as Hs2.
  { intros b. destruct b; [|done]. apply (wf_fold (fun s : Service => s)); [|done].
    intros. by apply wf_probeClose. }
  case_bool_decide; [|done].
  apply (wf_fold (fun s : Service => s)); [|done]. intros. by apply wf_stopClose.
Qed.

(** The match, described. *)
Lemma matched_spec kind ord s :
  match matched kind ord s with
  | Some (id, ref, cmd) =>
      exists name, ACKMap !! kind = Some name /\ bestOf (covers kind name) s ord (Some (id, ref, cmd))
  | None => ACKMap !! kind = None \/
      exists name, ACKMap !! kind = Some name /\ bestOf (covers kind name) s ord None
  end.
Proof.
  unfold matched. destruct (ACKMap !! kind) as [name|]; [|by left].
  pose proof (latest_best (covers kind name) ord s) as Hl.
  destruct (latest (covers kind name) ord s) as [[[id ref] cmd]|]; [|right]; by exists name.
Qed.

Lemma wf_HandleStructuredACK ord ord' now kind st node res s :
  wf s -> wf (HandleStructuredACK quote uuid ord ord' now kind st node res s).
Proof.
  intros Hs. unfold HandleStructuredACK. pose proof (matched_spec kind ord s) as Hm.
  destruct (matched kind ord s) as [[[id ref] cmd]|]; [|done].
  destruct Hm as (name & _ & _ & Hp & _). by apply wf_fanOut, wf_ackOne.
Qed.

Lemma wf_RecordScanDetection ord nodeID det s :
  wf s -> wf (RecordScanDetection ord nodeID det s).
Proof.
  intros Hs. unfold RecordScanDetection. destruct (_ || _); [done|].
  apply (wf_fold (fun s : Service => s)); [|done]. clear s Hs. intros s id Hs.
  destruct (pending s !! id) as [ref|]; [|done].
  apply wf_update; [done| |]; intros cmd; unfold recordRow; by destruct (_ && _).
Qed.

Lemma wf_RecordProbeHit ord node s : wf s -> wf (RecordProbeHit ord node s).
Proof.
  intros Hs. unfold RecordProbeHit. destruct (latest _ ord s) as [[[id ref] cmd]|]; [|done].
  by apply wf_goPersist, wf_broadcast, wf_update.
Qed.

Lemma wf_EnforceScanTimeouts ord now grace s :
  wf s -> wf (EnforceScanTimeouts ord now grace s).1.
Proof.
  intros Hs. unfold EnforceScanTimeouts. apply (wf_fold fst); [|done]. clear s Hs.
  intros [s n] id Hs. cbn in Hs. unfold timeoutClose.
  destruct (pending s !! id) as [ref|] eqn:Hp; [|done]. destruct (heap s !! ref); [|done].
  destruct (windowElapsed _ _ _); [|done]. cbn [fst].
  apply wf_goPersist, wf_broadcast. by apply wf_close.
Qed.

(** A goroutine leaves the front of [send]. *)
Lemma wf_dequeue k ref t s :
  wf s -> sends s !! k = Some (ref, t) ->
  let s' := set_sends (delete k (sends s)) s in
  wf s' /\ is_Some (heap s' !! ref) /\ (ref ∉ transmitted s' ++ (sends s').*1).
Proof.
  intros Hs Hk s'.
  assert (transmitted s ++ (sends s).*1 ≡ₚ ref :: (transmitted s ++ (delete k (sends s)).*1)) as HP.
  { rewrite (delete_Permutation _ _ _ Hk) at 1. cbn. by rewrite Permutation_middle. }
  assert (NoDup (ref :: (transmitted s ++ (delete k (sends s)).*1))) as HN
    by (rewrite <- HP; apply Hs).
  apply NoDup_cons in HN as [Hn HN].
  split; [|split; [|done]].
  - constructor; cbn; try apply Hs; change (transmitted s') with (transmitted s); [done|].
    intros x Hx. apply (wf_alive s Hs). rewrite HP. by right.
  - cbn. apply (wf_alive s Hs). rewrite HP. by left.
Qed.

Lemma wf_send_begin ref s :
  wf s -> is_Some (heap s !! ref) -> (ref ∉ transmitted s ++ (sends s).*1) -> wf (send_begin ref s).
Proof.
  intros Hs [cmd Hc] Hn. unfold send_begin. destruct (hasSendFn s); [|done]. rewrite Hc.
  set (a := ATransmit _ _ _ _).
  assert (transmitted (set_sending (sending s ++ [ref]) (emit a s)) = transmitted s ++ [ref]) as Ht
    by apply (transmitted_emit a s).
  assert (forall l, (transmitted s ++ [ref]) ++ l ≡ₚ ref :: (transmitted s ++ l)) as HP.
  { intros l. rewrite <- app_assoc. cbn. by rewrite Permutation_middle. }
  apply not_elem_of_app in Hn as Hn'. destruct Hn' as [Hnt _].
  constructor; rewrite ?Ht; cbn; try apply Hs.
  - rewrite HP. apply NoDup_cons. split; [done|apply Hs].
  - intros x. rewrite HP. intros [->|Hx]%elem_of_cons; [by exists cmd|by apply (wf_alive s Hs)].
  - apply NoDup_app. split; [apply Hs|split; [|apply NoDup_singleton]].
    intros x Hx ->%list_elem_of_singleton. by apply Hnt, (wf_flight s Hs).
  - intros x [Hx|Hx]%elem_of_app; apply elem_of_app; [left; by apply (wf_flight s Hs)|by right].
  - intros x c Hx. destruct (wf_retry s Hs x c Hx) as [?|(? & Hin & Hns)]; [by left|right].
    split; [done|]. split; [apply elem_of_app; by left|].
    intros [?| ->%list_elem_of_singleton]%elem_of_app; done.
Qed.

Lemma wf_send_finish now ref ok s :
  wf s -> (ref ∈ transmitted s) -> (ref ∉ sending s) ->
  (forall cmd, heap s !! ref = Some cmd -> RetryCount cmd = 0) -> wf (send_finish now ref ok s).
Proof.
  intros Hs Ht Hns Hr. unfold send_finish. destruct (heap s !! ref) as [cmd|] eqn:Hc; [|done].
  apply wf_goPersist.
  match goal with |- context [broadcast ref ?x] => set (s1 := x) end.
  assert (wf s1) as Hs1.
  { unfold s1. destruct ok.
    - apply (wf_quiet (update ref (sent now true) s)); try done.
      apply wf_update; [done|by intros c|by intros c _ _ [_ ?]].
    - assert (retryOK s ref (RetryCount (sent now false cmd))) as Hret.
      { right. split; [|done].
        transitivity (RetryCount cmd + 1); [|by rewrite (Hr cmd eq_refl)].
        unfold sent. cbn [RetryCount set_RetryCount]. by destruct (_ <=? _). }
      destruct (MaxRetries cmd <=? RetryCount cmd + 1) eqn:Hm.
      + apply (wf_quiet (update ref (sent now false) (unpend (ID cmd) s))); try done.
        apply wf_write; [by apply wf_unpend|]. cbn. intros c Hc'. simplify_eq.
        split; [unfold sent; by destruct (_ <=? _)|]. split; [done|].
        by rewrite lookup_delete_eq.
      + apply wf_write; [done|]. intros c Hc'. simplify_eq.
        split; [unfold sent; by destruct (_ <=? _)|]. split; [done|].
        unfold sent. cbn. by rewrite Hm. }
  clearbody s1. pose proof (wf_broadcast ref s1 Hs1) as Hs2. revert Hs2.
  generalize (broadcast ref s1). intros s2 Hs2.
  destruct (_ && _); [by apply wf_emit|done].
Qed.

Lemma wf_persistCommand ok ref s : wf s -> wf (persistCommand ok ref s).
Proof.
  intros Hs. unfold persistCommand. destruct (heap s !! ref); [|done]. destruct ok; [|done].
  by apply (wf_quiet s).
Qed.

Lemma wf_event e s : wf s -> wf (exec quote uuid e s).
Proof.
  intros Hs. destruct e; cbn [exec].
  - by apply (wf_quiet s).
  - by apply wf_Enqueue.
  - destruct (sends s !! k) as [[ref t]|] eqn:Hk; [|done]. destruct (t <=? now); [|done].
    destruct (wf_dequeue k ref t s Hs Hk) as (? & ? & ?). by apply wf_send_begin.
  - destruct (sending s !! k) as [ref|] eqn:Hk; [|done].
    assert (ref ∈ sending s) as Hin by (by eapply list_elem_of_lookup_2).
    pose proof (wf_sending s Hs) as HN. rewrite (delete_Permutation _ _ _ Hk) in HN.
    apply NoDup_cons in HN as [Hn HN].
    apply wf_send_finish; cbn; [|by apply (wf_flight s Hs)|done|].
    + constructor; try apply Hs; cbn; [done| |].
      * intros x Hx%elem_of_delete. by apply (wf_flight s Hs).
      * intros x c Hx. destruct (wf_retry s Hs x c Hx) as [?|(? & ? & Hns)]; [by left|right].
        split; [done|split; [done|]]. by intros ?%elem_of_delete.
    + intros c Hc. by destruct (wf_retry s Hs ref c Hc) as [?|(_ & _ & ?)].
  - destruct (persists s !! k) as [ref|]; [|done]. apply wf_persistCommand. by apply (wf_quiet s).
  - by apply wf_HandleACK.
  - destruct (_ && _); [|done]. by apply wf_HandleStructuredACK.
  - destruct (rangeOrder ord s); [|done]. by apply wf_RecordScanDetection.
  - destruct (rangeOrder ord s); [|done]. by apply wf_RecordProbeHit.
  - destruct (rangeOrder ord s); [|done]. by apply wf_EnforceScanTimeouts.
  - unfold Delete. destruct dbOK; [|by apply wf_unpend].
    apply (wf_quiet (unpend id s)); [by apply wf_unpend|done..].
Qed.

Lemma wf_NewService : wf NewService.
Proof.
  constructor; cbn.
  - intros ref [cmd Hc]. by rewrite lookup_empty in Hc.
  - intros id ref Hp. by rewrite lookup_empty in Hp.
  - constructor.
  - intros ref Hin. by apply elem_of_nil in Hin.
  - constructor.
  - intros ref Hin. by apply elem_of_nil in Hin.
  - intros ref cmd Hc. by rewrite lookup_empty in Hc.
Qed.

Lemma wf_events es s : wf s -> wf (run quote uuid es s).
Proof. revert s. induction es as [|e es IH]; intros s Hs; [done|]. by apply IH, wf_event. Qed.
End Preservation.

(** ** The fan-out of a stop *)
Section FanOut.
Context `{U : Unicode}.
Variable quote : string -> string.
Variable uuid : Z -> string.

Definition closedBy (now : Z) (cmd : Command) : Command :=
  finaliseScan quote (set_FinishedAt (Some now) (set_Status StatusOK cmd)).

Definition live (target : string) (s : Service) (id : string) (ref : Z) (cmd : Command) : Prop :=
  pending s !! id = Some ref /\ heap s !! ref = Some cmd /\ halted target cmd = true.

Lemma heap_broadcast ref s : heap (broadcast ref s) = heap s.
Proof. unfold broadcast. by destruct (heap s !! ref). Qed.
Lemma pending_broadcast ref s : pending (broadcast ref s) = pending s.
Proof. unfold broadcast. by destruct (heap s !! ref). Qed.
Lemma next_broadcast ref s : next (broadcast ref s) = next s.
Proof. unfold broadcast. by destruct (heap s !! ref). Qed.

(** The closing command either leaves the state as it is or adds one object,
    which no stop halts. *)
Lemma rawOff_shape now ref s :
  rawOff uuid now ref s = s \/
  exists follow, cmdName follow = "RAW_BLE_OFF" /\
    pending (rawOff uuid now ref s) = <[uuid (next s) := next s]> (pending s) /\
    heap (rawOff uuid now ref s) = <[next s := follow]> (heap s) /\
    next (rawOff uuid now ref s) = next s + 1.
Proof.
  unfold rawOff, enqueueRawBLEFollowonLocked. destruct (heap s !! ref) as [cmd|]; [|by left].
  destruct (needsRawOff cmd); [|by left]. right. by exists (attached uuid now cmd "RAW_BLE_OFF" s).
Qed.

Lemma rawOff_live now ref target s id ref' cmd :
  live target (rawOff uuid now ref s) id ref' cmd -> live target s id ref' cmd.
Proof.
  destruct (rawOff_shape now ref s) as [->|(follow & Hn & Hp & Hh & _)]; [done|].
  intros (Hp' & Hc & Hl). rewrite Hp in Hp'. rewrite Hh in Hc.
  assert (ref' <> next s) as Hne.
  { intros ->. rewrite lookup_insert_eq in Hc. simplify_eq. unfold halted in Hl.
    rewrite Hn in Hl. done. }
  rewrite lookup_insert_ne in Hc by done.
  apply lookup_insert_Some in Hp' as [[_ ?]|[_ ?]]; [congruence|done].
Qed.

Lemma rawOff_heap now ref s r c :
  wf s -> heap s !! r = Some c -> heap (rawOff uuid now ref s) !! r = Some c.
Proof.
  intros Hs Hc. destruct (rawOff_shape now ref s) as [->|(follow & _ & _ & -> & _)]; [done|].
  rewrite lookup_insert_ne; [done|]. intros <-.
  assert (is_Some (heap s !! next s)) as Hx%(wf_next s Hs) by by exists c. lia.
Qed.

Lemma rawOff_pending now ref s id :
  (forall x, next s <= x -> uuid x <> id) ->
  pending (rawOff uuid now ref s) !! id = pending s !! id.
Proof.
  intros Hu. destruct (rawOff_shape now ref s) as [->|(follow & _ & -> & _)]; [done|].
  rewrite lookup_insert_ne; [done|]. apply Hu. lia.
Qed.

Lemma rawOff_next now ref s : next s <= next (rawOff uuid now ref s).
Proof.
  destruct (rawOff_shape now ref s) as [->|(follow & _ & _ & _ & ->)]; lia.
Qed.

(** The step as one write, one removal and the closing command. *)
Lemma stopClose_cases now target s id :
  (exists ref cmd, live target s id ref cmd /\
     let s1 := goPersist ref (broadcast ref (unpend id (update ref (closedBy now) s))) in
     stopClose quote uuid now target s id = rawOff uuid now ref s1 /\
     pending s1 = delete id (pending s) /\ heap s1 = alter (closedBy now) ref (heap s) /\
     next s1 = next s /\ (wf s -> wf s1)) \/
  (forall ref cmd, ~ live target s id ref cmd) /\ stopClose quote uuid now target s id = s.
Proof.
  unfold stopClose, live.
  destruct (pending s !! id) as [ref|] eqn:Hp; [|right; by split; [intros ? ? [? _]|]].
  destruct (heap s !! ref) as [cmd|] eqn:Hc;
    [|right; split; [|done]; intros ? ? (? & Hc' & _); congruence].
  destruct (halted target cmd) eqn:Hl;
    [|right; split; [|done]; intros ? ? (? & Hc' & Hl'); congruence].
  left. exists ref, cmd. split; [done|]. split; [done|].
  cbn [pending heap next goPersist set_persists].
  rewrite pending_broadcast, heap_broadcast, next_broadcast. repeat (split; [done|]).
  intros Hs. apply wf_goPersist, wf_broadcast. apply wf_close; [done|done|].
  intros c. apply (keeps_finalise quote (set_FinishedAt (Some now) (set_Status StatusOK c))).
Qed.

Lemma wf_same_ref s id id' ref : wf s -> pending s !! id = Some ref ->
  pending s !! id' = Some ref -> id = id'.
Proof.
  intros Hs H1 H2. destruct (wf_pending s Hs _ _ H1) as (c1 & ? & ? & _).
  destruct (wf_pending s Hs _ _ H2) as (c2 & ? & ? & _). congruence.
Qed.

Lemma stopClose_live now target s id id' ref' cmd' :
  wf s -> live target (stopClose quote uuid now target s id) id' ref' cmd' ->
  live target s id' ref' cmd' /\ id' <> id.
Proof.
  intros Hs Hl.
  destruct (stopClose_cases now target s id) as
    [(ref & cmd & (Hp & _) & He & Hp1 & Hh1 & _)|[Hn He]]; rewrite He in Hl.
  - apply rawOff_live in Hl as (Hp' & Hc' & Hl'). rewrite Hp1 in Hp'. rewrite Hh1 in Hc'.
    apply lookup_delete_Some in Hp' as [Hne Hp'].
    assert (ref <> ref') as Hr by (intros ->; apply Hne; by apply (wf_same_ref s _ _ ref')).
    rewrite lookup_alter_ne in Hc' by done. by split.
  - split; [done|]. intros ->. by apply (Hn ref' cmd').
Qed.

Lemma stopClose_fold_live now target ord s id' ref' cmd' :
  wf s -> live target (fold_left (stopClose quote uuid now target) ord s) id' ref' cmd' ->
  live target s id' ref' cmd' /\ (id' ∉ ord).
Proof.
  revert s. induction ord as [|id ord IH]; intros s Hs Hl; [by split; [|apply not_elem_of_nil]|].
  apply IH in Hl as [Hl Hn]; [|by apply wf_stopClose].
  apply stopClose_live in Hl as [Hl Hne]; [|done]. split; [done|].
  by intros [?|?]%elem_of_cons.
Qed.

(** Objects a step does not close keep their contents. *)
Lemma stopClose_heap now target s id r c :
  wf s -> heap s !! r = Some c -> (pending s !! id = Some r -> halted target c = false) ->
  heap (stopClose quote uuid now target s id) !! r = Some c.
Proof.
  intros Hs Hc Hn.
  destruct (stopClose_cases now target s id) as
    [(ref & cmd & (Hp & Hc' & Hl) & -> & _ & Hh & _ & Hw)|[_ ->]]; [|done].
  apply rawOff_heap; [by apply Hw|]. rewrite Hh, lookup_alter_ne; [done|].
  intros ->. apply Hn in Hp. congruence.
Qed.

Lemma closedBy_quiet now target c : halted target (closedBy now c) = false.
Proof.
  unfold halted, closedBy. destruct (finalise_open quote
    (set_FinishedAt (Some now) (set_Status StatusOK c))) as [-> _]. cbn.
  by rewrite andb_false_r.
Qed.

Lemma stopClose_fold_quiet now target ord s r c :
  wf s -> heap s !! r = Some c -> halted target c = false ->
  heap (fold_left (stopClose quote uuid now target) ord s) !! r = Some c.
Proof.
  revert s. induction ord as [|id ord IH]; intros s Hs Hc Hn; [done|].
  apply IH; [by apply wf_stopClose| |done]. by apply stopClose_heap.
Qed.

Lemma stopClose_fold_heap now target ord s id r c :
  wf s -> pending s !! id = Some r -> heap s !! r = Some c -> id ∈ ord ->
  (forall x, next s <= x -> uuid x <> id) ->
  heap (fold_left (stopClose quote uuid now target) ord s) !! r
  = Some (if halted target c then closedBy now c else c).
Proof.
  destruct (halted target c) eqn:Hl; [|intros; by apply stopClose_fold_quiet].
  revert s. induction ord as [|id0 ord IH]; intros s Hs Hp Hc Hin Hu; [by apply elem_of_nil in Hin|].
  cbn [fold_left]. destruct (decide (id0 = id)) as [->|Hne].
  - apply stopClose_fold_quiet; [by apply wf_stopClose| |apply closedBy_quiet].
    destruct (stopClose_cases now target s id) as
      [(ref & cmd & (Hp' & _) & -> & _ & Hh & _ & Hw)|[Hn _]]; [|by destruct (Hn r c)].
    apply rawOff_heap; [by apply Hw|]. simplify_eq. by rewrite Hh, lookup_alter_eq, Hc.
  - apply elem_of_cons in Hin as [?|Hin]; [congruence|].
    apply IH; [by apply wf_stopClose| | |done|].
    + destruct (stopClose_cases now target s id0) as
        [(ref & cmd & _ & -> & Hp1 & _ & Hn & _)|[_ ->]]; [|done].
      rewrite rawOff_pending by by rewrite Hn. by rewrite Hp1, lookup_delete_ne.
    + apply stopClose_heap; [done|done|]. intros Hp0. by destruct (wf_same_ref s id0 id r).
    + intros x Hx. apply Hu. etransitivity; [|exact Hx].
      destruct (stopClose_cases now target s id0) as
        [(ref & cmd & _ & -> & _ & _ & <- & _)|[_ ->]]; [|done]. apply rawOff_next.
Qed.

Lemma stopClose_next now target s id : next s <= next (stopClose quote uuid now target s id).
Proof.
  destruct (stopClose_cases now target s id) as
    [(ref & cmd & _ & -> & _ & _ & <- & _)|[_ ->]]; [apply rawOff_next|lia].
Qed.

Lemma stopClose_fold_pending now target ord s id :
  wf s -> (forall ref cmd, ~ live target s id ref cmd) -> (forall x, next s <= x -> uuid x <> id) ->
  pending (fold_left (stopClose quote uuid now target) ord s) !! id = pending s !! id.
Proof.
  revert s. induction ord as [|id0 ord IH]; intros s Hs Hn Hu; [done|]. cbn [fold_left].
  rewrite IH.
  - destruct (stopClose_cases now target s id0) as
      [(ref & cmd & Hl & -> & Hp & _ & Hx & _)|[_ ->]]; [|done].
    rewrite rawOff_pending by by rewrite Hx. rewrite Hp. apply lookup_delete_ne.
    intros ->. by apply (Hn ref cmd).
  - by apply wf_stopClose.
  - intros ref cmd [Hl _]%stopClose_live; [|done]. by apply (Hn ref cmd).
  - intros x Hx. apply Hu. pose proof (stopClose_next now target s id0). lia.
Qed.

(** The fan-out of [PROBE_ACK:STOPPED] closes running probe scans only. *)
Lemma probeClose_heap now s id r c :
  heap s !! r = Some c -> Status c <> StatusRunning -> heap (probeClose now s id) !! r = Some c.
Proof.
  intros Hc Hn. unfold probeClose. destruct (pending s !! id) as [ref|]; [|done].
  destruct (heap s !! ref) as [cmd|] eqn:Hc'; [|done].
  destruct (bool_decide (cmdName cmd = "PROBE_START")); [|done].
  case_bool_decide as Hr; [|done]. cbn [heap goPersist set_persists andb].
  rewrite heap_broadcast. cbn. rewrite lookup_alter_ne; [done|]. congruence.
Qed.

Lemma probeClose_fold_heap now ord s r c :
  heap s !! r = Some c -> Status c <> StatusRunning ->
  heap (fold_left (probeClose now) ord s) !! r = Some c.
Proof.
  revert s. induction ord as [|id ord IH]; intros s Hc Hn; [done|]. apply IH; [|done].
  by apply probeClose_heap.
Qed.

Lemma probeClose_fold_pending now ord s id :
  pending s !! id = None -> pending (fold_left (probeClose now) ord s) !! id = None.
Proof.
  revert s. induction ord as [|id0 ord IH]; intros s Hn; [done|]. apply IH. unfold probeClose.
  destruct (pending s !! id0) as [ref|]; [|done]. destruct (heap s !! ref); [|done].
  destruct (_ && _); [|done]. cbn [pending goPersist set_persists]. rewrite pending_broadcast.
  cbn. apply lookup_delete_None. by right.
Qed.

(** *** The match *)
Lemma applyAck_name now kind st node res c :
  cmdName (applyAck quote now kind st node res c) = cmdName c /\
  Status (applyAck quote now kind st node res c) = ackOutcome kind st.
Proof.
  assert (forall c, cmdName (finaliseScan quote c) = cmdName c) as Hf.
  { intros c0. unfold finaliseScan. case_bool_decide; [|done]. by destruct (scanRows c0). }
  unfold applyAck. destruct (bool_decide (ackOutcome kind st = StatusRunning)) eqn:E.
  - by destruct (bool_decide (ackOutcome kind st = StatusError)).
  - rewrite Hf, (proj1 (finalise_open quote _)).
    by destruct (bool_decide (ackOutcome kind st = StatusError)).
Qed.

Lemma applyAck_times now kind st node res c :
  ackOutcome kind st <> StatusRunning ->
  AckedAt (applyAck quote now kind st node res c) = Some now /\
  FinishedAt (applyAck quote now kind st node res c) = Some now.
Proof.
  intros Hn. unfold applyAck. rewrite (bool_decide_false (ackOutcome kind st = StatusRunning)) by done.
  rewrite (proj2 (finalise_open quote _)). split; [|done].
  unfold finaliseScan. case_bool_decide; [|done]. by destruct (scanRows _).
Qed.

Lemma ackOne_spec now kind st node res id ref cmd s :
  wf s -> pending s !! id = Some ref -> heap s !! ref = Some cmd ->
  let s1 := ackOne quote uuid now kind st node res id ref s in
  heap s1 !! ref = Some (applyAck quote now kind st node res cmd) /\
  next s <= next s1 /\
  ((forall x, next s <= x -> uuid x <> id) ->
   pending s1 !! id = if bool_decide (ackOutcome kind st = StatusRunning) then Some ref else None) /\
  (forall id' r c, id' <> id -> pending s !! id' = Some r -> heap s !! r = Some c ->
     (forall x, next s <= x -> uuid x <> id') ->
     pending s1 !! id' = Some r /\ heap s1 !! r = Some c) /\
  (forall target id' r c, live target s1 id' r c -> is_Some (pending s !! id')).
Proof.
  intros Hs Hp Hc s1. unfold s1, ackOne. cbn [heap next pending goPersist set_persists].
  unfold live. cbn [heap next pending goPersist set_persists].
  rewrite heap_broadcast, next_broadcast, pending_broadcast.
  set (s2 := update ref _ s).
  assert (heap s2 !! ref = Some (applyAck quote now kind st node res cmd)) as Hh
    by (cbn; by rewrite lookup_alter_eq, Hc).
  assert (forall id' r, id' <> id -> pending s !! id' = Some r -> heap s2 !! r = heap s !! r) as Ho.
  { intros id' r Hne Hp'. cbn. apply lookup_alter_ne. intros <-. apply Hne.
    by apply (wf_same_ref s _ _ ref). }
  case_bool_decide as Hrun.
  - split; [done|split; [cbn; lia|split; [done|split]]].
    + intros id' r c Hne Hp' Hc' _. split; [done|]. by rewrite (Ho id').
    + intros target id' r c (Hp' & _). by exists r.
  - assert (wf (unpend id s2)) as Hw by (apply wf_close; [done|done|apply keeps_applyAck]).
    split; [by apply rawOff_heap|]. split; [apply (rawOff_next now ref (unpend id s2))|].
    split; [|split].
    + intros Hu. rewrite rawOff_pending by done. cbn. apply lookup_delete_eq.
    + intros id' r c Hne Hp' Hc' Hu. rewrite rawOff_pending by done.
      split; [cbn; by rewrite lookup_delete_ne|]. apply rawOff_heap; [done|].
      change (heap (unpend id s2)) with (heap s2). by rewrite (Ho id').
    + intros target id' r c Hl. apply rawOff_live in Hl as (Hp' & _). cbn in Hp'.
      apply lookup_delete_Some in Hp' as [_ Hp']. by exists r.
Qed.

(** A stop never matches a scan. *)
Lemma stop_not_scan name cmd :
  ACKMap !! "STOP_ACK" = Some name -> covers "STOP_ACK" name cmd = true ->
  cmdName cmd ∉ scanClass.
Proof.
  intros Ha Hc Hin. vm_compute in Ha. injection Ha as <-.
  unfold covers, nameMatches in Hc. revert Hc. generalize (openStatus (Status cmd)). intros b Hb.
  apply andb_true_iff in Hb as [Hb _]. unfold scanClass in Hin.
  repeat (apply elem_of_cons in Hin as [Hin|Hin]; [rewrite Hin in Hb; vm_compute in Hb; done|]).
  by apply elem_of_nil in Hin.
Qed.

Lemma fanOut_match ord now kind st node res name target cmd ref s :
  wf s -> ACKMap !! kind = Some name -> covers kind name cmd = true ->
  heap s !! ref = Some (applyAck quote now kind st node res cmd) ->
  heap (fanOut quote uuid ord now kind st target s) !! ref
  = Some (applyAck quote now kind st node res cmd).
Proof.
  intros Hs Ha Hcov Hc. unfold fanOut.
  destruct (applyAck_name now kind st node res cmd) as [Hn Hst].
  destruct (bool_decide (kind = "STOP_ACK")) eqn:Hk; [apply bool_decide_eq_true in Hk|].
  - subst kind. rewrite (bool_decide_false ("STOP_ACK" = "PROBE_ACK")) by done. cbn [andb].
    apply stopClose_fold_quiet; [done|done|].
    unfold halted. rewrite Hn. rewrite (bool_decide_false (cmdName cmd ∈ scanClass)); [done|].
    by apply (stop_not_scan name).
  - destruct (bool_decide (kind = "PROBE_ACK")); [|done]. cbn [andb].
    destruct (bool_decide (ToUpper st = "STOPPED")) eqn:Hstop; [|done].
    apply bool_decide_eq_true in Hstop. apply probeClose_fold_heap; [done|]. rewrite Hst.
    unfold ackOutcome. rewrite Hstop. by destruct (isTerminalOK kind "STOPPED").
Qed.

Lemma fanOut_pending ord now kind st node res name target cmd id ref s :
  wf s -> ACKMap !! kind = Some name -> covers kind name cmd = true ->
  heap s !! ref = Some (applyAck quote now kind st node res cmd) ->
  (ackOutcome kind st = StatusRunning /\ pending s !! id = Some ref \/ pending s !! id = None) ->
  (forall x, next s <= x -> uuid x <> id) ->
  pending (fanOut quote uuid ord now kind st target s) !! id = pending s !! id.
Proof.
  intros Hs Ha Hcov Hc Hp Hu. unfold fanOut.
  destruct (applyAck_name now kind st node res cmd) as [Hn Hst].
  destruct (bool_decide (kind = "STOP_ACK")) eqn:Hk; [apply bool_decide_eq_true in Hk|].
  - rewrite (bool_decide_false (kind = "PROBE_ACK")) by by rewrite Hk. cbn [andb].
    apply stopClose_fold_pending; [done| |done]. intros ref' cmd' (Hp' & Hc' & Hl).
    destruct Hp as [[_ Hp]|Hp]; [|congruence].
    assert (ref' = ref) as -> by congruence.
    assert (cmd' = applyAck quote now kind st node res cmd) as -> by congruence.
    unfold halted in Hl. rewrite Hn, (bool_decide_false (cmdName cmd ∈ scanClass)) in Hl; [done|].
    subst kind. by apply (stop_not_scan name).
  - destruct (bool_decide (kind = "PROBE_ACK")); [|done]. cbn [andb].
    destruct (bool_decide (ToUpper st = "STOPPED")) eqn:Hstop; [|done].
    apply bool_decide_eq_true in Hstop. destruct Hp as [[Hr _]|Hp].
    + exfalso. unfold ackOutcome in Hr. rewrite Hstop in Hr.
      by destruct (isTerminalOK kind "STOPPED").
    + rewrite Hp. by apply probeClose_fold_pending.
Qed.
End FanOut.

(** ** Merging scan rows *)

(** The reference: the devices in the order of first sight, each with what its
    rows say together. *)
Fixpoint firstSeen (macs : list string) : list string :=
  match macs with
  | [] => []
  | m :: macs' => m :: List.filter (fun x => negb (bool_decide (x = m))) (firstSeen macs')
  end.

Fixpoint firstNonEmpty (l : list string) : string :=
  match l with
  | [] => ""
  | x :: l' => if bool_decide (x = "") then firstNonEmpty l' else x
  end.

Definition mergedOf (mac : string) (rows : list ScanDetection) : ScanDetection :=
  let group := List.filter (fun r => bool_decide (MAC r = mac)) rows in
  mkDetection mac (List.last (map RSSI group) 0) (firstNonEmpty (map Band group))
    (if existsb (fun r => bool_decide (Source r = "BLERAW")) group then "BLERAW"
     else List.hd "" (map Source group))
    (firstNonEmpty (map DetectionType group)) (firstNonEmpty (map Manufacturer group))
    (firstNonEmpty (map LocalName group)).

Lemma firstNonEmpty_snoc l x : firstNonEmpty (l ++ [x]) = orElse (firstNonEmpty l) x.
Proof.
  induction l as [|y l IH]; cbn [app firstNonEmpty].
  - unfold orElse. by case_bool_decide.
  - case_bool_decide as Hy; [done|]. unfold orElse. by rewrite bool_decide_false.
Qed.

Lemma firstSeen_elem l m : m ∈ firstSeen l <-> m ∈ l.
Proof.
  induction l as [|x l IH]; [done|]. cbn [firstSeen].
  rewrite !elem_of_cons, !list_elem_of_In, filter_In, <- !list_elem_of_In, IH.
  rewrite negb_true_iff, bool_decide_eq_false. destruct (decide (m = x)); intuition.
Qed.

Lemma firstSeen_snoc l m :
  firstSeen (l ++ [m]) = if bool_decide (m ∈ l) then firstSeen l else firstSeen l ++ [m].
Proof.
  induction l as [|x l IH]; [done|]. cbn [app firstSeen]. rewrite IH.
  destruct (decide (m = x)) as [->|Hne].
  - rewrite (bool_decide_true (x ∈ x :: l)) by by left.
    case_bool_decide; [done|]. rewrite List.filter_app. cbn.
    rewrite bool_decide_true by done. cbn. by rewrite app_nil_r.
  - rewrite (bool_decide_ext (m ∈ x :: l) (m ∈ l)) by (rewrite elem_of_cons; intuition).
    case_bool_decide; [done|]. rewrite List.filter_app. cbn.
    by rewrite bool_decide_false.
Qed.

Lemma mergedOf_other mac rows r : MAC r <> mac -> mergedOf mac (rows ++ [r]) = mergedOf mac rows.
Proof.
  intros Hne. unfold mergedOf. rewrite List.filter_app. cbn [List.filter].
  rewrite bool_decide_false by done. by rewrite app_nil_r.
Qed.

Lemma mergedOf_same rows r :
  MAC r ∈ map MAC rows -> mergedOf (MAC r) (rows ++ [r]) = mergeRow (mergedOf (MAC r) rows) r.
Proof.
  intros Hin. unfold mergedOf, mergeRow. rewrite List.filter_app. cbn [List.filter].
  rewrite bool_decide_true by done. set (g := List.filter _ rows).
  assert (g <> []) as Hg.
  { intros Hg. apply list_elem_of_In, in_map_iff in Hin as (r' & He & Hr').
    assert (In r' g) as Hr by (apply filter_In; split; [done|by apply bool_decide_eq_true]).
    by rewrite Hg in Hr. }
  rewrite !map_app. cbn [map MAC Band Source DetectionType Manufacturer LocalName].
  rewrite !firstNonEmpty_snoc, existsb_app, last_last. f_equal.
  cbn [existsb]. rewrite orb_false_r. destruct g as [|r0 g]; [done|].
  destruct (existsb _ (r0 :: g)), (bool_decide (Source r = "BLERAW")); done.
Qed.

Lemma mergeInto_skip r out :
  (MAC r ∉ map MAC out) -> mergeInto r out = out ++ [r].
Proof.
  induction out as [|e out IH]; [done|]. cbn. intros [Hne Hn]%not_elem_of_cons.
  rewrite bool_decide_false by congruence. f_equal. by apply IH.
Qed.

Lemma mergeInto_hit r (f : string -> ScanDetection) macs :
  (forall m, MAC (f m) = m) -> NoDup macs -> MAC r ∈ macs ->
  mergeInto r (map f macs)
  = map (fun m => if bool_decide (m = MAC r) then mergeRow (f m) r else f m) macs.
Proof.
  intros Hf. induction macs as [|m macs IH]; [by intros _ ?%elem_of_nil|].
  intros [Hm HN]%NoDup_cons Hin. cbn [map mergeInto]. rewrite Hf. case_bool_decide as E.
  - f_equal. apply map_ext_in. intros x Hx. rewrite bool_decide_false; [done|].
    intros ->. apply Hm. rewrite E. by apply list_elem_of_In.
  - f_equal. apply IH; [done|]. by apply elem_of_cons in Hin as [?|?].
Qed.

Lemma firstSeen_NoDup l : NoDup (firstSeen l).
Proof.
  induction l as [|x l IH]; [constructor|]. cbn. apply NoDup_cons. split.
  - rewrite list_elem_of_In, filter_In. intros [_ Hn]. by rewrite bool_decide_true in Hn.
  - rewrite NoDup_ListNoDup in *. by apply List.NoDup_filter.
Qed.

Lemma mergedOf_alone r rows :
  (MAC r ∉ map MAC rows) -> mergedOf (MAC r) (rows ++ [r]) = r.
Proof.
  rewrite list_elem_of_In. intros Hn. unfold mergedOf. rewrite List.filter_app.
  assert (List.filter (fun r0 => bool_decide (MAC r0 = MAC r)) rows = []) as ->.
  { induction rows as [|x rows IH]; [done|]. cbn in *.
    rewrite bool_decide_false by naive_solver. apply IH. naive_solver. }
  cbn. rewrite bool_decide_true by done. cbn. destruct r as [m rssi b src dt mf ln]. cbn.
  f_equal; repeat case_bool_decide; cbn; congruence.
Qed.

(** Merging scan rows is what it says.  The result has one row per MAC in
    the order of first sight; a row is BLERAW if any row of the device is,
    its RSSI is the last one seen and every other field the first that is
    not empty. *)
Theorem merge_scan_rows_equiv rows :
  mergeScanRows rows = map (fun mac => mergedOf mac rows) (firstSeen (map MAC rows)).
Proof.
  unfold mergeScanRows. induction rows as [|r rows IH] using rev_ind; [done|].
  rewrite fold_left_app. cbn [fold_left]. rewrite IH, map_app. cbn [map]. rewrite firstSeen_snoc.
  case_bool_decide as Hin.
  - rewrite (mergeInto_hit r (fun mac => mergedOf mac rows)); [|done|apply firstSeen_NoDup|].
    + apply map_ext. intros m. case_bool_decide as E.
      * subst m. by rewrite mergedOf_same.
      * by rewrite mergedOf_other.
    + by apply firstSeen_elem.
  - rewrite map_app. cbn [map]. rewrite mergedOf_alone by done.
    rewrite mergeInto_skip.
    + f_equal. apply map_ext_in. intros m Hm. rewrite <- list_elem_of_In, firstSeen_elem in Hm.
      rewrite mergedOf_other; [done|].
      by intros <-.
    + rewrite map_map. cbn. rewrite map_id. by rewrite firstSeen_elem.
Qed.

(** ** The watchdog *)
Definition expire (now : Z) (cmd : Command) : Command :=
  setField "closeReason" (VString "scan-window-elapsed")
    (set_FinishedAt (Some now) (set_Status StatusOK cmd)).

Definition overdue (now grace : Z) (s : Service) (id : string) : bool :=
  match pending s !! id with
  | Some ref => match heap s !! ref with Some cmd => windowElapsed now grace cmd | None => false end
  | None => false
  end.

Lemma timeoutClose_shape now grace s n id :
  let '(s', n') := timeoutClose now grace (s, n) id in
  (overdue now grace s id = true /\ n' = n + 1 /\ pending s' = delete id (pending s) /\
   exists ref, pending s !! id = Some ref /\ heap s' = alter (expire now) ref (heap s)) \/
  overdue now grace s id = false /\ n' = n /\ s' = s.
Proof.
  unfold overdue, timeoutClose. destruct (pending s !! id) as [ref|] eqn:Hp; [|by right].
  destruct (heap s !! ref) as [cmd|] eqn:Hc; [|by right].
  destruct (windowElapsed now grace cmd) eqn:Hw; [|by right].
  left. split; [done|split; [done|]]. cbn [pending heap goPersist set_persists].
  rewrite pending_broadcast, heap_broadcast. split; [done|]. by exists ref.
Qed.

(** A visit leaves the other keys and their objects alone. *)
Lemma timeoutClose_other now grace s n id id' ref cmd :
  wf s -> id' <> id -> pending s !! id' = Some ref -> heap s !! ref = Some cmd ->
  let s' := (timeoutClose now grace (s, n) id).1 in
  pending s' !! id' = Some ref /\ heap s' !! ref = Some cmd.
Proof.
  intros Hs Hne Hp Hc. pose proof (timeoutClose_shape now grace s n id) as Hsh.
  destruct (timeoutClose now grace (s, n) id) as [s' n'].
  destruct Hsh as [(_ & _ & Hp' & ref0 & Hp0 & Hh)|(_ & _ & ->)]; [|done]. cbn.
  rewrite Hp', Hh, lookup_delete_ne by done. split; [done|].
  rewrite lookup_alter_ne; [done|]. intros ->. apply Hne. by apply (wf_same_ref s id' id ref).
Qed.

Lemma wf_timeoutClose now grace s n id : wf s -> wf (timeoutClose now grace (s, n) id).1.
Proof.
  intros Hs. apply (wf_EnforceScanTimeouts [id] now grace s) in Hs as Hw.
  cbn in Hw. unfold EnforceScanTimeouts in Hw. cbn [fold_left] in Hw.
  unfold timeoutClose in *. destruct (pending s !! id) as [ref|]; [|done].
  destruct (heap s !! ref) as [cmd|]; [|done]. by destruct (windowElapsed now grace cmd).
Qed.

Definition timeoutsFrom (now grace : Z) (ord : list string) (st : Service * Z) : Service * Z :=
  fold_left (timeoutClose now grace) ord st.

(** The objects of keys that are not visited any more. *)
Lemma timeouts_skip now grace ord s n id ref cmd :
  wf s -> (id ∉ ord) -> pending s !! id = Some ref -> heap s !! ref = Some cmd ->
  let s' := (timeoutsFrom now grace ord (s, n)).1 in
  pending s' !! id = Some ref /\ heap s' !! ref = Some cmd.
Proof.
  revert s n. induction ord as [|id0 ord IH]; intros s n Hs Hn Hp Hc; [done|].
  apply not_elem_of_cons in Hn as [Hne Hn].
  change (timeoutsFrom now grace (id0 :: ord) (s, n))
    with (timeoutsFrom now grace ord (timeoutClose now grace (s, n) id0)).
  destruct (timeoutClose_other now grace s n id0 id ref cmd Hs Hne Hp Hc) as [Hp' Hc'].
  pose proof (wf_timeoutClose now grace s n id0 Hs) as Hw.
  destruct (timeoutClose now grace (s, n) id0) as [s1 n1]. by apply IH.
Qed.

(** A closed object is not written again. *)
Lemma timeouts_closed now grace ord s n id ref cmd :
  wf s -> heap s !! ref = Some cmd -> ID cmd = id -> pending s !! id = None ->
  let s' := (timeoutsFrom now grace ord (s, n)).1 in
  pending s' !! id = None /\ heap s' !! ref = Some cmd.
Proof.
  revert s n. induction ord as [|id0 ord IH]; intros s n Hs Hc Hi Hp; [done|].
  change (timeoutsFrom now grace (id0 :: ord) (s, n))
    with (timeoutsFrom now grace ord (timeoutClose now grace (s, n) id0)).
  pose proof (wf_timeoutClose now grace s n id0 Hs) as Hw.
  pose proof (timeoutClose_shape now grace s n id0) as Hsh.
  destruct (timeoutClose now grace (s, n) id0) as [s1 n1]. cbn in Hw.
  destruct Hsh as [(_ & _ & Hp' & ref0 & Hp0 & Hh)|(_ & _ & ->)]; [|by apply IH].
  apply IH; [done| |done|rewrite Hp'; apply lookup_delete_None; by right].
  rewrite Hh, lookup_alter_ne; [done|]. intros ->.
  destruct (wf_pending s Hs id0 ref Hp0) as (c & Hc0 & Hi0 & _). congruence.
Qed.

Lemma timeouts_each now grace ord s n id ref cmd :
  wf s -> NoDup ord -> id ∈ ord -> pending s !! id = Some ref -> heap s !! ref = Some cmd ->
  let s' := (timeoutsFrom now grace ord (s, n)).1 in
  pending s' !! id = (if windowElapsed now grace cmd then None else Some ref) /\
  heap s' !! ref = Some (if windowElapsed now grace cmd then expire now cmd else cmd).
Proof.
  revert s n. induction ord as [|id0 ord IH]; intros s n Hs HN Hin Hp Hc;
    [by apply elem_of_nil in Hin|].
  apply NoDup_cons in HN as [Hn0 HN].
  change (timeoutsFrom now grace (id0 :: ord) (s, n))
    with (timeoutsFrom now grace ord (timeoutClose now grace (s, n) id0)).
  pose proof (wf_timeoutClose now grace s n id0 Hs) as Hw.
  destruct (decide (id = id0)) as [<-|Hne].
  - pose proof (timeoutClose_shape now grace s n id) as Hsh.
    destruct (timeoutClose now grace (s, n) id) as [s1 n1].
    assert (overdue now grace s id = windowElapsed now grace cmd) as Ho
      by (unfold overdue; by rewrite Hp, Hc).
    rewrite Ho in Hsh. destruct Hsh as [(-> & _ & Hp' & ref0 & Hp0 & Hh)|(-> & _ & ->)].
    + assert (ref0 = ref) as -> by congruence.
      destruct (wf_pending s Hs id ref Hp) as (c & Hc0 & Hi0 & _).
      apply timeouts_closed; [done| |cbn; congruence|rewrite Hp'; apply lookup_delete_eq].
      by rewrite Hh, lookup_alter_eq, Hc.
    + by apply timeouts_skip.
  - apply elem_of_cons in Hin as [?|Hin]; [done|].
    destruct (timeoutClose_other now grace s n id0 id ref cmd Hs Hne Hp Hc) as [Hp' Hc'].
    destruct (timeoutClose now grace (s, n) id0) as [s1 n1]. by apply IH.
Qed.

Lemma timeouts_count now grace ord s n :
  wf s -> NoDup ord -> (forall id, id ∈ ord -> is_Some (pending s !! id)) ->
  (timeoutsFrom now grace ord (s, n)).2 = n + zlen (List.filter (overdue now grace s) ord).
Proof.
  revert s n. induction ord as [|id0 ord IH]; intros s n Hs HN Hall; [unfold zlen; cbn; lia|].
  apply NoDup_cons in HN as [Hn0 HN]. cbn [timeoutsFrom fold_left List.filter].
  pose proof (wf_timeoutClose now grace s n id0 Hs) as Hw.
  assert (forall id, id ∈ ord -> let s' := (timeoutClose now grace (s, n) id0).1 in
    is_Some (pending s' !! id) /\ overdue now grace s' id = overdue now grace s id) as Hsame.
  { intros id Hin. destruct (Hall id) as [ref Hp]; [by right|].
    destruct (wf_pending s Hs id ref Hp) as (cmd & Hc & _).
    destruct (timeoutClose_other now grace s n id0 id ref cmd Hs) as [Hp' Hc'];
      [by intros ->|done|done|].
    cbv zeta. split; [by exists ref|]. unfold overdue. by rewrite Hp', Hc', Hp, Hc. }
  pose proof (timeoutClose_shape now grace s n id0) as Hsh.
  destruct (timeoutClose now grace (s, n) id0) as [s1 n1]. cbn [fst] in *.
  unfold timeoutsFrom in IH. rewrite IH; [|done|done|intros; by apply Hsame].
  assert (List.filter (overdue now grace s1) ord = List.filter (overdue now grace s) ord) as ->.
  { apply filter_ext_in. intros id Hin%list_elem_of_In. by apply Hsame. }
  destruct Hsh as [(-> & -> & _)|(-> & -> & _)]; zlen_lia.
Qed.

(** ** Properties *)
Lemma wf_reachable `{U : Unicode} quote uuid es : wf (run quote uuid es NewService).
Proof. apply wf_events, wf_NewService. Qed.

Lemma ord_elem ord s id ref : ord ≡ₚ keys s -> pending s !! id = Some ref -> id ∈ ord.
Proof.
  intros -> Hp. unfold keys. apply list_elem_of_fmap. exists (id, ref).
  split; [done|]. by apply elem_of_map_to_list.
Qed.

Lemma ord_NoDup ord s : ord ≡ₚ keys s -> NoDup ord.
Proof. intros ->. apply NoDup_fst_map_to_list. Qed.

Lemma ord_is_Some ord s id : ord ≡ₚ keys s -> id ∈ ord -> is_Some (pending s !! id).
Proof.
  intros -> Hin. unfold keys in Hin. apply list_elem_of_fmap in Hin as ([i ref] & -> & Hin).
  exists ref. by apply elem_of_map_to_list.
Qed.

(** C31: what waits is open.  Under every interleaving of callers, goroutines,
    acknowledgements, timeouts and deletions, each entry of [pending] is a
    command under its own ID that is PENDING, SENT or RUNNING and not
    finished. *)
Theorem pending_open `{U : Unicode} quote uuid es id ref :
  let s := run quote uuid es NewService in
  pending s !! id = Some ref ->
  exists cmd, heap s !! ref = Some cmd /\ ID cmd = id /\
    Status cmd ∈ [StatusPending; StatusSent; StatusRunning] /\ FinishedAt cmd = None.
Proof.
  intros s Hp. destruct (wf_pending s (wf_reachable quote uuid es) id ref Hp)
    as (cmd & Hc & Hi & Ho%bool_decide_eq_true & Hf). by exists cmd.
Qed.

Definition scanning : list event :=
  [EWire true true; enqueueScan; ESendBegin 1 (3 * second); ESendFinish 0 (3 * second) true;
   EStructuredAck ["a"; "uuid-1"] ["a"; "uuid-1"] 5 "DEVICE_SCAN_ACK" "STARTED" "x" None].

Lemma pending_open_witness :
  pending (runs scanning NewService) !! "a" = Some 0 /\
  exists cmd, heap (runs scanning NewService) !! 0 = Some cmd /\ ID cmd = "a" /\
    Status cmd ∈ [StatusPending; StatusSent; StatusRunning] /\ FinishedAt cmd = None.
Proof.
  split; [vm_compute; reflexivity|].
  apply (@pending_open asciiUnicode anyQuote anyUUID scanning "a" 0).
  vm_compute. reflexivity.
Defined.

(** Nothing is sent twice, and nothing is retried.  No command is handed
    to the send function more than once, whatever happens; a command whose
    one transmission failed stays in [pending] with its status unless its
    retry limit is 1, and no later event sends it again, so the default limit
    of 3 is never reached. *)
Theorem failed_send_stranded `{U : Unicode} quote uuid es es' k now ref cmd :
  let s := run quote uuid es NewService in
  let s' := exec quote uuid (ESendFinish k now false) s in
  sending s !! k = Some ref -> heap s !! ref = Some cmd -> 2 <= MaxRetries cmd ->
  pending s !! ID cmd = Some ref ->
  pending s' !! ID cmd = Some ref /\
  heap s' !! ref = Some (set_RetryCount 1 cmd) /\
  (count_occ Z.eq_dec (transmitted (run quote uuid es' s')) ref <= 1)%nat.
Proof.
  intros s s' Hk Hc Hm Hp. pose proof (wf_reachable quote uuid es) as Hs. fold s in Hs.
  assert (RetryCount cmd = 0) as Hr.
  { destruct (wf_retry s Hs ref cmd Hc) as [?|(_ & _ & Hn)]; [done|].
    destruct Hn. by eapply list_elem_of_lookup_2. }
  assert (pending s' = pending s /\ heap s' = alter (sent now false) ref (heap s)) as [Hp' Hh'].
  { unfold s'. cbn [exec]. rewrite Hk. unfold send_finish. cbn [heap set_sending]. rewrite Hc.
    rewrite (proj2 (Z.leb_gt _ _)) by lia. rewrite andb_false_r. cbn [andb].
    cbn [pending heap goPersist set_persists].
    by rewrite heap_broadcast, pending_broadcast. }
  rewrite Hp', Hh', lookup_alter_eq, Hc. split; [done|split].
  - cbn. unfold sent. rewrite Hr. cbn. by rewrite (proj2 (Z.leb_gt _ _)) by lia.
  - pose proof (wf_events quote uuid es' s' (wf_event quote uuid _ s Hs)) as Hw.
    apply NoDup_count_occ, NoDup_ListNoDup. pose proof (wf_once _ Hw) as HN.
    by apply NoDup_app in HN as [HN _].
Qed.

Definition oneStatus : list event :=
  [EWire true true; EEnqueue 0 "a" 7 "STATUS" "null" "@HB01" "STATUS" [] "@HB01 STATUS";
   ESendBegin 0 0].

Lemma failed_send_stranded_witness :
  let s := runs oneStatus NewService in
  let s' := @exec asciiUnicode anyQuote anyUUID (ESendFinish 0 1 false) s in
  exists cmd, pending s' !! "a" = Some 0 /\ heap s' !! 0 = Some (set_RetryCount 1 cmd) /\
  (count_occ Z.eq_dec (transmitted (runs [ESendBegin 0 9] s')) 0%Z <= 1)%nat.
Proof.
  intros s s'. destruct (heap s !! 0) as [cmd|] eqn:E; [|by vm_compute in E]. exists cmd.
  assert (2 <= MaxRetries cmd /\ ID cmd = "a") as [Hm Hi]
    by (vm_compute in E; injection E as <-; split; [discriminate|reflexivity]).
  pose proof (@failed_send_stranded asciiUnicode anyQuote anyUUID oneStatus [ESendBegin 0 9] 0%nat 1 0 cmd)
    as H. cbv zeta in H. rewrite Hi in H. apply H; [reflexivity|exact E|exact Hm|reflexivity].
Defined.

(** C35: which command an acknowledgement updates.  Without a matching entry
    nothing changes.  Otherwise it is the latest created among the pending
    commands its kind covers by name, whatever their target and whichever
    node answers; it takes the status of the acknowledgement, stays in
    [pending] exactly when that is RUNNING, and no fan-out alters it. *)
Theorem ack_updates_latest `{U : Unicode} quote uuid es ord ord' now kind st node res :
  let s := run quote uuid es NewService in
  let s' := HandleStructuredACK quote uuid ord ord' now kind st node res s in
  ord ≡ₚ keys s ->
  match matched kind ord s with
  | None =>
      s' = s /\
      forall name id ref cmd, ACKMap !! kind = Some name -> pending s !! id = Some ref ->
        heap s !! ref = Some cmd -> covers kind name cmd = false
  | Some (id, ref, cmd) =>
      pending s !! id = Some ref /\ heap s !! ref = Some cmd /\
      (exists name, ACKMap !! kind = Some name /\ covers kind name cmd = true /\
         forall id' ref' cmd', pending s !! id' = Some ref' -> heap s !! ref' = Some cmd' ->
           covers kind name cmd' = true -> CreatedAt cmd' <= CreatedAt cmd) /\
      heap s' !! ref = Some (applyAck quote now kind st node res cmd) /\
      ((forall x, next s <= x -> uuid x <> id) ->
       pending s' !! id = if bool_decide (ackOutcome kind st = StatusRunning) then Some ref else None)
  end.
Proof.
  intros s s' Hord. pose proof (wf_reachable quote uuid es) as Hs. fold s in Hs.
  pose proof (matched_spec kind ord s) as Hm. unfold s', HandleStructuredACK.
  destruct (matched kind ord s) as [[[id ref] cmd]|].
  - destruct Hm as (name & Ha & _ & Hp & Hc & Hcov & Hmax).
    destruct (ackOne_spec quote uuid now kind st node res id ref cmd s Hs Hp Hc)
      as (Hh & Hn & Hpe & _). pose proof (wf_ackOne quote uuid now kind st node res id ref s Hs Hp).
    split; [done|split; [done|split; [|split]]].
    + exists name. split; [done|split; [done|]]. intros id' ref' cmd' Hp' ? ?.
      apply (Hmax id' ref'); [|done..]. by apply (ord_elem ord s id' ref').
    + by apply (fanOut_match quote uuid ord' now kind st node res name).
    + intros Hu. rewrite <- (Hpe Hu). apply fanOut_pending with (name := name) (node := node)
        (res := res) (cmd := cmd) (ref := ref); [done..| |].
      * rewrite (Hpe Hu). case_bool_decide; [by left|by right].
      * intros x Hx. apply Hu. lia.
  - split; [done|]. intros name id ref cmd Ha Hp Hc. destruct Hm as [?|(name' & Ha' & Hnone)];
      [congruence|]. assert (name' = name) as -> by congruence. apply (Hnone id ref); [|done..]. by apply (ord_elem ord s id ref).
Qed.

Definition twoStatus : list event :=
  [EWire true true;
   EEnqueue 0 "a" 7 "STATUS" "null" "@HB01" "STATUS" [] "@HB01 STATUS"; ESendBegin 0 0;
   ESendFinish 0 1 true;
   EEnqueue 2 "b" 8 "STATUS" "null" "@HB02" "STATUS" [] "@HB02 STATUS"; ESendBegin 0 2;
   ESendFinish 0 3 true].

(** The answer of HB01 closes the command sent to HB02. *)
Example answer_of_another_node :
  let s := runs (twoStatus ++ [EStructuredAck ["a"; "b"] ["a"; "b"] 9 "STATUS_ACK" "OK" "HB01" None])
             NewService in
  (statusAt 0 s, statusAt 1 s, Target <$> heap s !! 1, AckNode <$> heap s !! 1, map fst (map_to_list (pending s)))
  = (Some StatusSent, Some StatusOK, Some "@HB02", Some "HB01", ["a"]).
Proof. vm_compute. reflexivity. Qed.

Lemma ack_updates_latest_witness :
  let s := runs twoStatus NewService in
  let s' := @HandleStructuredACK asciiUnicode anyQuote anyUUID ["a"; "b"] ["a"; "b"] 9
              "STATUS_ACK" "OK" "HB01" None s in
  ["a"; "b"] ≡ₚ keys s /\
  match matched "STATUS_ACK" ["a"; "b"] s with
  | None =>
      s' = s /\
      forall name id ref cmd, ACKMap !! "STATUS_ACK" = Some name -> pending s !! id = Some ref ->
        heap s !! ref = Some cmd -> covers "STATUS_ACK" name cmd = false
  | Some (id, ref, cmd) =>
      pending s !! id = Some ref /\ heap s !! ref = Some cmd /\
      (exists name, ACKMap !! "STATUS_ACK" = Some name /\ covers "STATUS_ACK" name cmd = true /\
         forall id' ref' cmd', pending s !! id' = Some ref' -> heap s !! ref' = Some cmd' ->
           covers "STATUS_ACK" name cmd' = true -> CreatedAt cmd' <= CreatedAt cmd) /\
      heap s' !! ref
      = Some (@applyAck asciiUnicode anyQuote 9 "STATUS_ACK" "OK" "HB01" None cmd) /\
      ((forall x, next s <= x -> anyUUID x <> id) ->
       pending s' !! id
       = if bool_decide (@ackOutcome asciiUnicode "STATUS_ACK" "OK" = StatusRunning)
         then Some ref else None)
  end.
Proof.
  intros s s'. assert (["a"; "b"] ≡ₚ keys s) as Hord
    by (apply (bool_decide_unpack _); vm_compute; reflexivity).
  split; [exact Hord|].
  exact (@ack_updates_latest asciiUnicode anyQuote anyUUID twoStatus ["a"; "b"] ["a"; "b"] 9
           "STATUS_ACK" "OK" "HB01" None Hord).
Defined.

(** What a stop for [target] halts, in words: a running command of a scan
    class with that target, or with any target for a broadcast. *)
Definition Halts (target : string) (cmd : Command) : Prop :=
  Status cmd = StatusRunning /\
  (cmdName cmd ∈ ["SCAN_START"; "DEVICE_SCAN_START"; "BASELINE_START"; "DRONE_START";
                  "DEAUTH_START"; "RANDOMIZATION_START"; "PROBE_START"]) /\
  (target = "@ALL" \/ Target cmd = target).

Lemma halted_spec target cmd : halted target cmd = true <-> Halts target cmd.
Proof.
  unfold halted, Halts. rewrite !andb_true_iff, orb_true_iff, !bool_decide_eq_true.
  change scanClass with ["SCAN_START"; "DEVICE_SCAN_START"; "BASELINE_START"; "DRONE_START";
                         "DEAUTH_START"; "RANDOMIZATION_START"; "PROBE_START"].
  tauto.
Qed.

(** A stop acknowledgement closes the scans it halts.  When [STOP_ACK]
    matches a stop command for a target, no RUNNING scan-class command of
    that target (of any target for [@ALL]) is left in [pending]; each becomes
    OK with its detections finalised, and every other command is untouched.
    The status of the acknowledgement plays no part. *)
Theorem stop_ack_halts_scans `{U : Unicode} quote uuid es ord ord' now st node res id ref cmd :
  let s := run quote uuid es NewService in
  let s' := HandleStructuredACK quote uuid ord ord' now "STOP_ACK" st node res s in
  ord' ≡ₚ keys s -> matched "STOP_ACK" ord s = Some (id, ref, cmd) ->
  (forall id' ref' cmd', pending s' !! id' = Some ref' -> heap s' !! ref' = Some cmd' ->
     ~ Halts (Target cmd) cmd') /\
  (forall id' ref' cmd', id' <> id -> pending s !! id' = Some ref' -> heap s !! ref' = Some cmd' ->
     (forall x, next s <= x -> uuid x <> id') ->
     (Halts (Target cmd) cmd' -> heap s' !! ref' = Some (closedBy quote now cmd')) /\
     (~ Halts (Target cmd) cmd' -> heap s' !! ref' = Some cmd')).
Proof.
  intros s s' Hord Hm. pose proof (wf_reachable quote uuid es) as Hs. fold s in Hs.
  pose proof (matched_spec "STOP_ACK" ord s) as Hsp. unfold s', HandleStructuredACK.
  rewrite Hm in *. destruct Hsp as (name & Ha & _ & Hp & Hc & Hcov & _).
  destruct (ackOne_spec quote uuid now "STOP_ACK" st node res id ref cmd s Hs Hp Hc)
    as (_ & Hn & _ & Hother & Hlive).
  pose proof (wf_ackOne quote uuid now "STOP_ACK" st node res id ref s Hs Hp) as Hw.
  unfold fanOut. rewrite (bool_decide_false ("STOP_ACK" = "PROBE_ACK")) by done.
  rewrite (bool_decide_true ("STOP_ACK" = "STOP_ACK")) by done. cbn [andb]. split.
  - intros id' ref' cmd' Hp' Hc' Hh%halted_spec.
    destruct (stopClose_fold_live quote uuid now (Target cmd) ord' _ id' ref' cmd' Hw) as [Hl Hin];
      [by split|]. apply Hin. destruct (Hlive _ _ _ _ Hl) as [r Hr]. by apply (ord_elem ord' s id' r).
  - intros id' ref' cmd' Hne Hp' Hc' Hu. destruct (Hother id' ref' cmd' Hne Hp' Hc' Hu) as [Hp1 Hc1].
    rewrite (stopClose_fold_heap quote uuid now (Target cmd) ord' _ id' ref' cmd' Hw Hp1 Hc1);
      [|by apply (ord_elem ord' s id' ref')|intros x Hx; apply Hu; lia].
    rewrite <- halted_spec. by destruct (halted (Target cmd) cmd').
Qed.

Definition stopping : list event :=
  scanning ++
  [EEnqueue 9000000000 "z" 7 "STOP" "null" "@HB01" "STOP" [] "@HB01 STOP";
   ESendBegin 1 9000000000; ESendFinish 0 9000000000 true].

Lemma stop_ack_halts_scans_witness :
  let s := runs stopping NewService in
  let s' := @HandleStructuredACK asciiUnicode anyQuote anyUUID ["a"; "uuid-1"; "z"]
              ["a"; "uuid-1"; "z"] 9 "STOP_ACK" "OK" "x" None s in
  exists cmd, matched "STOP_ACK" ["a"; "uuid-1"; "z"] s = Some ("z", 2, cmd) /\
  (forall id' ref' cmd', pending s' !! id' = Some ref' -> heap s' !! ref' = Some cmd' ->
     ~ Halts (Target cmd) cmd') /\
  (forall id' ref' cmd', id' <> "z" -> pending s !! id' = Some ref' -> heap s !! ref' = Some cmd' ->
     (forall x, next s <= x -> anyUUID x <> id') ->
     (Halts (Target cmd) cmd' -> heap s' !! ref' = Some (closedBy anyQuote 9 cmd')) /\
     (~ Halts (Target cmd) cmd' -> heap s' !! ref' = Some cmd')).
Proof.
  intros s s'. destruct (matched "STOP_ACK" ["a"; "uuid-1"; "z"] s) as [[[id ref] cmd]|] eqn:E;
    [|by vm_compute in E].
  exists cmd. assert (id = "z" /\ ref = 2) as [-> ->] by (vm_compute in E; by injection E as <- <- <-).
  split; [done|]. apply (@stop_ack_halts_scans asciiUnicode anyQuote anyUUID stopping
    ["a"; "uuid-1"; "z"] ["a"; "uuid-1"; "z"] 9 "OK" "x" None "z" 2 cmd).
  - apply (bool_decide_unpack _). vm_compute. reflexivity.
  - exact E.
Defined.

(** An answer that is faster than the bookkeeping is lost.  When the
    acknowledgement of a command arrives between its transmission and the
    second critical section of [send], the command is closed and leaves
    [pending], and [send] then sets it back to SENT, where it stays. *)
Theorem late_send_reopens `{U : Unicode} quote uuid es ord ord' now now' kind st node res k id ref cmd :
  let s := run quote uuid es NewService in
  let s1 := HandleStructuredACK quote uuid ord ord' now kind st node res s in
  ord ≡ₚ keys s -> ord' ≡ₚ keys s ->
  matched kind ord s = Some (id, ref, cmd) -> ackOutcome kind st = StatusOK ->
  (forall x, next s <= x -> uuid x <> id) -> sending s1 !! k = Some ref ->
  let s2 := exec quote uuid (ESendFinish k now' true) s1 in
  Status <$> heap s1 !! ref = Some StatusOK /\ pending s1 !! id = None /\
  exists cmd', heap s2 !! ref = Some cmd' /\ Status cmd' = StatusSent /\
    AckedAt cmd' = Some now /\ FinishedAt cmd' = Some now /\ pending s2 !! id = None.
Proof.
  intros s s1 Hord Hord' Hm Hst Hu Hk. cbv zeta. pose proof (wf_reachable quote uuid es) as Hs. fold s in Hs.
  pose proof (matched_spec kind ord s) as Hsp. rewrite Hm in Hsp.
  destruct Hsp as (name & Ha & _ & Hp & Hc & Hcov & _).
  destruct (ackOne_spec quote uuid now kind st node res id ref cmd s Hs Hp Hc) as (Hh & Hn & Hpe & _).
  specialize (Hpe Hu). rewrite Hst, bool_decide_false in Hpe by done.
  pose proof (wf_ackOne quote uuid now kind st node res id ref s Hs Hp) as Hw.
  set (sa := ackOne quote uuid now kind st node res id ref s) in *.
  set (sf := fanOut quote uuid ord' now kind st (Target cmd) sa).
  assert (s1 = sf) as E1 by (unfold s1, HandleStructuredACK; by rewrite Hm).
  clearbody s1. subst s1.
  assert (heap sf !! ref = Some (applyAck quote now kind st node res cmd)) as Hf
    by by apply (fanOut_match quote uuid ord' now kind st node res name).
  assert (pending sf !! id = None) as Hpf.
  { rewrite <- Hpe. apply (fanOut_pending quote uuid ord' now kind st node res name (Target cmd) cmd id ref);
      [done..|by right|]. intros x Hx. apply Hu. lia. }
  split; [|split; [done|]].
  - rewrite Hf. cbn. by rewrite (proj2 (applyAck_name quote now kind st node res cmd)), Hst.
  - exists (sent now' true (applyAck quote now kind st node res cmd)).
    assert (let s2 := exec quote uuid (ESendFinish k now' true) sf in
      heap s2 !! ref = Some (sent now' true (applyAck quote now kind st node res cmd)) /\
      pending s2 !! id = None) as [Hh2 Hp2].
    { cbn [exec]. rewrite Hk. unfold send_finish. cbn [heap set_sending]. rewrite Hf.
      cbn [heap pending goPersist set_persists]. clear - Hf Hpf.
      destruct (_ && _); cbn [heap pending emit set_trace]; rewrite heap_broadcast, pending_broadcast;
        cbn [heap pending set_nodeRate set_sending update set_heap]; by rewrite lookup_alter_eq, Hf. }
    split; [done|]. split; [done|].
    destruct (applyAck_times quote now kind st node res cmd) as [Hack Hfin]; [by rewrite Hst|].
    by split.
Qed.

Lemma late_send_reopens_witness :
  let s := runs oneStatus NewService in
  let s1 := @HandleStructuredACK asciiUnicode anyQuote anyUUID ["a"] ["a"] 5 "STATUS_ACK" "OK" "x"
              None s in
  let s2 := @exec asciiUnicode anyQuote anyUUID (ESendFinish 0 6 true) s1 in
  Status <$> heap s1 !! 0 = Some StatusOK /\ pending s1 !! "a" = None /\
  exists cmd', heap s2 !! 0 = Some cmd' /\ Status cmd' = StatusSent /\
    AckedAt cmd' = Some 5 /\ FinishedAt cmd' = Some 5 /\ pending s2 !! "a" = None.
Proof.
  intros s s1 s2. destruct (matched "STATUS_ACK" ["a"] s) as [[[id ref] cmd]|] eqn:E;
    [|by vm_compute in E].
  assert (id = "a" /\ ref = 0) as [-> ->] by (vm_compute in E; by injection E as <- <- <-).
  apply (@late_send_reopens asciiUnicode anyQuote anyUUID oneStatus ["a"] ["a"] 5 6 "STATUS_ACK" "OK"
    "x" None 0%nat "a" 0 cmd).
  - apply (bool_decide_unpack _). vm_compute. reflexivity.
  - apply (bool_decide_unpack _). vm_compute. reflexivity.
  - exact E.
  - vm_compute. reflexivity.
  - intros x _ H. unfold anyUUID in H. discriminate H.
  - vm_compute. reflexivity.
Defined.

(** When a command is accepted.  [Enqueue] refuses exactly when the last
    transmission to the node is less than two seconds old, and then changes
    nothing.  Otherwise the command is PENDING under its ID, one [send] is
    scheduled, for a device scan three seconds after the [RAW_BLE_ON] that
    precedes it, and the rate limiter is as before, so any number of
    commands is accepted until a transmission has finished. *)
Theorem enqueue_outcomes `{U : Unicode} quote uuid es now cmd :
  let s := run quote uuid es NewService in
  let '(s', err) := Enqueue uuid now cmd s in
  (err = Some ErrRateLimited /\ s' = s /\
   exists last, nodeRate s !! TargetNode cmd = Some last /\ now - last < 2 * second) \/
  (err = None /\ nodeRate s' = nodeRate s /\
   (forall last, nodeRate s !! TargetNode cmd = Some last -> 2 * second <= now - last) /\
   (uuid (next s + 1) <> ID cmd -> pending s' !! ID cmd = Some (next s)) /\
   (exists queued, heap s' !! next s = Some queued /\ ID queued = ID cmd /\ Line queued = Line cmd /\
      Status queued = StatusPending /\ CreatedAt queued = now /\ MaxRetries queued <> 0 /\
      autoRawAttached queued = (autoRawAttached cmd || bool_decide (Name cmd = "DEVICE_SCAN_START"))) /\
   sends s' = sends s ++
     (if bool_decide (Name cmd = "DEVICE_SCAN_START")
      then [(next s + 1, now); (next s, now + autoAttachDelay)] else [(next s, now)])).
Proof.
  intros s. unfold Enqueue. destruct (rateLimited now (TargetNode cmd) s) eqn:Hr.
  { left. split; [done|split; [done|]]. unfold rateLimited in Hr.
    destruct (nodeRate s !! TargetNode cmd) as [last|]; [|done]. exists last.
    split; [done|]. by apply Z.ltb_lt. }
  set (c := if MaxRetries (set_CreatedAt now (set_Status StatusPending cmd)) =? 0
            then set_MaxRetries 3 (set_CreatedAt now (set_Status StatusPending cmd))
            else set_CreatedAt now (set_Status StatusPending cmd)).
  assert (ID c = ID cmd /\ Line c = Line cmd /\ Name c = Name cmd /\ Status c = StatusPending /\
          CreatedAt c = now /\ MaxRetries c <> 0 /\ autoRawAttached c = autoRawAttached cmd)
    as (Hi & Hl & Hn & Hst & Hcr & Hm & Hau).
  { unfold c. destruct (MaxRetries _ =? 0) eqn:E; [by repeat split|]. apply Z.eqb_neq in E.
    by repeat split. }
  clearbody c. rewrite Hn.
  assert (forall last, nodeRate s !! TargetNode cmd = Some last -> 2 * second <= now - last) as Hrate.
  { intros last Hlast. unfold rateLimited in Hr. rewrite Hlast in Hr. by apply Z.ltb_ge. }
  case_bool_decide as Hname.
  - unfold enqueuePrecedingRawBLEOnLocked. cbn [update heap set_heap allocate set_pending set_next].
    rewrite lookup_alter_eq, lookup_insert_eq. cbn [fmap option_fmap option_map]. right.
    split; [done|split; [done|split; [done|]]].
    cbn [pending heap sends next goSend set_sends allocate set_pending set_next set_heap ID attached
         set_MaxRetries set_CreatedAt newCommand].
    split; [|split].
    + intros Hu. rewrite lookup_insert_ne by done.
      cbn [update pending allocate set_heap set_pending set_next].
      by rewrite Hi, lookup_insert_eq.
    + rewrite lookup_insert_ne by (cbn; lia).
      cbn [update heap allocate set_heap set_pending set_next]. rewrite lookup_alter_eq, lookup_insert_eq. cbn.
      eexists. split; [reflexivity|]. cbn. by rewrite orb_true_r.
    + by rewrite <- app_assoc.
  - right. split; [done|split; [done|split; [done|split; [|split; [|done]]]]].
    + intros _. cbn. by rewrite Hi, lookup_insert_eq.
    + exists c. cbn. rewrite lookup_insert_eq, orb_false_r. by repeat split.
Qed.

(** The window of a probe scan is over: it is running, was sent, does not run
    for ever, and its duration in seconds and the grace have passed since. *)
Definition Elapsed (now grace : Z) (cmd : Command) : Prop :=
  cmdName cmd = "PROBE_START" /\ Status cmd = StatusRunning /\
  (forall p, p ∈ Params cmd -> smap upperASCII (TrimSpace p) <> "FOREVER") /\
  exists sentAt mode duration rest sec,
    SentAt cmd = Some sentAt /\ Params cmd = mode :: duration :: rest /\
    Atoi (TrimSpace duration) = Some sec /\ 0 < sec /\
    int64 (int64 (sec * 1000000000) + grace) <= now - sentAt.

Lemma windowElapsed_spec now grace cmd : windowElapsed now grace cmd = true <-> Elapsed now grace cmd.
Proof.
  unfold windowElapsed, Elapsed, second. rewrite !andb_true_iff, !bool_decide_eq_true.
  assert (negb (existsb isForever (Params cmd)) = true <->
    (forall p, p ∈ Params cmd -> smap upperASCII (TrimSpace p) <> "FOREVER")) as Hf.
  { rewrite negb_true_iff, <- not_true_iff_false, existsb_exists. unfold isForever.
    setoid_rewrite bool_decide_eq_true. setoid_rewrite <- list_elem_of_In. naive_solver. }
  destruct (SentAt cmd) as [sentAt|]; [|naive_solver].
  rewrite andb_true_iff, Hf.
  destruct (Params cmd) as [|mode [|duration rest]]; [naive_solver..|].
  destruct (Atoi (TrimSpace duration)) as [sec|] eqn:Ha; [|naive_solver].
  rewrite andb_true_iff, negb_true_iff, Z.ltb_lt, Z.ltb_ge. split.
  - intros ([Hn Hr] & Hnf & Hs & Hle). repeat (split; [done|]).
    by exists sentAt, mode, duration, rest, sec.
  - intros (Hn & Hr & Hnf & sa & mo & du & re & se & [= <-] & [= <- <- <-] & Ha' & Hs & Hle).
    rewrite Ha in Ha'. injection Ha' as <-. done.
Qed.

(** The watchdog closes exactly the probe scans whose window is over.
    Every pending command whose window and grace have elapsed becomes OK with
    the reason and leaves [pending], every other stays as it is, and the
    number returned is that of the commands closed. *)
Theorem timeouts_exact `{U : Unicode} quote uuid es ord now grace :
  let s := run quote uuid es NewService in
  let '(s', closed) := EnforceScanTimeouts ord now grace s in
  ord ≡ₚ keys s ->
  closed = zlen (List.filter (overdue now grace s) ord) /\
  forall id ref cmd, pending s !! id = Some ref -> heap s !! ref = Some cmd ->
    (Elapsed now grace cmd -> pending s' !! id = None /\ heap s' !! ref = Some (expire now cmd)) /\
    (~ Elapsed now grace cmd -> pending s' !! id = Some ref /\ heap s' !! ref = Some cmd).
Proof.
  intros s. destruct (EnforceScanTimeouts ord now grace s) as [s' closed] eqn:E. intros Hord.
  pose proof (wf_reachable quote uuid es) as Hs. fold s in Hs.
  assert (timeoutsFrom now grace ord (s, 0) = (s', closed)) as E' by exact E. split.
  - change closed with (s', closed).2. rewrite <- E'.
    rewrite timeouts_count; [lia|done|by apply (ord_NoDup ord s)|].
    intros id Hin. by apply (ord_is_Some ord s).
  - intros id ref cmd Hp Hc. change s' with (s', closed).1. rewrite <- E'.
    destruct (timeouts_each now grace ord s 0 id ref cmd Hs (ord_NoDup ord s Hord)
      (ord_elem ord s id ref Hord Hp) Hp Hc) as [-> ->].
    rewrite <- windowElapsed_spec. by destruct (windowElapsed now grace cmd).
Qed.

Definition probing : list event :=
  [EWire true true;
   EEnqueue 0 "p" 7 "PROBE_START" "null" "@HB01" "PROBE_START" ["0"; "60"] "@HB01 PROBE_START:0:60";
   ESendBegin 0 0; ESendFinish 0 1 true;
   EStructuredAck ["p"] ["p"] 2 "PROBE_ACK" "STARTED" "x" None].

Lemma timeouts_exact_witness :
  let s := runs probing NewService in
  let '(s', closed) := EnforceScanTimeouts ["p"] (66 * second) (5 * second) s in
  closed = zlen (List.filter (overdue (66 * second) (5 * second) s) ["p"]) /\
  forall id ref cmd, pending s !! id = Some ref -> heap s !! ref = Some cmd ->
    (Elapsed (66 * second) (5 * second) cmd ->
     pending s' !! id = None /\ heap s' !! ref = Some (expire (66 * second) cmd)) /\
    (~ Elapsed (66 * second) (5 * second) cmd ->
     pending s' !! id = Some ref /\ heap s' !! ref = Some cmd).
Proof.
  cbv zeta. pose proof (@timeouts_exact asciiUnicode anyQuote anyUUID probing ["p"] (66 * second) (5 * second))
    as H. cbv zeta in H. fold (runs probing NewService) in H.
  destruct (EnforceScanTimeouts ["p"] (66 * second) (5 * second) (runs probing NewService)) as [s' n].
  apply H. apply (bool_decide_unpack _). vm_compute. reflexivity.
Defined.

(** A fractional duration passes the builder and is never timed out. *)
Lemma fractional_duration_never_elapses now grace cmd :
  Params cmd = ["0"; "1.5"] -> windowElapsed now grace cmd = false.
Proof.
  intros Hp. unfold windowElapsed. rewrite Hp.
  assert (Atoi (TrimSpace "1.5") = None) as -> by (vm_compute; reflexivity).
  destruct (SentAt cmd); by rewrite ?andb_false_r.
Qed.

Lemma fractional_duration_built :
  lineOf (build "@HB01" "PROBE_START" ["0"; "1.5"] false) = Some "@HB01 PROBE_START:0:1.5".
Proof. vm_compute. reflexivity. Qed.

(** Any number of commands at one instant passes the rate limiter. *)
Lemma rate_limit_burst uuid now cmds s :
  (forall cmd, cmd ∈ cmds -> rateLimited now (TargetNode cmd) s = false) ->
  forall pre cmd post, cmds = pre ++ cmd :: post ->
  (Enqueue uuid now cmd (fold_left (fun s c => (Enqueue uuid now c s).1) pre s)).2 = None.
Proof.
  intros Hall pre cmd post ->.
  assert (forall c s, nodeRate (Enqueue uuid now c s).1 = nodeRate s) as Hk.
  { intros c s0. unfold Enqueue. destruct (rateLimited _ _ _); [done|].
    destruct (bool_decide _); [|done]. unfold enqueuePrecedingRawBLEOnLocked.
    by destruct (heap _ !! _). }
  assert (forall l s0, nodeRate (fold_left (fun s c => (Enqueue uuid now c s).1) l s0) = nodeRate s0) as Hf.
  { induction l as [|c l IH]; intros s0; [done|]. cbn. by rewrite IH, Hk. }
  unfold Enqueue. assert (rateLimited now (TargetNode cmd)
    (fold_left (fun s c => (Enqueue uuid now c s).1) pre s) = false) as Hr.
  { unfold rateLimited. rewrite Hf. apply (Hall cmd). apply elem_of_app. right. by left. }
  unfold Enqueue in Hr. rewrite Hr. by destruct (bool_decide _).
Qed.
