(* ===== verification/FloatFacts.v ===== *)
(** Facts about [float64] arithmetic on coordinates: differences of bounded
    floats are finite, differences of distinct ones are not zero, and the
    comparison is a strict order. *)
From Stdlib Require Import Floats.SpecFloat.
From S2P Require Import Prelude GoFloat GoFloat32.

(** ** Definitions *)
Definition float_add : spec_float -> spec_float -> spec_float := SFadd prec64 emax64.
Definition float_sub : spec_float -> spec_float -> spec_float := SFsub prec64 emax64.
Definition float_mul : spec_float -> spec_float -> spec_float := SFmul prec64 emax64.
Definition float_div : spec_float -> spec_float -> spec_float := SFdiv prec64 emax64.

(** A number as an angle in degrees has: the representation is the canonical
    one and the magnitude below 1024. *)
Definition coordinate (x : spec_float) : bool :=
  valid_binary prec64 emax64 x && SFltb (SFabs x) (floatZ 1024).

(** ** Lemmas *)

(** *** Digits *)
Lemma digits_log2 m : Z.pos (digits2_pos m) = Z.log2 (Z.pos m) + 1.
Proof.
  induction m as [m IH|m IH|]; cbn [digits2_pos]; [| |reflexivity]; rewrite Pos2Z.inj_succ, IH.
  - rewrite Pos2Z.inj_xI, Z.log2_succ_double by lia. lia.
  - rewrite Pos2Z.inj_xO, Z.log2_double by lia. lia.
Qed.

Definition digits (m : Z) : Z := if m =? 0 then 0 else Z.log2 m + 1.

Lemma Zdigits2_digits m : 0 <= m -> Zdigits2 m = digits m.
Proof. intros Hm. destruct m as [|p|p]; [reflexivity|apply digits_log2|lia]. Qed.

Lemma digits_nonneg m : 0 <= digits m.
Proof. unfold digits. destruct (m =? 0); [lia|]. pose proof (Z.log2_nonneg m). lia. Qed.

Lemma digits_pos m : 0 < m -> digits m = Z.log2 m + 1.
Proof. intros Hm. unfold digits. destruct (Z.eqb_spec m 0); lia. Qed.

Lemma digits_le m d : 0 <= m -> 0 <= d -> digits m <= d <-> m < 2 ^ d.
Proof.
  intros Hm Hd. unfold digits. destruct (Z.eqb_spec m 0) as [->|].
  - split; intros; [apply Z.pow_pos_nonneg; lia|done].
  - rewrite Z.log2_lt_pow2 by lia. lia.
Qed.

Lemma digits_shiftr m n : 0 <= m -> 0 <= n -> digits (m / 2 ^ n) = Z.max 0 (digits m - n).
Proof.
  intros Hm Hn. rewrite <- Z.shiftr_div_pow2 by done. unfold digits at 2.
  destruct (Z.eqb_spec m 0) as [->|]; [rewrite Z.shiftr_0_l; cbn; lia|].
  destruct (Z.le_gt_cases n (Z.log2 m)).
  - assert (0 < Z.shiftr m n).
    { pose proof (Z.shiftr_nonneg m n). pose proof (Z.shiftr_eq_0_iff m n) as He.
      assert (Z.shiftr m n <> 0) by (intros [?|[? ?]]%He; lia). lia. }
    rewrite digits_pos, Z.log2_shiftr by lia. lia.
  - rewrite Z.shiftr_eq_0 by lia. cbn. lia.
Qed.

Lemma digits_shiftl m n : 0 < m -> 0 <= n -> digits (m * 2 ^ n) = digits m + n.
Proof.
  intros Hm Hn. assert (0 < 2 ^ n) by (apply Z.pow_pos_nonneg; lia).
  rewrite !digits_pos by nia. rewrite Z.log2_mul_pow2 by lia. lia.
Qed.

Lemma digits_succ m : 0 <= m -> digits m <= digits (m + 1) <= digits m + 1.
Proof.
  intros Hm. pose proof (digits_nonneg m). split.
  - unfold digits. destruct (Z.eqb_spec m 0) as [->|]; [by vm_compute|]. destruct (Z.eqb_spec (m + 1) 0); [lia|].
    pose proof (Z.log2_le_mono m (m + 1) ltac:(lia)). lia.
  - rewrite digits_le by lia. assert (m < 2 ^ digits m) by (apply digits_le; lia).
    rewrite Z.pow_add_r by lia. lia.
Qed.

(** *** Rounding *)
Lemma shr_m_iter p mrs :
  0 <= shr_m mrs -> shr_m (SpecFloat.iter_pos shr_1 p mrs) = shr_m mrs / 2 ^ Z.pos p.
Proof.
  assert (Hone : forall mrs, 0 <= shr_m mrs -> shr_m (shr_1 mrs) = shr_m mrs / 2).
  { intros [m r s] Hm. cbn in Hm |- *. destruct m as [|[p'|p'|]|p']; try lia; try reflexivity; cbn [shr_m].
    - rewrite Pos2Z.inj_xI. Z.div_mod_to_equations. lia.
    - rewrite Pos2Z.inj_xO. Z.div_mod_to_equations. lia. }
  assert (Hpow : forall n m : Z, 0 <= n -> m / 2 ^ n / 2 ^ n = m / 2 ^ (2 * n)).
  { intros n m Hn. rewrite Z.div_div by (try apply Z.pow_pos_nonneg; lia). rewrite <- Z.pow_add_r by lia. f_equal. f_equal. lia. }
  revert mrs. induction p as [p IH|p IH|]; intros mrs Hm; cbn [SpecFloat.iter_pos].
  - assert (H1 : 0 <= shr_m mrs / 2) by (apply Z.div_pos; lia).
    assert (H2 : 0 <= shr_m mrs / 2 / 2 ^ Z.pos p) by (apply Z.div_pos; [done|apply Z.pow_pos_nonneg; lia]).
    rewrite !IH, Hone, Hpow by (rewrite ?IH, ?Hone; rewrite ?Hone; lia).
    rewrite Z.div_div by (try apply Z.pow_pos_nonneg; lia). f_equal.
  - assert (H2 : 0 <= shr_m mrs / 2 ^ Z.pos p) by (apply Z.div_pos; [done|apply Z.pow_pos_nonneg; lia]).
    rewrite !IH, Hpow by (rewrite ?IH; lia). by rewrite Pos2Z.inj_xO.
  - by apply Hone.
Qed.

Definition shift (m e : Z) : Z := Z.max 0 (fexp prec64 emax64 (digits m + e) - e).

Lemma shr_fexp_spec m e l :
  0 <= m -> shr_m (shr_fexp prec64 emax64 m e l).1 = m / 2 ^ shift m e /\
            (shr_fexp prec64 emax64 m e l).2 = e + shift m e.
Proof.
  intros Hm. unfold shr_fexp, shift. rewrite Zdigits2_digits by done.
  assert (Hl : shr_m (shr_record_of_loc m l) = m) by (destruct l as [|[]]; reflexivity).
  destruct (fexp prec64 emax64 (digits m + e) - e) as [|p|p] eqn:Hn; cbn [shr fst snd].
  - rewrite Hl. cbn. rewrite Z.div_1_r. lia.
  - rewrite shr_m_iter by (rewrite Hl; lia). rewrite Hl. split; [f_equal; f_equal; lia|lia].
  - rewrite Hl. cbn. rewrite Z.div_1_r. lia.
Qed.

Lemma round_bounds m l : m <= round_nearest_even m l <= m + 1.
Proof. destruct l as [|[]]; cbn; try lia. destruct (Z.even m); lia. Qed.

(** The mantissa and exponent before the last test of the exponent. *)
Lemma round_aux_spec s m e l :
  0 <= m -> exists m1 m2,
    m / 2 ^ shift m e <= m1 <= m / 2 ^ shift m e + 1 /\
    m2 = m1 / 2 ^ shift m1 (e + shift m e) /\
    binary_round_aux prec64 emax64 s m e l =
      match m2 with
      | 0 => S754_zero s
      | Zpos p => if e + shift m e + shift m1 (e + shift m e) <=? emax64 - prec64
                  then S754_finite s p (e + shift m e + shift m1 (e + shift m e)) else S754_infinity s
      | Zneg _ => S754_nan
      end.
Proof.
  intros Hm. unfold binary_round_aux. pose proof (shr_fexp_spec m e l Hm) as [H1 H2].
  destruct (shr_fexp prec64 emax64 m e l) as [mrs e1]. cbn [fst snd] in H1, H2. subst e1.
  set (m1 := round_nearest_even (shr_m mrs) (loc_of_shr_record mrs)).
  assert (Hb : m / 2 ^ shift m e <= m1 <= m / 2 ^ shift m e + 1) by (subst m1; rewrite <- H1; apply round_bounds).
  assert (0 <= m / 2 ^ shift m e) by (apply Z.div_pos; [done|apply Z.pow_pos_nonneg; unfold shift; lia]).
  pose proof (shr_fexp_spec m1 (e + shift m e) loc_Exact ltac:(lia)) as [H3 H4].
  destruct (shr_fexp prec64 emax64 m1 _ _) as [mrs2 e2]. cbn [fst snd] in H3, H4. subst e2.
  exists m1, (shr_m mrs2). by rewrite H3.
Qed.

Lemma shift_digits m e n :
  0 <= m -> n = shift m e -> digits (m / 2 ^ n) + (e + n) <= Z.max (digits m + e) (e + n).
Proof. intros Hm ->. rewrite digits_shiftr by (unfold shift; lia). lia. Qed.

Lemma round_aux_finite s m e l :
  0 <= m -> digits m + e <= 900 -> e <= 900 ->
  finite64 (binary_round_aux prec64 emax64 s m e l) = true /\
  (0 < m -> -1074 <= e -> isZero64 (binary_round_aux prec64 emax64 s m e l) = false).
Proof.
  intros Hm Hd He. destruct (round_aux_spec s m e l Hm) as (m1 & m2 & Hm1 & Hm2 & ->).
  set (n := shift m e) in *. set (k := shift m1 (e + n)) in *.
  assert (Hn : 0 <= n) by (subst n; unfold shift; lia). assert (Hk : 0 <= k) by (subst k; unfold shift; lia).
  assert (0 < 2 ^ n) by (apply Z.pow_pos_nonneg; lia). assert (0 < 2 ^ k) by (apply Z.pow_pos_nonneg; lia).
  assert (Hq : 0 <= m / 2 ^ n) by (apply Z.div_pos; lia).
  pose proof (shift_digits m e n Hm eq_refl) as Hsd.
  pose proof (digits_succ (m / 2 ^ n) Hq) as Hs.
  assert (Hm1d : digits (m / 2 ^ n) <= digits m1 <= digits (m / 2 ^ n) + 1).
  { assert (m1 = m / 2 ^ n \/ m1 = m / 2 ^ n + 1) as [-> | ->] by lia; lia. }
  assert (Hen : e + n <= 900).
  { subst n. unfold shift, fexp, emin, prec64, emax64. lia. }
  assert (Hek : e + n + k <= 901).
  { subst k. unfold shift, fexp, emin, prec64, emax64. lia. }
  assert (Hm2n : 0 <= m2) by (subst m2; apply Z.div_pos; lia).
  split.
  - destruct m2; [done| |lia]. destruct (Z.leb_spec (e + n + k) (emax64 - prec64)); [done|]. unfold emax64, prec64 in *. lia.
  - intros Hm0 He0. assert (m2 <> 0) as Hm20; [|destruct m2; [done| |lia]; by destruct (_ <=? _)].
    pose proof (digits_pos m Hm0). pose proof (Z.log2_nonneg m).
    assert (Hdn : 0 < digits (m / 2 ^ n)).
    { rewrite digits_shiftr by lia. subst n. unfold shift, fexp, emin, prec64, emax64. lia. }
    assert (Hdk : 0 < digits m2).
    { subst m2. rewrite digits_shiftr by lia. subst k. unfold shift, fexp, emin, prec64, emax64. lia. }
    intros ->. cbn in Hdk. lia.
Qed.

(** *** Alignment *)
Lemma iter_xO m d : Z.pos (Pos.iter xO m d) = Z.pos m * 2 ^ Z.pos d.
Proof.
  induction d as [|d IH] using Pos.peano_ind; [cbn; lia|].
  rewrite Pos.iter_succ, Pos2Z.inj_xO, IH, Pos2Z.inj_succ, Z.pow_succ_r by lia. lia.
Qed.

Lemma shl_align_spec m e e' :
  Z.pos (shl_align m e e').1 = Z.pos m * 2 ^ Z.max 0 (e - e') /\ (shl_align m e e').2 = Z.min e e'.
Proof.
  unfold shl_align. destruct (e' - e) as [|d|d] eqn:Hd; cbn [fst snd].
  - replace (Z.max 0 (e - e')) with 0 by lia. lia.
  - replace (Z.max 0 (e - e')) with 0 by lia. lia.
  - rewrite iter_xO. split; [do 2 f_equal; lia|lia].
Qed.

Lemma normalize_finite m e s :
  digits (Z.abs m) + e <= 900 -> e <= 900 ->
  finite64 (binary_normalize prec64 emax64 m e s) = true /\
  (m <> 0 -> -1074 <= e -> isZero64 (binary_normalize prec64 emax64 m e s) = false).
Proof.
  assert (Hp : forall sg p, digits (Z.pos p) + e <= 900 -> e <= 900 ->
    finite64 (binary_round prec64 emax64 sg p e) = true /\
    (-1074 <= e -> isZero64 (binary_round prec64 emax64 sg p e) = false)).
  { intros sg p Hd He. unfold binary_round. rewrite digits_log2, <- digits_pos by lia.
    set (f := fexp prec64 emax64 (digits (Z.pos p) + e)).
    destruct (shl_align_spec p e f) as [H1 H2]. destruct (shl_align p e f) as [mz ez]. cbn [fst snd] in *. subst ez.
    assert (Hdz : digits (Z.pos mz) = digits (Z.pos p) + Z.max 0 (e - f)) by (rewrite H1; apply digits_shiftl; lia).
    destruct (round_aux_finite sg (Z.pos mz) (Z.min e f) loc_Exact) as [Hf Hz]; [lia..|]. split; [done|].
    intros He0. apply Hz; [lia|]. subst f. unfold fexp, emin, prec64, emax64. lia. }
  intros Hd He. destruct m as [|p|p]; [by split| |]; destruct (Hp false p Hd He), (Hp true p Hd He); split; auto.
Qed.

(** *** Coordinates *)
Lemma compare_cont_eq m n : PosDef.Pos.compare_cont Eq m n = Pos.compare m n.
Proof. reflexivity. Qed.

Lemma canonical_max s m e :
  coordinate (S754_finite s m e) = true ->
  fexp prec64 emax64 (digits (Z.pos m) + e) = e /\ digits (Z.pos m) + e <= 10 /\ -1074 <= e <= 10.
Proof.
  unfold coordinate. intros [Hv Hlt]%andb_true_iff. cbn [valid_binary] in Hv. unfold bounded, canonical_mantissa in Hv.
  apply andb_true_iff in Hv as [Hc%Z.eqb_eq _]. rewrite digits_log2, <- digits_pos in Hc by lia.
  split; [done|]. change (floatZ 1024) with (S754_finite false 4503599627370496 (-42)) in Hlt.
  assert (Hmd : digits (Z.pos m) <= 53 -> e <= -42 -> (e = -42 -> Z.pos m < 4503599627370496) -> 
                digits (Z.pos m) + e <= 10 /\ -1074 <= e <= 10).
  { intros H1 H2 H3. unfold fexp, emin, prec64, emax64 in Hc. destruct (decide (e = -42)) as [->|]; [|lia].
    specialize (H3 eq_refl). assert (digits (Z.pos m) <= 52) by (apply digits_le; lia). lia. }
  unfold SFltb, SFcompare, SFabs in Hlt.
  assert (Hd53 : digits (Z.pos m) <= 53) by (unfold fexp, emin, prec64, emax64 in Hc; lia).
  destruct (Z.compare_spec e (-42)) as [->| |]; [|apply Hmd; lia|done].
  apply Hmd; [done|lia|]. intros _. rewrite compare_cont_eq in Hlt.
  destruct (Pos.compare_spec m 4503599627370496); [discriminate Hlt|by apply Pos2Z.pos_lt_pos|discriminate Hlt].
Qed.

Lemma coordinate_finite x : coordinate x = true -> finite64 x = true.
Proof. by destruct x as [|[]| |]. Qed.

Definition signed (s : bool) (m : Z) : Z := if s then - m else m.

Lemma aligned_bound s m e k :
  coordinate (S754_finite s m e) = true -> k <= e -> -1074 <= k -> Z.pos m * 2 ^ (e - k) < 2 ^ (10 - k).
Proof.
  intros (_ & Hd & He)%canonical_max Hk Hk0.
  assert (Z.pos m < 2 ^ digits (Z.pos m)) by (apply digits_le; [lia|apply digits_nonneg|lia]).
  assert (0 < 2 ^ (e - k)) by (apply Z.pow_pos_nonneg; lia).
  apply Z.lt_le_trans with (2 ^ digits (Z.pos m) * 2 ^ (e - k)); [nia|].
  rewrite <- Z.pow_add_r by (try apply digits_nonneg; lia). apply Z.pow_le_mono_r; lia.
Qed.

(** The representation of a number is unique. *)
Lemma aligned_inj s1 m1 e1 s2 m2 e2 k :
  coordinate (S754_finite s1 m1 e1) = true -> coordinate (S754_finite s2 m2 e2) = true ->
  k <= e1 -> k <= e2 -> signed s1 (Z.pos m1 * 2 ^ (e1 - k)) = signed s2 (Z.pos m2 * 2 ^ (e2 - k)) ->
  S754_finite s1 m1 e1 = S754_finite s2 m2 e2.
Proof.
  intros (Hf1 & _)%canonical_max (Hf2 & _)%canonical_max H1 H2 Heq.
  assert (0 < 2 ^ (e1 - k)) by (apply Z.pow_pos_nonneg; lia).
  assert (0 < 2 ^ (e2 - k)) by (apply Z.pow_pos_nonneg; lia).
  assert (Hp : Z.pos m1 * 2 ^ (e1 - k) = Z.pos m2 * 2 ^ (e2 - k) /\ s1 = s2).
  { unfold signed in Heq. destruct s1, s2; split; try done; nia. }
  destruct Hp as [Hp ->]. assert (Hd : digits (Z.pos m1) + (e1 - k) = digits (Z.pos m2) + (e2 - k)).
  { rewrite <- !digits_shiftl by lia. by rewrite Hp. }
  assert (e1 = e2) as -> by (rewrite <- Hf1, <- Hf2; f_equal; lia).
  assert (Z.pos m1 = Z.pos m2) as [= ->] by nia. done.
Qed.

Lemma sub_finite x y :
  coordinate x = true -> coordinate y = true ->
  finite64 (float_sub x y) = true /\ (SFeqb x y = false -> isZero64 (float_sub x y) = false).
Proof.
  intros Hx Hy. pose proof (coordinate_finite _ Hx). pose proof (coordinate_finite _ Hy).
  destruct x as [[]| | |s1 m1 e1], y as [[]| | |s2 m2 e2]; try done. unfold float_sub, SFsub.
  pose proof (canonical_max _ _ _ Hx) as (_ & _ & He1). pose proof (canonical_max _ _ _ Hy) as (_ & _ & He2).
  set (k := Z.min e1 e2). destruct (shl_align_spec m1 e1 k) as [H1 _], (shl_align_spec m2 e2 k) as [H2 _].
  rewrite H1, H2. rewrite !Z.max_r by lia.
  change (cond_Zopp s1 ?a) with (signed s1 a). change (cond_Zopp s2 ?a) with (signed s2 a).
  set (d := signed s1 _ - signed s2 _).
  pose proof (aligned_bound _ _ _ k Hx ltac:(lia) ltac:(lia)) as Hb1.
  pose proof (aligned_bound _ _ _ k Hy ltac:(lia) ltac:(lia)) as Hb2.
  assert (0 < 2 ^ (e1 - k)) by (apply Z.pow_pos_nonneg; lia).
  assert (0 < 2 ^ (e2 - k)) by (apply Z.pow_pos_nonneg; lia).
  assert (Hd : Z.abs d < 2 ^ (11 - k)).
  { replace (11 - k) with (1 + (10 - k)) by lia. rewrite Z.pow_add_r by lia. subst d. unfold signed. destruct s1, s2; lia. }
  assert (digits (Z.abs d) <= 11 - k) by (apply digits_le; lia).
  destruct (normalize_finite d k false) as [Hfin Hz]; [lia..|]. split; [done|].
  intros Hne. apply Hz; [|lia]. intros Hd0. assert (S754_finite s1 m1 e1 = S754_finite s2 m2 e2) as Heq.
  { apply (aligned_inj _ _ _ _ _ _ k); [done|done|lia|lia|]. subst d. lia. }
  rewrite Heq in Hne. unfold SFeqb, SFcompare in Hne. rewrite Z.compare_refl in Hne.
  rewrite compare_cont_eq in Hne. rewrite Pos.compare_refl in Hne. by destruct s2.
Qed.

Lemma sub_diag x : finite64 x = true -> exists s, float_sub x x = S754_zero s.
Proof.
  destruct x as [[]| | |s m e]; try done; intros _; [by eexists..|]. unfold float_sub, SFsub.
  rewrite Z.sub_diag. by eexists.
Qed.

Lemma zero_quotient s a b :
  finite64 a = true -> isZero64 b = false -> isNaN b = false ->
  exists s', float_div (float_mul (S754_zero s) a) b = S754_zero s'.
Proof. destruct a, b; try done; intros; cbn; by eexists. Qed.

Lemma lt_add_zero s x q : SFltb q (float_add (S754_zero s) x) = SFltb q x.
Proof. destruct x as [[]|[]| |], s, q as [[]|[]| |]; reflexivity. Qed.

(** *** Order *)
Definition place (x : spec_float) : option (Z * Z * Z) :=
  match x with
  | S754_nan => None
  | S754_zero _ => Some (0, 0, 0)
  | S754_infinity s => Some (signed s 2, 0, 0)
  | S754_finite s m e => Some (signed s 1, signed s e, signed s (Z.pos m))
  end.

Lemma ltb_place x y :
  SFltb x y = true <->
  match place x, place y with
  | Some (a1, b1, c1), Some (a2, b2, c2) => a1 < a2 \/ (a1 = a2 /\ (b1 < b2 \/ (b1 = b2 /\ c1 < c2)))
  | _, _ => False
  end.
Proof.
  unfold SFltb, SFcompare, place. destruct x as [[]|[]| |[] m1 e1], y as [[]|[]| |[] m2 e2]; cbn; try (split; [done|lia]);
    try (split; [lia|done]); rewrite ?compare_cont_eq;
    destruct (Z.compare_spec e1 e2); cbn; try (destruct (Pos.compare_spec m1 m2); cbn); (split; [done|lia]) || (split; [lia|done]).
Qed.

Lemma leb_place x y :
  SFleb x y = true <->
  match place x, place y with
  | Some (a1, b1, c1), Some (a2, b2, c2) => a1 < a2 \/ (a1 = a2 /\ (b1 < b2 \/ (b1 = b2 /\ c1 <= c2)))
  | _, _ => False
  end.
Proof.
  unfold SFleb, SFcompare, place. destruct x as [[]|[]| |[] m1 e1], y as [[]|[]| |[] m2 e2]; cbn; try (split; [done|lia]);
    try (split; [lia|done]); rewrite ?compare_cont_eq;
    destruct (Z.compare_spec e1 e2); cbn; try (destruct (Pos.compare_spec m1 m2); cbn); (split; [done|lia]) || (split; [lia|done]).
Qed.

Lemma place_finite x : finite64 x = true -> exists p, place x = Some p.
Proof. destruct x; [by eexists|by eexists|done|by eexists]. Qed.

Lemma ltb_trans x y z : SFltb x y = true -> SFltb y z = true -> SFltb x z = true.
Proof.
  rewrite !ltb_place. destruct (place x) as [[[? ?] ?]|], (place y) as [[[? ?] ?]|], (place z) as [[[? ?] ?]|]; try done. lia.
Qed.

Lemma ltb_false_leb x y : finite64 x = true -> finite64 y = true -> SFltb x y = false <-> SFleb y x = true.
Proof.
  intros [[[a b] c] Hx]%place_finite [[[a' b'] c'] Hy]%place_finite.
  pose proof (ltb_place x y) as Hl. pose proof (leb_place y x) as Hr. rewrite Hx, Hy in Hl, Hr.
  rewrite Hr, <- not_true_iff_false, Hl. lia.
Qed.

Lemma ltb_not_eqb x y : SFltb x y = true -> SFeqb x y = false /\ SFeqb y x = false.
Proof.
  unfold SFltb, SFeqb. intros Hlt. split; [by destruct (SFcompare x y) as [[]|]|].
  destruct x as [[]|[]| |[] m1 e1], y as [[]|[]| |[] m2 e2]; try done; cbn in *; rewrite (Z.compare_antisym e1 e2);
    destruct (Z.compare_spec e1 e2); cbn in *; try done;
    rewrite !compare_cont_eq in *; rewrite (Pos.compare_antisym m1 m2); by destruct (Pos.compare m1 m2).
Qed.
