(* ===== verification/GoTemplate.v ===== *)
(** Package strings: [Replace(s, old, new, 1)] and [NewReplacer], for the
    message templates of geofences and alert rules. *)
From S2P Require Import Prelude GoStrings.

(** ** Definitions *)

(** [strings.Replace(s, old, new, 1)] for [old] not empty. *)
Fixpoint Replace1 (s old new : string) : string :=
  if HasPrefix s old then new +:+ string_drop (String.length old) s
  else match s with
       | EmptyString => EmptyString
       | String c s => String c (Replace1 s old new)
       end.

(** [strings.NewReplacer(pairs...).Replace(s)] for keys that are not empty: at
    each byte the first pair whose key stands there.  [skip] counts the bytes of
    a key that was replaced. *)
Fixpoint replacing (pairs : list (string * string)) (skip : nat) (s : string) : string :=
  match s, skip with
  | EmptyString, _ => EmptyString
  | String _ s, S skip => replacing pairs skip s
  | String c s', O =>
      match List.find (fun p => HasPrefix s p.1) pairs with
      | Some (old, new) => new +:+ replacing pairs (String.length old - 1) s'
      | None => String c (replacing pairs 0 s')
      end
  end.
Definition Replacer (pairs : list (string * string)) (s : string) : string := replacing pairs 0 s.

(** A template as text and placeholders. *)
Inductive piece : Type :=
| Text (s : string)
| Slot (key : string).

Definition pieceSource (p : piece) : string := match p with Text s => s | Slot key => key end.
Definition source (ps : list piece) : string := foldr (fun p s => pieceSource p +:+ s) EmptyString ps.

Definition pieceValue (pairs : list (string * string)) (p : piece) : string :=
  match p with
  | Text s => s
  | Slot key => match List.find (fun q => bool_decide (q.1 = key)) pairs with Some q => q.2 | None => key end
  end.
Definition rendered (pairs : list (string * string)) (ps : list piece) : string :=
  foldr (fun p s => pieceValue pairs p +:+ s) EmptyString ps.

(** Keys in braces. *)
Definition brace : Ascii.ascii := byte_char 123.
Definition closing : Ascii.ascii := byte_char 125.

Fixpoint lacks (c : Ascii.ascii) (s : string) : bool :=
  match s with
  | EmptyString => true
  | String d s => negb (bool_decide (c = d)) && lacks c s
  end.

(** [{name}] *)
Definition braced (key : string) : Prop :=
  exists name, key = String brace (name +:+ String closing EmptyString) /\ lacks closing name = true.

Definition wellFormed (pairs : list (string * string)) (p : piece) : Prop :=
  match p with
  | Text s => lacks brace s = true
  | Slot key => key ∈ pairs.*1
  end.

(** ** Lemmas *)
Lemma HasPrefix_inv s p : HasPrefix s p = true -> exists t, s = p +:+ t.
Proof.
  revert s. induction p as [|c p IH]; intros s Hp; [by exists s|].
  destruct s as [|d s]; [done|]. rewrite HasPrefix_cons in Hp. apply andb_true_iff in Hp as [->%bool_decide_eq_true Hp].
  destruct (IH _ Hp) as [t ->]. by exists t.
Qed.

(** Of two keys that stand at one place neither is longer. *)
Lemma braced_prefix name1 name2 t1 t2 :
  lacks closing name1 = true -> lacks closing name2 = true ->
  name1 +:+ String closing t1 = name2 +:+ String closing t2 -> name1 = name2.
Proof.
  revert name2. induction name1 as [|c n1 IH]; intros [|d n2] H1 H2 Heq; cbn in *; simplify_eq; try done.
  apply andb_true_iff in H1 as [_ H1], H2 as [_ H2]. f_equal. eauto.
Qed.

Lemma braced_same k1 k2 s : braced k1 -> braced k2 -> HasPrefix s k1 = true -> HasPrefix s k2 = true -> k1 = k2.
Proof.
  intros (n1 & -> & H1) (n2 & -> & H2) [t1 ->]%HasPrefix_inv [t2 Heq]%HasPrefix_inv.
  cbn in Heq. injection Heq as Heq. rewrite <- !string_app_assoc in Heq. cbn in Heq.
  by rewrite (braced_prefix n1 n2 t1 t2).
Qed.

Lemma find_ext {A} (f g : A -> bool) l : (forall x, x ∈ l -> f x = g x) -> List.find f l = List.find g l.
Proof.
  induction l as [|x l IH]; intros Hfg; [done|]. cbn. rewrite Hfg by constructor.
  rewrite IH; [done|]. intros y Hy. apply Hfg. by constructor.
Qed.

Lemma string_app_cons c s t : (String c s +:+ t) = String c (s +:+ t).
Proof. reflexivity. Qed.

Lemma replacing_cons pairs c s :
  replacing pairs 0 (String c s) =
    match List.find (fun p => HasPrefix (String c s) p.1) pairs with
    | Some (old, new) => new +:+ replacing pairs (String.length old - 1) s
    | None => String c (replacing pairs 0 s)
    end.
Proof. reflexivity. Qed.

Lemma replacing_skip pairs key s :
  replacing pairs (String.length key) (key +:+ s) = replacing pairs 0 s.
Proof. induction key as [|c key IH]; [done|]. exact IH. Qed.

Lemma HasPrefix_brace c s key : braced key -> HasPrefix (String c s) key = true -> c = brace.
Proof. intros (n & -> & _). rewrite HasPrefix_cons. by intros [Hc%bool_decide_eq_true _]%andb_true_iff. Qed.

Section Replacer.
Variable pairs : list (string * string).
Hypothesis keys_braced : Forall braced pairs.*1.

Lemma key_braced p : p ∈ pairs -> braced p.1.
Proof. intros Hp. rewrite Forall_forall in keys_braced. apply keys_braced. by apply list_elem_of_fmap_2. Qed.

Lemma replacing_text s t : lacks brace s = true -> replacing pairs 0 (s +:+ t) = s +:+ replacing pairs 0 t.
Proof.
  induction s as [|c s IH]; [done|]. intros [Hc Hs]%andb_true_iff. rewrite !string_app_cons, replacing_cons.
  destruct (List.find _ pairs) as [[old new]|] eqn:Hf; [|by rewrite IH]. exfalso. apply find_some in Hf as [Hp Hh].
  apply HasPrefix_brace in Hh as ->; [done|]. by apply (key_braced (old, new)), list_elem_of_In.
Qed.

Lemma replacing_slot key t :
  key ∈ pairs.*1 -> replacing pairs 0 (key +:+ t) = pieceValue pairs (Slot key) +:+ replacing pairs 0 t.
Proof.
  intros Hk. assert (Hb : braced key) by (rewrite Forall_forall in keys_braced; auto).
  assert (Hf : List.find (fun p => HasPrefix (key +:+ t) p.1) pairs =
               List.find (fun q => bool_decide (q.1 = key)) pairs).
  { apply find_ext. intros p Hp. destruct (HasPrefix (key +:+ t) p.1) eqn:Hh.
    - symmetry. apply bool_decide_true. eapply braced_same; [by apply key_braced|done|done|apply HasPrefix_app].
    - symmetry. apply bool_decide_false. intros He. rewrite He, HasPrefix_app in Hh. done. }
  apply list_elem_of_fmap in Hk as (p & -> & Hp). destruct Hb as (name & Hn & Hcl). unfold pieceValue.
  rewrite Hn in *. rewrite !string_app_cons in Hf |- *. rewrite replacing_cons, Hf. clear Hf.
  destruct (List.find _ pairs) as [[old new]|] eqn:Hfind.
  - apply find_some in Hfind as [_ Ho%bool_decide_eq_true]. cbn [fst] in Ho. subst old. cbn [snd String.length].
    replace (S _ - 1)%nat with (String.length (name +:+ String closing "")) by lia. by rewrite replacing_skip.
  - apply list_elem_of_In, (find_none _ _ Hfind) in Hp. by rewrite Hn, bool_decide_true in Hp.
Qed.

(** Values are not looked at again, whatever they hold. *)
Lemma replacer_rendered ps : Forall (wellFormed pairs) ps -> Replacer pairs (source ps) = rendered pairs ps.
Proof.
  unfold Replacer. induction 1 as [|p ps Hp Hps IH]; [done|]. cbn [source rendered foldr].
  fold (source ps) (rendered pairs ps). destruct p as [s|key]; cbn [pieceSource] in *.
  - by rewrite replacing_text, IH.
  - by rewrite replacing_slot, IH.
Qed.
End Replacer.

(** ** Examples *)
Example replace_first : Replace1 "{a}-{a}" "{a}" "x" = "x-{a}".
Proof. reflexivity. Qed.
Example replacer_once :
  Replacer [("{mac}", "{rule}"); ("{rule}", "r")] "m={mac} r={rule} {x}" = "m={rule} r=r {x}".
Proof. reflexivity. Qed.
