(* ===== verification/Geofences.v ===== *)
(** Geofences, [internal/geofences/service.go].

    Coordinates are [float64]; the encoding of polygons to JSON and back is a
    parameter.  A statement takes the verdict of the database, [Create] the id
    it returns, and a range over the map the order of the keys. *)
From Stdlib Require Import Floats.SpecFloat.
From S2P Require Import Prelude GoStrings GoFloat GoFloat32 FloatFacts GoTemplate.

(** ** Definitions *)
Inductive Action : Type := ActionAlert | ActionLog | ActionAlarm | ActionOther (s : string).

Record Point : Type := mkPoint { Lat : spec_float; Lng : spec_float }.

Module Geofence.
Record t : Type := mk {
  ID : string;
  Name : string;
  Description : string;
  Color : string;
  Polygon : list Point;
  Action : Action;
  Enabled : bool;
  AlarmEnabled : bool;
  AlarmLevel : string;
  AlarmMessage : string;
  TriggerOnEntry : bool;
  TriggerOnExit : bool;
  AppliesToADSB : bool;
  AppliesToDrones : bool;
  AppliesToTargets : bool;
  AppliesToDevices : bool;
  NotifyWebhook : bool;
  SiteID : string;
  OriginSiteID : string
}.
Definition set_ID (id : string) (g : t) : t :=
  mk id (Name g) (Description g) (Color g) (Polygon g) (Action g) (Enabled g) (AlarmEnabled g) (AlarmLevel g) (AlarmMessage g)
     (TriggerOnEntry g) (TriggerOnExit g) (AppliesToADSB g) (AppliesToDrones g) (AppliesToTargets g) (AppliesToDevices g)
     (NotifyWebhook g) (SiteID g) (OriginSiteID g).
Definition set_Polygon (p : list Point) (g : t) : t :=
  mk (ID g) (Name g) (Description g) (Color g) p (Action g) (Enabled g) (AlarmEnabled g) (AlarmLevel g) (AlarmMessage g)
     (TriggerOnEntry g) (TriggerOnExit g) (AppliesToADSB g) (AppliesToDrones g) (AppliesToTargets g) (AppliesToDevices g)
     (NotifyWebhook g) (SiteID g) (OriginSiteID g).
Definition set_triggers (entry exit : bool) (g : t) : t :=
  mk (ID g) (Name g) (Description g) (Color g) (Polygon g) (Action g) (Enabled g) (AlarmEnabled g) (AlarmLevel g) (AlarmMessage g)
     entry exit (AppliesToADSB g) (AppliesToDrones g) (AppliesToTargets g) (AppliesToDevices g)
     (NotifyWebhook g) (SiteID g) (OriginSiteID g).
End Geofence.

(** *** Points in polygons *)

(** [yi > pt.Lat != yj > pt.Lat && pt.Lng < (xj-xi)*(pt.Lat-yi)/(yj-yi)+xi] *)
Definition crossing (pt pi pj : Point) : bool :=
  xorb (SFltb (Lat pt) (Lat pi)) (SFltb (Lat pt) (Lat pj)) &&
  SFltb (Lng pt)
    (float_add
       (float_div (float_mul (float_sub (Lng pj) (Lng pi)) (float_sub (Lat pt) (Lat pi))) (float_sub (Lat pj) (Lat pi)))
       (Lng pi)).

(** The loop, from the vertex [pj] before the next one. *)
Fixpoint castLoop (pt pj : Point) (polygon : list Point) (inside : bool) : bool :=
  match polygon with
  | [] => inside
  | pi :: polygon => castLoop pt pi polygon (if crossing pt pi pj then negb inside else inside)
  end.

Definition pointInPolygon (pt : Point) (polygon : list Point) : bool :=
  if (length polygon <? 3)%nat then false
  else match last polygon with
       | Some pj => castLoop pt pj polygon false
       | None => false
       end.

(** *** The service *)
Inductive wsEvent : Type :=
| GeofenceEvent (g : Geofence.t) (entityType entityID : string) (lat lng : spec_float) (alarmLevel message : string).

(** A row: the columns with a default or without a NOT NULL are optional where
    the code writes or reads NULL. *)
Record Row : Type := mkRow {
  rName : string; rDescription : string; rPolygon : bytes; rAction : Action; rEnabled : bool;
  rColor : option string; rAlarmEnabled : bool; rAlarmLevel : option string; rAlarmMessage : option string;
  rTriggerOnEntry : bool; rTriggerOnExit : bool;
  rAppliesToADSB : bool; rAppliesToDrones : bool; rAppliesToTargets : bool; rAppliesToDevices : bool;
  rNotifyWebhook : bool; rSiteID : option string; rOriginSiteID : option string
}.

Record Service : Type := mkService {
  geofences : gmap string Geofence.t;
  rows : gmap string Row;
  sent : list wsEvent
}.
Definition NewService (rows : gmap string Row) : Service := mkService ∅ rows [].
Definition set_geofences (v : gmap string Geofence.t) (s : Service) : Service := mkService v (rows s) (sent s).
Definition set_rows (v : gmap string Row) (s : Service) : Service := mkService (geofences s) v (sent s).

Definition nullIfEmpty (s : string) : option string := if bool_decide (s = EmptyString) then None else Some s.
Definition nullString (v : option string) : string := default EmptyString v.

(** [json.Marshal(g.Polygon)], [json.Unmarshal(polygonJSON, &g.Polygon)]: the
    code looks at neither error. *)
Class PolygonJSON := {
  Marshal : list Point -> bytes;
  Unmarshal : bytes -> list Point
}.
Class PolygonLaws (J : PolygonJSON) : Prop := {
  Unmarshal_Marshal p : forallb (fun q => finite64 (Lat q) && finite64 (Lng q)) p = true -> Unmarshal (Marshal p) = p
}.

Section Service.
Context `{PolygonJSON}.

(** The columns of [Create] and [Update]. *)
Definition rowOf (g : Geofence.t) : Row :=
  mkRow (Geofence.Name g) (Geofence.Description g) (Marshal (Geofence.Polygon g)) (Geofence.Action g) (Geofence.Enabled g)
    (nullIfEmpty (Geofence.Color g)) (Geofence.AlarmEnabled g) (nullIfEmpty (Geofence.AlarmLevel g))
    (nullIfEmpty (Geofence.AlarmMessage g)) (Geofence.TriggerOnEntry g) (Geofence.TriggerOnExit g)
    (Geofence.AppliesToADSB g) (Geofence.AppliesToDrones g) (Geofence.AppliesToTargets g) (Geofence.AppliesToDevices g)
    (Geofence.NotifyWebhook g) (nullIfEmpty (Geofence.SiteID g)) (nullIfEmpty (Geofence.OriginSiteID g)).

(** What [Load] makes of a row. *)
Definition loadRow (id : string) (r : Row) : Geofence.t :=
  Geofence.mk id (rName r) (rDescription r) (nullString (rColor r)) (Unmarshal (rPolygon r)) (rAction r) (rEnabled r)
    (rAlarmEnabled r) (nullString (rAlarmLevel r)) (nullString (rAlarmMessage r)) (rTriggerOnEntry r) (rTriggerOnExit r)
    (rAppliesToADSB r) (rAppliesToDrones r) (rAppliesToTargets r) (rAppliesToDevices r)
    (rNotifyWebhook r) (nullString (rSiteID r)) (nullString (rOriginSiteID r)).

(** [WHERE enabled = true]; what is loaded replaces the entries of its ids. *)
Definition Load (ok : bool) (s : Service) : Service :=
  if ok then set_geofences (map_imap (fun id r => if rEnabled r then Some (loadRow id r) else None) (rows s) ∪ geofences s) s
  else s.

(** [Create]: [id] is the one the database generates. *)
Definition Create (ok : bool) (id : string) (g : Geofence.t) (s : Service) : Service * option Geofence.t :=
  if ok then
    let g' := Geofence.set_ID id g in
    (set_geofences (<[id := g']> (geofences s)) (set_rows (<[id := rowOf g]> (rows s)) s), Some g')
  else (s, None).

Definition Delete (ok : bool) (id : string) (s : Service) : Service :=
  if ok then set_geofences (delete id (geofences s)) (set_rows (delete id (rows s)) s) else s.

(** [Update]: the statement changes the row with the id if there is one. *)
Definition Update (ok : bool) (id : string) (g : Geofence.t) (s : Service) : Service :=
  if ok then
    set_geofences (<[id := Geofence.set_ID id g]> (geofences s)) (set_rows (alter (fun _ => rowOf g) id (rows s)) s)
  else s.

Definition GetByID (id : string) (s : Service) : option Geofence.t := geofences s !! id.
Definition GetAll (ord : list string) (s : Service) : list Geofence.t := omap (fun id => geofences s !! id) ord.

(** The [switch] on the entity type has no default case. *)
Definition applies (entityType : string) (g : Geofence.t) : bool :=
  if bool_decide (entityType = "adsb") then Geofence.AppliesToADSB g
  else if bool_decide (entityType = "drone") then Geofence.AppliesToDrones g
  else if bool_decide (entityType = "target") then Geofence.AppliesToTargets g
  else if bool_decide (entityType = "device") then Geofence.AppliesToDevices g
  else true.

Definition triggers (pt : Point) (entityType : string) (g : Geofence.t) : bool :=
  Geofence.Enabled g && Geofence.AlarmEnabled g && applies entityType g && pointInPolygon pt (Geofence.Polygon g).

Definition CheckPoint (ord : list string) (lat lng : spec_float) (entityType : string) (s : Service) : list Geofence.t :=
  List.filter (triggers (mkPoint lat lng) entityType) (GetAll ord s).

Definition violationMessage (g : Geofence.t) (entityType entityID : string) : string :=
  Replace1 (Replace1 (Geofence.AlarmMessage g) "{entity}" (entityType +:+ "/" +:+ entityID)) "{geofence}" (Geofence.Name g).

(** [Broadcast] drops what [json.Marshal] refuses: numbers that are not finite. *)
Definition sendable (e : wsEvent) : bool :=
  match e with
  | GeofenceEvent g _ _ lat lng _ _ =>
      finite64 lat && finite64 lng && forallb (fun q => finite64 (Lat q) && finite64 (Lng q)) (Geofence.Polygon g)
  end.
Definition Broadcast (e : wsEvent) (s : Service) : Service :=
  if sendable e then mkService (geofences s) (rows s) (sent s ++ [e]) else s.

Definition NotifyViolation (g : Geofence.t) (entityType entityID : string) (lat lng : spec_float) (s : Service) : Service :=
  Broadcast (GeofenceEvent g entityType entityID lat lng (Geofence.AlarmLevel g) (violationMessage g entityType entityID)) s.

(** *** Runs *)
Inductive op : Type :=
| OpCreate (ok : bool) (id : string) (g : Geofence.t)
| OpUpdate (ok : bool) (id : string) (g : Geofence.t)
| OpDelete (ok : bool) (id : string)
| OpLoad (ok : bool)
| OpNotify (g : Geofence.t) (entityType entityID : string) (lat lng : spec_float).

Definition exec (s : Service) (o : op) : Service :=
  match o with
  | OpCreate ok id g => (Create ok id g s).1
  | OpUpdate ok id g => Update ok id g s
  | OpDelete ok id => Delete ok id s
  | OpLoad ok => Load ok s
  | OpNotify g entityType entityID lat lng => NotifyViolation g entityType entityID lat lng s
  end.
Definition run (os : list op) (s : Service) : Service := fold_left exec os s.
End Service.

(** ** Lemmas *)

(** *** Polygons *)
Lemma castLoop_xor pt pj l b : castLoop pt pj l b = xorb b (castLoop pt pj l false).
Proof.
  revert pj b. induction l as [|p l IH]; intros pj b; cbn [castLoop]; [by destruct b|].
  rewrite (IH p (if crossing pt p pj then negb b else b)). rewrite (IH p (if crossing pt p pj then negb false else false)).
  destruct (crossing pt p pj), b, (castLoop pt p l false); reflexivity.
Qed.

Lemma last_default {A} (l : list A) z x y : List.last (z :: l) x = List.last (z :: l) y.
Proof. revert z. induction l as [|a l IH]; intros z; [done|]. exact (IH a). Qed.

Lemma castLoop_snoc pt pj l p b :
  castLoop pt pj (l ++ [p]) b = xorb (castLoop pt pj l b) (crossing pt p (List.last l pj)).
Proof.
  revert pj b. induction l as [|q l IH]; intros pj b; cbn [castLoop app].
  - cbn. destruct (crossing pt p pj), b; reflexivity.
  - rewrite IH. do 2 f_equal. destruct l as [|z l]; [done|apply (last_default l z)].
Qed.

Lemma last_cons_default {A} (x : A) l : last (x :: l) = Some (List.last l x).
Proof.
  revert x. induction l as [|y l IH]; intros x; [done|]. change (last (x :: y :: l)) with (last (y :: l)).
  rewrite IH. f_equal. destruct l as [|z l]; [done|apply (last_default l z)].
Qed.

Lemma rotate_start pt p l : pointInPolygon pt (p :: l) = pointInPolygon pt (l ++ [p]).
Proof.
  unfold pointInPolygon. rewrite length_app. cbn [length]. replace (length l + 1)%nat with (S (length l)) by lia.
  destruct (_ <? _)%nat; [done|]. rewrite last_snoc, last_cons_default. cbn [castLoop].
  rewrite castLoop_snoc, castLoop_xor. destruct (crossing pt p (List.last l p)), (castLoop pt p l false); reflexivity.
Qed.

Lemma castLoop_sameSide pt b pj l :
  SFltb (Lat pt) (Lat pj) = b -> Forall (fun q => SFltb (Lat pt) (Lat q) = b) l -> castLoop pt pj l false = false.
Proof.
  intros Hj Hl. revert pj Hj. induction Hl as [|q l Hq Hl IH]; intros pj Hj; [done|]. cbn [castLoop].
  unfold crossing. rewrite Hq, Hj, xorb_nilpotent. by apply IH.
Qed.

Lemma crossing_vertical pt y1 y2 x :
  coordinate (Lat pt) = true -> coordinate y1 = true -> coordinate y2 = true -> coordinate x = true -> SFeqb y2 y1 = false ->
  crossing pt (mkPoint y1 x) (mkPoint y2 x) = xorb (SFltb (Lat pt) y1) (SFltb (Lat pt) y2) && SFltb (Lng pt) x.
Proof.
  intros Hp H1 H2 Hx Hne. unfold crossing. cbn [Lat Lng].
  destruct (sub_diag x (coordinate_finite _ Hx)) as [s ->].
  destruct (sub_finite _ _ Hp H1) as [Hf _]. destruct (sub_finite _ _ H2 H1) as [Hf2 Hz].
  destruct (zero_quotient s _ _ Hf (Hz Hne)) as [s' ->]; [by destruct (float_sub y2 y1)|]. by rewrite lt_add_zero.
Qed.

Lemma crossing_horizontal pt y x1 x2 : crossing pt (mkPoint y x1) (mkPoint y x2) = false.
Proof. unfold crossing. cbn [Lat]. by rewrite xorb_nilpotent. Qed.

(** The half-open interval. *)
Definition between (a b x : spec_float) : bool := SFleb a x && SFltb x b.

Lemma between_xor a b x :
  finite64 a = true -> finite64 b = true -> finite64 x = true ->
  xorb (SFltb x a) (SFltb x b) = if SFltb a b then between a b x else between b a x.
Proof.
  intros Ha Hb Hx. unfold between. pose proof (ltb_false_leb x a Hx Ha) as H1. pose proof (ltb_false_leb x b Hx Hb) as H2.
  pose proof (ltb_trans x a b) as H3. pose proof (ltb_false_leb a b Ha Hb) as H4.
  assert (H5 : SFltb a b = false -> SFltb x b = true -> SFltb x a = true).
  { intros Hab%H4 Hxb. revert Hab Hxb. rewrite leb_place, !ltb_place.
    destruct (place x) as [[[? ?] ?]|], (place a) as [[[? ?] ?]|], (place b) as [[[? ?] ?]|]; try done. lia. }
  destruct (SFltb x a), (SFltb x b), (SFltb a b), (SFleb a x), (SFleb b x); try done; intuition.
Qed.

(** The corners of a rectangle, in both directions. *)
Definition rectangle (south north west east : spec_float) (clockwise : bool) : list Point :=
  let sw := mkPoint south west in let se := mkPoint south east in
  let nw := mkPoint north west in let ne := mkPoint north east in
  if clockwise then [sw; nw; ne; se] else [sw; se; ne; nw].

(** *** Loading *)
Definition finitePolygon (g : Geofence.t) : bool :=
  forallb (fun q => finite64 (Lat q) && finite64 (Lng q)) (Geofence.Polygon g).

Lemma nullString_nullIfEmpty v : nullString (nullIfEmpty v) = v.
Proof. unfold nullIfEmpty. by case_bool_decide; subst. Qed.

Section Rows.
Context `{PolygonLaws}.

Lemma loadRow_rowOf id g : finitePolygon g = true -> loadRow id (rowOf g) = Geofence.set_ID id g.
Proof.
  intros Hf. destruct g. unfold loadRow, rowOf, Geofence.set_ID. cbn. by rewrite !nullString_nullIfEmpty, Unmarshal_Marshal.
Qed.

Lemma rowOf_set_ID id g : rowOf (Geofence.set_ID id g) = rowOf g.
Proof. by destruct g. Qed.

(** Rows and map agree on what both hold, and the map holds every enabled row. *)
Definition synced (s : Service) : Prop :=
  (forall id g, geofences s !! id = Some g -> Geofence.ID g = id) /\
  (forall id r, rows s !! id = Some r -> exists g, finitePolygon g = true /\ r = rowOf g) /\
  (forall id r, rows s !! id = Some r ->
     match geofences s !! id with
     | Some g => finitePolygon g = true /\ r = rowOf g
     | None => rEnabled r = false
     end).

Lemma lookup_Load ok s id :
  geofences (Load ok s) !! id =
    if ok then match rows s !! id with
               | Some r => if rEnabled r then Some (loadRow id r) else geofences s !! id
               | None => geofences s !! id
               end
    else geofences s !! id.
Proof.
  unfold Load. destruct ok; [|done]. cbn [geofences set_geofences]. rewrite lookup_union, map_lookup_imap.
  destruct (rows s !! id) as [r|]; cbn; [destruct (rEnabled r)|]; by destruct (geofences s !! id).
Qed.

Lemma synced_Load ok s : synced s -> synced (Load ok s).
Proof.
  intros (Hid & Hr & Hs). destruct ok; [|done].
  assert (Hrows : rows (Load true s) = rows s) by done. split_and!.
  - intros id g. rewrite lookup_Load. destruct (rows s !! id) as [r|]; [|apply Hid].
    destruct (rEnabled r); [by intros [= <-]|apply Hid].
  - intros id r. rewrite Hrows. apply Hr.
  - intros id r Hrow. rewrite Hrows in Hrow. rewrite lookup_Load, Hrow. destruct (Hr _ _ Hrow) as (g & Hf & ->).
    specialize (Hs _ _ Hrow). destruct (rEnabled (rowOf g)) eqn:He; [|by destruct (geofences s !! id)].
    rewrite loadRow_rowOf by done. rewrite rowOf_set_ID. split; [by destruct g|done].
Qed.

Lemma synced_start rows :
  (forall id r, rows !! id = Some r -> exists g, finitePolygon g = true /\ r = rowOf g) ->
  synced (Load true (NewService rows)).
Proof.
  intros Hr. split_and!.
  - intros id g. rewrite lookup_Load. cbn [Geofences.rows NewService geofences]. rewrite lookup_empty.
    destruct (rows !! id) as [r|]; [|done]. destruct (rEnabled r); [by intros [= <-]|done].
  - exact Hr.
  - intros id r Hrow. rewrite lookup_Load. cbn [Geofences.rows NewService geofences Load set_geofences] in *.
    rewrite Hrow, lookup_empty. destruct (Hr _ _ Hrow) as (g & Hf & ->).
    destruct (rEnabled (rowOf g)) eqn:He; [|done]. rewrite loadRow_rowOf, rowOf_set_ID by done.
    split; [by destruct g|done].
Qed.

Definition finiteOp (o : op) : Prop :=
  match o with OpCreate _ _ g | OpUpdate _ _ g => finitePolygon g = true | _ => True end.

Lemma synced_exec s o : finiteOp o -> synced s -> synced (exec s o).
Proof.
  intros Hf HS. destruct o as [[] id g|[] id g|[] id|ok|g entityType entityID lat lng]; cbn [exec]; try done.
  - destruct HS as (Hid & Hr & Hs). cbn [Create fst]. split_and!; cbn [geofences rows set_geofences set_rows].
    + intros i g' [[<- <-]|[_ Hg]]%lookup_insert_Some; [by destruct g|by apply Hid].
    + intros i r [[<- <-]|[_ Hrow]]%lookup_insert_Some; [by exists g|by eapply Hr].
    + intros i r [[<- <-]|[Hne Hrow]]%lookup_insert_Some.
      * rewrite lookup_insert_eq, rowOf_set_ID. by destruct g.
      * rewrite lookup_insert_ne by done. by apply Hs.
  - destruct HS as (Hid & Hr & Hs). split_and!; cbn [Update geofences rows set_geofences set_rows].
    + intros i g' [[<- <-]|[_ Hg]]%lookup_insert_Some; [by destruct g|by apply Hid].
    + intros i r [(<- & r0 & Hrow & ->)|[_ Hrow]]%lookup_alter_Some; [by exists g|by eapply Hr].
    + intros i r [(<- & r0 & Hrow & ->)|[Hne Hrow]]%lookup_alter_Some.
      * rewrite lookup_insert_eq, rowOf_set_ID. by destruct g.
      * rewrite lookup_insert_ne by done. by apply Hs.
  - destruct HS as (Hid & Hr & Hs). split_and!; cbn [Delete geofences rows set_geofences set_rows].
    + intros i g' [_ Hg]%lookup_delete_Some. by apply Hid.
    + intros i r [_ Hrow]%lookup_delete_Some. by eapply Hr.
    + intros i r [Hne Hrow]%lookup_delete_Some. rewrite lookup_delete_ne by done. by apply Hs.
  - by apply synced_Load.
  - unfold NotifyViolation, Broadcast. by destruct (sendable _).
Qed.

Lemma synced_run os s : Forall finiteOp os -> synced s -> synced (run os s).
Proof. intros Hf. revert s. induction Hf as [|o os Ho Hf IH]; intros s HS; [done|]. by apply IH, synced_exec. Qed.

(** The ids in the table: those created and not deleted since. *)
Definition storedStep (ids : gset string) (o : op) : gset string :=
  match o with
  | OpCreate true id _ => ids ∪ {[id]}
  | OpDelete true id => ids ∖ {[id]}
  | _ => ids
  end.

Lemma dom_rows_exec s o : dom (rows (exec s o)) = storedStep (dom (rows s)) o.
Proof.
  destruct o as [[] id g|[] id g|[] id|[]|g entityType entityID lat lng]; cbn; try done.
  - rewrite dom_insert_L. set_solver.
  - by rewrite dom_alter_L.
  - by rewrite dom_delete_L.
  - unfold NotifyViolation, Broadcast. by destruct (sendable _).
Qed.

Lemma dom_rows_run os s : dom (rows (run os s)) = fold_left storedStep os (dom (rows s)).
Proof. revert s. induction os as [|o os IH]; intros s; [done|].
  change (run (o :: os) s) with (run os (exec s o)). cbn [fold_left]. by rewrite IH, dom_rows_exec.
Qed.

(** ** Properties *)

(** C18: Whatever is created, changed, deleted and loaded, a restart brings back
    exactly the enabled fences that were created and not deleted: a fence
    that is switched off is gone from the list after the restart, and so is one that
    an update of an unknown id entered. *)
Theorem fences_after_restart table os id :
  (forall i r, table !! i = Some r -> exists g, finitePolygon g = true /\ r = rowOf g) -> Forall finiteOp os ->
  let s := run os (Load true (NewService table)) in
  GetByID id (Load true (NewService (rows s))) =
    match GetByID id s with
    | Some g => if Geofence.Enabled g && bool_decide (id ∈ fold_left storedStep os (dom table)) then Some g else None
    | None => None
    end.
Proof.
  intros Ht Hos s. pose proof (synced_run os _ Hos (synced_start _ Ht)) as (Hid & Hr & Hs). fold s in Hid, Hr, Hs.
  pose proof (dom_rows_run os (Load true (NewService table))) as Hd. fold s in Hd.
  change (dom (rows (Load true (NewService table)))) with (dom table) in Hd. rewrite <- Hd.
  unfold GetByID. rewrite lookup_Load. cbn [rows NewService geofences]. rewrite lookup_empty.
  destruct (rows s !! id) as [r|] eqn:Hrow.
  - rewrite bool_decide_true by (by apply elem_of_dom). specialize (Hs _ _ Hrow).
    destruct (geofences s !! id) as [g|] eqn:Hg; [|by rewrite Hs]. destruct Hs as [Hf ->].
    change (rEnabled (rowOf g)) with (Geofence.Enabled g). destruct (Geofence.Enabled g); [|done].
    rewrite loadRow_rowOf by done. specialize (Hid _ _ Hg). by destruct g; cbn in *; subst.
  - rewrite bool_decide_false by (by apply not_elem_of_dom). destruct (geofences s !! id); by rewrite ?andb_false_r.
Qed.
End Rows.

Lemma rectangle_inside south north west east lat lng clockwise :
  Forall (fun x => coordinate x = true) [south; north; west; east; lat; lng] -> SFltb south north = true ->
  pointInPolygon (mkPoint lat lng) (rectangle south north west east clockwise) =
    between south north lat && if SFltb west east then between west east lng else between east west lng.
Proof.
  rewrite !Forall_cons. intros (Hs & Hn & Hw & He & Hla & Hln & _) Hsn.
  destruct (ltb_not_eqb _ _ Hsn) as [Hne Hne'].
  pose proof (between_xor south north lat) as Hb. pose proof (between_xor west east lng) as Hb2.
  rewrite Hsn in Hb. rewrite <- Hb, <- Hb2 by by apply coordinate_finite.
  assert (Hx : forall y1 y2 x, coordinate y1 = true -> coordinate y2 = true -> coordinate x = true -> SFeqb y2 y1 = false ->
    crossing (mkPoint lat lng) (mkPoint y1 x) (mkPoint y2 x) = xorb (SFltb lat y1) (SFltb lat y2) && SFltb lng x)
    by (intros; by apply crossing_vertical).
  destruct clockwise; cbn -[crossing SFltb]; rewrite !crossing_horizontal, !Hx by done;
    destruct (SFltb lat south), (SFltb lat north), (SFltb lng west), (SFltb lng east); reflexivity.
Qed.


(** The vertex at which a polygon is started does not matter, and a point
    north of all vertices or not north of any is outside; a polygon of fewer than
    three points contains nothing. *)
Theorem polygon_start_and_band pt p polygon :
  pointInPolygon pt (p :: polygon) = pointInPolygon pt (polygon ++ [p]) /\
  ((exists b, Forall (fun q => SFltb (Lat pt) (Lat q) = b) polygon) \/ (length polygon < 3)%nat ->
   pointInPolygon pt polygon = false).
Proof.
  split; [apply rotate_start|]. unfold pointInPolygon. intros [[b Hb]|Hl].
  - destruct (_ <? _)%nat; [done|]. destruct (last polygon) as [pj|] eqn:Hl; [|done].
    apply (castLoop_sameSide pt b); [|done]. apply last_Some_elem_of in Hl. rewrite Forall_forall in Hb. by apply Hb.
  - by rewrite (proj2 (Nat.ltb_lt _ _) Hl).
Qed.

(** ** Examples and witnesses *)
Definition deg (z : Z) : spec_float := floatZ z.
Definition fence (name : string) (polygon : list Point) : Geofence.t :=
  Geofence.mk EmptyString name EmptyString EmptyString polygon ActionAlert true true "CRITICAL"
    "{entity} entered {geofence}" true false true true true true false EmptyString EmptyString.

(** An encoding of polygons: the bits of their number. *)
#[export] Instance spec_float_eq_dec : EqDecision spec_float.
Proof. solve_decision. Defined.
#[export] Instance Point_eq_dec : EqDecision Point.
Proof. solve_decision. Defined.
#[export] Instance spec_float_countable : Countable spec_float.
Proof.
  apply (inj_countable'
    (fun f => match f with
              | S754_zero s => inl (inl s) | S754_infinity s => inl (inr s) | S754_nan => inr (inl tt)
              | S754_finite s m e => inr (inr (s, m, e))
              end)
    (fun c : bool + bool + (unit + bool * positive * Z) =>
       match c with
       | inl (inl s) => S754_zero s | inl (inr s) => S754_infinity s | inr (inl _) => S754_nan
       | inr (inr (s, m, e)) => S754_finite s m e
       end)).
  by intros [].
Defined.
#[export] Instance Point_countable : Countable Point.
Proof. by apply (inj_countable' (fun p => (Lat p, Lng p)) (fun c => mkPoint c.1 c.2)); intros []. Defined.

Fixpoint bits (p : positive) : bytes :=
  match p with xH => [] | xO p => x30 :: bits p | xI p => x31 :: bits p end.
Fixpoint unbits (l : bytes) : positive :=
  match l with [] => xH | b :: l => if bool_decide (b = x30) then xO (unbits l) else xI (unbits l) end.
Definition bitJSON : PolygonJSON := {|
  Marshal p := bits (encode p);
  Unmarshal b := default [] (decode (unbits b))
|}.
#[local] Existing Instance bitJSON.
#[export] Instance bitJSON_laws : PolygonLaws bitJSON.
Proof.
  constructor. intros p _. cbn. assert (Hb : forall q, unbits (bits q) = q).
  { induction q as [q IH|q IH|]; cbn [bits unbits];
      [rewrite bool_decide_false by done; by rewrite IH|rewrite bool_decide_true by done; by rewrite IH|done]. }
  by rewrite Hb, decode_encode.
Qed.

Definition dateLine : list Point := rectangle (deg (-10)) (deg 10) (deg 179) (deg (-179)) false.


Lemma polygon_start_and_band_witness : pointInPolygon (mkPoint (deg 11) (deg 0)) dateLine = false.
Proof.
  apply (polygon_start_and_band (mkPoint (deg 11) (deg 0)) (mkPoint (deg 0) (deg 0)) dateLine).
  left. exists false. repeat (apply Forall_cons_2; [vm_compute; reflexivity|]). apply Forall_nil_2.
Defined.

(** "a" is created and switched off, "b" is the update of an unknown id. *)
Definition officeFence : Geofence.t := fence "office" (rectangle (deg 0) (deg 1) (deg 0) (deg 1) true).
Definition switchedOff : Geofence.t :=
  Geofence.mk EmptyString "office" EmptyString EmptyString (Geofence.Polygon officeFence) ActionAlert false true "CRITICAL"
    EmptyString true false true true true true false EmptyString EmptyString.
Definition afternoon : list op :=
  [OpCreate true "a" officeFence; OpUpdate true "b" officeFence; OpUpdate true "a" switchedOff].

Lemma fences_after_restart_witness :
  let s := run afternoon (Load true (NewService ∅)) in
  is_Some (GetByID "a" s) /\ is_Some (GetByID "b" s) /\
  GetByID "a" (Load true (NewService (rows s))) = None /\
  GetByID "b" (Load true (NewService (rows s))) = None.
Proof.
  cbv zeta. split; [by eexists|]. split; [by eexists|].
  rewrite !(fences_after_restart ∅ afternoon)
    by first [intros i r Hr; by rewrite lookup_empty in Hr
             |repeat (apply Forall_cons_2; [vm_compute; reflexivity|]); apply Forall_nil_2].
  split; vm_compute; reflexivity.
Defined.
