(* ===== verification/Drones.v ===== *)
(** Drone tracking, [internal/drones/service.go] and [detection.go].

    The map holds pointers, and the goroutines that enrich and persist a drone
    keep them, so there is a heap of drones with addresses.  An [event] is a
    method call under the mutex, a step of a started goroutine, the timer of
    the debounced writes, or the DELETE of [ClearAll].  The data of the FAA
    registry are strings, as [main] builds them, and a jsonb column is its
    value.  The table knows its unique indexes, which decide whether an
    ON CONFLICT clause is accepted. *)
From Stdlib Require Import Floats.SpecFloat.
From S2P Require Import Prelude GoStrings GoFloat GoFloat32 FloatFacts GoTemplate.

(** ** Definitions *)
Inductive Status : Type := StatusUnknown | StatusFriendly | StatusNeutral | StatusHostile.

Abbreviation faa := (gmap string string).

Module Drone.
Record t : Type := mk {
  ID : string; MAC : string; SerialNumber : string; UASID : string; OperatorID : string; UAType : string;
  Manufacturer : string; Model : string;
  Latitude : spec_float; Longitude : spec_float; Altitude : spec_float; Speed : spec_float; Heading : spec_float;
  VerticalSpeed : spec_float; PilotLatitude : spec_float; PilotLongitude : spec_float;
  RSSI : Z; Status_ : Status; Source : string; NodeRefID : string; SiteID : string;
  FAAData : option faa; FirstSeen : Z; LastSeen : Z
}.
Definition set_Status (v : Status) (d : t) : t :=
  mk (ID d) (MAC d) (SerialNumber d) (UASID d) (OperatorID d) (UAType d) (Manufacturer d) (Model d) (Latitude d) (Longitude d)
     (Altitude d) (Speed d) (Heading d) (VerticalSpeed d) (PilotLatitude d) (PilotLongitude d) (RSSI d) v (Source d) (NodeRefID d)
     (SiteID d) (FAAData d) (FirstSeen d) (LastSeen d).
Definition set_FAAData (v : option faa) (d : t) : t :=
  mk (ID d) (MAC d) (SerialNumber d) (UASID d) (OperatorID d) (UAType d) (Manufacturer d) (Model d) (Latitude d) (Longitude d)
     (Altitude d) (Speed d) (Heading d) (VerticalSpeed d) (PilotLatitude d) (PilotLongitude d) (RSSI d) (Status_ d) (Source d)
     (NodeRefID d) (SiteID d) v (FirstSeen d) (LastSeen d).
End Drone.

Module Detection.
Record t : Type := mk {
  MAC : string; SerialNumber : string; UASID : string; OperatorID : string; UAType : string;
  Manufacturer : string; Model : string;
  Latitude : spec_float; Longitude : spec_float; Altitude : spec_float; Speed : spec_float; Heading : spec_float;
  VerticalSpeed : spec_float; PilotLatitude : spec_float; PilotLongitude : spec_float;
  RSSI : Z; Source : string; NodeNum : Z
}.
Definition received (from : Z) (d : t) : t :=
  mk (MAC d) (SerialNumber d) (UASID d) (OperatorID d) (UAType d) (Manufacturer d) (Model d) (Latitude d) (Longitude d)
     (Altitude d) (Speed d) (Heading d) (VerticalSpeed d) (PilotLatitude d) (PilotLongitude d) (RSSI d) "mesh" from.
End Detection.

Definition isEmpty (s : string) : bool := bool_decide (s = EmptyString).
Definition orElse (s t : string) : string := if isEmpty s then t else s.

(** [DroneDetection.Key] *)
Definition Key (d : Detection.t) : string :=
  if negb (isEmpty (Detection.MAC d)) then Detection.MAC d
  else if negb (isEmpty (Detection.SerialNumber d)) then Detection.SerialNumber d
  else if negb (isEmpty (Detection.UASID d)) then Detection.UASID d
  else "unknown".

(** *** State *)
Record GeofenceHit : Type := mkHit {
  hitID : string; hitName : string; hitAlarmLevel : string; hitAlarmMessage : string; hitNotifyWebhook : bool
}.

Inductive wsEvent : Type :=
| DroneTelemetry (d : Drone.t)
| DroneStatus (d : Drone.t)
| DroneRemove (droneID mac : string).

(** Calls of the callbacks. *)
Inductive call : Type :=
| Inventory (mac manufacturer ssid : string) (rssi : Z)
| GeofenceNotify (geofenceID geofenceName entityType entityID : string) (lat lon : spec_float) (alarmLevel message : string)
    (notifyWebhook : bool).

(** Started goroutines: [Enrich] before the query, [Lookup] before the registry
    is asked, [SetFAA] before the lock. *)
Inductive job : Type :=
| Enrich (a : Z) (droneID mac serial : string)
| Lookup (a : Z) (droneID mac serial : string)
| SetFAA (a : Z) (data : faa) (persist : bool)
| PersistDrone (a : Z)
| PersistDetection (a : Z) (det : Detection.t).

(** A row of the table drones; [rMAC] is never NULL, the code writes the empty
    string. *)
Record Row : Type := mkRow { rDrone : Drone.t }.
Definition rMAC (r : Row) : string := Drone.MAC (rDrone r).

Record DetectionRecord : Type := mkRecord {
  dMAC : string; dSerial : string; dDetection : Detection.t; dTimestamp : Z
}.

Record Service : Type := mkService {
  drones : gmap string Z;
  heap : gmap Z Drone.t;
  next : Z;
  geofenceState : gmap string (gset string);   (** the map holds only [true] *)
  persistQueue : gset string;
  timer : bool;
  jobs : list job;
  sent : list wsEvent;
  calls : list call;
  rows : list Row;
  detections : list DetectionRecord
}.
Definition NewService (rows : list Row) (detections : list DetectionRecord) : Service :=
  mkService ∅ ∅ 0 ∅ ∅ false [] [] [] rows detections.

Definition set_drones v s := mkService v (heap s) (next s) (geofenceState s) (persistQueue s) (timer s) (jobs s) (sent s) (calls s) (rows s) (detections s).
Definition set_heap v s := mkService (drones s) v (next s) (geofenceState s) (persistQueue s) (timer s) (jobs s) (sent s) (calls s) (rows s) (detections s).
Definition set_geofenceState v s := mkService (drones s) (heap s) (next s) v (persistQueue s) (timer s) (jobs s) (sent s) (calls s) (rows s) (detections s).
Definition set_queue v t s := mkService (drones s) (heap s) (next s) (geofenceState s) v t (jobs s) (sent s) (calls s) (rows s) (detections s).
Definition set_jobs v s := mkService (drones s) (heap s) (next s) (geofenceState s) (persistQueue s) (timer s) v (sent s) (calls s) (rows s) (detections s).
Definition set_sent v s := mkService (drones s) (heap s) (next s) (geofenceState s) (persistQueue s) (timer s) (jobs s) v (calls s) (rows s) (detections s).
Definition set_calls v s := mkService (drones s) (heap s) (next s) (geofenceState s) (persistQueue s) (timer s) (jobs s) (sent s) v (rows s) (detections s).
Definition set_rows v s := mkService (drones s) (heap s) (next s) (geofenceState s) (persistQueue s) (timer s) (jobs s) (sent s) (calls s) v (detections s).
Definition set_detections v s := mkService (drones s) (heap s) (next s) (geofenceState s) (persistQueue s) (timer s) (jobs s) (sent s) (calls s) (rows s) v.
Definition alloc (key : string) (d : Drone.t) (s : Service) : Z * Service :=
  (next s, mkService (<[key := next s]> (drones s)) (<[next s := d]> (heap s)) (next s + 1) (geofenceState s) (persistQueue s) (timer s)
             (jobs s) (sent s) (calls s) (rows s) (detections s)).

(** [json.Marshal] refuses numbers that are not finite. *)
Definition marshals (d : Drone.t) : bool :=
  forallb finite64 [Drone.Latitude d; Drone.Longitude d; Drone.Altitude d; Drone.Speed d; Drone.Heading d; Drone.VerticalSpeed d;
                    Drone.PilotLatitude d; Drone.PilotLongitude d].
Definition sendable (e : wsEvent) : bool :=
  match e with DroneTelemetry d | DroneStatus d => marshals d | DroneRemove _ _ => true end.
Definition Broadcast (e : wsEvent) (s : Service) : Service := if sendable e then set_sent (sent s ++ [e]) s else s.
Definition invoke (c : call) (s : Service) : Service := set_calls (calls s ++ [c]) s.
Definition go (j : job) (s : Service) : Service := set_jobs (jobs s ++ [j]) s.
Definition store (a : Z) (d : Drone.t) (s : Service) : Service := set_heap (<[a := d]> (heap s)) s.

Definition GetByKey (key : string) (s : Service) : option Drone.t := a ← drones s !! key; heap s !! a.
Definition GetAll (ord : list string) (s : Service) : list Drone.t := omap (fun key => GetByKey key s) ord.
Definition isUnknown (d : Drone.t) : bool := match Drone.Status_ d with StatusUnknown => true | _ => false end.
Definition GetActive (ord : list string) (s : Service) : list Drone.t := List.filter isUnknown (GetAll ord s).

(** The address of the first drone in the order of the range with the UUID. *)
Definition hasID (id : string) (s : Service) (key : string) : bool :=
  match GetByKey key s with Some d => bool_decide (Drone.ID d = id) | None => false end.
Definition findByID (ord : list string) (id : string) (s : Service) : option Z :=
  key ← List.find (hasID id s) ord; drones s !! key.
Definition GetByID (ord : list string) (id : string) (s : Service) : option Drone.t :=
  a ← findByID ord id s; heap s !! a.

Definition enqueuePersist (key : string) (s : Service) : Service := set_queue (persistQueue s ∪ {[key]}) true s.

(** [false] is [ErrDroneNotFound]. *)
Definition UpdateStatus (ord : list string) (key : string) (status : Status) (s : Service) : Service * bool :=
  match (match drones s !! key with Some a => Some a | None => findByID ord key s end) with
  | None => (s, false)
  | Some a =>
      match heap s !! a with
      | None => (s, false)
      | Some d =>
          let d := Drone.set_Status status d in
          (enqueuePersist key (Broadcast (DroneStatus d) (store a d s)), true)
      end
  end.

(** *** Detections *)
Definition newDrone (uuid : string) (now : Z) (det : Detection.t) : Drone.t :=
  let z := S754_zero false in
  Drone.mk uuid (Detection.MAC det) (Detection.SerialNumber det) (Detection.UASID det) (Detection.OperatorID det) (Detection.UAType det)
    EmptyString EmptyString z z z z z z z z 0 StatusUnknown (Detection.Source det) EmptyString EmptyString None now 0.

(** The assignments of [HandleDetection] after the lookup of the drone. *)
Definition observed (nodeID siteID : string) (now : Z) (det : Detection.t) (d : Drone.t) : Drone.t :=
  Drone.mk (Drone.ID d) (Drone.MAC d) (Drone.SerialNumber d) (Drone.UASID d) (Drone.OperatorID d) (Drone.UAType d)
    (orElse (Detection.Manufacturer det) (Drone.Manufacturer d)) (orElse (Detection.Model det) (Drone.Model d))
    (Detection.Latitude det) (Detection.Longitude det) (Detection.Altitude det) (Detection.Speed det) (Detection.Heading det)
    (Detection.VerticalSpeed det) (Detection.PilotLatitude det) (Detection.PilotLongitude det) (Detection.RSSI det)
    (Drone.Status_ d) (Drone.Source d) (orElse nodeID (Drone.NodeRefID d)) (orElse siteID (Drone.SiteID d))
    (Drone.FAAData d) (Drone.FirstSeen d) now.

(** What a call of [HandleDetection] is given: the clock when a drone is made
    and when it is updated, the random UUID, the node service and the fences. *)
Record env : Type := mkEnv {
  firstNow : Z;
  lastNow : Z;
  uuid : string;
  nodeLookup : Z -> string * string;
  geofenceCheck : spec_float -> spec_float -> string -> list GeofenceHit
}.

(** Which callbacks are set. *)
Record wiring : Type := mkWiring {
  hasLookup : bool; hasInventory : bool; hasFAA : bool; hasCheck : bool; hasNotify : bool
}.

(** [nowInside]: of hits with one id the last counts. *)
Definition nowInside (hits : list GeofenceHit) : gmap string GeofenceHit :=
  fold_left (fun m h => <[hitID h := h]> m) hits ∅.

Definition entityOf (d : Drone.t) : string := orElse (Drone.UASID d) (Drone.MAC d).

Definition breachMessage (entityID : string) (h : GeofenceHit) : string :=
  orElse (Replace1 (Replace1 (hitAlarmMessage h) "{entity}" ("drone/" +:+ entityID)) "{geofence}" (hitName h))
         ("drone/" +:+ entityID +:+ " entered geofence " +:+ hitName h).

Definition breach (d : Drone.t) (h : GeofenceHit) : call :=
  GeofenceNotify (hitID h) (hitName h) "drone" (entityOf d) (Drone.Latitude d) (Drone.Longitude d) (hitAlarmLevel h)
    (breachMessage (entityOf d) h) (hitNotifyWebhook h).

Section Service.
Variable w : wiring.
(** The order of a range over [nowInside]. *)
Variable rangeOrder : gmap string GeofenceHit -> list string.
(** [json.Unmarshal] of a payload. *)
Variable ParseDetectionPayload : bytes -> option Detection.t.
(** The columns of the unique indexes of the table drones. *)
Variable uniques : list (list string).

Definition evaluateGeofences (hits : list GeofenceHit) (key : string) (d : Drone.t) (s : Service) : Service :=
  let now := nowInside hits in
  let prev := default ∅ (geofenceState s !! key) in
  let entered := List.filter (fun id => negb (bool_decide (id ∈ prev))) (rangeOrder now) in
  let s := if hasNotify w then set_calls (calls s ++ map (breach d) (omap (fun id => now !! id) entered)) s else s in
  set_geofenceState (<[key := dom now]> (geofenceState s)) s.

Definition located (lat lon : spec_float) : bool := negb (isZero64 lat) && negb (isZero64 lon).

Definition HandleDetection (e : env) (det : Detection.t) (s : Service) : Service :=
  let key := Key det in
  let '(a, s) :=
    match drones s !! key with
    | Some a => (a, s)
    | None => alloc key (newDrone (uuid e) (firstNow e) det) s
    end in
  match heap s !! a with
  | None => s
  | Some d =>
      let '(nodeID, siteID) :=
        if hasLookup w && (0 <? Detection.NodeNum det) then nodeLookup e (Detection.NodeNum det) else (EmptyString, EmptyString) in
      let d := observed nodeID siteID (lastNow e) det d in
      let s := store a d s in
      let s := if hasInventory w && negb (isEmpty (Drone.MAC d))
               then invoke (Inventory (Drone.MAC d) (Drone.Manufacturer d) EmptyString (Drone.RSSI d)) s else s in
      let s := Broadcast (DroneTelemetry d) s in
      let s := if hasCheck w && located (Drone.Latitude d) (Drone.Longitude d)
               then evaluateGeofences (geofenceCheck e (Drone.Latitude d) (Drone.Longitude d) "drone") key d s else s in
      let hasAnyKey := negb (isEmpty (Drone.SerialNumber d)) || negb (isEmpty (Drone.MAC d)) || negb (isEmpty (Drone.UASID d)) in
      let s := if bool_decide (Drone.FAAData d = None) && hasAnyKey
               then go (Enrich a (Drone.UASID d) (Drone.MAC d) (Drone.SerialNumber d)) s else s in
      go (PersistDetection a det) (enqueuePersist key s)
  end.

Definition HandleDroneDetection (e : env) (from : Z) (payload : bytes) (s : Service) : Service :=
  match ParseDetectionPayload payload with
  | None => s
  | Some det => HandleDetection e (Detection.received from det) s
  end.

Definition ClearMemory (s : Service) : Service := set_drones ∅ s.
Definition DeleteRows (ok : bool) (s : Service) : Service := if ok then set_rows [] s else s.

Definition Remove (key : string) (s : Service) : Service :=
  match drones s !! key with
  | None => s
  | Some a =>
      let s' := set_drones (delete key (drones s)) s in
      match heap s !! a with
      | Some d => Broadcast (DroneRemove (Drone.ID d) (Drone.MAC d)) s'
      | None => s'
      end
  end.

(** *** The database *)

(** ON CONFLICT (mac) needs a unique index on exactly that column; without one
    the statement is an error, whatever the rows. *)
Definition arbiter : bool := bool_decide (["mac"] ∈ uniques).

(** The SET list of the conflict action. *)
Definition overwritten (new old : Drone.t) : Drone.t :=
  Drone.mk (Drone.ID old) (Drone.MAC old) (Drone.SerialNumber old) (Drone.UASID old) (Drone.OperatorID old) (Drone.UAType old)
    (Drone.Manufacturer old) (Drone.Model old) (Drone.Latitude new) (Drone.Longitude new) (Drone.Altitude new) (Drone.Speed new)
    (Drone.Heading new) (Drone.VerticalSpeed new) (Drone.PilotLatitude new) (Drone.PilotLongitude new) (Drone.RSSI new)
    (Drone.Status_ old) (Drone.Source old) (Drone.NodeRefID old) (Drone.SiteID old)
    (match Drone.FAAData new with Some v => Some v | None => Drone.FAAData old end) (Drone.FirstSeen old) (Drone.LastSeen new).

Fixpoint upsert (d : Drone.t) (rs : list Row) : list Row :=
  match rs with
  | [] => [mkRow d]
  | r :: rs => if bool_decide (rMAC r = Drone.MAC d) then mkRow (overwritten d (rDrone r)) :: rs else r :: upsert d rs
  end.

Definition persistDrone (ok : bool) (d : Drone.t) (s : Service) : Service :=
  if arbiter && ok then set_rows (upsert d (rows s)) s else s.

(** [loadPersistedFAA]; LIMIT 1 takes any row, here the first. *)
Definition loadPersistedFAA (ok : bool) (mac : string) (s : Service) : option faa :=
  if isEmpty mac then None
  else if ok then
    match List.find (fun r => bool_decide (rMAC r = mac) && bool_decide (is_Some (Drone.FAAData (rDrone r)))) (rows s) with
    | Some r => Drone.FAAData (rDrone r)
    | None => None
    end
  else None.

Definition persistDetection (ok : bool) (now : Z) (d : Drone.t) (det : Detection.t) (s : Service) : Service :=
  if ok then set_detections (detections s ++ [mkRecord (Drone.MAC d) (Drone.SerialNumber d) det now]) s else s.

(** The outcome of a goroutine's step: the database's verdict, its clock, and
    the answer of the registry. *)
Record verdict : Type := mkVerdict { accepts : bool; clock : Z; registry : string -> string -> string -> option faa }.

Definition RunJob (v : verdict) (j : job) (s : Service) : Service :=
  match j with
  | Enrich a droneID mac serial =>
      match loadPersistedFAA (accepts v) mac s with
      | Some data => go (SetFAA a data false) s
      | None => if hasFAA w then go (Lookup a droneID mac serial) s else s
      end
  | Lookup a droneID mac serial =>
      match registry v droneID mac serial with
      | Some data => go (SetFAA a data true) s
      | None => s
      end
  | SetFAA a data persist =>
      match heap s !! a with
      | None => s
      | Some d =>
          let d := Drone.set_FAAData (Some data) d in
          let s := Broadcast (DroneTelemetry d) (store a d s) in
          if persist then go (PersistDrone a) s else s
      end
  | PersistDrone a => match heap s !! a with Some d => persistDrone (accepts v) d s | None => s end
  | PersistDetection a det =>
      match heap s !! a with Some d => persistDetection (accepts v) (clock v) d det s | None => s end
  end.

(** [flushPersistQueue], when the timer fires; [ord] is the order of the queue. *)
Definition flushPersistQueue (ord : list string) (s : Service) : Service :=
  let keys := List.filter (fun key => bool_decide (key ∈ persistQueue s)) ord in
  let s := set_queue ∅ false s in
  set_jobs (jobs s ++ map PersistDrone (omap (fun key => drones s !! key) keys)) s.

(** [GetDetections]: newest first; rows of one time stand as the sort leaves them. *)
Fixpoint insertRecord (r : DetectionRecord) (l : list DetectionRecord) : list DetectionRecord :=
  match l with
  | [] => [r]
  | r' :: l' => if dTimestamp r <=? dTimestamp r' then r' :: insertRecord r l' else r :: l
  end.
Definition newestFirst (l : list DetectionRecord) : list DetectionRecord := foldr insertRecord [] l.

Definition recordLimit (limit : Z) : Z := if (limit <=? 0) || (200 <? limit) then 80 else limit.

Definition GetDetections (ok : bool) (ord : list string) (droneKey : string) (limit : Z) (s : Service) : option (list DetectionRecord) :=
  let droneKey :=
    match GetByID ord droneKey s with
    | Some d => if isEmpty (Drone.MAC d) then droneKey else Drone.MAC d
    | None => droneKey
    end in
  if ok then
    Some (take (Z.to_nat (recordLimit limit))
            (newestFirst (List.filter (fun r => bool_decide (dMAC r = droneKey) || bool_decide (dSerial r = droneKey)) (detections s))))
  else None.

Definition day : Z := 86400 * 10 ^ 9.
Definition PruneDetections (ok : bool) (now retentionDays : Z) (s : Service) : Service :=
  let retentionDays := if retentionDays <=? 0 then 30 else retentionDays in
  if ok then set_detections (List.filter (fun r => negb (dTimestamp r <? now - retentionDays * day)) (detections s)) s else s.

(** *** Runs *)
Inductive event : Type :=
| Detect (e : env) (det : Detection.t)
| Receive (e : env) (from : Z) (payload : bytes)
| SetStatus (ord : list string) (key : string) (status : Status)
| RemoveDrone (key : string)
| ClearDrones
| ClearRows (ok : bool)
| TimerFires (ord : list string)
| Step (i : nat) (v : verdict)       (** a step of the i-th started goroutine *)
| Prune (ok : bool) (now retentionDays : Z).

Definition exec (s : Service) (ev : event) : Service :=
  match ev with
  | Detect e det => HandleDetection e det s
  | Receive e from payload => HandleDroneDetection e from payload s
  | SetStatus ord key status => (UpdateStatus ord key status s).1
  | RemoveDrone key => Remove key s
  | ClearDrones => ClearMemory s
  | ClearRows ok => DeleteRows ok s
  | TimerFires ord => if timer s then flushPersistQueue ord s else s
  | Step i v => match jobs s !! i with
                | Some j => RunJob v j (set_jobs (delete i (jobs s)) s)
                | None => s
                end
  | Prune ok now retentionDays => PruneDetections ok now retentionDays s
  end.
Definition run (evs : list event) (s : Service) : Service := fold_left exec evs s.
End Service.

(** The unique indexes of the migrations: the primary key; idx_drones_mac is not
    unique. *)
Definition migrated : list (list string) := [["id"]].

(** ** Lemmas *)

(** *** What an event says about positions *)
Definition breaches (cs : list call) : list string :=
  omap (fun c => match c with GeofenceNotify id _ _ _ _ _ _ _ _ => Some id | _ => None end) cs.

Lemma breaches_app c1 c2 : breaches (c1 ++ c2) = breaches c1 ++ breaches c2.
Proof. apply omap_app. Qed.

Lemma nowInside_ids hits : dom (nowInside hits) = list_to_set (hitID <$> hits).
Proof.
  unfold nowInside. assert (Hf : forall m : gmap string GeofenceHit,
    dom (fold_left (fun m h => <[hitID h := h]> m) hits m) = dom m ∪ list_to_set (hitID <$> hits)).
  { induction hits as [|h hits IH]; intros m; cbn [fold_left fmap list_fmap list_to_set]; [set_solver|].
    rewrite IH, dom_insert_L. set_solver. }
  rewrite Hf, dom_empty_L. set_solver.
Qed.

Lemma nowInside_ID hits id h : nowInside hits !! id = Some h -> hitID h = id.
Proof.
  unfold nowInside. assert (Hf : forall m : gmap string GeofenceHit, (forall id h, m !! id = Some h -> hitID h = id) ->
    forall id h, fold_left (fun m h => <[hitID h := h]> m) hits m !! id = Some h -> hitID h = id).
  { induction hits as [|h' hits IH]; intros m Hm; [exact Hm|]. cbn [fold_left]. apply IH.
    intros i x [[<- <-]|[_ Hx]]%lookup_insert_Some; [done|by apply Hm]. }
  apply Hf. intros ? ? Hx. by rewrite lookup_empty in Hx.
Qed.

Lemma nowInside_elem hits id h : nowInside hits !! id = Some h -> h ∈ hits.
Proof.
  unfold nowInside. assert (Hf : forall m : gmap string GeofenceHit,
    fold_left (fun m h => <[hitID h := h]> m) hits m !! id = Some h -> m !! id = Some h \/ h ∈ hits).
  { induction hits as [|h' hits IH]; intros m Hm; [by left|]. cbn [fold_left] in Hm. apply IH in Hm as [Hm|Hm]; [|set_solver].
    apply lookup_insert_Some in Hm as [[_ <-]|[_ Hm]]; [set_solver|by left]. }
  intros [Hm|Hm]%Hf; [by rewrite lookup_empty in Hm|done].
Qed.

(** A call for the fence of a hit, at the position of a detection. *)
Definition notifies (e : env) (det : Detection.t) (c : call) : Prop :=
  match c with
  | GeofenceNotify id name kind _ lat lon level _ hook =>
      kind = "drone" /\ lat = Detection.Latitude det /\ lon = Detection.Longitude det /\
      exists h, h ∈ geofenceCheck e lat lon "drone" /\ id = hitID h /\ name = hitName h /\ level = hitAlarmLevel h /\ hook = hitNotifyWebhook h
  | Inventory _ _ _ _ => True
  end.

Section Facts.
Variable w : wiring.
Variable rangeOrder : gmap string GeofenceHit -> list string.
Variable ParseDetectionPayload : bytes -> option Detection.t.
Variable uniques : list (list string).
Abbreviation exec := (exec w rangeOrder ParseDetectionPayload uniques).
Abbreviation run := (run w rangeOrder ParseDetectionPayload uniques).

(** The detection an event hands to [HandleDetection]. *)
Definition sighting (ev : event) : option (env * Detection.t) :=
  match ev with
  | Detect e det => Some (e, det)
  | Receive e from payload => (fun det => (e, Detection.received from det)) <$> ParseDetectionPayload payload
  | _ => None
  end.

(** The fences around the drone, when the event gives it a position. *)
Definition inside (e : env) (det : Detection.t) : gset string :=
  list_to_set (hitID <$> geofenceCheck e (Detection.Latitude det) (Detection.Longitude det) "drone").
Definition position (ev : event) : option (string * gset string) :=
  match sighting ev with
  | Some (e, det) =>
      if located (Detection.Latitude det) (Detection.Longitude det) then Some (Key det, inside e det) else None
  | None => None
  end.

(** The fences around the drone at its last position before. *)
Definition lastStep (key : string) (acc : gset string) (ev : event) : gset string :=
  match position ev with
  | Some (k, ids) => if bool_decide (k = key) then ids else acc
  | None => acc
  end.
Definition lastInside (evs : list event) (key : string) : gset string := fold_left (lastStep key) evs ∅.

(** *** The map and the heap *)
Definition droneKey (d : Drone.t) : string :=
  orElse (Drone.MAC d) (orElse (Drone.SerialNumber d) (orElse (Drone.UASID d) "unknown")).

Lemma droneKey_new u now det : droneKey (newDrone u now det) = Key det.
Proof. unfold droneKey, newDrone, Key, orElse. cbn. by destruct (isEmpty _), (isEmpty _), (isEmpty _). Qed.

Definition keyed (s : Service) : Prop :=
  (forall a, is_Some (heap s !! a) -> a < next s) /\
  (forall key a, drones s !! key = Some a -> exists d, heap s !! a = Some d /\ droneKey d = key).

Lemma keyed_new rs ds : keyed (NewService rs ds).
Proof. split; [intros a [x Hx]|intros key a Hx]; cbn in Hx; by rewrite lookup_empty in Hx. Qed.

Lemma keyed_store s a d d' :
  heap s !! a = Some d -> droneKey d' = droneKey d -> keyed s -> keyed (store a d' s).
Proof.
  intros Ha Hd [H1 H2]. split; cbn.
  - intros b [x [[<- _]|[_ Hx]]%lookup_insert_Some]; [apply H1; by eexists|apply H1; by eexists].
  - intros key b Hk. destruct (H2 _ _ Hk) as (x & Hx & Hkey). destruct (decide (b = a)) as [->|Hne].
    + rewrite lookup_insert_eq. exists d'. split; [done|]. by simplify_eq.
    + rewrite lookup_insert_ne by done. by exists x.
Qed.

(** Steps that leave the map and the heap alone. *)
Definition sameDrones (s s' : Service) : Prop := drones s' = drones s /\ heap s' = heap s /\ next s' = next s.

Lemma keyed_same s s' : sameDrones s s' -> keyed s -> keyed s'.
Proof. intros (H1 & H2 & H3) [Ha Hb]. unfold keyed. by rewrite H1, H2, H3. Qed.

Lemma same_Broadcast e s : sameDrones s (Broadcast e s).
Proof. unfold Broadcast. by destruct (sendable e). Qed.

Lemma same_if (b : bool) s s1 s2 : sameDrones s s1 -> sameDrones s s2 -> sameDrones s (if b then s1 else s2).
Proof. by destruct b. Qed.

Lemma same_trans s1 s2 s3 : sameDrones s1 s2 -> sameDrones s2 s3 -> sameDrones s1 s3.
Proof. unfold sameDrones. intuition congruence. Qed.

Lemma same_evaluate hits key d s : sameDrones s (evaluateGeofences w rangeOrder hits key d s).
Proof. unfold evaluateGeofences. by destruct (hasNotify w). Qed.

Lemma droneKey_observed nodeID siteID now det d : droneKey (observed nodeID siteID now det d) = droneKey d.
Proof. done. Qed.

(** The drone of a detection. *)
Definition obtain (e : env) (det : Detection.t) (s : Service) : Z * Service :=
  match drones s !! Key det with
  | Some a => (a, s)
  | None => alloc (Key det) (newDrone (uuid e) (firstNow e) det) s
  end.

Lemma obtain_drone e det s a s1 :
  keyed s -> obtain e det s = (a, s1) ->
  keyed s1 /\ geofenceState s1 = geofenceState s /\ calls s1 = calls s /\ rows s1 = rows s /\
  drones s1 !! Key det = Some a /\ exists d, heap s1 !! a = Some d /\ droneKey d = Key det.
Proof.
  intros [H1 H2] Ho. unfold obtain, alloc in Ho. destruct (drones s !! Key det) as [b|] eqn:Hb; simplify_eq.
  - destruct (H2 _ _ Hb) as (d & Hd & Hk). split_and!; try done. by exists d.
  - assert (Hfresh : forall b, is_Some (heap s !! b) -> b <> next s) by (intros b Hs ->; apply H1 in Hs; lia).
    split_and!; cbn; try done; [|apply lookup_insert_eq|eexists; rewrite lookup_insert_eq; split; [done|apply droneKey_new]].
    split; cbn.
    + intros b [x [[<- _]|[_ Hx]]%lookup_insert_Some]; [lia|]. specialize (H1 b ltac:(by eexists)). lia.
    + intros key b [[<- <-]|[_ Hk]]%lookup_insert_Some.
      * eexists. rewrite lookup_insert_eq. split; [done|apply droneKey_new].
      * destruct (H2 _ _ Hk) as (d & Hd & Hkey). exists d. rewrite lookup_insert_ne; [done|]. intros Heq.
        apply (Hfresh b); [by eexists|done].
Qed.

(** The state after the callbacks of a detection, but for the goroutines and the
    queue of writes. *)
Definition noticed (e : env) (key : string) (d : Drone.t) (s : Service) : Service :=
  let s := if hasInventory w && negb (isEmpty (Drone.MAC d))
           then invoke (Inventory (Drone.MAC d) (Drone.Manufacturer d) EmptyString (Drone.RSSI d)) s else s in
  let s := Broadcast (DroneTelemetry d) s in
  if hasCheck w && located (Drone.Latitude d) (Drone.Longitude d)
  then evaluateGeofences w rangeOrder (geofenceCheck e (Drone.Latitude d) (Drone.Longitude d) "drone") key d s else s.

Record quiet (s s' : Service) : Prop := {
  quiet_same : sameDrones s s';
  quiet_fences : geofenceState s' = geofenceState s;
  quiet_calls : calls s' = calls s;
  quiet_rows : rows s' = rows s
}.

Lemma quiet_Broadcast e s : quiet s (Broadcast e s).
Proof. unfold Broadcast. by destruct (sendable e). Qed.

Lemma HandleDetection_eval e det s :
  keyed s -> exists a d0 s1,
    obtain e det s = (a, s1) /\ heap s1 !! a = Some d0 /\
    exists d, droneKey d = droneKey d0 /\ Drone.Latitude d = Detection.Latitude det /\ Drone.Longitude d = Detection.Longitude det /\
      quiet (noticed e (Key det) d (store a d s1)) (HandleDetection w rangeOrder e det s).
Proof.
  intros Hk. unfold HandleDetection. fold (obtain e det s). destruct (obtain e det s) as [a s1] eqn:Ho.
  destruct (obtain_drone e det s a s1 Hk Ho) as (_ & _ & _ & _ & _ & d0 & Hd0 & _).
  exists a, d0, s1. split; [done|]. split; [done|]. rewrite Hd0.
  destruct (if hasLookup w && _ then _ else _) as [nodeID siteID].
  exists (observed nodeID siteID (lastNow e) det d0). split_and!; try done.
  fold (noticed e (Key det) (observed nodeID siteID (lastNow e) det d0)
         (store a (observed nodeID siteID (lastNow e) det d0) s1)).
  by destruct (bool_decide _ && _).
Qed.

Lemma same_noticed e key d s : sameDrones s (noticed e key d s).
Proof.
  unfold noticed. set (s1 := if hasInventory w && _ then _ else _).
  assert (H1 : sameDrones s s1) by by apply same_if.
  assert (H2 : sameDrones s (Broadcast (DroneTelemetry d) s1)) by by eapply same_trans, same_Broadcast.
  apply same_if; [|done]. by eapply same_trans, same_evaluate.
Qed.

Lemma keyed_HandleDetection e det s : keyed s -> keyed (HandleDetection w rangeOrder e det s).
Proof.
  intros Hk. destruct (HandleDetection_eval e det s Hk) as (a & d0 & s1 & Ho & Hd0 & d & Hd & _ & _ & [Hq _ _ _]).
  destruct (obtain_drone e det s a s1 Hk Ho) as (Hk1 & _). eapply keyed_same; [exact Hq|].
  apply (keyed_same (store a d s1)); [apply same_noticed|by eapply keyed_store].
Qed.

Lemma rows_noticed e key d s : rows (noticed e key d s) = rows s.
Proof.
  unfold noticed, evaluateGeofences. destruct (hasInventory w && _), (hasCheck w && _), (hasNotify w); cbn;
    unfold Broadcast; by destruct (sendable _).
Qed.

Lemma rows_HandleDetection e det s : keyed s -> rows (HandleDetection w rangeOrder e det s) = rows s.
Proof.
  intros Hk. destruct (HandleDetection_eval e det s Hk) as (a & d0 & s1 & Ho & _ & d & _ & _ & _ & [_ _ _ Hq]).
  destruct (obtain_drone e det s a s1 Hk Ho) as (_ & _ & _ & Hr & _). by rewrite Hq, rows_noticed.
Qed.

(** *** The other events *)
Lemma keyed_delete key s : keyed s -> keyed (set_drones (delete key (drones s)) s).
Proof. intros [H1 H2]. split; [done|]. cbn. intros k a [_ Hk]%lookup_delete_Some. by apply H2. Qed.

Lemma keyed_SetFAA a v d s : heap s !! a = Some d -> keyed s -> keyed (store a (Drone.set_FAAData v d) s).
Proof. intros Ha. by eapply keyed_store. Qed.

Lemma same_RunJob v j s :
  (forall a data p, j <> SetFAA a data p) -> sameDrones s (RunJob w uniques v j s).
Proof.
  intros Hj. destruct j as [a i m se|a i m se|a data p|a|a det]; cbn [RunJob].
  - destruct (loadPersistedFAA _ _ _); [done|by destruct (hasFAA w)].
  - by destruct (registry v i m se).
  - by destruct (Hj a data p).
  - destruct (heap s !! a); [|done]. unfold persistDrone. by destruct (_ && _).
  - destruct (heap s !! a); [|done]. unfold persistDetection. by destruct (accepts v).
Qed.

Lemma keyed_RunJob v j s : keyed s -> keyed (RunJob w uniques v j s).
Proof.
  intros Hk. destruct j as [| |a data p| |]; try (eapply keyed_same; [by apply same_RunJob|done]).
  cbn [RunJob]. destruct (heap s !! a) as [d|] eqn:Ha; [|done].
  apply (keyed_same (store a (Drone.set_FAAData (Some data) d) s)); [|by eapply keyed_SetFAA].
  destruct p; eapply same_trans; [apply same_Broadcast|done|apply same_Broadcast|done].
Qed.

Lemma keyed_exec ev s : keyed s -> keyed (exec s ev).
Proof.
  intros Hk. destruct ev as [e det|e from payload|ord key status|key| |ok|ord|i v|ok now days]; cbn [Drones.exec].
  - by apply keyed_HandleDetection.
  - unfold HandleDroneDetection. destruct (ParseDetectionPayload payload); [by apply keyed_HandleDetection|done].
  - unfold UpdateStatus. destruct (match drones s !! key with Some _ => _ | None => _ end) as [a|]; [|done].
    destruct (heap s !! a) as [d|] eqn:Ha; [|done]. cbn [fst].
    apply (keyed_same (store a (Drone.set_Status status d) s)); [|by eapply keyed_store].
    eapply same_trans; [apply same_Broadcast|done].
  - unfold Remove. destruct (drones s !! key) as [a|]; [|done]. apply (keyed_same (set_drones (delete key (drones s)) s)); [|by apply keyed_delete].
    destruct (heap s !! a); [apply same_Broadcast|done].
  - split; [apply Hk|]. intros key a Hl. cbn in Hl. by rewrite lookup_empty in Hl.
  - by destruct ok.
  - destruct (timer s); [|done]. eapply keyed_same; [|done]. done.
  - destruct (jobs s !! i) as [j|]; [|done]. apply keyed_RunJob. eapply keyed_same; [|done]. done.
  - unfold PruneDetections. by destruct ok.
Qed.

Lemma keyed_run evs s : keyed s -> keyed (run evs s).
Proof. revert s. induction evs as [|ev evs IH]; intros s Hk; [done|]. by apply IH, keyed_exec. Qed.

Lemma quiet_exec ev s :
  sighting ev = None -> geofenceState (exec s ev) = geofenceState s /\ calls (exec s ev) = calls s.
Proof.
  intros Hs. destruct ev as [e det|e from payload|ord key status|key| |ok|ord|i v|ok now days]; cbn [Drones.exec]; try done.
  - unfold HandleDroneDetection. cbn in Hs. by destruct (ParseDetectionPayload payload).
  - unfold UpdateStatus. destruct (match drones s !! key with Some _ => _ | None => _ end) as [a|]; [|done].
    destruct (heap s !! a) as [d|]; [|done]. cbn. unfold Broadcast. by destruct (sendable _).
  - unfold Remove. destruct (drones s !! key) as [a|]; [|done]. destruct (heap s !! a); [|done].
    unfold Broadcast. by destruct (sendable _).
  - by destruct ok.
  - by destruct (timer s).
  - destruct (jobs s !! i) as [j|]; [|done]. destruct j as [a d m se|a d m se|a data p|a|a det]; cbn [RunJob].
    + destruct (loadPersistedFAA _ _ _); [done|by destruct (hasFAA w)].
    + by destruct (registry v d m se).
    + cbn [heap set_jobs]. destruct (heap s !! a); [|done]. unfold Broadcast. by destruct (sendable _), p.
    + cbn [heap set_jobs]. destruct (heap s !! a); [|done]. unfold persistDrone. by destruct (_ && _).
    + cbn [heap set_jobs]. destruct (heap s !! a); [|done]. unfold persistDetection. by destruct (accepts v).
  - unfold PruneDetections. by destruct ok.
Qed.

Lemma exec_sighting ev s e det : sighting ev = Some (e, det) -> exec s ev = HandleDetection w rangeOrder e det s.
Proof.
  destruct ev; cbn; try done; [by intros [= -> ->]|]. unfold HandleDroneDetection.
  destruct (ParseDetectionPayload payload); [|done]. by intros [= <- <-].
Qed.

(** *** Entries *)
Hypothesis order_law : forall m, rangeOrder m ≡ₚ (map_to_list m).*1.
Hypothesis check_set : hasCheck w = true.
Hypothesis notify_set : hasNotify w = true.

(** The calls for the fences entered. *)
Definition entries (hits : list GeofenceHit) (prev : gset string) (d : Drone.t) : list call :=
  map (breach d) (omap (fun id => nowInside hits !! id)
    (List.filter (fun id => negb (bool_decide (id ∈ prev))) (rangeOrder (nowInside hits)))).

Lemma breaches_entries hits prev d : breaches (entries hits prev d) ≡ₚ elements (list_to_set (hitID <$> hits) ∖ prev).
Proof.
  assert (Hid : forall ids, (forall id, id ∈ ids -> id ∈ dom (nowInside hits)) ->
    breaches (map (breach d) (omap (fun id => nowInside hits !! id) ids)) = ids).
  { induction ids as [|id ids IH]; intros Hin; [done|]. cbn [omap list_omap].
    destruct (nowInside hits !! id) as [h|] eqn:Hh.
    - cbn. rewrite (nowInside_ID _ _ _ Hh). f_equal. apply IH. intros i Hi. apply Hin. by constructor.
    - apply not_elem_of_dom in Hh. destruct Hh. apply Hin. by constructor. }
  unfold entries. rewrite Hid.
  - apply NoDup_Permutation; [|apply NoDup_elements|].
    + apply NoDup_ListNoDup, List.NoDup_filter, NoDup_ListNoDup. rewrite (order_law _). apply NoDup_fst_map_to_list.
    + intros id. rewrite elem_of_elements, elem_of_difference, <- nowInside_ids, elem_of_dom.
      rewrite list_elem_of_In, filter_In, <- list_elem_of_In, (order_law _), negb_true_iff, bool_decide_eq_false.
      f_equiv. rewrite list_elem_of_fmap. split.
      * intros ([i h] & -> & Hm%elem_of_map_to_list). by exists h.
      * intros [h Hh]. exists (id, h). split; [done|]. by apply elem_of_map_to_list.
  - intros id [Hi _]%list_elem_of_In%filter_In. apply list_elem_of_In in Hi. rewrite (order_law _) in Hi.
    apply list_elem_of_fmap in Hi as ([i h] & -> & Hm%elem_of_map_to_list). apply elem_of_dom. by exists h.
Qed.

Lemma noticed_effect e key d s :
  let ids : gset string := list_to_set (hitID <$> geofenceCheck e (Drone.Latitude d) (Drone.Longitude d) "drone") in
  let prev := default ∅ (geofenceState s !! key) in
  let hits := geofenceCheck e (Drone.Latitude d) (Drone.Longitude d) "drone" in
  exists before, breaches before = [] /\ Forall (fun c => match c with GeofenceNotify _ _ _ _ _ _ _ _ _ => False | _ => True end) before /\
    if located (Drone.Latitude d) (Drone.Longitude d)
    then calls (noticed e key d s) = calls s ++ before ++ entries hits prev d /\
         geofenceState (noticed e key d s) = <[key := ids]> (geofenceState s)
    else calls (noticed e key d s) = calls s ++ before /\ geofenceState (noticed e key d s) = geofenceState s.
Proof.
  intros ids prev hits. unfold noticed. set (s1 := if hasInventory w && _ then _ else _).
  assert (Hs1 : exists before, breaches before = [] /\
    Forall (fun c => match c with GeofenceNotify _ _ _ _ _ _ _ _ _ => False | _ => True end) before /\
    calls s1 = calls s ++ before /\ geofenceState s1 = geofenceState s).
  { subst s1. destruct (hasInventory w && _); [|exists []; by rewrite app_nil_r].
    exists [Inventory (Drone.MAC d) (Drone.Manufacturer d) EmptyString (Drone.RSSI d)].
    split; [done|]. split; [by repeat constructor|done]. }
  destruct Hs1 as (before & Hb & Hfa & Hc & Hg). exists before. split; [done|]. split; [done|].
  destruct (quiet_Broadcast (DroneTelemetry d) s1) as [_ Hg2 Hc2 _]. rewrite Hg in Hg2. rewrite Hc in Hc2.
  rewrite check_set. cbn [andb]. destruct (located _ _); [|done].
  unfold evaluateGeofences. rewrite notify_set, Hg2. cbn [calls geofenceState set_calls set_geofenceState].
  rewrite Hc2, Hg2, nowInside_ids. split; [|done]. by rewrite <- app_assoc.
Qed.

Lemma lastInside_snoc evs ev key : lastInside (evs ++ [ev]) key = lastStep key (lastInside evs key) ev.
Proof. unfold lastInside. by rewrite fold_left_app. Qed.

(** One event of a state whose fences are [last]. *)
Lemma exec_entries ev s :
  keyed s -> exists new,
    calls (exec s ev) = calls s ++ new /\
    breaches new ≡ₚ
      match position ev with
      | Some (key, ids) => elements (ids ∖ default ∅ (geofenceState s !! key))
      | None => []
      end /\
    (forall e det, sighting ev = Some (e, det) -> Forall (notifies e det) new) /\
    geofenceState (exec s ev) =
      match position ev with Some (key, ids) => <[key := ids]> (geofenceState s) | None => geofenceState s end.
Proof.
  intros Hk. unfold position. destruct (sighting ev) as [[e det]|] eqn:Hs.
  2:{ destruct (quiet_exec ev s Hs) as [Hg Hc]. exists []. by rewrite Hc, app_nil_r. }
  rewrite (exec_sighting _ _ _ _ Hs). clear Hs.
  destruct (HandleDetection_eval e det s Hk) as (a & d0 & s1 & Ho & Hd0 & d & _ & Hlat & Hlon & [_ Hg Hc _]).
  destruct (obtain_drone e det s a s1 Hk Ho) as (_ & Hg1 & Hc1 & _). rewrite Hg, Hc.
  destruct (noticed_effect e (Key det) d (store a d s1)) as (before & Hb & Hfa & Hl). rewrite Forall_forall in Hfa.
  cbn [calls geofenceState store set_heap] in Hl. rewrite Hg1, Hc1, Hlat, Hlon in Hl. unfold inside.
  destruct (located (Detection.Latitude det) (Detection.Longitude det)); destruct Hl as [-> ->].
  - eexists. split; [done|]. rewrite breaches_app, Hb, breaches_entries. split_and!; try done.
    intros ? ? [= <- <-]. apply Forall_app. split; [by apply Forall_forall; intros [] ?%Hfa|].
    apply Forall_forall. intros c (h & -> & Hh)%list_elem_of_fmap. cbn. rewrite Hlat, Hlon. split_and!; try done.
    apply list_elem_of_omap in Hh as (id & _ & Hh). exists h. split; [by eapply nowInside_elem|done].
  - exists before. rewrite Hb. split_and!; try done. intros ? ? [= <- <-]. by apply Forall_forall; intros [] ?%Hfa.
Qed.

Lemma fences_last evs s :
  keyed s -> (forall key, geofenceState s !! key = None) ->
  forall key, default ∅ (geofenceState (run evs s) !! key) = lastInside evs key.
Proof.
  intros Hk H0. induction evs as [|ev evs IH] using rev_ind; intros key; [unfold lastInside; cbn; by rewrite H0|].
  unfold Drones.run in *. rewrite fold_left_app. cbn [fold_left]. rewrite lastInside_snoc.
  destruct (exec_entries ev (run evs s)) as (_ & _ & _ & _ & Hg); [by apply keyed_run|]. unfold Drones.run in Hg. rewrite Hg.
  unfold lastStep. destruct (position ev) as [[k ids]|]; [|apply IH].
  case_bool_decide as Hd; [subst k; by rewrite lookup_insert_eq|]. rewrite lookup_insert_ne by done. apply IH.
Qed.
End Facts.

(** ** Properties *)

(** C7: The geofence alarms of drones are exactly the entries: whatever happened
    before, an event raises, once each and at the reported position, the fences that
    contain the new position and did not contain the last position the drone was
    seen at, and no other event raises any.  Detections without a position, other
    drones, changes of the status, and the removal of the drone or of all drones
    in between do not count: a drone that was removed inside a fence and is seen
    there again raises no alarm. *)
Theorem breaches_are_entries w rangeOrder parse uniques rs ds evs ev :
  (forall m, rangeOrder m ≡ₚ (map_to_list m).*1) -> hasCheck w = true -> hasNotify w = true ->
  let s := run w rangeOrder parse uniques evs (NewService rs ds) in
  exists new, calls (exec w rangeOrder parse uniques s ev) = calls s ++ new /\
    breaches new ≡ₚ
      match position parse ev with
      | Some (key, ids) => elements (ids ∖ lastInside parse evs key)
      | None => []
      end /\
    (forall e det, sighting parse ev = Some (e, det) -> Forall (notifies e det) new).
Proof.
  intros Ho Hc Hn s. pose proof (keyed_new rs ds) as Hk0.
  pose proof (keyed_run w rangeOrder parse uniques evs _ Hk0) as Hk. fold s in Hk.
  destruct (exec_entries w rangeOrder parse uniques Ho Hc Hn ev s Hk) as (new & H1 & H2 & H3 & _). exists new. split; [done|].
  split; [|done]. rewrite H2. destruct (position parse ev) as [[key ids]|]; [|done].
  by rewrite <- (fences_last w rangeOrder parse uniques Ho Hc Hn evs _ Hk0).
Qed.

Lemma rows_exec w rangeOrder parse uniques ev s :
  arbiter uniques = false -> keyed s -> rows s = [] -> rows (exec w rangeOrder parse uniques s ev) = [].
Proof.
  intros Ha Hk Hr. destruct ev as [e det|e from payload|ord key status|key| |ok|ord|i v|ok now days]; cbn [exec]; try done.
  - by rewrite rows_HandleDetection.
  - unfold HandleDroneDetection. destruct (parse payload); [by rewrite rows_HandleDetection|done].
  - unfold UpdateStatus. destruct (match drones s !! key with Some _ => _ | None => _ end) as [a|]; [|done].
    destruct (heap s !! a) as [d|]; [|done]. cbn. unfold Broadcast. by destruct (sendable _).
  - unfold Remove. destruct (drones s !! key) as [a|]; [|done]. destruct (heap s !! a); [|done].
    unfold Broadcast. by destruct (sendable _).
  - by destruct ok.
  - by destruct (timer s).
  - destruct (jobs s !! i) as [j|]; [|done]. destruct j as [a d m se|a d m se|a data p|a|a det]; cbn [RunJob].
    + destruct (loadPersistedFAA _ _ _); [done|by destruct (hasFAA w)].
    + by destruct (registry v d m se).
    + cbn [heap set_jobs]. destruct (heap s !! a); [|done]. unfold Broadcast. by destruct (sendable _), p.
    + cbn [heap set_jobs]. destruct (heap s !! a); [|done]. unfold persistDrone. by rewrite Ha.
    + cbn [heap set_jobs]. destruct (heap s !! a); [|done]. unfold persistDetection. by destruct (accepts v).
  - unfold PruneDetections. by destruct ok.
Qed.

(** C12: With the schema of the migrations no drone is ever written: the
    ON CONFLICT clause of [persistDrone] needs a unique index on the MAC and
    there is none, so whatever is detected, classified, enriched and flushed, the
    table drones stays empty, and the lookup of persisted FAA data finds nothing. *)
Theorem drones_never_stored w rangeOrder parse evs ds ok mac :
  let s := run w rangeOrder parse migrated evs (NewService [] ds) in
  rows s = [] /\ loadPersistedFAA ok mac s = None.
Proof.
  intros s. assert (Hr : rows s = []).
  { subst s. pose proof (keyed_new [] ds) as Hk. assert (H0 : rows (NewService [] ds) = []) by done.
    revert Hk H0. generalize (NewService [] ds) as s0. induction evs as [|ev evs IH]; intros s0 Hk H0; [done|].
    apply IH; [by apply keyed_exec|by apply rows_exec]. }
  split; [done|]. unfold loadPersistedFAA. rewrite Hr. by destruct (isEmpty mac), ok.
Qed.

Lemma keyed_distinct s k1 k2 a : keyed s -> drones s !! k1 = Some a -> drones s !! k2 = Some a -> k1 = k2.
Proof. intros [_ H] (d1 & H1 & <-)%H (d2 & H2 & <-)%H. by simplify_eq. Qed.

Lemma GetByKey_same s s' k : sameDrones s s' -> GetByKey k s' = GetByKey k s.
Proof. intros (H1 & H2 & _). unfold GetByKey. by rewrite H1, H2. Qed.

Lemma GetByKey_store s a d k k' :
  keyed s -> drones s !! k = Some a -> GetByKey k' (store a d s) = if bool_decide (k' = k) then Some d else GetByKey k' s.
Proof.
  intros Hk Ha. unfold GetByKey. cbn [drones heap store set_heap]. case_bool_decide as Heq.
  - subst k'. rewrite Ha. apply lookup_insert_eq.
  - destruct (drones s !! k') as [b|] eqn:Hb; [|done]. cbn. rewrite lookup_insert_ne; [done|].
    intros <-. by apply Heq, (keyed_distinct s k' k a).
Qed.

(** A detection changes the drone of its key and no other: a new drone gets the
    identifiers of the detection, the status UNKNOWN and the time; a known one keeps
    its UUID, identifiers, FAA data, first time and the operator's status, takes the telemetry
    as it is, also when the detection has no position, and keeps manufacturer,
    model, node and site unless the detection names them. *)
Theorem detection_effect w rangeOrder parse uniques evs rs ds e det key :
  let s := run w rangeOrder parse uniques evs (NewService rs ds) in
  let '(nodeID, siteID) :=
    if hasLookup w && (0 <? Detection.NodeNum det) then nodeLookup e (Detection.NodeNum det) else (EmptyString, EmptyString) in
  GetByKey key (HandleDetection w rangeOrder e det s) =
    if bool_decide (key = Key det)
    then Some (observed nodeID siteID (lastNow e) det (default (newDrone (uuid e) (firstNow e) det) (GetByKey key s)))
    else GetByKey key s.
Proof.
  intros s. assert (Hk : keyed s) by apply keyed_run, keyed_new. clearbody s.
  destruct (if hasLookup w && _ then _ else _) as [nodeID siteID] eqn:Hn.
  unfold HandleDetection. fold (obtain e det s). destruct (obtain e det s) as [a s1] eqn:Ho.
  destruct (obtain_drone e det s a s1 Hk Ho) as (Hk1 & _ & _ & _ & Ha & d0 & Hd0 & _). rewrite Hd0, Hn.
  fold (noticed w rangeOrder e (Key det) (observed nodeID siteID (lastNow e) det d0)
         (store a (observed nodeID siteID (lastNow e) det d0) s1)).
  set (d := observed nodeID siteID (lastNow e) det d0). set (s2 := if bool_decide _ && _ then _ else _).
  assert (Hs2 : sameDrones (store a d s1) s2) by (subst s2; destruct (bool_decide _ && _); apply same_noticed).
  rewrite (GetByKey_same s2 (go _ _)) by done. rewrite (GetByKey_same _ _ key Hs2), (GetByKey_store _ _ _ (Key det)) by done.
  assert (Hold : GetByKey key s1 = if bool_decide (key = Key det) then Some d0 else GetByKey key s).
  { unfold obtain in Ho. case_bool_decide as Heq; [subst key; unfold GetByKey; by rewrite Ha|].
    destruct (drones s !! Key det) as [b|] eqn:Hb; [by simplify_eq|]. unfold alloc in Ho. injection Ho as <- <-.
    unfold GetByKey. cbn [drones heap]. rewrite lookup_insert_ne by done. destruct (drones s !! key) as [c|] eqn:Hc; [|done]. cbn.
    rewrite lookup_insert_ne; [done|]. intros <-. destruct Hk as [H1 H2]. destruct (H2 _ _ Hc) as (x & Hx & _).
    specialize (H1 (next s) ltac:(by eexists)). lia. }
  case_bool_decide as Heq; [|by rewrite Hold]. subst key d. do 2 f_equal.
  unfold obtain in Ho. unfold GetByKey. destruct (drones s !! Key det) as [b|] eqn:Hb.
  - injection Ho as -> ->. cbn. by rewrite Hd0.
  - unfold alloc in Ho. injection Ho as <- <-. cbn [heap] in Hd0. rewrite lookup_insert_eq in Hd0. by simplify_eq.
Qed.

(** ** Witness *)
Definition sampleEnv : env :=
  mkEnv 1 1 "uuid" (fun _ => (EmptyString, EmptyString))
    (fun lat _ _ => if SFltb lat (floatZ 50) then [mkHit "f" "field" "ALERT" EmptyString false] else []).
Definition seen (mac : string) (lat : Z) : Detection.t :=
  let z := S754_zero false in
  Detection.mk mac EmptyString EmptyString EmptyString EmptyString EmptyString EmptyString (floatZ lat) (floatZ 8) z z z z z z (-40)
    EmptyString 0.
Definition allWired : wiring := mkWiring true true true true true.
Definition keyOrder (m : gmap string GeofenceHit) : list string := (map_to_list m).*1.

(** The drone enters, is removed, and is seen again at the same place. *)
Definition visit : list event :=
  [Detect sampleEnv (seen "aa" 51); Detect sampleEnv (seen "aa" 49); RemoveDrone "aa"].

Lemma breaches_are_entries_witness :
  (exists new, calls (run allWired keyOrder (fun _ => None) migrated (take 2 visit) (NewService [] [])) =
     calls (run allWired keyOrder (fun _ => None) migrated (take 1 visit) (NewService [] [])) ++ new /\ breaches new = ["f"]) /\
  exists new, calls (exec allWired keyOrder (fun _ => None) migrated
       (run allWired keyOrder (fun _ => None) migrated visit (NewService [] [])) (Detect sampleEnv (seen "aa" 49))) =
     calls (run allWired keyOrder (fun _ => None) migrated visit (NewService [] [])) ++ new /\ breaches new = [].
Proof.
  split.
  - destruct (breaches_are_entries allWired keyOrder (fun _ => None) migrated [] [] (take 1 visit) (Detect sampleEnv (seen "aa" 49)))
      as (new & H1 & H2 & _); [done..|]. exists new. split; [exact H1|]. apply Permutation_length_1_inv. symmetry.
    etransitivity; [exact H2|]. vm_compute. reflexivity.
  - destruct (breaches_are_entries allWired keyOrder (fun _ => None) migrated [] [] visit (Detect sampleEnv (seen "aa" 49)))
      as (new & H1 & H2 & _); [done..|]. exists new. split; [exact H1|]. apply Permutation_nil. symmetry.
    etransitivity; [exact H2|]. vm_compute. reflexivity.
Defined.
