(* ===== verification/Alerts.v ===== *)
(** Alert rules and events, [internal/alerts/service.go] and [evaluator.go].

    Rules are values: the code replaces a rule as a whole and changes in place
    only the time it last fired.  [Evaluate] takes a snapshot and then triggers
    each matching rule; the part of [Trigger] under the mutex and the rest of it
    are separate steps, so calls from several goroutines interleave.  The
    clock, the database's verdicts and the order of the map are arguments. *)
From Stdlib Require Import Floats.SpecFloat.
From S2P Require Import Prelude GoStrings GoFloat GoFloat32 GoTemplate.

(** ** Definitions *)
Inductive Severity : Type := SeverityInfo | SeverityNotice | SeverityAlert | SeverityCritical.
Definition severityString (s : Severity) : string :=
  match s with SeverityInfo => "INFO" | SeverityNotice => "NOTICE" | SeverityAlert => "ALERT" | SeverityCritical => "CRITICAL" end.

(** [interface{}] as [json.Unmarshal] fills it. *)
Inductive json : Type :=
| JNull
| JBool (b : bool)
| JNumber (f : spec_float)
| JString (s : string)
| JArray (l : list json)
| JObject (l : list (string * json)).

Module Rule.
Record t : Type := mk {
  ID : string; Name : string; Description : string; Condition : option (gmap string json); Severity_ : Severity;
  Enabled : bool; CooldownSeconds : Z; NotifyWebhook : bool; NotifyEmail : bool; EmailRecipients : string;
  NotifyVisual : bool; NotifyAudible : bool; LastTriggered : option Z
}.
Definition set_ID (id : string) (r : t) : t :=
  mk id (Name r) (Description r) (Condition r) (Severity_ r) (Enabled r) (CooldownSeconds r) (NotifyWebhook r) (NotifyEmail r)
     (EmailRecipients r) (NotifyVisual r) (NotifyAudible r) (LastTriggered r).
Definition set_LastTriggered (v : option Z) (r : t) : t :=
  mk (ID r) (Name r) (Description r) (Condition r) (Severity_ r) (Enabled r) (CooldownSeconds r) (NotifyWebhook r) (NotifyEmail r)
     (EmailRecipients r) (NotifyVisual r) (NotifyAudible r) v.
End Rule.

Record DetectionEvent : Type := mkDetection {
  MAC : string; OUI : string; SSID : string; Channel : Z; RSSI : Z; NodeID : string; NodeName : string
}.

(** The data maps the callers pass. *)
Inductive datum : Type := DString (s : string) | DInt (n : Z) | DFloat (f : spec_float).
Abbreviation data := (list (string * datum)).

Module Event.
Record t : Type := mk {
  RuleID : string; Severity_ : Severity; Title : string; Message : string; Data : data;
  NotifyVisual : bool; NotifyAudible : bool; CreatedAt : Z
}.
End Event.

(** *** Conditions *)
Section Conditions.
Context `{Unicode}.
(** [strings.EqualFold] when a string has characters outside ASCII. *)
Variable foldOther : string -> string -> bool.
(** [int(f)] of a float outside the range of an int. *)
Variable outOfRange : spec_float -> Z.

Definition EqualFold (s t : string) : bool :=
  if isASCII s && isASCII t then bool_decide (smap lowerASCII s = smap lowerASCII t) else foldOther s t.

Definition intOf (f : spec_float) : Z :=
  match f with
  | S754_zero _ => 0
  | S754_finite s m e =>
      let v := if 0 <=? e then Z.pos m * 2 ^ e else Z.pos m / 2 ^ (- e) in
      let v := if s then - v else v in
      if (- 2 ^ 63 <=? v) && (v <? 2 ^ 63) then v else outOfRange f
  | _ => outOfRange f
  end.

Definition stringField (cond : gmap string json) (key : string) : string :=
  match cond !! key with Some (JString s) => s | _ => EmptyString end.
Definition numberField (cond : gmap string json) (key : string) : option spec_float :=
  match cond !! key with Some (JNumber f) => Some f | _ => None end.

(** A list condition: nothing unless there is a list with an element. *)
Definition listCheck (cond : gmap string json) (key : string) (p : json -> bool) : list bool :=
  match cond !! key with
  | Some (JArray (x :: l)) => [existsb p (x :: l)]
  | _ => []
  end.

Definition macMatches (evt : DetectionEvent) (j : json) : bool :=
  match j with JString s => EqualFold s (MAC evt) | _ => false end.
Definition ouiMatches (evt : DetectionEvent) (j : json) : bool :=
  match j with JString s => HasPrefix (ToUpper (MAC evt)) (ToUpper s) | _ => false end.
Definition ssidMatches (evt : DetectionEvent) (j : json) : bool :=
  match j with JString s => EqualFold s (SSID evt) | _ => false end.
Definition channelMatches (evt : DetectionEvent) (j : json) : bool :=
  match j with JNumber f => intOf f =? Channel evt | _ => false end.

(** An RSSI of zero is not known. *)
Definition rssiCheck (cond : gmap string json) (key : string) (evt : DetectionEvent) (p : Z -> bool) : list bool :=
  match numberField cond key with
  | Some f => if RSSI evt =? 0 then [] else [p (intOf f)]
  | None => []
  end.

Definition checks (cond : gmap string json) (evt : DetectionEvent) : list bool :=
  listCheck cond "macAddresses" (macMatches evt) ++
  listCheck cond "ouiPrefixes" (ouiMatches evt) ++
  listCheck cond "ssids" (ssidMatches evt) ++
  listCheck cond "channels" (channelMatches evt) ++
  rssiCheck cond "minRssi" evt (fun r => r <=? RSSI evt) ++
  rssiCheck cond "maxRssi" evt (fun r => RSSI evt <=? r).

Definition matchesRule (rule : Rule.t) (evt : DetectionEvent) : bool :=
  match Rule.Condition rule with
  | None => false
  | Some cond =>
      let matchMode := stringField cond "matchMode" in
      match checks cond evt with
      | [] => false
      | cs => if bool_decide (matchMode = "ALL") then forallb id cs else existsb id cs
      end
  end.

(** *** Messages *)
Definition placeholders (rule : Rule.t) (evt : DetectionEvent) : list (string * string) :=
  [("{mac}", MAC evt); ("{oui}", OUI evt); ("{ssid}", SSID evt); ("{channel}", itoa (Channel evt)); ("{rssi}", itoa (RSSI evt));
   ("{nodeId}", NodeID evt); ("{nodeName}", NodeName evt); ("{rule}", Rule.Name rule); ("{severity}", severityString (Rule.Severity_ rule))].

Definition renderTemplate (rule : Rule.t) (evt : DetectionEvent) : string :=
  let tmpl := match Rule.Condition rule with Some cond => stringField cond "messageTemplate" | None => EmptyString end in
  if bool_decide (tmpl = EmptyString) then "Alert rule '" +:+ Rule.Name rule +:+ "' triggered"
  else Replacer (placeholders rule evt) tmpl.

(** *** The service *)

(** A call of [Trigger] to come. *)
Record trigger : Type := mkTrigger { tRule : string; tTitle : string; tMessage : string; tData : data }.

Definition eventData (evt : DetectionEvent) : data :=
  [("mac", DString (MAC evt)); ("oui", DString (OUI evt)); ("ssid", DString (SSID evt)); ("channel", DInt (Channel evt));
   ("rssi", DInt (RSSI evt)); ("nodeId", DString (NodeID evt)); ("nodeName", DString (NodeName evt))].

(** What a goroutine does next. *)
Inductive job : Type :=
| Trigger (t : trigger)                                  (** before the lock *)
| Fire (e : Event.t) (rule : option Rule.t)              (** after the unlock *)
| SendEmail (rule : Rule.t) (e : Event.t).

Record Row : Type := mkRow { rowID : string; rowEvent : Event.t; acknowledged : bool; acknowledgedBy : string }.

Record Service : Type := mkService {
  rules : gmap string Rule.t;
  jobs : list job;
  sent : list (string * Event.t);                  (** broadcast events with their ids *)
  mails : list (string * string);                  (** recipient and subject *)
  ruleRows : gmap string Rule.t;
  eventRows : list Row
}.
Definition NewService (ruleRows : gmap string Rule.t) (eventRows : list Row) : Service :=
  mkService ∅ [] [] [] ruleRows eventRows.

Definition set_rules v s := mkService v (jobs s) (sent s) (mails s) (ruleRows s) (eventRows s).
Definition set_jobs v s := mkService (rules s) v (sent s) (mails s) (ruleRows s) (eventRows s).
Definition set_mails v s := mkService (rules s) (jobs s) (sent s) v (ruleRows s) (eventRows s).
Definition set_ruleRows v s := mkService (rules s) (jobs s) (sent s) (mails s) v (eventRows s).
Definition set_eventRows v s := mkService (rules s) (jobs s) (sent s) (mails s) (ruleRows s) v.
Definition go (js : list job) (s : Service) : Service := set_jobs (jobs s ++ js) s.

Definition datumFinite (d : string * datum) : bool := match d.2 with DFloat f => finite64 f | _ => true end.
(** [Broadcast] drops what [json.Marshal] refuses. *)
Definition Broadcast (id : string) (e : Event.t) (s : Service) : Service :=
  if forallb datumFinite (Event.Data e) then mkService (rules s) (jobs s) (sent s ++ [(id, e)]) (mails s) (ruleRows s) (eventRows s) else s.

(** The snapshot of the enabled rules and the triggers of those that match. *)
Definition Evaluate (ord : list string) (evt : DetectionEvent) (s : Service) : Service :=
  let snapshot := List.filter Rule.Enabled (omap (fun id => rules s !! id) ord) in
  go (map (fun r => Trigger (mkTrigger (Rule.ID r) (Rule.Name r) (renderTemplate r evt) (eventData evt)))
        (List.filter (fun r => matchesRule r evt) snapshot)) s.

Definition cooldown (r : Rule.t) : Z := int64 (Rule.CooldownSeconds r * 10 ^ 9).
Definition inCooldown (now : Z) (r : Rule.t) : bool :=
  match Rule.LastTriggered r with Some t => now - t <? cooldown r | None => false end.

(** The part of [Trigger] under the mutex. *)
Definition lockTrigger (now : Z) (t : trigger) (s : Service) : Service :=
  match rules s !! tRule t with
  | Some r =>
      if inCooldown now r then s
      else go [Fire (Event.mk (tRule t) (Rule.Severity_ r) (tTitle t) (tMessage t) (tData t) (Rule.NotifyVisual r) (Rule.NotifyAudible r) now)
                 (Some r)]
              (set_rules (<[tRule t := Rule.set_LastTriggered (Some now) r]> (rules s)) s)
  | None => go [Fire (Event.mk (tRule t) SeverityNotice (tTitle t) (tMessage t) (tData t) true true now) None] s
  end.

(** The rest: the event is lost when the database refuses it. *)
Definition fire (ok : bool) (id : string) (e : Event.t) (rule : option Rule.t) (s : Service) : Service :=
  if ok then
    let s := Broadcast id e (set_eventRows (eventRows s ++ [mkRow id e false EmptyString]) s) in
    match rule with
    | Some r => if Rule.NotifyEmail r && negb (bool_decide (Rule.EmailRecipients r = EmptyString)) then go [SendEmail r e] s else s
    | None => s
    end
  else s.

Definition TriggerDirect (ok : bool) (id : string) (now : Z) (severity : Severity) (title message : string) (d : data) (s : Service) : Service :=
  let e := Event.mk EmptyString severity title message d false false now in
  if ok then Broadcast id e (set_eventRows (eventRows s ++ [mkRow id e false EmptyString]) s) else Broadcast EmptyString e s.

Definition recipients (r : Rule.t) : list string :=
  List.filter (fun to => negb (bool_decide (to = EmptyString))) (map TrimSpace (Split (byte_char 44) (Rule.EmailRecipients r))).
Definition sendAlertEmail (r : Rule.t) (e : Event.t) (s : Service) : Service :=
  set_mails (mails s ++ map (fun to => (to, "[DigiNode CC] Alert: " +:+ Rule.Name r)) (recipients r)) s.

Definition Acknowledge (ok : bool) (eventID userID : string) (s : Service) : Service :=
  if ok then set_eventRows (map (fun r => if bool_decide (rowID r = eventID) then mkRow (rowID r) (rowEvent r) true userID else r) (eventRows s)) s
  else s.

(** The columns of a rule; [last_triggered] is never written. *)
Definition stored (r : Rule.t) : Rule.t := Rule.set_LastTriggered None r.

Definition CreateRule (ok : bool) (id : string) (r : Rule.t) (s : Service) : Service :=
  if ok then
    let r := Rule.set_ID id r in
    set_rules (<[id := r]> (rules s)) (set_ruleRows (<[id := stored r]> (ruleRows s)) s)
  else s.
Definition UpdateRule (ok : bool) (id : string) (r : Rule.t) (s : Service) : Service :=
  if ok then
    let r := Rule.set_ID id r in
    set_rules (<[id := r]> (rules s)) (set_ruleRows (alter (fun _ => stored r) id (ruleRows s)) s)
  else s.
Definition DeleteRule (ok : bool) (id : string) (s : Service) : Service :=
  if ok then set_rules (delete id (rules s)) (set_ruleRows (delete id (ruleRows s)) s) else s.
Definition Load (ok : bool) (s : Service) : Service := if ok then set_rules (ruleRows s ∪ rules s) s else s.
Definition GetRules (ord : list string) (s : Service) : list Rule.t := omap (fun id => rules s !! id) ord.

(** *** Runs *)
Inductive op : Type :=
| Detect (ord : list string) (evt : DetectionEvent)
| Direct (ok : bool) (id : string) (now : Z) (severity : Severity) (title message : string) (d : data)
| Step (i : nat) (now : Z) (ok : bool) (id : string)      (** a step of the i-th goroutine *)
| Create (ok : bool) (id : string) (r : Rule.t)
| Change (ok : bool) (id : string) (r : Rule.t)
| Delete (ok : bool) (id : string)
| Reload (ok : bool)
| Ack (ok : bool) (eventID userID : string).

Definition runJob (now : Z) (ok : bool) (id : string) (j : job) (s : Service) : Service :=
  match j with
  | Trigger t => lockTrigger now t s
  | Fire e rule => fire ok id e rule s
  | SendEmail r e => sendAlertEmail r e s
  end.

Definition exec (s : Service) (o : op) : Service :=
  match o with
  | Detect ord evt => Evaluate ord evt s
  | Direct ok id now severity title message d => TriggerDirect ok id now severity title message d s
  | Step i now ok id => match jobs s !! i with
                        | Some j => runJob now ok id j (set_jobs (delete i (jobs s)) s)
                        | None => s
                        end
  | Create ok id r => CreateRule ok id r s
  | Change ok id r => UpdateRule ok id r s
  | Delete ok id => DeleteRule ok id s
  | Reload ok => Load ok s
  | Ack ok eventID userID => Acknowledge ok eventID userID s
  end.
Definition run (os : list op) (s : Service) : Service := fold_left exec os s.
End Conditions.

(** ** Lemmas *)

(** *** Cooldown *)

(** Times of the triggers of a rule, and whether each started an event. *)
Fixpoint spaced (c : Z) (last : option Z) (h : list (Z * bool)) : Prop :=
  match h with
  | [] => True
  | (t, fired) :: h =>
      fired = match last with Some l => negb (t - l <? c) | None => true end /\
      spaced c (if fired then Some t else last) h
  end.

Lemma spaced_after c last h l :
  0 <= c -> spaced c last h -> last = Some l -> forall j u, h !! j = Some (u, true) -> l + c <= u.
Proof.
  intros Hc. revert last l. induction h as [|[t f] h IH]; intros last l Hs -> [|j] u Hj; try done; cbn in Hs, Hj.
  - injection Hj as -> ->. destruct Hs as [Hf _]. symmetry in Hf. apply negb_true_iff, Z.ltb_ge in Hf. lia.
  - destruct Hs as [Hf Hs]. destruct f; [|by apply (IH _ l Hs eq_refl j)].
    symmetry in Hf. apply negb_true_iff, Z.ltb_ge in Hf. pose proof (IH _ t Hs eq_refl j u Hj). lia.
Qed.

Lemma spaced_pairs c last h :
  0 <= c -> spaced c last h -> forall i j t u, (i < j)%nat -> h !! i = Some (t, true) -> h !! j = Some (u, true) -> t + c <= u.
Proof.
  intros Hc. revert last. induction h as [|[t f] h IH]; intros last Hs i j t' u Hij Hi Hj; [done|].
  destruct Hs as [_ Hs]. destruct j as [|j]; [lia|]. destruct i as [|i].
  - cbn in Hi, Hj. injection Hi as -> ->. by apply (spaced_after c (Some t') h t' Hc Hs eq_refl j).
  - apply (IH _ Hs i j); [lia|done|done].
Qed.

Lemma spaced_suppressed c last h :
  spaced c last h -> forall j u, h !! j = Some (u, false) ->
  (exists i t, (i < j)%nat /\ h !! i = Some (t, true) /\ u < t + c) \/ (exists t, last = Some t /\ u < t + c).
Proof.
  revert last. induction h as [|[t f] h IH]; intros last Hs j u Hj; [done|]. destruct Hs as [Hf Hs]. destruct j as [|j].
  - cbn in Hj. injection Hj as -> ->. right. destruct last as [l|]; [|done]. exists l. split; [done|].
    symmetry in Hf. apply negb_false_iff, Z.ltb_lt in Hf. lia.
  - destruct (IH _ Hs j u Hj) as [(i & t' & Hi & Ht & Hu)|(t' & Hl & Hu)].
    + left. exists (S i), t'. split; [lia|done].
    + destruct f; [|right; by exists t']. injection Hl as ->. left. exists 0%nat, t'. split; [lia|done].
Qed.

Section Facts.
Context `{Unicode}.
Variable foldOther : string -> string -> bool.
Variable outOfRange : spec_float -> Z.
Abbreviation exec := (exec foldOther outOfRange).
Abbreviation run := (run foldOther outOfRange).

(** The step that triggers the rule: its time, and whether a goroutine goes on
    with the event. *)
Definition attempt (id : string) (s : Service) (o : op) : option (Z * bool) :=
  match o with
  | Step i now _ _ =>
      match jobs s !! i with
      | Some (Trigger t) =>
          if bool_decide (tRule t = id) then Some (now, bool_decide (length (jobs (exec s o)) = length (jobs s))) else None
      | _ => None
      end
  | _ => None
  end.

Fixpoint attempts (id : string) (os : list op) (s : Service) : list (Z * bool) :=
  match os with
  | [] => []
  | o :: os => option_list (attempt id s o) ++ attempts id os (exec s o)
  end.

(** The rule is not replaced. *)
Definition steady (id : string) (o : op) : Prop :=
  match o with
  | Create true i _ | Change true i _ | Delete true i => i <> id
  | Reload true => False
  | _ => True
  end.

Lemma rules_Broadcast id e s : rules (Broadcast id e s) = rules s.
Proof. unfold Broadcast. by destruct (forallb _ _). Qed.

Lemma rules_fire ok nid e rule s : rules (fire ok nid e rule s) = rules s.
Proof.
  unfold fire. destruct ok; [|done]. destruct rule as [r|]; [destruct (_ && _)|]; cbn; by rewrite rules_Broadcast.
Qed.

Lemma length_delete_job {A} (l : list A) i x : l !! i = Some x -> length l = S (length (delete i l)).
Proof. intros Hl. rewrite length_delete by done. apply lookup_lt_Some in Hl. lia. Qed.

(** What a step does to the rule [id]. *)
Lemma steady_exec id r o s :
  steady id o -> rules s !! id = Some r ->
  match attempt id s o with
  | Some (now, fired) =>
      fired = negb (inCooldown now r) /\
      rules (exec s o) !! id = Some (if fired then Rule.set_LastTriggered (Some now) r else r)
  | None => rules (exec s o) !! id = Some r
  end.
Proof.
  intros Ho Hr. destruct o as [ord evt|ok i now sev title msg d|i now ok nid|[] i r'|[] i r'|[] i|[]|ok eid uid]; cbn [attempt Alerts.exec]; try done.
  - unfold TriggerDirect. destruct ok; by rewrite rules_Broadcast.
  - destruct (jobs s !! i) as [j|] eqn:Hj; [|done]. pose proof (length_delete_job _ _ _ Hj) as Hlen.
    destruct j as [t|e rule|r' e]; cbn [runJob]; [|by rewrite rules_fire|done].
    unfold lockTrigger. cbn [rules set_jobs]. case_bool_decide as Hid.
    + rewrite Hid, Hr. destruct (inCooldown now r); cbn [negb].
      * rewrite bool_decide_false by (cbn; lia). done.
      * rewrite bool_decide_true by (cbn; rewrite length_app; cbn; lia). split; [done|]. cbn. apply lookup_insert_eq.
    + destruct (rules s !! tRule t) as [r'|]; [|done]. destruct (inCooldown now r'); [done|]. cbn. by rewrite lookup_insert_ne.
  - cbn in *. by rewrite lookup_insert_ne.
  - cbn in *. by rewrite lookup_insert_ne.
  - cbn in *. by rewrite lookup_delete_ne.
  - by destruct ok.
Qed.

Lemma attempts_spaced id os s r :
  Forall (steady id) os -> rules s !! id = Some r -> spaced (cooldown r) (Rule.LastTriggered r) (attempts id os s).
Proof.
  intros Hos. revert s r. induction Hos as [|o os Ho Hos IH]; intros s r Hr; [done|]. cbn [attempts].
  pose proof (steady_exec id r o s Ho Hr) as Hx. destruct (attempt id s o) as [[now fired]|]; [|by apply IH].
  destruct Hx as [Hf Hr']. cbn. split; [by rewrite Hf; unfold inCooldown; destruct (Rule.LastTriggered r)|].
  specialize (IH _ _ Hr'). by destruct fired.
Qed.
End Facts.

Lemma placeholders_braced rule evt : Forall braced (placeholders rule evt).*1.
Proof.
  apply Forall_cons_2; [by exists "mac"|]. apply Forall_cons_2; [by exists "oui"|]. apply Forall_cons_2; [by exists "ssid"|].
  apply Forall_cons_2; [by exists "channel"|]. apply Forall_cons_2; [by exists "rssi"|]. apply Forall_cons_2; [by exists "nodeId"|].
  apply Forall_cons_2; [by exists "nodeName"|]. apply Forall_cons_2; [by exists "rule"|]. apply Forall_cons_2; [by exists "severity"|].
  apply Forall_nil_2.
Qed.

(** ** Properties *)

(** C10: While a rule is not edited, however its triggers interleave, two events of it are never closer than
    its cooldown, and a trigger that raises none comes less than the cooldown after one that
    did, or after the time the rule brought along. *)
Theorem cooldown_spacing `{Unicode} foldOther outOfRange id r os s :
  rules s !! id = Some r -> 0 <= Rule.CooldownSeconds r < 2 ^ 31 -> Forall (steady id) os ->
  let h := attempts foldOther outOfRange id os s in
  let c := Rule.CooldownSeconds r * 10 ^ 9 in
  (forall i j t u, (i < j)%nat -> h !! i = Some (t, true) -> h !! j = Some (u, true) -> t + c <= u) /\
  (forall j u, h !! j = Some (u, false) ->
     (exists i t, (i < j)%nat /\ h !! i = Some (t, true) /\ u < t + c) \/
     (exists t, Rule.LastTriggered r = Some t /\ u < t + c)).
Proof.
  intros Hr Hc Hos h c. assert (Heq : cooldown r = c) by (unfold cooldown; apply int64_small; subst c; lia).
  pose proof (attempts_spaced foldOther outOfRange id os s r Hos Hr) as Hs. rewrite Heq in Hs. split.
  - apply (spaced_pairs c (Rule.LastTriggered r)); [subst c; lia|done].
  - by apply spaced_suppressed.
Qed.

(** C16: A template of text and the placeholders of the documentation is rendered by
    putting in the values once: what a device broadcasts as its name is copied as
    it is, also when it looks like a placeholder. *)
Theorem messages_literal rule evt cond ps :
  Rule.Condition rule = Some cond -> cond !! "messageTemplate" = Some (JString (source ps)) -> source ps <> EmptyString ->
  Forall (wellFormed (placeholders rule evt)) ps ->
  renderTemplate rule evt = rendered (placeholders rule evt) ps.
Proof.
  intros Hc Ht Hne Hps. unfold renderTemplate, stringField. rewrite Hc, Ht, bool_decide_false by done.
  apply replacer_rendered; [apply placeholders_braced|done].
Qed.

(** C19: The cooldown starts before the event is stored: when the database refuses it, the event
    is neither stored nor broadcast nor mailed, and every trigger of the rule before
    the cooldown ends raises nothing either. *)
Theorem refused_event_lost id now t r s id' later t' :
  tRule t = id -> rules s !! id = Some r -> inCooldown now r = false -> 0 <= Rule.CooldownSeconds r < 2 ^ 31 ->
  tRule t' = id -> later < now + Rule.CooldownSeconds r * 10 ^ 9 ->
  exists e, jobs (lockTrigger now t s) = jobs s ++ [Fire e (Some r)] /\
    let s1 := fire false id' e (Some r) (set_jobs (jobs s) (lockTrigger now t s)) in
    jobs s1 = jobs s /\ sent s1 = sent s /\ mails s1 = mails s /\ eventRows s1 = eventRows s /\ lockTrigger later t' s1 = s1.
Proof.
  intros <- Hr Hin Hc Ht' Hl. unfold lockTrigger at 1 2. rewrite Hr, Hin. eexists. split; [done|]. cbn [fire]. split_and!; try done.
  unfold lockTrigger. cbn [rules set_jobs go set_rules]. rewrite Ht', lookup_insert_eq.
  unfold inCooldown, cooldown. cbn [Rule.LastTriggered Rule.set_LastTriggered Rule.CooldownSeconds].
  rewrite int64_small by lia. by rewrite (proj2 (Z.ltb_lt _ _)) by lia.
Qed.

Definition untriggered (rows : gmap string Rule.t) : Prop := forall id r, rows !! id = Some r -> Rule.LastTriggered r = None.

Lemma ruleRows_Broadcast id e s : ruleRows (Broadcast id e s) = ruleRows s.
Proof. unfold Broadcast. by destruct (forallb _ _). Qed.

Lemma untriggered_exec `{Unicode} foldOther outOfRange o s :
  untriggered (ruleRows s) -> untriggered (ruleRows (exec foldOther outOfRange s o)).
Proof.
  intros Hu. destruct o as [ord evt|ok i now sev title msg d|i now ok nid|[] i r'|[] i r'|[] i|[]|[] eid uid]; cbn [exec]; try done.
  - unfold TriggerDirect. destruct ok; by rewrite ruleRows_Broadcast.
  - destruct (jobs s !! i) as [j|]; [|done]. destruct j as [t|e rule|r' e]; cbn [runJob]; [|unfold fire|done].
    + unfold lockTrigger. destruct (rules _ !! _) as [r|]; [|done]. by destruct (inCooldown now r).
    + destruct ok; [|done]. destruct rule as [r|]; [destruct (_ && _)|]; cbn; by rewrite ruleRows_Broadcast.
  - cbn. intros k r [[<- <-]|[_ Hk]]%lookup_insert_Some; [done|by eapply Hu].
  - cbn. intros k r [(<- & r0 & _ & ->)|[_ Hk]]%lookup_alter_Some; [done|by eapply Hu].
  - cbn. intros k r [_ Hk]%lookup_delete_Some. by eapply Hu.
Qed.

(** The time a rule last fired is never stored: after a restart every rule may fire at once
    whatever its cooldown, and so may a rule that was edited without sending the
    time back. *)
Theorem cooldown_forgotten `{Unicode} foldOther outOfRange os rows eventRows0 eventRows1 id now :
  untriggered rows ->
  let s := run foldOther outOfRange os (NewService rows eventRows0) in
  (forall r, rules (Load true (NewService (ruleRows s) eventRows1)) !! id = Some r -> inCooldown now r = false) /\
  (forall r, Rule.LastTriggered r = None ->
     exists r', rules (UpdateRule true id r s) !! id = Some r' /\ inCooldown now r' = false).
Proof.
  intros Hu s. assert (Hs : untriggered (ruleRows s)).
  { subst s. assert (H0 : untriggered (ruleRows (NewService rows eventRows0))) by done. revert H0.
    generalize (NewService rows eventRows0) as s0. induction os as [|o os IH]; intros s0 H0; [done|].
    by apply IH, untriggered_exec. }
  split.
  - intros r Hr. cbn in Hr. rewrite map_union_empty in Hr. unfold inCooldown. by rewrite (Hs _ _ Hr).
  - intros r Hr. eexists. split; [apply lookup_insert_eq|]. unfold inCooldown. cbn. by rewrite Hr.
Qed.

(** *** Matching *)
Lemma smap_upper_lower s : smap upperASCII (smap lowerASCII s) = smap upperASCII s.
Proof.
  induction s as [|c s IH]; [done|]. cbn. f_equal; [|exact IH].
  destruct c as [[] [] [] [] [] [] [] []]; vm_compute; reflexivity.
Qed.

(** ASCII strings that differ in the case of letters. *)
Definition sameLetters (s t : string) : Prop :=
  isASCII s = true /\ isASCII t = true /\ smap lowerASCII s = smap lowerASCII t.

Lemma listCheck_ext cond key p q : (forall j, p j = q j) -> listCheck cond key p = listCheck cond key q.
Proof.
  intros Hpq. unfold listCheck. destruct (cond !! key) as [[| | | |[|x l]|]|]; try done. f_equal.
  induction (x :: l) as [|y k IH]; [done|]. cbn. by rewrite Hpq, IH.
Qed.

(** Matching does not depend on the case of the letters of a MAC and an SSID, and a detection whose RSSI is
    not known is matched as if the rule had no RSSI bounds, in the mode ALL too. *)
Theorem matching_invariances `{Unicode} foldOther outOfRange rule mac mac' oui ssid ssid' channel rssi node name :
  sameLetters mac mac' -> sameLetters ssid ssid' ->
  (forall s t t', sameLetters t t' -> foldOther s t = foldOther s t') ->
  let evt m n r := mkDetection m oui n channel r node name in
  matchesRule foldOther outOfRange rule (evt mac ssid rssi) = matchesRule foldOther outOfRange rule (evt mac' ssid' rssi) /\
  matchesRule foldOther outOfRange rule (evt mac ssid 0) =
    matchesRule foldOther outOfRange
      (Rule.mk (Rule.ID rule) (Rule.Name rule) (Rule.Description rule)
         (delete "minRssi" ∘ delete "maxRssi" <$> Rule.Condition rule) (Rule.Severity_ rule) (Rule.Enabled rule)
         (Rule.CooldownSeconds rule) (Rule.NotifyWebhook rule) (Rule.NotifyEmail rule) (Rule.EmailRecipients rule)
         (Rule.NotifyVisual rule) (Rule.NotifyAudible rule) (Rule.LastTriggered rule)) (evt mac ssid 0).
Proof.
  intros Hmac Hssid Hfold evt.
  assert (Hf : forall s t t', sameLetters t t' -> EqualFold foldOther s t = EqualFold foldOther s t').
  { intros s t t' Ht. pose proof (Hfold s t t' Ht) as Hft. destruct Ht as (H1 & H2 & H3). unfold EqualFold. by rewrite H1, H2, H3, Hft. }
  assert (Hu : ToUpper mac = ToUpper mac').
  { destruct Hmac as (H1 & H2 & H3). unfold ToUpper. rewrite H1, H2, <- smap_upper_lower, H3. apply smap_upper_lower. }
  split.
  - unfold matchesRule. destruct (Rule.Condition rule) as [cond|]; [|done].
    assert (Hc : checks foldOther outOfRange cond (evt mac ssid rssi) = checks foldOther outOfRange cond (evt mac' ssid' rssi)); [|by rewrite Hc].
    unfold checks. f_equal; [apply listCheck_ext; intros []; try done; by apply Hf|].
    f_equal; [apply listCheck_ext; intros []; try done; unfold ouiMatches; cbn; by rewrite Hu|].
    f_equal. apply listCheck_ext; intros []; try done; by apply Hf.
  - unfold matchesRule. cbn [Rule.Condition]. destruct (Rule.Condition rule) as [cond|]; [|done]. cbn [fmap option_fmap option_map].
    assert (Hk : forall key, key <> "minRssi" -> key <> "maxRssi" -> (delete "minRssi" ∘ delete "maxRssi") cond !! key = cond !! key).
    { intros key H1 H2. cbn. by rewrite !lookup_delete_ne. }
    assert (Hc : checks foldOther outOfRange cond (evt mac ssid 0) =
                 checks foldOther outOfRange ((delete "minRssi" ∘ delete "maxRssi") cond) (evt mac ssid 0)).
    { unfold checks, listCheck, rssiCheck, numberField. rewrite !(Hk "macAddresses"), !(Hk "ouiPrefixes"), !(Hk "ssids"), !(Hk "channels") by done.
      cbn [RSSI]. change (0 =? 0) with true. cbn beta iota. do 4 f_equal.
      destruct (cond !! "minRssi") as [[]|], (cond !! "maxRssi") as [[]|],
        ((delete "minRssi" ∘ delete "maxRssi") cond !! "minRssi") as [[]|],
        ((delete "minRssi" ∘ delete "maxRssi") cond !! "maxRssi") as [[]|]; reflexivity. }
    rewrite Hc. unfold stringField. by rewrite Hk.
Qed.

(** ** Examples and witnesses *)
#[local] Existing Instance asciiUnicode.
Definition noFold (s t : string) : bool := false.
Definition zeroInt (f : spec_float) : Z := 0.

Definition macRule : Rule.t :=
  Rule.mk "r" "tail" EmptyString
    (Some (list_to_map [("macAddresses", JArray [JString "AA:BB:CC:DD:EE:FF"]); ("minRssi", JNumber (floatZ (-60)));
                        ("matchMode", JString "ALL"); ("messageTemplate", JString "{ssid} near {nodeId}")]))
    SeverityAlert true 60 false true "a@x, ,b@x" true true None.
Definition passerBy (mac ssid : string) (rssi : Z) : DetectionEvent := mkDetection mac EmptyString ssid 6 rssi "!0000000a" EmptyString.

Example matches_lower_case : matchesRule noFold zeroInt macRule (passerBy "aa:bb:cc:dd:ee:ff" "x" (-50)) = true.
Proof. vm_compute. reflexivity. Qed.
Example too_far : matchesRule noFold zeroInt macRule (passerBy "aa:bb:cc:dd:ee:ff" "x" (-70)) = false.
Proof. vm_compute. reflexivity. Qed.
Example two_recipients : recipients macRule = ["a@x"; "b@x"].
Proof. vm_compute. reflexivity. Qed.

Definition oneRule : Service := set_rules {["r" := macRule]} (NewService ∅ []).
Definition sighted : DetectionEvent := passerBy "aa:bb:cc:dd:ee:ff" "{rule}" (-50).
Definition triggered : trigger := mkTrigger "r" "tail" (renderTemplate macRule sighted) (eventData sighted).

(** Three detections: the second comes after half of the cooldown, the third after it. *)
Definition threeTimes : list op :=
  [Detect ["r"] sighted; Detect ["r"] sighted; Detect ["r"] sighted;
   Step 0 0 true EmptyString; Step 0 (30 * 10 ^ 9) true EmptyString; Step 0 (61 * 10 ^ 9) true EmptyString].

Lemma cooldown_spacing_witness :
  attempts noFold zeroInt "r" threeTimes oneRule = [(0, true); (30 * 10 ^ 9, false); (61 * 10 ^ 9, true)] /\
  0 + 60 * 10 ^ 9 <= 61 * 10 ^ 9.
Proof.
  assert (Hh : attempts noFold zeroInt "r" threeTimes oneRule = [(0, true); (30 * 10 ^ 9, false); (61 * 10 ^ 9, true)])
    by (vm_compute; reflexivity).
  split; [exact Hh|].
  assert (Hsteady : Forall (steady "r") threeTimes) by (repeat (apply Forall_cons_2; [exact I|]); apply Forall_nil_2).
  destruct (cooldown_spacing noFold zeroInt "r" macRule threeTimes oneRule eq_refl ltac:(vm_compute; split; [discriminate|reflexivity]) Hsteady)
    as [Hp _].
  apply (Hp 0%nat 2%nat 0 (61 * 10 ^ 9) ltac:(lia)); rewrite Hh; reflexivity.
Defined.

Lemma messages_literal_witness : renderTemplate macRule sighted = "{rule} near !0000000a".
Proof.
  rewrite (messages_literal macRule sighted _ [Slot "{ssid}"; Text " near "; Slot "{nodeId}"] eq_refl eq_refl ltac:(discriminate)).
  - reflexivity.
  - apply Forall_cons_2; [apply (bool_decide_unpack ("{ssid}" ∈ (placeholders macRule sighted).*1)); exact I|].
    apply Forall_cons_2; [reflexivity|].
    apply Forall_cons_2; [apply (bool_decide_unpack ("{nodeId}" ∈ (placeholders macRule sighted).*1)); exact I|apply Forall_nil_2].
Defined.

Lemma refused_event_lost_witness :
  exists e, jobs (lockTrigger 0 triggered oneRule) = [Fire e (Some macRule)] /\
    lockTrigger (59 * 10 ^ 9) triggered (fire false "e" e (Some macRule) (set_jobs [] (lockTrigger 0 triggered oneRule))) =
    fire false "e" e (Some macRule) (set_jobs [] (lockTrigger 0 triggered oneRule)).
Proof.
  destruct (refused_event_lost "r" 0 triggered macRule oneRule "e" (59 * 10 ^ 9) triggered eq_refl eq_refl eq_refl
              ltac:(vm_compute; split; [discriminate|reflexivity]) eq_refl ltac:(vm_compute; reflexivity)) as (e & He & Hs).
  exists e. split; [exact He|]. cbv zeta in Hs. apply Hs.
Defined.

Lemma cooldown_forgotten_witness :
  inCooldown 5 (Rule.set_LastTriggered (Some 4) macRule) = true /\
  exists r', rules (UpdateRule true "r" macRule (run noFold zeroInt threeTimes (NewService ∅ []))) !! "r" = Some r' /\ inCooldown 5 r' = false.
Proof.
  split; [vm_compute; reflexivity|].
  apply (cooldown_forgotten noFold zeroInt threeTimes ∅ [] [] "r" 5); [intros id r Hr; by rewrite lookup_empty in Hr|reflexivity].
Defined.

Lemma matching_invariances_witness :
  matchesRule noFold zeroInt macRule (passerBy "aa:bb:cc:dd:ee:ff" "x" (-50)) =
  matchesRule noFold zeroInt macRule (passerBy "AA:BB:CC:DD:EE:FF" "X" (-50)).
Proof.
  apply (matching_invariances noFold zeroInt macRule "aa:bb:cc:dd:ee:ff" "AA:BB:CC:DD:EE:FF" EmptyString "x" "X" 6 (-50) "!0000000a" EmptyString);
    [repeat split; vm_compute; reflexivity..|reflexivity].
Defined.
