(* ===== verification/Airspace.v ===== *)
(** Drones, geofences and alerts as [cmd/diginode-cc/main.go] wires them: the
    drone service asks the geofences about every position and turns an entry
    into a broadcast, an alert and a webhook. *)
From Stdlib Require Import Floats.SpecFloat.
From S2P Require Import Prelude GoStrings GoFloat GoFloat32 FloatFacts GoTemplate Geofences Drones Alerts.

(** ** Definitions *)
Record Webhook : Type := mkWebhook {
  hookFence : string; hookName : string; hookKind : string; hookEntity : string; hookLat : spec_float; hookLon : spec_float;
  hookLevel : string; hookMessage : string
}.

(** [hooks]: the calls of [webhooksSvc.Dispatch("alert.geofence", ...)]. *)
Record Airspace : Type := mkAirspace {
  fences : Geofences.Service;
  tracked : Drones.Service;
  alerts : Alerts.Service;
  hooks : list Webhook
}.

Definition hitOf (g : Geofence.t) : GeofenceHit :=
  mkHit (Geofence.ID g) (Geofence.Name g) (Geofence.AlarmLevel g) (Geofence.AlarmMessage g) (Geofence.NotifyWebhook g).

(** The checker [main] passes to the drone service. *)
Definition check (ord : list string) (f : Geofences.Service) (lat lon : spec_float) (entityType : string) : list GeofenceHit :=
  map hitOf (CheckPoint ord lat lon entityType f).

Definition severityOf (alarmLevel : string) : Severity :=
  if bool_decide (alarmLevel = "INFO") then SeverityInfo
  else if bool_decide (alarmLevel = "NOTICE") then SeverityNotice
  else if bool_decide (alarmLevel = "CRITICAL") then SeverityCritical
  else SeverityAlert.

Definition breachData (id name kind entity : string) (lat lon : spec_float) : data :=
  [("geofenceId", DString id); ("geofenceName", DString name); ("entityType", DString kind); ("entityId", DString entity);
   ("latitude", DFloat lat); ("longitude", DFloat lon)].

(** The verdict of the database on an alert, the id it gives, and the clock. *)
Definition verdicts : Type := string -> bool * string * Z.

(** The notifier [main] passes to the drone service. *)
Definition notify (db : verdicts) (a : Airspace) (c : call) : Airspace :=
  match c with
  | Inventory _ _ _ _ => a
  | GeofenceNotify id name kind entity lat lon level msg hook =>
      let f := match Geofences.GetByID id (fences a) with
               | Some g => NotifyViolation g kind entity lat lon (fences a)
               | None => fences a
               end in
      let '(ok, eventID, now) := db id in
      mkAirspace f (tracked a)
        (TriggerDirect ok eventID now (severityOf level) ("Geofence breach: " +:+ name) msg (breachData id name kind entity lat lon) (alerts a))
        (if hook then hooks a ++ [mkWebhook id name kind entity lat lon level msg] else hooks a)
  end.

Section Airspace.
Variable w : wiring.
Variable rangeOrder : gmap string GeofenceHit -> list string.

(** A detection with the environment [e], whose fences are those of the
    geofence service; [ord] is the order of its map. *)
Definition wired (ord : list string) (e : env) (f : Geofences.Service) : env :=
  mkEnv (firstNow e) (lastNow e) (uuid e) (nodeLookup e) (check ord f).

Definition detect (ord : list string) (db : verdicts) (e : env) (det : Detection.t) (a : Airspace) : Airspace :=
  let t := HandleDetection w rangeOrder (wired ord e (fences a)) det (tracked a) in
  fold_left (notify db) (drop (length (calls (tracked a))) (calls t))
    (mkAirspace (fences a) t (alerts a) (hooks a)).

Fixpoint flight (ord : list string) (db : verdicts) (path : list (env * Detection.t)) (a : Airspace) : Airspace :=
  match path with
  | [] => a
  | (e, det) :: path => flight ord db path (detect ord db e det a)
  end.
End Airspace.

(** *** The reference: entries into a box *)
Record box : Type := mkBox { south : spec_float; north : spec_float; west : spec_float; east : spec_float }.

Definition inBox (b : box) (det : Detection.t) : bool :=
  between (south b) (north b) (Detection.Latitude det) && between (west b) (east b) (Detection.Longitude det).

(** Where drones enter the box, given the keys of those inside before. *)
Fixpoint enters (b : box) (around : gset string) (path : list Detection.t) : list (spec_float * spec_float) :=
  match path with
  | [] => []
  | det :: path =>
      if inBox b det then
        (if bool_decide (Key det ∈ around) then [] else [(Detection.Latitude det, Detection.Longitude det)]) ++
        enters b (around ∪ {[Key det]}) path
      else enters b (around ∖ {[Key det]}) path
  end.

(** What an operator sees of an alert. *)
Definition alarm (r : Alerts.Row) : Severity * string * option (spec_float * spec_float) :=
  (Event.Severity_ (rowEvent r), Event.Title (rowEvent r),
   match Event.Data (rowEvent r) with
   | [_; _; _; _; (_, DFloat lat); (_, DFloat lon)] => Some (lat, lon)
   | _ => None
   end).

(** A fence for drones that is switched on. *)
Definition guards (g : Geofence.t) (b : box) (clockwise : bool) : Prop :=
  Geofence.Enabled g = true /\ Geofence.AlarmEnabled g = true /\ Geofence.AppliesToDrones g = true /\
  Geofence.Polygon g = rectangle (south b) (north b) (west b) (east b) clockwise /\
  Forall (fun x => coordinate x = true) [south b; north b; west b; east b] /\
  SFltb (south b) (north b) = true /\ SFltb (west b) (east b) = true.

(** A position that the service evaluates. *)
Definition flying (det : Detection.t) : Prop :=
  located (Detection.Latitude det) (Detection.Longitude det) = true /\
  coordinate (Detection.Latitude det) = true /\ coordinate (Detection.Longitude det) = true.

(** ** Lemmas *)
Lemma check_one g b cw f det :
  geofences f = {[Geofence.ID g := g]} -> guards g b cw -> flying det ->
  check [Geofence.ID g] f (Detection.Latitude det) (Detection.Longitude det) "drone" = if inBox b det then [hitOf g] else [].
Proof.
  intros Hf (H1 & H2 & H3 & Hp & Hc & Hsn & Hwe) (_ & Hla & Hlo).
  unfold check, CheckPoint, Geofences.GetAll. cbn [omap list_omap]. rewrite Hf, lookup_singleton_eq. cbn [List.filter].
  unfold Geofences.triggers. rewrite H1, H2. change (applies "drone" g) with (Geofence.AppliesToDrones g). rewrite H3, Hp.
  rewrite !Forall_cons in Hc. destruct Hc as (Hc1 & Hc2 & Hc3 & Hc4 & _).
  rewrite rectangle_inside by (rewrite ?Forall_cons; done). rewrite Hwe. unfold inBox. by destruct (_ && _).
Qed.

(** The alert of a call. *)
Definition alarmOf (c : call) : option (Severity * string * option (spec_float * spec_float)) :=
  match c with
  | GeofenceNotify _ name _ _ lat lon level _ _ => Some (severityOf level, "Geofence breach: " +:+ name, Some (lat, lon))
  | Inventory _ _ _ _ => None
  end.

Lemma notify_alarm db a c :
  (forall id, (db id).1.1 = true) ->
  map alarm (eventRows (alerts (notify db a c))) = map alarm (eventRows (alerts a)) ++ option_list (alarmOf c) /\
  tracked (notify db a c) = tracked a /\ geofences (fences (notify db a c)) = geofences (fences a).
Proof.
  intros Hdb. destruct c as [|id name kind entity lat lon level msg hook]; cbn [notify alarmOf]; [by rewrite app_nil_r|].
  specialize (Hdb id). destruct (db id) as [[ok eventID] now]. cbn in Hdb. subst ok. cbn [alerts tracked fences TriggerDirect].
  split_and!; [|done|].
  - unfold Alerts.Broadcast. destruct (forallb _ _); cbn [eventRows set_eventRows]; by rewrite map_app.
  - destruct (Geofences.GetByID id (fences a)); [|done]. unfold NotifyViolation, Geofences.Broadcast. by destruct (Geofences.sendable _).
Qed.

Lemma notify_all db cs a :
  (forall id, (db id).1.1 = true) ->
  map alarm (eventRows (alerts (fold_left (notify db) cs a))) = map alarm (eventRows (alerts a)) ++ omap alarmOf cs /\
  tracked (fold_left (notify db) cs a) = tracked a /\ geofences (fences (fold_left (notify db) cs a)) = geofences (fences a).
Proof.
  intros Hdb. revert a. induction cs as [|c cs IH]; intros a; [by rewrite app_nil_r|]. cbn [fold_left].
  destruct (IH (notify db a c)) as (H1 & H2 & H3), (notify_alarm db a c Hdb) as (H4 & H5 & H6).
  rewrite H1, H2, H3, H4, H5, H6. split; [|done]. rewrite <- app_assoc. f_equal. cbn [omap list_omap]. by destruct (alarmOf c).
Qed.

(** All calls of one detection are for the one hit. *)
Lemma alarms_hit e det cs h :
  Forall (notifies e det) cs -> (forall h', h' ∈ geofenceCheck e (Detection.Latitude det) (Detection.Longitude det) "drone" -> h' = h) ->
  omap alarmOf cs =
    map (fun _ => (severityOf (hitAlarmLevel h), "Geofence breach: " +:+ hitName h,
                   Some (Detection.Latitude det, Detection.Longitude det))) (breaches cs).
Proof.
  intros Hcs Hh. induction Hcs as [|c cs Hc Hcs IH]; [done|]. destruct c as [|id name kind entity lat lon level msg hook]; [exact IH|].
  destruct Hc as (-> & -> & -> & h' & Hin & -> & -> & -> & ->). rewrite (Hh _ Hin) in *. cbn. by rewrite IH.
Qed.

Section Flight.
Variable w : wiring.
Variable rangeOrder : gmap string GeofenceHit -> list string.
Hypothesis order_law : forall m, rangeOrder m ≡ₚ (map_to_list m).*1.
Hypothesis check_set : hasCheck w = true.
Hypothesis notify_set : hasNotify w = true.
Variables (g : Geofence.t) (b : box) (cw : bool) (db : verdicts).
Hypothesis g_guards : guards g b cw.
Hypothesis db_accepts : forall id, (db id).1.1 = true.

Definition breachAlarm (p : spec_float * spec_float) : Severity * string * option (spec_float * spec_float) :=
  (severityOf (Geofence.AlarmLevel g), "Geofence breach: " +:+ Geofence.Name g, Some p).

Lemma detect_one e det a :
  keyed (tracked a) -> geofences (fences a) = {[Geofence.ID g := g]} -> flying det ->
  let prev := default ∅ (geofenceState (tracked a) !! Key det) in
  let ids := if inBox b det then {[Geofence.ID g]} else ∅ in
  let a' := detect w rangeOrder [Geofence.ID g] db e det a in
  keyed (tracked a') /\ geofences (fences a') = {[Geofence.ID g := g]} /\
  geofenceState (tracked a') = <[Key det := ids]> (geofenceState (tracked a)) /\
  map alarm (eventRows (alerts a')) = map alarm (eventRows (alerts a)) ++
    if inBox b det && negb (bool_decide (Geofence.ID g ∈ prev)) then [breachAlarm (Detection.Latitude det, Detection.Longitude det)] else [].
Proof.
  intros Hk Hf Hfly prev ids a'. set (e' := wired [Geofence.ID g] e (fences a)).
  assert (Hcheck : geofenceCheck e' (Detection.Latitude det) (Detection.Longitude det) "drone" = if inBox b det then [hitOf g] else [])
    by by apply (check_one g b cw).
  destruct (exec_entries w rangeOrder (fun _ => None) [] order_law check_set notify_set (Drones.Detect e' det) (tracked a) Hk)
    as (new & Hcalls & Hbr & Hnot & Hstate). specialize (Hnot e' det eq_refl).
  cbn [Drones.exec] in Hcalls, Hstate. unfold position in Hbr, Hstate. cbn [sighting] in Hbr, Hstate.
  destruct Hfly as [Hloc _]. rewrite Hloc in Hbr, Hstate.
  assert (Hids : inside e' det = ids) by (unfold inside; rewrite Hcheck; subst ids; destruct (inBox b det); cbn; set_solver).
  rewrite Hids in Hbr, Hstate. fold prev in Hbr.
  assert (Ha' : a' = fold_left (notify db) new (mkAirspace (fences a) (HandleDetection w rangeOrder e' det (tracked a)) (alerts a) (hooks a))).
  { subst a'. unfold detect. fold e'. by rewrite Hcalls, drop_app_length. }
  destruct (notify_all db new (mkAirspace (fences a) (HandleDetection w rangeOrder e' det (tracked a)) (alerts a) (hooks a)) db_accepts)
    as (H1 & H2 & H3). rewrite <- Ha' in H1, H2, H3. cbn [alerts tracked fences] in H1, H2, H3.
  rewrite H1, H2, H3. split_and!; [by apply keyed_HandleDetection|done|done|]. f_equal.
  rewrite (alarms_hit e' det new (hitOf g) Hnot) by (rewrite Hcheck; destruct (inBox b det); set_solver).
  subst ids. destruct (inBox b det); cbn [andb].
  - case_bool_decide as Hin; cbn [negb].
    + replace ({[Geofence.ID g]} ∖ prev) with (∅ : gset string) in Hbr by set_solver.
      rewrite elements_empty in Hbr. by symmetry in Hbr; apply Permutation_nil in Hbr as ->.
    + replace ({[Geofence.ID g]} ∖ prev) with ({[Geofence.ID g]} : gset string) in Hbr by set_solver.
      rewrite elements_singleton in Hbr. by symmetry in Hbr; apply Permutation_length_1_inv in Hbr as ->.
  - replace (∅ ∖ prev) with (∅ : gset string) in Hbr by set_solver. rewrite elements_empty in Hbr.
    by symmetry in Hbr; apply Permutation_nil in Hbr as ->.
Qed.

Lemma flight_alarms path a around :
  keyed (tracked a) -> geofences (fences a) = {[Geofence.ID g := g]} -> Forall flying (snd <$> path) ->
  (forall key, key ∈ around <-> Geofence.ID g ∈ default ∅ (geofenceState (tracked a) !! key)) ->
  map alarm (eventRows (alerts (flight w rangeOrder [Geofence.ID g] db path a))) =
    map alarm (eventRows (alerts a)) ++ map breachAlarm (enters b around (snd <$> path)).
Proof.
  revert a around. induction path as [|[e det] path IH]; intros a around Hk Hf Hfly Har; [by rewrite app_nil_r|].
  apply Forall_cons in Hfly as [Hd Hfly]. cbn [flight fmap list_fmap snd enters].
  destruct (detect_one e det a Hk Hf Hd) as (Hk' & Hf' & Hs' & Hr').
  assert (Hin : bool_decide (Geofence.ID g ∈ default ∅ (geofenceState (tracked a) !! Key det)) = bool_decide (Key det ∈ around))
    by (apply bool_decide_ext; symmetry; apply Har).
  rewrite Hin in Hr'. destruct (inBox b det) eqn:Hbox.
  - rewrite (IH _ (around ∪ {[Key det]})), Hr', <- app_assoc, map_app; [|done|done|done|].
    + f_equal. by destruct (bool_decide (Key det ∈ around)).
    + intros key. rewrite Hs'. destruct (decide (key = Key det)) as [->|Hne]; [rewrite lookup_insert_eq; set_solver|].
      rewrite lookup_insert_ne by done. rewrite <- Har. set_solver.
  - rewrite (IH _ (around ∖ {[Key det]})), Hr'; [|done|done|done|].
    + cbn. by rewrite app_nil_r.
    + intros key. rewrite Hs'. destruct (decide (key = Key det)) as [->|Hne]; [rewrite lookup_insert_eq; set_solver|].
      rewrite lookup_insert_ne by done. rewrite <- Har. set_solver.
Qed.
End Flight.

(** ** Properties *)


(** ** Witness *)
Definition airfield : box := mkBox (floatZ 49) (floatZ 51) (floatZ 8) (floatZ 10).
Definition airfieldFence : Geofence.t :=
  Geofence.mk "f" "airfield" EmptyString EmptyString (rectangle (floatZ 49) (floatZ 51) (floatZ 8) (floatZ 10) true) ActionAlarm true true
    "CRITICAL" "{entity} in {geofence}" true true false true false false true EmptyString EmptyString.
Definition quietEnv : env := mkEnv 1 1 "uuid" (fun _ => (EmptyString, EmptyString)) (fun _ _ _ => []).
Definition passing : list (env * Detection.t) :=
  map (fun p => (quietEnv, Drones.seen p.1 p.2)) [("aa", 48); ("aa", 50); ("bb", 50); ("aa", 50); ("aa", 52); ("aa", 50)].
Definition station0 : Airspace :=
  mkAirspace (Geofences.mkService {["f" := airfieldFence]} ∅ []) (Drones.NewService [] []) (Alerts.NewService ∅ []) [].
Definition acceptAll : verdicts := fun id => (true, id, 7).

