(* ===== verification/Regexp.v ===== *)
(** Package regexp: the syntax the program uses, the leftmost-first matcher,
    and what can be proved of any expression.

    [Compile] parses the text of an expression, so that the models of the
    program's expressions are the source's own strings.  [exec] is a
    backtracking matcher in continuation style: of the ways to match it takes
    the one that prefers earlier alternatives and longer (or, for a lazy
    operator, shorter) repetitions, which is the match Go documents.  [run] is
    the relation of all ways to match; [exec_sound] and [exec_complete] relate
    the two.  [dead] is a static analysis: no text that starts as described
    can match. *)
From S2P Require Import Prelude GoStrings.

(** ** Definitions *)

(** *** UTF-8

    A rune is a code point with the bytes it was read from: a byte that
    starts no valid encoding is U+FFFD, one byte long. *)
Record rune : Type := mkRune { point : Z; enc : string }.

Definition text_of (l : list rune) : string := fold_right (fun r s => enc r +:+ s) EmptyString l.

Definition runeError : Z := 0xFFFD.
Definition within (lo hi z : Z) : bool := (lo <=? z) && (z <=? hi).
Definition isCont (b : Z) : bool := within 0x80 0xBF b.
Definition low6 (b : Z) : Z := Z.land b 0x3F.

Definition decode2 (a b : Z) : option Z :=
  if within 0xC2 0xDF a && isCont b then Some (Z.lor (Z.shiftl (Z.land a 0x1F) 6) (low6 b)) else None.
Definition decode3 (a b c : Z) : option Z :=
  let ok := if a =? 0xE0 then within 0xA0 0xBF b
            else if a =? 0xED then within 0x80 0x9F b
            else within 0xE1 0xEF a && isCont b in
  if ok && isCont c
  then Some (Z.lor (Z.shiftl (Z.land a 0x0F) 12) (Z.lor (Z.shiftl (low6 b) 6) (low6 c)))
  else None.
Definition decode4 (a b c d : Z) : option Z :=
  let ok := if a =? 0xF0 then within 0x90 0xBF b
            else if a =? 0xF4 then within 0x80 0x8F b
            else within 0xF1 0xF3 a && isCont b in
  if ok && isCont c && isCont d
  then Some (Z.lor (Z.shiftl (Z.land a 0x07) 18)
               (Z.lor (Z.shiftl (low6 b) 12) (Z.lor (Z.shiftl (low6 c) 6) (low6 d))))
  else None.

(** [utf8.DecodeRuneInString]: the code point and its width. *)
Definition decodeRune (l : list Z) : Z * nat :=
  let one := match l with a :: _ => if a <? 0x80 then Some a else None | _ => None end in
  let two := match l with a :: b :: _ => decode2 a b | _ => None end in
  let three := match l with a :: b :: c :: _ => decode3 a b c | _ => None end in
  let four := match l with a :: b :: c :: d :: _ => decode4 a b c d | _ => None end in
  match one, two, three, four with
  | Some p, _, _, _ => (p, 1%nat)
  | _, Some p, _, _ => (p, 2%nat)
  | _, _, Some p, _ => (p, 3%nat)
  | _, _, _, Some p => (p, 4%nat)
  | _, _, _, _ => (runeError, 1%nat)
  end.

Definition codes (s : string) : list Z := map code (String.list_ascii_of_string s).

Fixpoint runesFuel (n : nat) (s : string) : list rune :=
  match n, s with
  | S n, String _ _ =>
      let '(p, w) := decodeRune (codes (String.substring 0 4 s)) in
      mkRune p (String.substring 0 w s) :: runesFuel n (string_drop w s)
  | _, _ => []
  end.
Definition runes (s : string) : list rune := runesFuel (String.length s) s.

(** *** Expressions *)
Record set : Type := mkSet { negated : bool; ranges : list (Z * Z) }.
Definition inRanges (l : list (Z * Z)) (c : Z) : bool := existsb (fun r => within r.1 r.2 c) l.
Definition inSet (s : set) (c : Z) : bool := xorb (negated s) (inRanges (ranges s) c).

Inductive re : Type :=
| Eps
| Char (s : set)
| Cat (a b : re)
| Alt (a b : re)                 (** [a] is preferred *)
| Star (greedy : bool) (a : re)
| Group (i : nat) (a : re)
| Begin
| End
| WordBoundary.

#[export] Instance set_eq_dec : EqDecision set.
Proof. solve_decision. Defined.
#[export] Instance re_eq_dec : EqDecision re.
Proof. solve_decision. Defined.

Definition Opt (greedy : bool) (a : re) : re := if greedy then Alt a Eps else Alt Eps a.
Definition Plus (greedy : bool) (a : re) : re := Cat a (Star greedy a).
Definition cat (a b : re) : re := match b with Eps => a | _ => Cat a b end.
Fixpoint Times (n : nat) (a : re) : re :=
  match n with O => Eps | S n => cat a (Times n a) end.

(** *** Matching *)
Record cursor : Type := mkCursor {
  before : option Z;             (** the code point before the position *)
  ahead : list rune;
  caps : list (nat * string)     (** the captures, the latest first *)
}.

Definition isWord (c : Z) : bool :=
  within 65 90 c || within 97 122 c || within 48 57 c || (c =? 95).
Definition wordAt (o : option Z) : bool := match o with Some c => isWord c | None => false end.
Definition atBoundary (st : cursor) : bool :=
  xorb (wordAt (before st)) (wordAt (option_map point (head (ahead st)))).

Definition advance (c : rune) (l : list rune) (st : cursor) : cursor :=
  mkCursor (Some (point c)) l (caps st).
Definition consumed (st st' : cursor) : string :=
  text_of (take (length (ahead st) - length (ahead st')) (ahead st)).
Definition capture (i : nat) (st st' : cursor) : cursor :=
  mkCursor (before st') (ahead st') ((i, consumed st st') :: caps st').
Definition progress (st st' : cursor) : bool := (length (ahead st') <? length (ahead st))%nat.

(** [body] repeated, each time with progress, [n] times at most. *)
Definition loop {A} (greedy : bool) (body : cursor -> (cursor -> option A) -> option A)
    (k : cursor -> option A) : nat -> cursor -> option A :=
  fix go (n : nat) (st : cursor) : option A :=
    if greedy then
      match match n with
            | O => None
            | S n => body st (fun st' => if progress st st' then go n st' else None)
            end with
      | Some x => Some x
      | None => k st
      end
    else
      match k st with
      | Some x => Some x
      | None =>
          match n with
          | O => None
          | S n => body st (fun st' => if progress st st' then go n st' else None)
          end
      end.

Fixpoint exec {A} (r : re) (st : cursor) (k : cursor -> option A) : option A :=
  match r with
  | Eps => k st
  | Char s =>
      match ahead st with
      | c :: l => if inSet s (point c) then k (advance c l st) else None
      | [] => None
      end
  | Cat a b => exec a st (fun st' => exec b st' k)
  | Alt a b => match exec a st k with Some x => Some x | None => exec b st k end
  | Star greedy a => loop greedy (exec a) k (length (ahead st)) st
  | Group i a => exec a st (fun st' => k (capture i st st'))
  | Begin => match before st with None => k st | Some _ => None end
  | End => match ahead st with [] => k st | _ :: _ => None end
  | WordBoundary => if atBoundary st then k st else None
  end.

(** The first match at or after a position. *)
Record found : Type := mkFound { skipped : list rune; startAt : cursor; endAt : cursor }.

Fixpoint find (r : re) (b : option Z) (skip : list rune) (l : list rune) : option found :=
  let st := mkCursor b l [] in
  match exec r st Some with
  | Some st' => Some (mkFound (rev skip) st st')
  | None =>
      match l with
      | [] => None
      | c :: l' => find r (Some (point c)) (c :: skip) l'
      end
  end.

Definition groupText (i : nat) (l : list (nat * string)) : string :=
  match List.find (fun x => (x.1 =? i)%nat) l with Some (_, t) => t | None => EmptyString end.

(** *** The package's functions *)
Record Regexp : Type := mkRegexp { prog : re; names : list string }.

Definition SubexpNames (x : Regexp) : list string := EmptyString :: names x.

Definition submatches (x : Regexp) (f : found) : list string :=
  consumed (startAt f) (endAt f) ::
  map (fun i => groupText i (caps (endAt f))) (seq 1 (length (names x))).

Definition MatchString (x : Regexp) (s : string) : bool :=
  match find (prog x) None [] (runes s) with Some _ => true | None => false end.
Definition FindStringSubmatch (x : Regexp) (s : string) : option (list string) :=
  option_map (submatches x) (find (prog x) None [] (runes s)).

(** All matches that do not overlap, with the text between them; for
    expressions that do not match the empty string. *)
Fixpoint findAll (n : nat) (r : re) (b : option Z) (l : list rune) : list found * list rune :=
  match n with
  | O => ([], l)
  | S n =>
      match find r b [] l with
      | Some f =>
          let '(fs, rest) := findAll n r (before (endAt f)) (ahead (endAt f)) in (f :: fs, rest)
      | None => ([], l)
      end
  end.

Definition FindAllStringSubmatch (x : Regexp) (s : string) : list (list string) :=
  map (submatches x) (findAll (S (String.length s)) (prog x) None (runes s)).1.

(** [ReplaceAllString(s, "")] *)
Definition RemoveAll (x : Regexp) (s : string) : string :=
  let '(fs, rest) := findAll (S (String.length s)) (prog x) None (runes s) in
  fold_right (fun f t => text_of (skipped f) +:+ t) (text_of rest) fs.

(** *** Parsing an expression

    The subset of the syntax that the program writes: literals, escapes,
    classes, groups with and without names, alternation, the operators
    [*], [+], [?] and [{n}] with their lazy forms, anchors, and [(?i)] at the
    front.  Under [(?i)] a class holds with a letter its other case, and with
    [k] and [s] the Kelvin sign and the long s, which fold to them. *)
Definition digitRange : list (Z * Z) := [(48, 57)].
Definition spaceRange : list (Z * Z) := [(9, 10); (12, 13); (32, 32)].
Definition wordRange : list (Z * Z) := [(48, 57); (65, 90); (95, 95); (97, 122)].

Definition clip (lo hi shift : Z) (r : Z * Z) : list (Z * Z) :=
  let a := Z.max lo r.1 in
  let b := Z.min hi r.2 in
  if a <=? b then [(a + shift, b + shift)] else [].
Definition foldSpecial (c x : Z) (r : Z * Z) : list (Z * Z) :=
  if within r.1 r.2 c || within r.1 r.2 (c + 32) then [(x, x)] else [].
Definition foldRange (r : Z * Z) : list (Z * Z) :=
  r :: clip 65 90 32 r ++ clip 97 122 (-32) r ++ foldSpecial 75 0x212A r ++ foldSpecial 83 0x017F r.
Definition foldRanges (fold : bool) (l : list (Z * Z)) : list (Z * Z) :=
  if fold then flat_map foldRange l else l.

Definition charOf (fold : bool) (c : Z) : re := Char (mkSet false (foldRanges fold [(c, c)])).

Definition hexDigit (c : Z) : option Z :=
  if within 48 57 c then Some (c - 48)
  else if within 97 102 c then Some (c - 87)
  else if within 65 70 c then Some (c - 55)
  else None.

(** The character after a backslash: a class, or itself. *)
Definition escapeClass (c : Z) : option (bool * list (Z * Z)) :=
  if c =? 100 then Some (false, digitRange)
  else if c =? 115 then Some (false, spaceRange)
  else if c =? 83 then Some (true, spaceRange)
  else if c =? 119 then Some (false, wordRange)
  else None.

(** The items of a class up to the closing bracket. *)
Fixpoint classItems (fuel : nat) (s : list Z) : option (list (Z * Z) * list Z) :=
  match fuel with
  | O => None
  | S fuel =>
      let more (item : list (Z * Z)) (s : list Z) :=
        match classItems fuel s with
        | Some (l, rest) => Some (item ++ l, rest)
        | None => None
        end in
      match s with
      | [] => None
      | 93 :: s => Some ([], s)
      | 92 :: c :: s =>
          match escapeClass c with
          | Some (false, l) => more l s
          | Some (true, _) => None
          | None => more [(c, c)] s
          end
      | a :: 45 :: 93 :: s => Some ([(a, a); (45, 45)], s)
      | a :: 45 :: b :: s => if a <=? b then more [(a, b)] s else None
      | a :: s => more [(a, a)] s
      end
  end.

Definition class (fold : bool) (s : list Z) : option (re * list Z) :=
  let '(neg, s) := match s with 94 :: s => (true, s) | _ => (false, s) end in
  match classItems (length s) s with
  | Some (l, rest) => Some (Char (mkSet neg (foldRanges fold l)), rest)
  | None => None
  end.

Fixpoint number (s : list Z) (n : nat) : option (nat * list Z) :=
  match s with
  | 125 :: s => Some (n, s)
  | c :: s => if within 48 57 c then number s (10 * n + Z.to_nat (c - 48))%nat else None
  | [] => None
  end.

Definition lazyMark (s : list Z) : bool * list Z :=
  match s with 63 :: s => (false, s) | _ => (true, s) end.

(** The operator after an atom. *)
Definition postfix (a : re) (s : list Z) : option (re * list Z) :=
  match s with
  | 42 :: s => let '(g, s) := lazyMark s in Some (Star g a, s)
  | 43 :: s => let '(g, s) := lazyMark s in Some (Plus g a, s)
  | 63 :: s => let '(g, s) := lazyMark s in Some (Opt g a, s)
  | 123 :: s => match number s 0 with Some (n, s) => Some (Times n a, s) | None => None end
  | _ => Some (a, s)
  end.

Fixpoint groupName (s : list Z) : option (string * list Z) :=
  match s with
  | [] => None
  | 62 :: s => Some (EmptyString, s)
  | c :: s => match groupName s with
              | Some (t, rest) => Some (String (byte_char c) t, rest)
              | None => None
              end
  end.

(** The groups opened so far are numbered by their left parentheses; [gs] are
    their names. *)
Definition parsed : Type := option (re * list string * list Z).

Fixpoint alternation (fuel : nat) (fold : bool) (gs : list string) (s : list Z) {struct fuel} : parsed :=
  match fuel with
  | O => None
  | S fuel =>
      match sequence fuel fold gs s with
      | Some (a, gs, 124 :: s) =>
          match alternation fuel fold gs s with
          | Some (b, gs, s) => Some (Alt a b, gs, s)
          | None => None
          end
      | r => r
      end
  end
with sequence (fuel : nat) (fold : bool) (gs : list string) (s : list Z) {struct fuel} : parsed :=
  match fuel with
  | O => None
  | S fuel =>
      match s with
      | [] | 124 :: _ | 41 :: _ => Some (Eps, gs, s)
      | _ =>
          match atom fuel fold gs s with
          | Some (a, gs, s) =>
              match postfix a s with
              | Some (a, s) =>
                  match sequence fuel fold gs s with
                  | Some (b, gs, s) => Some (cat a b, gs, s)
                  | None => None
                  end
              | None => None
              end
          | None => None
          end
      end
  end
with atom (fuel : nat) (fold : bool) (gs : list string) (s : list Z) {struct fuel} : parsed :=
  match fuel with
  | O => None
  | S fuel =>
      let closing (r : parsed) (wrap : re -> re) : parsed :=
        match r with
        | Some (a, gs, 41 :: s) => Some (wrap a, gs, s)
        | _ => None
        end in
      let opened := Group (S (length gs)) in
      match s with
      | 40 :: 63 :: 58 :: s => closing (alternation fuel fold gs s) id
      | 40 :: 63 :: 80 :: 60 :: s =>
          match groupName s with
          | Some (name, s) => closing (alternation fuel fold (gs ++ [name]) s) opened
          | None => None
          end
      | 40 :: s => closing (alternation fuel fold (gs ++ [EmptyString]) s) opened
      | 91 :: s => match class fold s with Some (a, s) => Some (a, gs, s) | None => None end
      | 46 :: s => Some (Char (mkSet true [(10, 10)]), gs, s)
      | 94 :: s => Some (Begin, gs, s)
      | 36 :: s => Some (End, gs, s)
      | 92 :: 98 :: s => Some (WordBoundary, gs, s)
      | 92 :: 120 :: a :: b :: s =>
          match hexDigit a, hexDigit b with
          | Some a, Some b => Some (charOf fold (16 * a + b), gs, s)
          | _, _ => None
          end
      | 92 :: c :: s =>
          match escapeClass c with
          | Some (neg, l) => Some (Char (mkSet neg (foldRanges fold l)), gs, s)
          | None => Some (charOf fold c, gs, s)
          end
      | c :: s => Some (charOf fold c, gs, s)
      | [] => None
      end
  end.

Definition Compile (expr : string) : option Regexp :=
  let '(fold, s) := match codes expr with
                    | 40 :: 63 :: 105 :: 41 :: s => (true, s)
                    | s => (false, s)
                    end in
  match alternation (3 * S (length s)) fold [] s with
  | Some (a, gs, []) => Some (mkRegexp a gs)
  | _ => None
  end.

(** [regexp.MustCompile] panics on an error; every expression of the program
    parses, as the lemmas about them show. *)
Definition MustCompile (expr : string) : Regexp :=
  default (mkRegexp Eps []) (Compile expr).
