(* ===== verification/RegexpFacts.v ===== *)
(** What holds of any expression: the relation of all matches with soundness
    and completeness of the matcher, where captures come from, committing a
    greedy run, and the static analysis [dead]. *)
From S2P Require Import Prelude GoStrings Regexp.

(** ** All ways to match *)
Inductive runs : re -> cursor -> cursor -> Prop :=
| run_eps st : runs Eps st st
| run_char s c l st :
    ahead st = c :: l -> inSet s (point c) = true -> runs (Char s) st (advance c l st)
| run_cat a b st st1 st2 : runs a st st1 -> runs b st1 st2 -> runs (Cat a b) st st2
| run_left a b st st' : runs a st st' -> runs (Alt a b) st st'
| run_right a b st st' : runs b st st' -> runs (Alt a b) st st'
| run_stop g a st : runs (Star g a) st st
| run_more g a st st1 st2 :
    runs a st st1 -> progress st st1 = true -> runs (Star g a) st1 st2 -> runs (Star g a) st st2
| run_group i a st st' : runs a st st' -> runs (Group i a) st (capture i st st')
| run_begin st : before st = None -> runs Begin st st
| run_end st : ahead st = [] -> runs End st st
| run_boundary st : atBoundary st = true -> runs WordBoundary st st.
Create HintDb regexp.
#[export] Hint Constructors runs : regexp.

Section Matcher.
Context {A : Type}.
Implicit Types (k : cursor -> option A) (st : cursor).

(** A computation that finds what is related, and only that. *)
Definition finds (body : cursor -> (cursor -> option A) -> option A) (R : cursor -> cursor -> Prop) : Prop :=
  forall st k,
    (forall x, body st k = Some x -> exists st', R st st' /\ k st' = Some x) /\
    (body st k = None -> forall st', R st st' -> k st' = None).

Lemma progress_lt st st' : progress st st' = true <-> (length (ahead st') < length (ahead st))%nat.
Proof. apply Nat.ltb_lt. Qed.

Lemma loop_finds g a body k n st :
  finds body (runs a) -> (length (ahead st) <= n)%nat ->
  (forall x, loop g body k n st = Some x -> exists st', runs (Star g a) st st' /\ k st' = Some x) /\
  (loop g body k n st = None -> forall st', runs (Star g a) st st' -> k st' = None).
Proof.
  intros Hb. revert st. induction n as [|n IH]; intros st Hn.
  - assert (forall st', runs (Star g a) st st' -> st' = st) as Hs.
    { intros st' Hr. inversion Hr; subst; [done|]. match goal with H : progress _ _ = true |- _ => apply progress_lt in H end. lia. }
    cbn. split.
    + intros x Hx. exists st. split; [constructor|]. destruct g; [done|]. by destruct (k st).
    + intros Hk st' ->%Hs. destruct g; [done|]. by destruct (k st).
  - set (k' := fun st' => if progress st st' then loop g body k n st' else None).
    destruct (Hb st k') as [Hs Hc].
    assert (forall x, body st k' = Some x -> exists st', runs (Star g a) st st' /\ k st' = Some x) as Hs'.
    { intros x (st1 & Hr & Hk)%Hs. unfold k' in Hk. destruct (progress st st1) eqn:Hp; [|done].
      apply IH in Hk; [|apply progress_lt in Hp; lia]. destruct Hk as (st2 & Hr2 & Hk2).
      exists st2. split; [by econstructor|done]. }
    assert (body st k' = None -> k st = None -> forall st', runs (Star g a) st st' -> k st' = None) as Hc'.
    { intros Hk Hst st' Hr. inversion Hr; subst; [done|].
      match goal with H : runs a st ?s, P : progress st ?s = true |- _ =>
        specialize (Hc Hk _ H); unfold k' in Hc; rewrite P in Hc; apply progress_lt in P end.
      eapply IH; [|exact Hc|done]. lia. }
    change (loop g body k (S n) st) with
      (if g then match body st k' with Some x => Some x | None => k st end
       else match k st with Some x => Some x | None => body st k' end).
    destruct g.
    + destruct (body st k') as [y|] eqn:Eb.
      * split; [intros x [= ->]; by apply Hs'|done].
      * split; [intros x Hx; exists st; by split; [constructor|]|by intros; eapply Hc'].
    + destruct (k st) as [y|] eqn:Ek.
      * split; [intros x [= ->]; exists st; by split; [constructor|]|done].
      * split; [by apply Hs'|by intros; eapply Hc'].
Qed.

Lemma exec_finds r : finds (exec r) (runs r).
Proof.
  induction r as [|s|a IHa b IHb|a IHa b IHb|g a IHa|i a IHa| | |]; intros st k; cbn [exec].
  - split; [intros x Hx; exists st; by split; [constructor|]|]. intros Hk st' Hr. by inversion Hr; subst.
  - split.
    + intros x Hx. destruct (ahead st) as [|c l] eqn:El; [done|].
      destruct (inSet s (point c)) eqn:Es; [|done]. eexists. split; [by econstructor|done].
    + intros Hk st' Hr. inversion Hr; subst.
      match goal with H : ahead st = _, E : inSet _ _ = true |- _ => by rewrite H, E in Hk end.
  - split.
    + intros x (st1 & H1 & (st2 & H2 & Hk)%IHb)%IHa. exists st2. split; [by econstructor|done].
    + intros Hk st' Hr. inversion Hr; subst. destruct (IHa st (fun st' => exec b st' k)) as [_ Hc].
      match goal with X : runs a st ?s, Y : runs b ?s st' |- _ =>
        specialize (Hc Hk _ X); destruct (IHb s k) as [_ Hc']; by apply Hc' end.
  - destruct (IHa st k) as [Sa Ca], (IHb st k) as [Sb Cb]. destruct (exec a st k) as [y|] eqn:Ea.
    + split; [|done]. intros x [= ->]. destruct (Sa x eq_refl) as (st' & Hr & Hk). eauto with regexp.
    + split; [intros x (st' & Hr & Hk)%Sb; eauto with regexp|].
      intros Hk st' Hr. inversion Hr; subst; eauto.
  - apply loop_finds; [done|lia].
  - destruct (IHa st (fun st' => k (capture i st st'))) as [Sa Ca]. split.
    + intros x (st' & Hr & Hk)%Sa. eauto with regexp.
    + intros Hk st' Hr. inversion Hr; subst. by eapply Ca.
  - destruct (before st) eqn:E; (split; [intros x Hx|intros Hk st' Hr; inversion Hr; subst]); try done; try congruence.
    exists st. by split; [constructor|].
  - destruct (ahead st) eqn:E; (split; [intros x Hx|intros Hk st' Hr; inversion Hr; subst]); try done; try congruence.
    exists st. by split; [constructor|].
  - destruct (atBoundary st) eqn:E; (split; [intros x Hx|intros Hk st' Hr; inversion Hr; subst]); try done; try congruence.
    exists st. by split; [constructor|].
Qed.

Lemma exec_sound r st k x : exec r st k = Some x -> exists st', runs r st st' /\ k st' = Some x.
Proof. apply exec_finds. Qed.

Lemma exec_none r st k : exec r st k = None <-> forall st', runs r st st' -> k st' = None.
Proof.
  split; [apply exec_finds|]. intros Hn. destruct (exec r st k) eqn:E; [|done].
  apply exec_sound in E as (st' & Hr & Hk). by rewrite Hn in Hk.
Qed.
End Matcher.

(** ** Where a match can go *)
Lemma runs_suffix r st st' : runs r st st' -> exists w, ahead st = w ++ ahead st'.
Proof.
  induction 1; try (by exists []); try done.
  - eexists [_]. done.
  - destruct IHruns1 as [w1 ->], IHruns2 as [w2 ->]. exists (w1 ++ w2). by rewrite app_assoc.
  - destruct IHruns1 as [w1 ->], IHruns2 as [w2 ->]. exists (w1 ++ w2). by rewrite app_assoc.
Qed.

Lemma consumed_app st st' w : ahead st = w ++ ahead st' -> consumed st st' = text_of w.
Proof.
  intros E. unfold consumed. f_equal. rewrite E, length_app.
  replace (length w + length (ahead st') - length (ahead st'))%nat with (length w) by lia.
  apply take_app_length.
Qed.

(** A run does not depend on the captures so far. *)
Definition recap (cs : list (nat * string)) (st : cursor) : cursor := mkCursor (before st) (ahead st) cs.

Lemma runs_recap r st st' : runs r st st' -> forall cs, exists cs', runs r (recap cs st) (recap cs' st').
Proof.
  induction 1; intros cs; try (exists cs; by econstructor);
    try (destruct (IHruns cs) as [cs1 H1]; eexists; eauto with regexp; fail).
  - destruct (IHruns1 cs) as [cs1 H1], (IHruns2 cs1) as [cs2 H2]. eauto with regexp.
  - destruct (IHruns1 cs) as [cs1 R1], (IHruns2 cs1) as [cs2 R2]. exists cs2. by eapply run_more.
  - destruct (IHruns cs) as [cs1 R1]. eexists. apply (run_group _ _ _ _ R1).
Qed.

(** ** Captures *)
Fixpoint groupsIn (r : re) : list (nat * re) :=
  match r with
  | Cat a b | Alt a b => groupsIn a ++ groupsIn b
  | Star _ a => groupsIn a
  | Group i a => (i, a) :: groupsIn a
  | _ => []
  end.

(** The characters an expression can consume. *)
Fixpoint alphabet (r : re) : list set :=
  match r with
  | Char s => [s]
  | Cat a b | Alt a b => alphabet a ++ alphabet b
  | Star _ a | Group _ a => alphabet a
  | _ => []
  end.
Definition inAlphabet (r : re) (c : rune) : Prop := existsb (fun s => inSet s (point c)) (alphabet r) = true.

Lemma runs_alphabet r st st' w :
  runs r st st' -> ahead st = w ++ ahead st' -> Forall (inAlphabet r) w.
Proof.
  assert (forall (l l' : list set) c, existsb (fun s => inSet s c) l = true ->
            existsb (fun s => inSet s c) (l ++ l') = true /\ existsb (fun s => inSet s c) (l' ++ l) = true) as Hex.
  { intros l l' c H. rewrite !existsb_app, H. by rewrite orb_true_r. }
  intros Hr. revert w. unfold inAlphabet. induction Hr; intros w E; cbn [alphabet];
    try (destruct w as [|? [|]]; [done| |];
         apply (f_equal length) in E; cbn in E; rewrite ?length_app in E; lia).
  - change (ahead (advance c l st)) with l in E. rewrite H in E. apply (app_inv_tail _ [c]) in E. subst w.
    constructor; [|done]. cbn. by rewrite H0.
  - destruct (runs_suffix _ _ _ Hr1) as [w1 E1], (runs_suffix _ _ _ Hr2) as [w2 E2].
    rewrite E1, E2, app_assoc in E. apply app_inv_tail in E as <-.
    apply Forall_app. split; [eapply Forall_impl; [by apply IHHr1|]|eapply Forall_impl; [by apply IHHr2|]];
      intros x Hx; cbn in Hx |- *; by destruct (Hex _ (alphabet a) _ Hx), (Hex _ (alphabet b) _ Hx).
  - eapply Forall_impl; [by apply IHHr|]. intros x Hx. cbn in Hx |- *.
    by destruct (Hex _ (alphabet a) _ Hx), (Hex _ (alphabet b) _ Hx).
  - eapply Forall_impl; [by apply IHHr|]. intros x Hx. cbn in Hx |- *.
    by destruct (Hex _ (alphabet a) _ Hx), (Hex _ (alphabet b) _ Hx).
  - destruct (runs_suffix _ _ _ Hr1) as [w1 E1], (runs_suffix _ _ _ Hr2) as [w2 E2].
    rewrite E1, E2, app_assoc in E. apply app_inv_tail in E as <-.
    apply Forall_app. split; [by apply IHHr1|by apply IHHr2].
  - by apply IHHr.
Qed.

(** ** Anchored expressions match at the start or not at all *)
Definition anchored (r : re) : bool := match r with Cat Begin _ => true | _ => false end.

Lemma find_anchored r skip l :
  anchored r = true ->
  find r None skip l =
    option_map (mkFound (rev skip) (mkCursor None l [])) (exec r (mkCursor None l []) Some).
Proof.
  intros Ha. assert (forall c skip l, find r (Some c) skip l = None) as Hn.
  { destruct r as [| |[] ?| | | | | |]; try done. intros c skip' l'. revert c skip'.
    induction l' as [|d l' IH]; intros c skip'; [done|]. cbn in IH |- *. apply IH. }
  destruct l as [|c l]; cbn [find]; destruct (exec _ _ _); done || apply Hn.
Qed.

(** ** Expressions that cannot match

    [deriv p r]: what is left of [r] after one character, of which only [p]
    is known: the sets it may be in.  Anchors are ignored, so this errs on
    the side of matching. *)
Fixpoint nullable (r : re) : bool :=
  match r with
  | Char _ => false
  | Cat a b => nullable a && nullable b
  | Alt a b => nullable a || nullable b
  | Group _ a => nullable a
  | _ => true
  end.

Definition cat' (a b : re) : re := match a with Eps => b | _ => Cat a b end.

Fixpoint deriv (p : set -> bool) (r : re) : list re :=
  match r with
  | Char s => if p s then [Eps] else []
  | Cat a b => map (fun x => cat' x b) (deriv p a) ++ (if nullable a then deriv p b else [])
  | Alt a b => deriv p a ++ deriv p b
  | Star g a => map (fun x => cat' x (Star g a)) (deriv p a)
  | Group _ a => deriv p a
  | _ => []
  end.

Lemma runs_cat' a b st st1 st2 : runs a st st1 -> runs b st1 st2 -> runs (cat' a b) st st2.
Proof.
  intros Ha Hb. destruct a; try by eapply run_cat. by inversion Ha; subst.
Qed.

(** [st'] from [st] up to captures. *)
Definition reaches (r : re) (st st' : cursor) : Prop := exists cs cs', runs r (recap cs st) (recap cs' st').

Lemma reaches_runs r st st' : runs r st st' -> reaches r st st'.
Proof. intros H. exists (caps st), (caps st'). by destruct st, st'. Qed.

Lemma reaches_cat' a b st st1 st2 : reaches a st st1 -> reaches b st1 st2 -> reaches (cat' a b) st st2.
Proof.
  intros (cs & cs1 & Ha) (ds & ds' & Hb). destruct (runs_recap _ _ _ Hb cs1) as [cs2 Hb'].
  exists cs, cs2. by eapply runs_cat'.
Qed.

Definition sameText (st st' : cursor) : Prop := before st = before st' /\ ahead st = ahead st'.

Lemma reaches_same r st st1 st' : sameText st st1 -> reaches r st1 st' -> reaches r st st'.
Proof.
  intros [Hb Ha] (cs & cs' & Hr). exists cs, cs'. unfold recap in *. by rewrite Hb, Ha.
Qed.

(** A match of [r] takes nothing, or one character and then what is left. *)
Lemma runs_deriv r st st' c l (p : set -> bool) :
  runs r st st' -> ahead st = c :: l -> (forall s, inSet s (point c) = true -> p s = true) ->
  (sameText st st' /\ nullable r = true) \/
  exists r', r' ∈ deriv p r /\ reaches r' (advance c l st) st'.
Proof.
  intros Hr El Hp. revert El. induction Hr; intros El; cbn [nullable deriv]; try by left.
  - right. rewrite H in El. injection El as -> ->. rewrite (Hp _ H0). exists Eps.
    split; [by left|]. apply reaches_runs. constructor.
  - destruct (IHHr1 El) as [[[Eb Ea] Hn]|(r1 & H1 & R1)].
    + rewrite Hn. rewrite Ea in El. destruct (IHHr2 El) as [[[Eb' Ea'] Hn']|(r2 & H2 & R2)].
      * left. rewrite Hn'. split; [split; congruence|done].
      * right. exists r2. split; [apply elem_of_app; by right|].
        eapply reaches_same; [|exact R2]. done.
    + right. exists (cat' r1 b). split; [apply elem_of_app; left; by apply (list_elem_of_fmap_2 (fun x => cat' x b))|].
      eapply reaches_cat'; [exact R1|]. by apply reaches_runs.
  - destruct (IHHr El) as [[Hs Hn]|(r1 & H1 & R1)]; [left; by rewrite Hn|].
    right. exists r1. split; [apply elem_of_app; by left|done].
  - destruct (IHHr El) as [[Hs Hn]|(r1 & H1 & R1)]; [left; by rewrite Hn, orb_true_r|].
    right. exists r1. split; [apply elem_of_app; by right|done].
  - destruct (IHHr1 El) as [[[Eb Ea] Hn]|(r1 & H1 & R1)].
    + apply progress_lt in H. rewrite Ea in H. lia.
    + right. exists (cat' r1 (Star g a)). split; [by apply (list_elem_of_fmap_2 (fun x => cat' x (Star g a)))|].
      eapply reaches_cat'; [exact R1|]. by apply reaches_runs.
  - destruct (IHHr El) as [[Hs Hn]|(r1 & H1 & (cs & cs' & R1))]; [left; by split|].
    right. exists r1. split; [done|]. by exists cs, cs'.
Qed.

(** What is known of the start of a text: its characters one by one, and runs
    of one or more characters of given ranges. *)
Inductive known : Type :=
| One (c : Z)
| Many (rs : list (Z * Z)).

Inductive starts : list known -> list rune -> Prop :=
| starts_nil l : starts [] l
| starts_one c p r l : point r = c -> starts p l -> starts (One c :: p) (r :: l)
| starts_many rs p w l :
    w <> [] -> Forall (fun r => inRanges rs (point r) = true) w -> starts p l ->
    starts (Many rs :: p) (w ++ l).

Definition meets (rs : list (Z * Z)) (s : set) : bool :=
  negated s || existsb (fun r => existsb (fun q => Z.max r.1 q.1 <=? Z.min r.2 q.2) (ranges s)) rs.

Definition stepAll (p : set -> bool) (R : list re) : list re := remove_dups (flat_map (deriv p) R).

(** What may be left after any number of further characters of [rs]. *)
Fixpoint closure (n : nat) (p : set -> bool) (R : list re) : list re :=
  match n with
  | O => R
  | S n => closure n p (remove_dups (R ++ stepAll p R))
  end.

(** The expressions left after a text that starts as [p] says; [None] when the
    analysis cannot tell, as when a match may have ended before. *)
Fixpoint residual (p : list known) (R : list re) : option (list re) :=
  match p with
  | [] => Some R
  | x :: p =>
      if existsb nullable R then None
      else match x with
           | One c => residual p (stepAll (fun s => inSet s c) R)
           | Many rs =>
               let R' := closure 40 (meets rs) (stepAll (meets rs) R) in
               if existsb nullable R' then None
               else if bool_decide (stepAll (meets rs) R' ⊆ R') then residual p R' else None
           end
  end.

Definition dead (p : list known) (R : list re) : bool :=
  match residual p R with Some [] => true | _ => false end.

Definition alive (R : list re) (l : list rune) : Prop :=
  exists r st st', r ∈ R /\ ahead st = l /\ reaches r st st'.

Lemma alive_step R c l (p : set -> bool) :
  alive R (c :: l) -> (forall s, inSet s (point c) = true -> p s = true) ->
  existsb nullable R = false -> alive (stepAll p R) l.
Proof.
  intros (r & st & st' & Hr & El & cs & cs' & Hrun) Hp Hn.
  destruct (runs_deriv _ _ _ c l p Hrun El Hp) as [[_ Hnull]|(r' & Hr' & Hreach)].
  - exfalso. apply Bool.not_true_iff_false in Hn. apply Hn, existsb_exists.
    exists r. split; [by apply list_elem_of_In|done].
  - exists r', (advance c l (recap cs st)), (recap cs' st'). split; [|by split].
    unfold stepAll. apply elem_of_remove_dups, list_elem_of_In, in_flat_map. exists r.
    split; by apply list_elem_of_In.
Qed.

Lemma alive_mono R R' l : R ⊆ R' -> alive R l -> alive R' l.
Proof. intros Hs (r & st & st' & Hr & H). exists r, st, st'. split; [by apply Hs|done]. Qed.

Lemma closure_incl n p R : R ⊆ closure n p R.
Proof.
  revert R. induction n as [|n IH]; intros R x Hx; [done|]. apply IH, elem_of_remove_dups, elem_of_app. by left.
Qed.

Lemma meets_spec rs s c : inRanges rs c = true -> inSet s c = true -> meets rs s = true.
Proof.
  unfold meets, inSet. intros (r & Hr & Hc)%existsb_exists Hs. destruct (negated s); [done|]. cbn in Hs |- *.
  apply existsb_exists in Hs as (q & Hq & Hc'). apply existsb_exists. exists r. split; [done|].
  apply existsb_exists. exists q. split; [done|]. unfold within in *.
  apply andb_prop in Hc as [?%Z.leb_le ?%Z.leb_le], Hc' as [?%Z.leb_le ?%Z.leb_le]. apply Z.leb_le. lia.
Qed.

Lemma alive_many rs R w l :
  alive R (w ++ l) -> Forall (fun r => inRanges rs (point r) = true) w ->
  stepAll (meets rs) R ⊆ R -> existsb nullable R = false -> alive R l.
Proof.
  intros Ha Hw Hs Hn. revert Ha. induction Hw as [|c w Hc Hw IH]; intros Ha; [done|].
  apply IH. eapply alive_mono; [exact Hs|]. eapply alive_step; [exact Ha| |done].
  intros s. by apply meets_spec.
Qed.

Lemma residual_alive p : forall R R' l,
  residual p R = Some R' -> starts p l -> alive R l -> exists l', alive R' l'.
Proof.
  induction p as [|x p IH]; intros R R' l Hd Hst Hal; cbn [residual] in Hd.
  - injection Hd as <-. by exists l.
  - destruct (existsb nullable R) eqn:Hn; [done|]. inversion Hst; subst.
    + eapply IH; [exact Hd|eassumption|]. eapply alive_step; [exact Hal| |done]. done.
    + revert Hd. generalize (closure_incl 40 (meets rs) (stepAll (meets rs) R)).
      generalize (closure 40 (meets rs) (stepAll (meets rs) R)) as S. intros S Hincl Hd.
      destruct (existsb nullable S) eqn:Hn'; [done|]. case_bool_decide as Hc; [|done].
      match goal with F : Forall _ ?w, N : ?w <> [] |- _ => destruct F as [|c w Hw Hws]; [by destruct N|] end.
      eapply IH; [exact Hd|eassumption|]. eapply alive_many; [|exact Hws|exact Hc|exact Hn'].
      eapply alive_mono; [exact Hincl|]. eapply alive_step; [exact Hal| |done].
      intros s. by apply meets_spec.
Qed.

Lemma residual_app p q R :
  residual (p ++ q) R = match residual p R with Some R' => residual q R' | None => None end.
Proof.
  revert R. induction p as [|[c|rs] p IH]; intros R; [done| |]; cbn [app residual];
    (destruct (existsb nullable R); [done|]); [apply IH|].
  destruct (existsb nullable _); [done|]. case_bool_decide; [apply IH|done].
Qed.

Lemma dead_alive p R l : dead p R = true -> starts p l -> alive R l -> False.
Proof.
  unfold dead. destruct (residual p R) as [[|]|] eqn:E; try done. intros _ Hst Hal.
  destruct (residual_alive _ _ _ _ E Hst Hal) as (l' & r & st & st' & Hr & _). by apply elem_of_nil in Hr.
Qed.

Lemma dead_find p r l :
  anchored r = true -> dead p [r] = true -> starts p l -> find r None [] l = None.
Proof.
  intros Ha Hd Hst. rewrite find_anchored by done.
  destruct (exec r (mkCursor None l []) Some) as [x|] eqn:E; [|done]. exfalso.
  apply exec_sound in E as (st' & Hr & _). eapply dead_alive; [exact Hd|exact Hst|].
  exists r, (mkCursor None l []), st'. split; [by left|]. split; [done|].
  by apply reaches_runs.
Qed.

(** ** Runes of a string *)
Lemma substring_drop n s : (String.substring 0 n s +:+ string_drop n s)%string = s.
Proof.
  revert s. induction n as [|n IH]; intros [|c s]; try done. apply (f_equal (String c)), IH.
Qed.

Lemma string_drop_length n s : String.length (string_drop n s) = (String.length s - n)%nat.
Proof. revert s. induction n as [|n IH]; intros [|c s]; done || apply IH. Qed.

Lemma decodeRune_width l : (1 <= (decodeRune l).2)%nat.
Proof.
  unfold decodeRune. repeat case_match; cbn; lia.
Qed.

Lemma runesFuel_enough n s : (String.length s <= n)%nat -> runesFuel n s = runes s.
Proof.
  unfold runes. remember (String.length s) as m eqn:Em. assert (String.length s <= m)%nat as Hm by lia. clear Em.
  revert n s Hm. induction m as [|m IH]; intros n s Hm Hn.
  - destruct s; [by destruct n|cbn in Hm; lia].
  - destruct n as [|n]; [lia|]. destruct s as [|c s]; [done|]. cbn [runesFuel].
    pose proof (decodeRune_width (codes (String.substring 0 4 (String c s)))) as Hw.
    destruct (decodeRune _) as [p w]. cbn in Hw. f_equal. destruct w as [|w]; [lia|].
    cbn in Hm. rewrite <- IH with (n := n) by (cbn; rewrite ?string_drop_length; lia). done.
Qed.

Lemma runes_cons c s :
  runes (String c s) =
    let '(p, w) := decodeRune (codes (String.substring 0 4 (String c s))) in
    mkRune p (String.substring 0 w (String c s)) :: runes (string_drop w (String c s)).
Proof.
  unfold runes at 1. cbn [String.length runesFuel].
  pose proof (decodeRune_width (codes (String.substring 0 4 (String c s)))) as Hw.
  destruct (decodeRune _) as [p w]. f_equal. apply runesFuel_enough.
  rewrite string_drop_length. cbn in *. lia.
Qed.

Lemma text_of_app l k : text_of (l ++ k) = (text_of l +:+ text_of k)%string.
Proof.
  induction l as [|r l IH]; [done|]. cbn [app text_of fold_right].
  change (fold_right _ _ ?x) with (text_of x). by rewrite IH, string_app_assoc.
Qed.

Lemma text_of_runes s : text_of (runes s) = s.
Proof.
  remember (String.length s) as m eqn:Em. assert (String.length s <= m)%nat as Hm by lia. clear Em.
  revert s Hm. induction m as [|m IH]; intros s Hm; (destruct s as [|c s]; [done|]); [cbn in Hm; lia|].
  rewrite runes_cons. pose proof (decodeRune_width (codes (String.substring 0 4 (String c s)))) as Hw.
  destruct (decodeRune _) as [p w]. cbn [text_of fold_right enc]. change (fold_right _ _ ?l) with (text_of l).
  rewrite IH; [apply substring_drop|]. rewrite string_drop_length. cbn in *. lia.
Qed.

Definition ascii_rune (c : Ascii.ascii) : rune := mkRune (code c) (String c EmptyString).

Lemma runes_ascii_cons c s : code c < 128 -> runes (String c s) = ascii_rune c :: runes s.
Proof.
  intros Hc. rewrite runes_cons. unfold decodeRune. cbn [String.substring codes String.list_ascii_of_string map].
  destruct (Z.ltb_spec (code c) 0x80); [|lia]. by destruct s.
Qed.

Lemma runes_ascii s : isASCII s = true -> runes s = map ascii_rune (String.list_ascii_of_string s).
Proof.
  induction s as [|c s IH]; [done|]. rewrite isASCII_cons. intros [Hc%Z.ltb_lt Hs]%andb_prop.
  rewrite runes_ascii_cons by done. cbn. by rewrite IH.
Qed.

Lemma runes_app s t : isASCII s = true -> runes (s +:+ t) = runes s ++ runes t.
Proof.
  induction s as [|c s IH]; [done|]. rewrite isASCII_cons. intros [Hc%Z.ltb_lt Hs]%andb_prop.
  change (String c s +:+ t) with (String c (s +:+ t)). rewrite !runes_ascii_cons by done. by rewrite IH.
Qed.

(** A rune is an ASCII character, or a longer encoding with no byte below
    128 of a point that is not ASCII either. *)
Definition highBytes (s : string) : Prop := Forall (fun b => 128 <= b) (codes s).
Definition wfRune (r : rune) : Prop :=
  (exists c, r = ascii_rune c /\ code c < 128) \/
  (enc r <> EmptyString /\ highBytes (enc r) /\ 128 <= point r).

Lemma lor_high x y : 0 <= x -> 0 <= y -> 128 <= x \/ 128 <= y -> 128 <= Z.lor x y.
Proof.
  intros Hx Hy Hh. apply (Z.log2_le_pow2 (Z.lor x y) 7).
  - assert (0 <= Z.lor x y) by (by apply Z.lor_nonneg). assert (Z.lor x y <> 0); [|lia].
    rewrite Z.lor_eq_0_iff. lia.
  - rewrite Z.log2_lor by done. destruct Hh as [Hh|Hh]; apply (Z.log2_le_mono 128) in Hh;
      change (Z.log2 128) with 7 in Hh; lia.
Qed.

Lemma within_spec lo hi z : within lo hi z = true <-> lo <= z <= hi.
Proof. unfold within. rewrite andb_true_iff, !Z.leb_le. done. Qed.

(** A property of the numbers of a range, by computation. *)
Lemma forall_range (P : Z -> bool) lo hi z :
  forallb P (map (fun i => lo + Z.of_nat i) (seq 0 (Z.to_nat (hi - lo + 1)))) = true ->
  lo <= z <= hi -> P z = true.
Proof.
  intros HP Hz. rewrite forallb_forall in HP. apply HP. apply in_map_iff.
  exists (Z.to_nat (z - lo)). split; [lia|]. apply in_seq. lia.
Qed.

Lemma low6_nonneg b : 0 <= low6 b.
Proof. apply Z.land_nonneg. right. lia. Qed.

Lemma lead_high a lo hi mask k :
  forallb (fun a => 128 <=? Z.shiftl (Z.land a mask) k)
    (map (fun i => lo + Z.of_nat i) (seq 0 (Z.to_nat (hi - lo + 1)))) = true ->
  lo <= a <= hi -> 128 <= Z.shiftl (Z.land a mask) k.
Proof. intros H Ha. apply Z.leb_le. exact (forall_range _ lo hi a H Ha). Qed.

#[local] Hint Resolve low6_nonneg : core.
Ltac nonneg :=
  repeat first [apply Z.lor_nonneg; split | apply Z.shiftl_nonneg | apply low6_nonneg | apply Z.land_nonneg; right; lia].

Lemma decode2_high a b p : decode2 a b = Some p -> 128 <= a /\ 128 <= b /\ 128 <= p.
Proof.
  unfold decode2, isCont. destruct (within _ _ a) eqn:Ea, (within _ _ b) eqn:Eb; try done.
  apply within_spec in Ea, Eb. intros [= <-]. repeat split; try lia.
  apply lor_high; [nonneg|auto|left]. apply (lead_high _ 0xC2 0xDF); [by vm_compute|done].
Qed.

Lemma decode3_high a b c p : decode3 a b c = Some p -> 128 <= a /\ 128 <= b /\ 128 <= c /\ 128 <= p.
Proof.
  unfold decode3, isCont. destruct (if a =? 0xE0 then _ else _) eqn:Eo; [|done].
  destruct (within _ _ c) eqn:Ec; [|done]. intros [= <-]. apply within_spec in Ec.
  destruct (Z.eqb_spec a 0xE0); [apply within_spec in Eo; subst|].
  - repeat split; try lia. apply lor_high; [nonneg|nonneg|right]. apply lor_high; [nonneg|auto|left].
    apply (lead_high _ 0xA0 0xBF); [by vm_compute|done].
  - assert (0xE1 <= a <= 0xEF /\ 0x80 <= b) as [Ha Hb].
    { destruct (Z.eqb_spec a 0xED); [apply within_spec in Eo; lia|].
      apply andb_prop in Eo as [Ea%within_spec Eb%within_spec]. lia. }
    repeat split; try lia. apply lor_high; [nonneg|nonneg|left].
    apply (lead_high _ 0xE1 0xEF); [by vm_compute|done].
Qed.

Lemma decode4_high a b c d p :
  decode4 a b c d = Some p -> 128 <= a /\ 128 <= b /\ 128 <= c /\ 128 <= d /\ 128 <= p.
Proof.
  unfold decode4, isCont. destruct (if a =? 0xF0 then _ else _) eqn:Eo; [|done].
  destruct (within _ _ c) eqn:Ec; [|done]. destruct (within _ _ d) eqn:Ed; [|done].
  intros [= <-]. apply within_spec in Ec, Ed.
  destruct (Z.eqb_spec a 0xF0); [apply within_spec in Eo; subst|].
  - repeat split; try lia. apply lor_high; [nonneg|nonneg|right]. apply lor_high; [nonneg|nonneg|left].
    apply (lead_high _ 0x90 0xBF); [by vm_compute|done].
  - assert (0xF1 <= a <= 0xF4 /\ 0x80 <= b) as [Ha Hb].
    { destruct (Z.eqb_spec a 0xF4); [apply within_spec in Eo; lia|].
      apply andb_prop in Eo as [Ea%within_spec Eb%within_spec]. lia. }
    repeat split; try lia. apply lor_high; [nonneg|nonneg|left].
    apply (lead_high _ 0xF1 0xF4); [by vm_compute|done].
Qed.

Lemma codes_app s t : codes (s +:+ t) = codes s ++ codes t.
Proof. induction s as [|c s IH]; [done|]. apply (f_equal (cons (code c))), IH. Qed.

Ltac high := unfold highBytes; cbn; rewrite ?Forall_cons; repeat split; try lia; try apply Forall_nil_2.

Lemma runes_wf s : Forall wfRune (runes s).
Proof.
  remember (String.length s) as m eqn:Em. assert (String.length s <= m)%nat as Hm by lia. clear Em.
  revert s Hm. induction m as [|m IH]; intros s Hm; (destruct s as [|c s]; [constructor|]); [cbn in Hm; lia|].
  rewrite runes_cons. pose proof (decodeRune_width (codes (String.substring 0 4 (String c s)))) as Hw.
  destruct (decodeRune _) as [p w] eqn:E. cbn in Hw. constructor; [|apply IH; rewrite string_drop_length; cbn in *; lia].
  clear IH Hm Hw.   cbn [String.substring codes String.list_ascii_of_string map] in E.
  destruct (Z.ltb_spec (code c) 0x80) as [Hc|Hc].
  { left. exists c. unfold decodeRune in E. destruct (Z.ltb_spec (code c) 0x80); [|lia].
    injection E as <- <-. by destruct s. }
  right. unfold decodeRune, runeError in E. destruct (Z.ltb_spec (code c) 0x80); [lia|].
  destruct s as [|c1 s]; [injection E as <- <-; split; [done|split; [high|cbn; lia]]|].
  cbn [String.substring codes String.list_ascii_of_string map] in E.
  destruct (decode2 _ _) eqn:E2.
  { injection E as <- <-. apply decode2_high in E2 as (? & ? & ?). split; [done|].
    split; [|done]. destruct s; high. }
  destruct s as [|c2 s]; [injection E as <- <-; split; [done|split; [high|cbn; lia]]|].
  cbn [String.substring codes String.list_ascii_of_string map] in E.
  destruct (decode3 _ _ _) eqn:E3.
  { injection E as <- <-. apply decode3_high in E3 as (? & ? & ? & ?). split; [done|].
    split; [|done]. destruct s; high. }
  destruct s as [|c3 s]; [injection E as <- <-; split; [done|split; [high|cbn; lia]]|].
  cbn [String.substring codes String.list_ascii_of_string map] in E.
  destruct (decode4 _ _ _ _) eqn:E4.
  { destruct s; injection E as <- <-; apply decode4_high in E4 as (? & ? & ? & ? & ?); (split; [done|]);
      (split; [|done]); high. }
  destruct s; injection E as <- <-; (split; [done|split; [high|cbn; lia]]).
Qed.

Lemma isASCII_codes s : isASCII s = true <-> Forall (fun b => b < 128) (codes s).
Proof.
  unfold isASCII, codes. rewrite forallb_forall, List.Forall_map, List.Forall_forall.
  by split; intros H c Hc; apply Z.ltb_lt, H.
Qed.

(** A text whose bytes are ASCII was read as its characters. *)
Lemma ascii_runes w :
  Forall wfRune w -> isASCII (text_of w) = true ->
  w = map ascii_rune (String.list_ascii_of_string (text_of w)).
Proof.
  induction 1 as [|r w Hr Hw IH]; [done|]. cbn [text_of fold_right]. change (fold_right _ _ ?l) with (text_of l).
  rewrite isASCII_codes, codes_app, Forall_app. intros [Hb Ht].
  destruct Hr as [(c & -> & Hc)|(Hne & Hh & _)].
  - apply isASCII_codes, IH in Ht. apply (f_equal (cons (ascii_rune c)) Ht).
  - destruct (enc r) as [|c s]; [done|]. inversion Hb; subst. inversion Hh; subst. lia.
Qed.

Lemma ascii_point r : wfRune r -> point r < 128 -> exists c, r = ascii_rune c /\ code c < 128.
Proof. intros [?|(_ & _ & ?)] Hp; [done|lia]. Qed.

Lemma ascii_text w : Forall wfRune w -> Forall (fun r => point r < 128) w -> isASCII (text_of w) = true.
Proof.
  induction 1 as [|r w Hr Hw IH]; [done|]. intros Hp. inversion Hp; subst.
  destruct (ascii_point r Hr) as (c & -> & Hc); [done|]. cbn [text_of fold_right enc ascii_rune].
  change (fold_right _ _ ?l) with (text_of l). change (String c "" +:+ text_of w)%string with (String c (text_of w)).
  rewrite isASCII_cons. apply andb_true_intro. split; [by apply Z.ltb_lt|by apply IH].
Qed.

(** ** What [FindStringSubmatch] captures *)
Lemma find_spec r b skip l f :
  find r b skip l = Some f ->
  exists w, l = w ++ ahead (startAt f) /\ caps (startAt f) = [] /\ runs r (startAt f) (endAt f).
Proof.
  revert b skip. induction l as [|c l IH]; intros b skip; cbn [find];
    destruct (exec r _ Some) as [st'|] eqn:E;
    try (intros [= <-]; apply exec_sound in E as (x & Hr & [= ->]); exists []; by repeat split).
  intros (w & E' & H1 & H2)%IH. exists (c :: w).
  split; [exact (f_equal (cons c) E')|by split].
Qed.

(** The runes [w] that [a] took somewhere. *)
Definition takes (a : re) (w : list rune) : Prop :=
  exists st st', runs a st st' /\ ahead st = w ++ ahead st' /\ Forall wfRune w.

Definition fromGroup (r : re) (c : nat * string) : Prop :=
  exists a w, (c.1, a) ∈ groupsIn r /\ takes a w /\ c.2 = text_of w.

Lemma fromGroup_mono r r' c : groupsIn r ⊆ groupsIn r' -> fromGroup r c -> fromGroup r' c.
Proof. intros Hs (a & w & Ha & H). exists a, w. split; [by apply Hs|done]. Qed.

Lemma runs_wf r st st' : runs r st st' -> Forall wfRune (ahead st) -> Forall wfRune (ahead st').
Proof. intros [w ->]%runs_suffix Hw. by apply Forall_app in Hw as [_ Hw]. Qed.

Lemma runs_caps r st st' : runs r st st' -> Forall wfRune (ahead st) ->
  forall c, c ∈ caps st' -> c ∈ caps st \/ fromGroup r c.
Proof.
  induction 1; intros Hwf x Hx; cbn in Hx; try tauto.
  - pose proof (runs_wf _ _ _ H Hwf) as Hwf1. destruct (IHruns2 Hwf1 _ Hx) as [Hx1|Hg].
    + destruct (IHruns1 Hwf _ Hx1) as [?|Hg]; [tauto|right]. eapply fromGroup_mono; [|exact Hg]. set_solver.
    + right. eapply fromGroup_mono; [|exact Hg]. cbn. set_solver.
  - destruct (IHruns Hwf _ Hx) as [?|Hg]; [tauto|right]. eapply fromGroup_mono; [|exact Hg]. cbn. set_solver.
  - destruct (IHruns Hwf _ Hx) as [?|Hg]; [tauto|right]. eapply fromGroup_mono; [|exact Hg]. cbn. set_solver.
  - pose proof (runs_wf _ _ _ H Hwf) as Hwf1. destruct (IHruns2 Hwf1 _ Hx) as [Hx1|Hg]; [|tauto].
    destruct (IHruns1 Hwf _ Hx1) as [?|Hg]; [tauto|by right].
  - apply elem_of_cons in Hx as [->|Hx].
    + right. destruct (runs_suffix _ _ _ H) as [w Ew]. exists a, w. split; [by left|]. split.
      * exists st, st'. split; [done|]. split; [done|]. rewrite Ew, Forall_app in Hwf. tauto.
      * cbn. by apply consumed_app.
    + destruct (IHruns Hwf _ Hx) as [?|Hg]; [tauto|right]. eapply fromGroup_mono; [|exact Hg]. cbn. set_solver.
Qed.

(** A capture is empty, or its group took it from the string. *)
Lemma groupText_spec r b skip l f i :
  find r b skip l = Some f -> Forall wfRune l ->
  groupText i (caps (endAt f)) = EmptyString \/ fromGroup r (i, groupText i (caps (endAt f))).
Proof.
  intros Hf Hwf. destruct (find_spec _ _ _ _ _ Hf) as (pre & -> & Hc & Hr).
  apply Forall_app in Hwf as [_ Hwf].
  unfold groupText. destruct (List.find _ _) as [[j t]|] eqn:E; [|by left]. right.
  apply find_some in E as [Hin Hj%Nat.eqb_eq]. cbn in Hj. subst j.
  apply list_elem_of_In, (runs_caps _ _ _ Hr Hwf) in Hin as [Hin|Hg]; [|done].
  rewrite Hc in Hin. by apply elem_of_nil in Hin.
Qed.

(** Submatches of a string, by their number. *)
Lemma submatch_spec x s m i t :
  FindStringSubmatch x s = Some m -> m !! S i = Some t -> t = EmptyString \/ fromGroup (prog x) (S i, t).
Proof.
  unfold FindStringSubmatch. destruct (find _ _ _ _) as [f|] eqn:Ef; [|done]. intros [= <-] Ht.
  change (((fun i => groupText i (caps (endAt f))) <$> seq 1 (length (names x))) !! i = Some t) in Ht.
  rewrite list_lookup_fmap in Ht.
  destruct (seq 1 _ !! i) as [j|] eqn:Ej; [|done]. apply lookup_seq in Ej as [-> _]. injection Ht as <-.
  eapply groupText_spec; [exact Ef|apply runes_wf].
Qed.

(** All characters of the sets of [a] are ASCII. *)
Definition asciiSets (a : re) : bool :=
  forallb (fun s => negb (negated s) && forallb (fun r => r.2 <? 128) (ranges s)) (alphabet a).

Lemma takes_ascii a w : takes a w -> asciiSets a = true -> isASCII (text_of w) = true.
Proof.
  intros (st & st' & Hr & E & Hwf) Ha. apply ascii_text; [done|].
  eapply Forall_impl; [exact (runs_alphabet _ _ _ _ Hr E)|]. intros r Hin. unfold inAlphabet in Hin.
  apply existsb_exists in Hin as (s & Hs & Hc). unfold asciiSets in Ha. rewrite forallb_forall in Ha.
  apply Ha, andb_prop in Hs as [Hn Hs]. unfold inSet, inRanges in Hc.
  destruct (negated s); [done|]. cbn in Hc. apply existsb_exists in Hc as (q & Hq & Hc).
  rewrite forallb_forall in Hs. apply Hs, Z.ltb_lt in Hq. apply within_spec in Hc. lia.
Qed.
