(* ===== verification/TextEvents.v ===== *)
(** The events of [serial/textparser.go] and the handlers that build them from
    the captures of a pattern. *)
From Stdlib Require Import Floats.SpecFloat.
From S2P Require Import Prelude GoStrings GoFloat Regexp.

(** ** Numbers as strconv returns them next to an error *)
Inductive parsedInt : Type :=
| IntOK (v : Z)
| IntRange (v : Z)       (** the nearest value, and [ErrRange] *)
| IntSyntax.             (** zero, and [ErrSyntax] *)

(** [ParseUint(s, base, bits)] with the largest value [most]. *)
Definition digitOf (c : Z) : option Z :=
  if isDigit c then Some (c - 48)
  else if within 97 122 c then Some (c - 87)
  else if within 65 90 c then Some (c - 55)
  else None.

Fixpoint uintDigits (base most : Z) (s : list Z) (n : Z) : parsedInt :=
  match s with
  | [] => IntOK n
  | c :: s =>
      match digitOf c with
      | None => IntSyntax
      | Some d =>
          if base <=? d then IntSyntax
          else if most <? n * base + d then IntRange most
          else uintDigits base most s (n * base + d)
      end
  end.
Definition ParseUint (base most : Z) (s : string) : parsedInt :=
  match codes s with [] => IntSyntax | l => uintDigits base most l 0 end.

(** [ParseInt(s, 10, 64)] *)
Definition ParseInt (s : string) : parsedInt :=
  let '(neg, l) := match codes s with
                   | 43 :: l => (false, l)
                   | 45 :: l => (true, l)
                   | l => (false, l)
                   end in
  let signed (n : Z) : parsedInt :=
    if neg then (if 2 ^ 63 <? n then IntRange (- 2 ^ 63) else IntOK (- n))
    else if 2 ^ 63 <=? n then IntRange (2 ^ 63 - 1) else IntOK n in
  match l with
  | [] => IntSyntax
  | _ => match uintDigits 10 (2 ^ 64 - 1) l 0 with
         | IntOK n | IntRange n => signed n
         | IntSyntax => IntSyntax
         end
  end.

Definition intValue (p : parsedInt) : Z := match p with IntOK v | IntRange v => v | IntSyntax => 0 end.
Definition intOK (p : parsedInt) : option Z := match p with IntOK v => Some v | _ => None end.

(** The value of [ParseFloat(s, 64)]: an infinity when out of range. *)
Definition floatValue (s : string) : spec_float :=
  match special (chars s) with
  | Some f => f
  | None => default (S754_zero false) (readFloat (chars s))
  end.

Definition blank (s : string) : bool := bool_decide (s = EmptyString).

Definition parseOptInt (s : string) : Z := if blank s then 0 else intValue (ParseInt s).
Definition parseOptFloat (s : string) : spec_float := if blank s then S754_zero false else floatValue s.

(** ** Case-insensitive comparison with an ASCII text *)
Definition foldPoint (c : Z) : Z :=
  if within 65 90 c then c + 32
  else if c =? 0x212A then 107
  else if c =? 0x017F then 115
  else c.
Definition EqualFold (s ascii : string) : bool :=
  bool_decide (map (fun r => foldPoint (point r)) (runes s) =
               map (fun r => foldPoint (point r)) (runes ascii)).

(** ** [base64.StdEncoding.DecodeString]; [None] is an error *)
Definition sextet (c : Z) : option Z :=
  if within 65 90 c then Some (c - 65)
  else if within 97 122 c then Some (c - 71)
  else if within 48 57 c then Some (c + 4)
  else if c =? 43 then Some 62
  else if c =? 47 then Some 63
  else None.

Definition octets (a b c d : Z) : list Z :=
  let v := Z.lor (Z.shiftl a 18) (Z.lor (Z.shiftl b 12) (Z.lor (Z.shiftl c 6) d)) in
  [Z.shiftr v 16; Z.land (Z.shiftr v 8) 255; Z.land v 255].

Fixpoint quanta (s : list Z) : option (list Z) :=
  match s with
  | [] => Some []
  | a :: b :: c :: d :: s =>
      match sextet a, sextet b, sextet c, sextet d with
      | Some a, Some b, Some c, Some d => option_map (app (octets a b c d)) (quanta s)
      | Some a, Some b, Some c, None =>
          if (d =? 61) && bool_decide (s = []) then Some (take 2 (octets a b c 0)) else None
      | Some a, Some b, None, None =>
          if (c =? 61) && (d =? 61) && bool_decide (s = []) then Some (take 1 (octets a b 0 0)) else None
      | _, _, _, _ => None
      end
  | _ => None
  end.
Definition DecodeString (s : string) : option bytes :=
  option_map (map byte_of_Z)
    (quanta (List.filter (fun c => negb ((c =? 10) || (c =? 13))) (codes s))).

(** ** Events *)
Record modelSlot : Type := mkSlot { slotID : Z; Alias : string; Active : bool }.

(** What [interface{}] holds in an event. *)
Inductive value : Type :=
| VString (s : string)
| VInt (n : Z)                         (** int *)
| VInt64 (n : Z)                       (** int64 *)
| VFloat (f : spec_float)
| VBool (b : bool)
| VBytes (l : bytes)
| VUint32s (l : list Z)
| VStrings (l : list string)
| VStringMap (m : gmap string string)
| VSlots (l : list modelSlot).

Abbreviation data := (gmap string value).

Record ParsedEvent : Type := mkEvent {
  Kind : string; NodeID : string; PacketID : Z; ToNode : Z;
  Data : data; Raw : string; Category : string; Level : string
}.

Definition plainEvent (kind node : string) (d : data) (raw : string) : ParsedEvent :=
  mkEvent kind node 0 0 d raw EmptyString EmptyString.
Definition alertEvent (level category node : string) (d : data) (raw : string) : ParsedEvent :=
  mkEvent "alert" node 0 0 d raw category level.
Definition ackEvent (ackType node : string) (extra : data) (raw : string) : ParsedEvent :=
  plainEvent "command-ack" node
    (union extra (list_to_map [("ackType", VString ackType); ("status", VString "OK");
                               ("synthesized", VBool true)])) raw.

(** ** Captures *)
Definition groups : Type := gmap string string.

Fixpoint zipGroups (names values : list string) (g : groups) : groups :=
  match names, values with
  | n :: names, v :: values => zipGroups names values (if blank n then g else <[n := v]> g)
  | _, _ => g
  end.
Definition extractGroups (values names : list string) : groups := zipGroups names values ∅.

(** [g[k]] *)
Definition get (g : groups) (k : string) : string := default EmptyString (g !! k).

(** [if v := g[k]; v != "" { data[key] = f(v) }] *)
Definition given (g : groups) (k key : string) (f : string -> value) (d : data) : data :=
  if blank (get g k) then d else <[key := f (get g k)]> d.

Definition asInt (s : string) : value := VInt (parseOptInt s).
Definition asFloat (s : string) : value := VFloat (parseOptFloat s).

(** ** Helpers of the handlers *)
Section Handlers.
Context `{Unicode}.

Definition upper (g : groups) (k : string) : value := VString (ToUpper (get g k)).
Definition text (g : groups) (k : string) : value := VString (get g k).

Definition normalizeBand (band : string) : string :=
  let b := ToUpper band in
  if bool_decide (b = "W") then "WiFi" else if bool_decide (b = "B") then "BLE" else band.

(** What a key of a summary line holds: an integer, a float or the text. *)
Definition kvValue (val : string) : value :=
  match intOK (ParseInt val) with
  | Some i => VInt64 i
  | None => match ParseFloat val with Some f => VFloat f | None => VString val end
  end.

Definition kvBodyRe : Regexp :=
  Eval vm_compute in MustCompile "([A-Za-z][A-Za-z0-9_]*)\s*[=:]\s*([^\s]+)".

Definition parseKVBody (body : string) : data :=
  fold_left (fun out m => match m with
                          | [_; key; val] => <[ToLower key := kvValue val]> out
                          | _ => out
                          end) (FindAllStringSubmatch kvBodyRe body) ∅.

(** [parseBLELocalName]: [adv] is what is left of the advertisement at [i],
    each structure taking at least its length byte. *)
Fixpoint bleName (fuel : nat) (adv : bytes) (shortName : string) : string :=
  match fuel, adv with
  | S fuel, len :: rest =>
      let length := Zb len in
      if length =? 0 then shortName
      else if zlen rest <? length then shortName
      else
        let ad := take (Z.to_nat length) rest in
        let after := drop (Z.to_nat length) rest in
        match ad with
        | ty :: name =>
            if (0 <? length - 1) && (Zb ty =? 9) then string_of_bytes name
            else if (0 <? length - 1) && (Zb ty =? 8) && blank shortName
            then bleName fuel after (string_of_bytes name)
            else bleName fuel after shortName
        | [] => shortName
        end
  | _, _ => shortName
  end.
Definition parseBLELocalName (adv : bytes) : string := bleName (S (length adv)) adv EmptyString.

(** ** The handlers

    Each takes the submatches, the names of the groups and the cleaned line. *)
Definition handler : Type := list string -> list string -> string -> list ParsedEvent.

Definition statusData (g : groups) : data :=
  given g "battery" "battery" asFloat (given g "hdop" "hdop" asFloat
    (given g "lon" "lon" asFloat (given g "lat" "lat" asFloat
      (given g "tempF" "temperatureF" asFloat (given g "tempC" "temperatureC" asFloat
        (given g "targets" "targets" asInt
          (list_to_map [("mode", text g "mode"); ("scan", text g "scan");
                        ("hits", asInt (get g "hits"))]))))))).

(** The keys of the status that go into the telemetry event. *)
Definition promote (d : data) (k : string) (t : data) : data :=
  match d !! k with Some v => <[k := v]> t | None => t end.
Definition telemetryData (d : data) : data :=
  promote d "battery" (promote d "lon" (promote d "lat"
    (promote d "temperatureF" (promote d "temperatureC" ∅)))).

Definition handleStatus : handler := fun m names raw =>
  let g := extractGroups m names in
  let t := telemetryData (statusData g) in
  (if bool_decide (t = ∅) then [] else [plainEvent "node-telemetry" (get g "id") t raw]) ++
  [ackEvent "STATUS_ACK" (get g "id") ∅ raw].

Definition handleDrone : handler := fun m names raw =>
  let g := extractGroups m names in
  [plainEvent "drone-telemetry" (get g "id")
     (given g "opLon" "pilotLongitude" asFloat (given g "opLat" "pilotLatitude" asFloat
       (given g "spd" "speed" asFloat (given g "alt" "altitude" asFloat
         (list_to_map [("uasId", text g "droneId"); ("mac", upper g "mac");
                       ("rssi", asInt (get g "rssi")); ("latitude", asFloat (get g "lat"));
                       ("longitude", asFloat (get g "lon"))]))))) raw].

Definition targetData (g : groups) : data :=
  given g "lon" "lon" asFloat (given g "lat" "lat" asFloat
    (given g "tid" "targetId" VString (given g "name" "name" VString
      (list_to_map [("mac", upper g "mac"); ("rssi", asInt (get g "rssi"));
                    ("type", text g "type")])))).
Definition bleTarget (d : data) : bool :=
  match d !! "targetId" with Some (VString t) => HasPrefix t "T-B-" | _ => false end.

Definition handleTarget : handler := fun m names raw =>
  let g := extractGroups m names in
  let d := targetData g in
  [plainEvent "target-detected" (get g "id") d raw;
   if bleTarget d then alertEvent "ALERT" "ble-target-hit" (get g "id") d raw
   else alertEvent "NOTICE" "inventory" (get g "id") d raw].

Definition handleDevice : handler := fun m names raw =>
  let g := extractGroups m names in
  [plainEvent "target-detected" (get g "id")
     (given g "name" "name" (fun v => VString (TrimSpace v)) (given g "channel" "channel" asInt
       (list_to_map [("mac", upper g "mac"); ("rssi", asInt (get g "rssi"));
                     ("type", VString (normalizeBand (get g "band")))]))) raw].

Definition handleBLERaw : handler := fun m names raw =>
  let g := extractGroups m names in
  match DecodeString (get g "adv") with
  | None => []
  | Some advBytes =>
      let name := parseBLELocalName advBytes in
      let target : data :=
        list_to_map [("mac", upper g "mac"); ("rssi", asInt (get g "rssi"));
                     ("type", VString "BLE"); ("channel", asInt (get g "channel"))] in
      [plainEvent "ble-raw" (get g "id")
         (list_to_map [("mac", upper g "mac"); ("rssi", asInt (get g "rssi"));
                       ("channel", asInt (get g "channel")); ("advBytes", VBytes advBytes)]) raw;
       plainEvent "target-detected" (get g "id")
         (if blank name then target else <["name" := VString name]> target) raw]
  end.

Definition handleAttackLong : handler := fun m names raw =>
  let g := extractGroups m names in
  [alertEvent "ALERT" "attack" (get g "id")
     (given g "mode" "mode" VString
       (list_to_map [("kind", text g "kind"); ("src", upper g "src"); ("dst", upper g "dst");
                     ("rssi", asInt (get g "rssi")); ("channel", asInt (get g "chan"))])) raw].

Definition handleAttackShort : handler := fun m names raw =>
  let g := extractGroups m names in
  [alertEvent "ALERT" "attack" (get g "id")
     (list_to_map [("kind", text g "kind"); ("src", upper g "src"); ("dst", upper g "dst");
                   ("rssi", asInt (get g "rssi")); ("channel", asInt (get g "chan"))]) raw].

Definition handleGPSLock : handler := fun m names raw =>
  let g := extractGroups m names in
  let fix_ : data := given g "sats" "sats" asInt
                       (list_to_map [("lat", asFloat (get g "lat")); ("lon", asFloat (get g "lon"))]) in
  [plainEvent "node-telemetry" (get g "id") fix_ raw;
   alertEvent "NOTICE" "gps" (get g "id") (given g "hdop" "hdop" asFloat fix_) raw].

Definition handleGPSLost : handler := fun m names raw =>
  [alertEvent "NOTICE" "gps" (get (extractGroups m names) "id") ∅ raw].

Definition handleNodeHB : handler := fun m names raw =>
  let g := extractGroups m names in
  let d := given g "battery" "battery" asFloat (given g "lon" "lon" asFloat
             (given g "lat" "lat" asFloat (given g "tempF" "temperatureF" asFloat
               (given g "tempC" "temperatureC" asFloat (given g "time" "deviceTime" asFloat ∅))))) in
  [plainEvent "node-telemetry" (get g "id") d raw;
   alertEvent "INFO" "heartbeat" (get g "id") d raw].

Definition ackStatus (g : groups) : string :=
  if blank (get g "value") then (if blank (get g "status") then "OK" else get g "status")
  else get g "value".
Definition handleACK : handler := fun m names raw =>
  let g := extractGroups m names in
  let d : data := list_to_map [("ackType", text g "kind"); ("status", VString (ackStatus g))] in
  [plainEvent "command-ack" (get g "id")
     (if blank (get g "value") then d else <["subkind" := text g "status"]> d) raw].

(** [CODES:] lists: a code, or a code and a name. *)
Definition comma : Ascii.ascii := byte_char 44.
Definition equals : Ascii.ascii := byte_char 61.

Definition codePart (part : string) : option (Z * string * string) :=
  let part := TrimSpace part in
  if blank part then None
  else
    let '(codeStr, name) := match cut equals part with
                            | Some (a, b) => (TrimSpace a, TrimSpace b)
                            | None => (part, EmptyString)
                            end in
    match intOK (ParseUint 10 (2 ^ 32 - 1) codeStr) with
    | Some n => Some (n, codeStr, name)
    | None => None
    end.
Definition codeParts (csv : string) : list (Z * string * string) :=
  if blank csv || EqualFold csv "NONE" then [] else omap codePart (Split comma csv).

Definition handleCodes : handler := fun m names raw =>
  let g := extractGroups m names in
  let parts := codeParts (TrimSpace (get g "codes")) in
  let nameMap := fold_left (fun (t : gmap string string) '(_, c, n) => if blank n then t else <[c := n]> t) parts ∅ in
  [plainEvent "gate-codes" (get g "id")
     (list_to_map [("codes", VUint32s (map (fun x => x.1.1) parts)); ("names", VStringMap nameMap)]) raw;
   ackEvent "CODE_LIST_ACK" (get g "id") ∅ raw].

Definition handleI2cScan : handler := fun m names raw =>
  let g := extractGroups m names in
  let listStr := TrimSpace (get g "list") in
  let addresses :=
    if blank listStr || EqualFold listStr "empty" then []
    else List.filter (fun p => negb (blank p)) (map TrimSpace (Split comma listStr)) in
  let count := default 0 (intOK (ParseInt (get g "count"))) in
  let c5 := bool_decide (ToUpper (get g "kind") = "C5_I2C_SCAN") in
  let scan : data := list_to_map [("bus", VString (if c5 then "c5" else "onboard"));
                                  ("addresses", VStrings addresses); ("count", VInt count)] in
  [plainEvent "i2c-scan" (get g "id") scan raw;
   ackEvent (if c5 then "C5_I2C_SCAN_ACK" else "I2C_SCAN_ACK") (get g "id") scan raw].

(** [MODELS:] lists: a slot number and an alias, a star marking the bound slot. *)
Definition slotPart (part : string) : option modelSlot :=
  let part := TrimSpace part in
  if blank part then None
  else
    let active := HasSuffix part "*" in
    let part := if active then String.substring 0 (String.length part - 1) part else part in
    match cut equals part with
    | Some (String _ _ as n, alias) =>
        match intOK (ParseInt n) with Some id => Some (mkSlot id alias active) | None => None end
    | _ => None
    end.

Definition handleAIModels : handler := fun m names raw =>
  let g := extractGroups m names in
  let csv := TrimSpace (get g "models") in
  let slots := if blank csv || EqualFold csv "NONE" then [] else omap slotPart (Split comma csv) in
  let activeID := fold_left (fun id s => if Active s then slotID s else id) slots 0 in
  [mkEvent "ai-models" (get g "id") 0 0
     (list_to_map [("slots", VSlots slots); ("activeId", VInt activeID)]) raw "camera" EmptyString;
   ackEvent "MODEL_LIST_ACK" (get g "id") ∅ raw].

Definition handleGateTriggered : handler := fun m names raw =>
  let g := extractGroups m names in
  let name := TrimSpace (get g "name") in
  let d : data := list_to_map [("code", asInt (get g "code"))] in
  [alertEvent "NOTICE" "gate-triggered" (get g "id")
     (if blank name then d
      else <["registered" := VBool (negb (EqualFold name "unknown"))]> (<["name" := VString name]> d)) raw].

Definition handleAnomaly : handler := fun m names raw =>
  let g := extractGroups m names in
  [alertEvent "NOTICE" "anomaly" (get g "id")
     (given g "name" "name" VString (given g "delta" "delta" asInt (given g "new" "new" asInt
       (given g "old" "old" asInt (given g "rssi" "rssi" asInt
         (list_to_map [("kind", text g "anomKind"); ("type", text g "type"); ("mac", upper g "mac")])))))) raw].

Definition handleStartup : handler := fun m names raw =>
  let g := extractGroups m names in
  [alertEvent "NOTICE" "startup" (get g "id") (list_to_map [("message", text g "msg")]) raw].

Definition flag (b : bool) (key : string) (d : data) : data := if b then <[key := VBool true]> d else d.

Definition handleProbeHit : handler := fun m names raw =>
  let g := extractGroups m names in
  let ghost := bool_decide (TrimSpace (get g "ghost") = "GHOST") in
  let dst := bool_decide (TrimSpace (get g "dst") = "DST") in
  [plainEvent "target-detected" (get g "id")
     (given g "ssid" "name" VString
       (list_to_map [("mac", upper g "mac"); ("rssi", asInt (get g "rssi"));
                     ("type", VString "WiFi"); ("channel", asInt (get g "chan"))])) raw;
   alertEvent (if ghost || dst then "NOTICE" else "INFO") "probe" (get g "id")
     (flag (EqualFold (get g "vendor") "Randomized") "randomized" (flag dst "dstMatch"
       (flag ghost "ghostSsid" (given g "ssid" "ssid" VString
         (list_to_map [("mac", upper g "mac"); ("vendor", text g "vendor");
                       ("rssi", asInt (get g "rssi")); ("channel", asInt (get g "chan"))]))))) raw].

Definition handleVibration : handler := fun m names raw =>
  let g := extractGroups m names in
  [alertEvent "ALERT" "vibration" (get g "id")
     (given g "erase" "eraseIn" asInt (given g "lon" "lon" asFloat (given g "lat" "lat" asFloat ∅))) raw].

Definition handleTamper : handler := fun m names raw =>
  let g := extractGroups m names in
  [alertEvent "ALERT" "tamper" (get g "id") (list_to_map [("kind", text g "tamperKind")]) raw].

Definition located (g : groups) (d : data) : data :=
  given g "lon" "lon" asFloat (given g "lat" "lat" asFloat d).

Definition handleCamDetection : handler := fun m names raw =>
  let g := extractGroups m names in
  [alertEvent "NOTICE" "camera" EmptyString
     (located g (given g "zone" "zone" VString
       (list_to_map [("camera", text g "camera"); ("label", text g "label");
                     ("score", asInt (get g "score"))]))) raw].

Definition handleCamFace : handler := fun m names raw =>
  let g := extractGroups m names in
  [alertEvent "ALERT" "camera-face" EmptyString
     (located g (list_to_map [("camera", text g "camera"); ("name", text g "name")])) raw].

Definition handleCamPlate : handler := fun m names raw =>
  let g := extractGroups m names in
  [alertEvent "NOTICE" "camera-plate" EmptyString
     (located g (list_to_map [("camera", text g "camera"); ("plate", text g "plate")])) raw].

Definition handleTriData : handler := fun m names raw =>
  let g := extractGroups m names in
  [plainEvent "tri-data" (get g "id")
     (list_to_map [("mac", upper g "mac"); ("rssi", asInt (get g "rssi"));
                   ("hits", asInt (get g "hits")); ("type", text g "type");
                   ("nodeLat", asFloat (get g "lat")); ("nodeLon", asFloat (get g "lon"))]) raw].

(** A confidence above 1 is a percentage. *)
Definition one64 : spec_float := floatZ 1.
Definition hundred64 : spec_float := floatZ 100.
Definition confidence (s : string) : spec_float :=
  let conf := parseOptFloat s in
  if SFltb one64 conf then SFdiv prec64 emax64 conf hundred64 else conf.

Definition handleTriFinal : handler := fun m names raw =>
  let g := extractGroups m names in
  [plainEvent "tri-final" (get g "id")
     (list_to_map [("mac", upper g "mac"); ("lat", asFloat (get g "lat"));
                   ("lon", asFloat (get g "lon")); ("confidence", VFloat (confidence (get g "conf")));
                   ("uncertainty", asFloat (get g "unc"))]) raw].

Definition handleTriComplete : handler := fun m names raw =>
  let g := extractGroups m names in
  [plainEvent "tri-complete" (get g "id")
     (list_to_map [("mac", upper g "mac"); ("nodes", asInt (get g "nodes"))]) raw].

Definition handleDoneSummaryWithAck (category ackType : string) : handler := fun m names raw =>
  let g := extractGroups m names in
  let d := parseKVBody (get g "body") in
  alertEvent "INFO" category (get g "id") d raw ::
  (if blank ackType then [] else [ackEvent ackType (get g "id") d raw]).

Definition handleIdentity : handler := fun m names raw =>
  let g := extractGroups m names in
  [alertEvent "NOTICE" "identity" (get g "id")
     (given g "macs" "macs" asInt (given g "hits" "hits" asInt
       (list_to_map [("identityId", text g "identityId"); ("band", text g "band");
                     ("rssi", asInt (get g "rssi"))]))) raw].

Definition handleAttack : handler := fun m names raw =>
  let g := extractGroups m names in
  let d := given g "channel" "channel" asInt
             (list_to_map [("attackType", upper g "attackType"); ("src", upper g "src");
                           ("dst", upper g "dst"); ("rssi", asInt (get g "rssi"))]) in
  [alertEvent "ALERT" "attack" (get g "id")
     (if negb (blank (get g "lat")) && negb (blank (get g "lon"))
      then <["lon" := asFloat (get g "lon")]> (<["lat" := asFloat (get g "lat")]> d) else d) raw].

Definition handleSetupMode : handler := fun m names raw =>
  let g := extractGroups m names in
  [alertEvent "NOTICE" "setup-mode" (get g "id") (list_to_map [("message", text g "msg")]) raw].

Definition handleBatterySaverState : handler := fun m names raw =>
  let g := extractGroups m names in
  [alertEvent "INFO" "battery-saver" (get g "id")
     (given g "interval" "interval" VString (list_to_map [("state", upper g "state")])) raw].

Definition handleEraseEvent (kind level : string) : handler := fun m names raw =>
  let g := extractGroups m names in
  [alertEvent level "erase" (get g "id")
     (located g (given g "msg" "message" VString (list_to_map [("kind", VString kind)]))) raw].

Definition handleEraseToken : handler := fun m names raw =>
  let g := extractGroups m names in
  [alertEvent "CRITICAL" "erase-token" (get g "id")
     (given g "expires" "expiresSeconds" asInt (list_to_map [("token", text g "token")])) raw].

Definition handleRTCSync : handler := fun m names raw =>
  let g := extractGroups m names in
  [alertEvent "INFO" "rtc-sync" (get g "id") (list_to_map [("source", text g "source")]) raw].

Definition handleBroadcastCommand (category : string) : handler := fun m names raw =>
  let g := extractGroups m names in
  [alertEvent "INFO" ("mesh-command:" +:+ category) EmptyString
     (omap (fun v => if blank v then None else Some (kvValue v)) g) raw].
End Handlers.
