(* ===== verification/TextPatterns.v ===== *)
(** The patterns of [initPatterns] in [serial/textparser.go], in their order;
    the expressions are the source's own texts, compiled when the file is
    checked. *)
From S2P Require Import Prelude GoStrings Regexp TextEvents.

(** ** Definitions *)
Definition quote : string := String (byte_char 34) EmptyString.

Definition statusRe : Regexp := Eval vm_compute in
  MustCompile "(?i)^(?P<id>[A-Za-z0-9_.:-]+)?:?\s*STATUS:\s*Mode:(?P<mode>\S+)\s+Scan:(?P<scan>\S+)\s+Hits:(?P<hits>\d+)\s+(?:Targets:(?P<targets>\d+)\s+)?Temp:(?P<tempC>-?\d+(?:\.\d+)?)[cC](?:/(?P<tempF>-?\d+(?:\.\d+)?)[Ff])?\s+Up:(?P<up>[0-9:]+)(?:\s+GPS[:=](?P<lat>-?\d+(?:\.\d+)?),(?P<lon>-?\d+(?:\.\d+)?))?(?:\s+HDOP[:=](?P<hdop>-?\d+(?:\.\d+)?))?(?:\s+Batt[:=](?P<battery>\d+)%?)?".
Definition droneRe : Regexp := Eval vm_compute in
  MustCompile "(?i)^(?P<id>[A-Za-z0-9_.:-]+):\s*DRONE:\s+(?P<mac>(?:[0-9A-Fa-f]{2}:){5}[0-9A-Fa-f]{2})\s+ID:(?P<droneId>[A-Za-z0-9_-]+)\s+R(?P<rssi>-?\d+)\s+GPS:(?P<lat>-?\d+(?:\.\d+)?),(?P<lon>-?\d+(?:\.\d+)?)(?:\s+ALT:(?P<alt>-?\d+(?:\.\d+)?))?(?:\s+SPD:(?P<spd>-?\d+(?:\.\d+)?))?(?:\s+OP:(?P<opLat>-?\d+(?:\.\d+)?),(?P<opLon>-?\d+(?:\.\d+)?))?".
Definition triTargetDataRe : Regexp := Eval vm_compute in
  MustCompile "(?i)^(?P<id>[A-Za-z0-9_.:-]+):\s*(?:TARGET_DATA|T_D):\s*(?P<mac>(?:[0-9A-Fa-f]{2}:){5}[0-9A-Fa-f]{2})\s+RSSI:(?P<rssi>-?\d+)(?:\s+Hits=(?P<hits>\d+))?(?:\s+Type:(?P<type>\w+))?(?:\s+GPS[:=](?P<lat>-?\d+(?:\.\d+)?),(?P<lon>-?\d+(?:\.\d+)?))?".
Definition triFinalRe : Regexp := Eval vm_compute in
  MustCompile "(?i)^(?P<id>[A-Za-z0-9_.:-]+):\s*T_F:\s*MAC=(?P<mac>(?:[0-9A-Fa-f]{2}:){5}[0-9A-Fa-f]{2})\s+GPS=(?P<lat>-?\d+(?:\.\d+)?),(?P<lon>-?\d+(?:\.\d+)?)\s+CONF=(?P<conf>-?\d+(?:\.\d+)?)\s+UNC=(?P<unc>-?\d+(?:\.\d+)?)".
Definition triCompleteRe : Regexp := Eval vm_compute in
  MustCompile "(?i)^(?P<id>[A-Za-z0-9_.:-]+):\s*T_C:\s*(?:MAC=(?P<mac>(?:[0-9A-Fa-f]{2}:){5}[0-9A-Fa-f]{2})\s+)?Nodes=(?P<nodes>\d+)".
Definition targetTypeFirstRe : Regexp := Eval vm_compute in
  MustCompile "(?i)^(?P<id>[A-Za-z0-9_.:-]+):\s*Target:\s*(?P<type>\w+)\s+(?P<mac>(?:[0-9A-Fa-f]{2}:){5}[0-9A-Fa-f]{2})\s+RSSI:(?P<rssi>-?\d+)(?:\s+Name:(?P<name>[^ ]+))?(?:\s+TID:(?P<tid>T-[A-Z]-\d+))?(?:\s+GPS[:=](?P<lat>-?\d+(?:\.\d+)?),(?P<lon>-?\d+(?:\.\d+)?))?".
Definition targetMacFirstRe : Regexp := Eval vm_compute in
  MustCompile "(?i)^(?P<id>[A-Za-z0-9_.:-]+):\s*Target:\s*(?P<mac>(?:[0-9A-Fa-f]{2}:){5}[0-9A-Fa-f]{2})\s+RSSI:(?P<rssi>-?\d+)\s+Type:(?P<type>\w+)(?:\s+Name:(?P<name>[^ ]+))?(?:\s+TID:(?P<tid>T-[A-Z]-\d+))?(?:\s+GPS[:=](?P<lat>-?\d+(?:\.\d+)?),(?P<lon>-?\d+(?:\.\d+)?))?".
Definition deviceRe : Regexp := Eval vm_compute in
  MustCompile "(?i)^(?P<id>[A-Za-z0-9_.:-]+):\s*DEVICE:(?P<mac>(?:[0-9A-Fa-f]{2}:){5}[0-9A-Fa-f]{2})\s+(?P<band>[A-Za-z])\s+(?P<rssi>-?\d+)(?:\s+C(?P<channel>\d+))?(?:\s+N:(?P<name>.+))?".
Definition deviceShortRe : Regexp := Eval vm_compute in
  MustCompile "(?i)^(?P<id>[A-Za-z0-9_.:-]+):\s*D:(?P<mac>(?:[0-9A-Fa-f]{2}:){5}[0-9A-Fa-f]{2})\s+(?P<band>[A-Za-z])\s+(?P<rssi>-?\d+)(?:\s+C(?P<channel>\d+))?(?:\s+N:(?P<name>.+))?".
Definition bleRawRe : Regexp := Eval vm_compute in
  MustCompile "(?i)^(?P<id>[A-Za-z0-9_.:-]+):\s*BLERAW:(?P<mac>(?:[0-9A-Fa-f]{2}:){5}[0-9A-Fa-f]{2})\s+(?P<rssi>-?\d+)\s+(?P<channel>\d+)\s+(?P<adv>[A-Za-z0-9+/=]+)".
Definition bleRawShortRe : Regexp := Eval vm_compute in
  MustCompile "(?i)^(?P<id>[A-Za-z0-9_.:-]+):\s*B:(?P<mac>(?:[0-9A-Fa-f]{2}:){5}[0-9A-Fa-f]{2})\s+(?P<rssi>-?\d+)\s+(?P<adv>[A-Za-z0-9+/=]+)".
Definition attackLongRe : Regexp := Eval vm_compute in
  MustCompile "(?i)^(?P<id>[A-Za-z0-9_.:-]+):\s*ATTACK:\s*(?P<kind>DEAUTH|DISASSOC)(?:\s+\[(?P<mode>BROADCAST|TARGETED)\])?\s+SRC:(?P<src>(?:[0-9A-Fa-f]{2}:){5}[0-9A-Fa-f]{2})\s+DST:(?P<dst>(?:[0-9A-Fa-f]{2}:){5}[0-9A-Fa-f]{2})\s+RSSI:(?P<rssi>-?\d+)d?Bm?\s+CH:(?P<chan>\d+)".
Definition attackShortRe : Regexp := Eval vm_compute in
  MustCompile "(?i)^(?P<id>[A-Za-z0-9_.:-]+):\s*ATTACK:\s*(?P<kind>DEAUTH|DISASSOC)\s+(?P<src>(?:[0-9A-Fa-f]{2}:){5}[0-9A-Fa-f]{2})->(?P<dst>(?:[0-9A-Fa-f]{2}:){5}[0-9A-Fa-f]{2})\s+R(?P<rssi>-?\d+)\s+C(?P<chan>\d+)".
Definition gpsLockRe : Regexp := Eval vm_compute in
  MustCompile "(?i)^(?P<id>[A-Za-z0-9_.:-]+)?:?\s*GPS:\s*LOCKED\s+Location[=:](?P<lat>-?\d+(?:\.\d+)?),(?P<lon>-?\d+(?:\.\d+)?)(?:\s+Satellites[=:](?P<sats>\d+))?(?:\s+HDOP[=:](?P<hdop>-?\d+(?:\.\d+)?))?".
Definition gpsLostRe : Regexp := Eval vm_compute in
  MustCompile "(?i)^(?P<id>[A-Za-z0-9_.:-]+)?:?\s*GPS:\s*LOST".
Definition nodeHbRe : Regexp := Eval vm_compute in
  MustCompile "(?i)^\[NODE_HB\]\s*(?P<id>[A-Za-z0-9_.:-]+)\s+Time:(?P<time>[^ ]+)\s+Temp:(?P<tempC>-?\d+(?:\.\d+)?)(?:[cCfF])?(?:/(?P<tempF>-?\d+(?:\.\d+)?)[fF])?(?:\s+GPS:(?P<lat>-?\d+(?:\.\d+)?),(?P<lon>-?\d+(?:\.\d+)?))?".
Definition nodeHbSaverRe : Regexp := Eval vm_compute in
  MustCompile "(?i)^(?P<id>[A-Za-z0-9_.:-]+):\s*HEARTBEAT:\s*Temp:(?P<tempC>-?\d+(?:\.\d+)?)(?:[cCfF])?(?:/(?P<tempF>-?\d+(?:\.\d+)?)[fF])?(?:\s+GPS[:=](?P<lat>-?\d+(?:\.\d+)?),(?P<lon>-?\d+(?:\.\d+)?))?(?:\s+Batt[:=](?P<battery>\d+)%?)?".
Definition nodeHbInlineRe : Regexp := Eval vm_compute in
  MustCompile "(?i)^(?P<id>[A-Za-z0-9_.:-]+):?\s*Time:(?P<time>[^ ]+)\s+Temp:(?P<tempC>-?\d+(?:\.\d+)?)(?:[cCfF])?(?:/(?P<tempF>-?\d+(?:\.\d+)?)[fF])?(?:\s+GPS:(?P<lat>-?\d+(?:\.\d+)?),(?P<lon>-?\d+(?:\.\d+)?))?".
Definition codesRe : Regexp := Eval vm_compute in
  MustCompile "(?i)^(?P<id>[A-Za-z0-9_.:-]+):\s*CODES:(?P<codes>.*)$".
Definition aiModelsRe : Regexp := Eval vm_compute in
  MustCompile "(?i)^(?P<id>[A-Za-z0-9_.:-]+):\s*MODELS:(?P<models>.*)$".
Definition gateTriggeredRe : Regexp := Eval vm_compute in
  MustCompile "(?i)^(?P<id>[A-Za-z0-9_.:-]+):\s*TRIGGERED:(?P<code>\d+)(?:\s+(?P<name>\S+))?\s*$".
Definition probeHitRe : Regexp := Eval vm_compute in
  MustCompile ("(?i)^(?P<id>[A-Za-z0-9_.:-]+):\s*PROBE_HIT\s+(?P<mac>(?:[0-9A-Fa-f]{2}:){5}[0-9A-Fa-f]{2})\s+(?P<vendor>\S+)\s+RSSI=(?P<rssi>-?\d+)\s+CH=(?P<chan>\d+)(?:\s+SSID=" +:+ quote +:+ "(?P<ssid>[^" +:+ quote +:+ "]*)" +:+ quote +:+ ")?(?P<ghost>\s+GHOST)?(?P<dst>\s+DST)?\s*$").
Definition ackRe : Regexp := Eval vm_compute in
  MustCompile "(?i)^(?P<id>[A-Za-z0-9_.:-]+):\s*(?P<kind>(?:SCAN|DEVICE_SCAN|DRONE|DEAUTH|RANDOMIZATION|BASELINE|CONFIG|TRIANGULATE(?:_STOP)?|TRI_START|STOP|START|REBOOT|BATTERY_SAVER(?:_START|_STOP)?|VIBRATION_(?:ON|OFF)|HB|HITS_RESET|DEBOUNCE|CODE|PROBE|RAW_BLE|MODEL_SET|DEDUP|CONF|WIFI_(?:ON|OFF|SSID|PSK)|TARGET_INTERVAL)_ACK):?(?P<status>[A-Z0-9_]*)(?::(?P<value>[A-Z0-9_,.\- +]+))?".
Definition anomalyRe : Regexp := Eval vm_compute in
  MustCompile "(?i)^(?P<id>[A-Za-z0-9_.:-]+):\s*ANOMALY-(?P<anomKind>NEW|RETURN|RSSI):\s*(?P<type>\w+)\s+(?P<mac>(?:[0-9A-Fa-f]{2}:){5}[0-9A-Fa-f]{2})(?:\s+RSSI:(?P<rssi>-?\d+))?(?:\s+Old:(?P<old>-?\d+)\s+New:(?P<new>-?\d+)\s+Delta:(?P<delta>-?\d+))?(?:\s+Name:(?P<name>[^ ]+))?".
Definition camDetectionRe : Regexp := Eval vm_compute in
  MustCompile "(?i)^CAM:\s+(?P<camera>\S+)\s+(?P<label>\S+)\s+(?P<score>\d+)%(?:\s+ZONE:(?P<zone>\S+))?(?:\s+GPS:(?P<lat>-?\d+(?:\.\d+)?),(?P<lon>-?\d+(?:\.\d+)?))?".
Definition camFaceRe : Regexp := Eval vm_compute in
  MustCompile "(?i)^CAM_FACE:\s+(?P<camera>\S+)\s+(?P<name>\S+)(?:\s+GPS:(?P<lat>-?\d+(?:\.\d+)?),(?P<lon>-?\d+(?:\.\d+)?))?".
Definition camPlateRe : Regexp := Eval vm_compute in
  MustCompile "(?i)^CAM_PLATE:\s+(?P<camera>\S+)\s+(?P<plate>\S+)(?:\s+GPS:(?P<lat>-?\d+(?:\.\d+)?),(?P<lon>-?\d+(?:\.\d+)?))?".
Definition startupRe : Regexp := Eval vm_compute in
  MustCompile "(?i)^(?P<id>[A-Za-z0-9_.:-]+)?:?\s*STARTUP:\s*(?P<msg>.+)$".
Definition vibrationRe : Regexp := Eval vm_compute in
  MustCompile "(?i)^(?P<id>[A-Za-z0-9_.:-]+):\s*VIBRATION:\s*(?P<msg>.+?)(?:\s+GPS:(?P<lat>-?\d+(?:\.\d+)?),(?P<lon>-?\d+(?:\.\d+)?))?(?:\s+TAMPER_ERASE_IN:(?P<erase>\d+)s)?$".
Definition tamperRe : Regexp := Eval vm_compute in
  MustCompile "(?i)^(?P<id>[A-Za-z0-9_.:-]+):\s*TAMPER_(?P<tamperKind>DETECTED|CANCELLED):?(?:\s*(?P<msg>.+))?".
Definition scanDoneRe : Regexp := Eval vm_compute in
  MustCompile "(?i)^(?P<id>[A-Za-z0-9_.:-]+):\s*SCAN_DONE:\s*(?P<body>.+)$".
Definition deauthDoneRe : Regexp := Eval vm_compute in
  MustCompile "(?i)^(?P<id>[A-Za-z0-9_.:-]+):\s*DEAUTH_DONE:\s*(?P<body>.+)$".
Definition listScanDoneRe : Regexp := Eval vm_compute in
  MustCompile "(?i)^(?P<id>[A-Za-z0-9_.:-]+):\s*LIST_SCAN_DONE:\s*(?P<body>.+)$".
Definition droneDoneRe : Regexp := Eval vm_compute in
  MustCompile "(?i)^(?P<id>[A-Za-z0-9_.:-]+):\s*DRONE_DONE:\s*(?P<body>.+)$".
Definition randomizationDoneRe : Regexp := Eval vm_compute in
  MustCompile "(?i)^(?P<id>[A-Za-z0-9_.:-]+):\s*RANDOMIZATION_DONE:\s*(?P<body>.+)$".
Definition baselineDoneRe : Regexp := Eval vm_compute in
  MustCompile "(?i)^(?P<id>[A-Za-z0-9_.:-]+):\s*BASELINE_DONE:\s*(?P<body>.+)$".
Definition baselineStatusRe : Regexp := Eval vm_compute in
  MustCompile "(?i)^(?P<id>[A-Za-z0-9_.:-]+):\s*BASELINE_STATUS:\s*(?P<body>.+)$".
Definition vibrationStatusRe : Regexp := Eval vm_compute in
  MustCompile "(?i)^(?P<id>[A-Za-z0-9_.:-]+):\s*VIBRATION_STATUS:\s*(?P<body>.+)$".
Definition rawBleStatusRe : Regexp := Eval vm_compute in
  MustCompile "(?i)^(?P<id>[A-Za-z0-9_.:-]+):\s*RAW_BLE_STATUS:\s*(?P<body>.+)$".
Definition autoeraseStatusRe : Regexp := Eval vm_compute in
  MustCompile "(?i)^(?P<id>[A-Za-z0-9_.:-]+):\s*AUTOERASE_STATUS:\s*(?P<body>.+)$".
Definition i2cScanRe : Regexp := Eval vm_compute in
  MustCompile "(?i)^(?P<id>[A-Za-z0-9_.:-]+):\s*(?P<kind>C5_I2C_SCAN|I2C_SCAN):\s*(?P<list>[^()]+?)\s*\((?P<count>\d+)\)\s*$".
Definition identityRe : Regexp := Eval vm_compute in
  MustCompile "(?i)^(?P<id>[A-Za-z0-9_.:-]+):\s*IDENTITY:(?P<identityId>\S+)\s+(?P<band>[A-Za-z])\s+(?P<rssi>-?\d+)(?:\s+Hits:(?P<hits>\d+))?(?:\s+MACs:(?P<macs>\d+))?".
Definition attackRe : Regexp := Eval vm_compute in
  MustCompile "(?i)^(?P<id>[A-Za-z0-9_.:-]+):\s*ATTACK:\s*(?P<attackType>DEAUTH|DISASSOC)\s+(?P<src>(?:[0-9A-Fa-f]{2}:){5}[0-9A-Fa-f]{2})->(?P<dst>(?:[0-9A-Fa-f]{2}:){5}[0-9A-Fa-f]{2})\s+R(?P<rssi>-?\d+)(?:\s+C(?P<channel>\d+))?(?:\s+GPS:(?P<lat>-?\d+(?:\.\d+)?),(?P<lon>-?\d+(?:\.\d+)?))?".
Definition setupModeRe : Regexp := Eval vm_compute in
  MustCompile "(?i)^(?P<id>[A-Za-z0-9_.:-]+):\s*SETUP_MODE:\s*(?P<msg>.+)$".
Definition batterySaverStateRe : Regexp := Eval vm_compute in
  MustCompile "(?i)^(?P<id>[A-Za-z0-9_.:-]+):\s*BATTERY_SAVER:\s*(?P<state>ENABLED|DISABLED)(?:\s+Interval:(?P<interval>\S+))?".
Definition batterySaverStatusRe : Regexp := Eval vm_compute in
  MustCompile "(?i)^(?P<id>[A-Za-z0-9_.:-]+):\s*BATTERY_SAVER_STATUS:\s*(?P<body>.+)$".
Definition eraseExecutingRe : Regexp := Eval vm_compute in
  MustCompile "(?i)^(?P<id>[A-Za-z0-9_.:-]+):\s*ERASE_EXECUTING:\s*(?P<msg>.+?)(?:\s+GPS[:=](?P<lat>-?\d+(?:\.\d+)?),(?P<lon>-?\d+(?:\.\d+)?))?$".
Definition eraseCompleteRe : Regexp := Eval vm_compute in
  MustCompile "(?i)^(?P<id>[A-Za-z0-9_.:-]+):\s*ERASE_COMPLETE\b\s*(?P<msg>.*)$".
Definition eraseTokenRe : Regexp := Eval vm_compute in
  MustCompile "(?i)^(?P<id>[A-Za-z0-9_.:-]+):\s*ERASE_TOKEN:(?P<token>\S+)(?:\s+Expires:(?P<expires>\d+)s?)?".
Definition rtcSyncRe : Regexp := Eval vm_compute in
  MustCompile "(?i)^(?P<id>[A-Za-z0-9_.:-]+):\s*RTC_SYNC:\s*(?P<source>\S+)".
Definition bcastTriangulateStartRe : Regexp := Eval vm_compute in
  MustCompile "(?i)^@ALL\s+TRIANGULATE_START:(?P<mac>(?:[0-9A-Fa-f]{2}:){5}[0-9A-Fa-f]{2}):(?P<duration>\d+):(?P<initiator>\S+)".
Definition bcastTriCycleStartRe : Regexp := Eval vm_compute in
  MustCompile "(?i)^@ALL\s+TRI_CYCLE_START:(?P<intervalMs>\d+):(?P<nodes>.+)$".
Definition bcastTriangulateStopRe : Regexp := Eval vm_compute in
  MustCompile "(?i)^@ALL\s+TRIANGULATE_STOP\b".
Definition bcastSyncRe : Regexp := Eval vm_compute in
  MustCompile "(?i)^@ALL\s+SYNC:(?P<timestamp>\d+(?:\.\d+)?)(?:\s+\((?P<note>[^)]+)\))?".

Section Patterns.
Context `{Unicode}.

Record patternEntry : Type := mkPattern { name : string; regex : Regexp; handle : handler }.

Definition initPatterns : list patternEntry :=
  [mkPattern "status" statusRe handleStatus;
   mkPattern "drone" droneRe handleDrone;
   mkPattern "tri-target-data" triTargetDataRe handleTriData;
   mkPattern "tri-final" triFinalRe handleTriFinal;
   mkPattern "tri-complete" triCompleteRe handleTriComplete;
   mkPattern "target-type-first" targetTypeFirstRe handleTarget;
   mkPattern "target-mac-first" targetMacFirstRe handleTarget;
   mkPattern "device" deviceRe handleDevice;
   mkPattern "device-short" deviceShortRe handleDevice;
   mkPattern "ble-raw" bleRawRe handleBLERaw;
   mkPattern "ble-raw-short" bleRawShortRe handleBLERaw;
   mkPattern "attack-long" attackLongRe handleAttackLong;
   mkPattern "attack-short" attackShortRe handleAttackShort;
   mkPattern "gps-lock" gpsLockRe handleGPSLock;
   mkPattern "gps-lost" gpsLostRe handleGPSLost;
   mkPattern "node-hb" nodeHbRe handleNodeHB;
   mkPattern "node-hb-saver" nodeHbSaverRe handleNodeHB;
   mkPattern "node-hb-inline" nodeHbInlineRe handleNodeHB;
   mkPattern "codes" codesRe handleCodes;
   mkPattern "ai-models" aiModelsRe handleAIModels;
   mkPattern "gate-triggered" gateTriggeredRe handleGateTriggered;
   mkPattern "probe-hit" probeHitRe handleProbeHit;
   mkPattern "ack" ackRe handleACK;
   mkPattern "anomaly" anomalyRe handleAnomaly;
   mkPattern "cam-detection" camDetectionRe handleCamDetection;
   mkPattern "cam-face" camFaceRe handleCamFace;
   mkPattern "cam-plate" camPlateRe handleCamPlate;
   mkPattern "startup" startupRe handleStartup;
   mkPattern "vibration" vibrationRe handleVibration;
   mkPattern "tamper" tamperRe handleTamper;
   mkPattern "scan-done" scanDoneRe (handleDoneSummaryWithAck "scan" "SCAN_DONE_ACK");
   mkPattern "deauth-done" deauthDoneRe (handleDoneSummaryWithAck "deauth" "DEAUTH_DONE_ACK");
   mkPattern "list-scan-done" listScanDoneRe (handleDoneSummaryWithAck "list-scan" "LIST_SCAN_DONE_ACK");
   mkPattern "drone-done" droneDoneRe (handleDoneSummaryWithAck "drone" "DRONE_DONE_ACK");
   mkPattern "randomization-done" randomizationDoneRe (handleDoneSummaryWithAck "randomization" "RANDOMIZATION_DONE_ACK");
   mkPattern "baseline-done" baselineDoneRe (handleDoneSummaryWithAck "baseline" "BASELINE_DONE_ACK");
   mkPattern "baseline-status" baselineStatusRe (handleDoneSummaryWithAck "baseline-status" "BASELINE_STATUS_ACK");
   mkPattern "vibration-status" vibrationStatusRe (handleDoneSummaryWithAck "vibration-status" "VIBRATION_STATUS_ACK");
   mkPattern "raw-ble-status" rawBleStatusRe (handleDoneSummaryWithAck "raw-ble-status" "RAW_BLE_STATUS_ACK");
   mkPattern "autoerase-status" autoeraseStatusRe (handleDoneSummaryWithAck "autoerase-status" "AUTOERASE_STATUS_ACK");
   mkPattern "i2c-scan" i2cScanRe handleI2cScan;
   mkPattern "identity" identityRe handleIdentity;
   mkPattern "attack" attackRe handleAttack;
   mkPattern "setup-mode" setupModeRe handleSetupMode;
   mkPattern "battery-saver-state" batterySaverStateRe handleBatterySaverState;
   mkPattern "battery-saver-status" batterySaverStatusRe (handleDoneSummaryWithAck "battery-saver-status" "BATTERY_SAVER_STATUS_ACK");
   mkPattern "erase-executing" eraseExecutingRe (handleEraseEvent "executing" "CRITICAL");
   mkPattern "erase-complete" eraseCompleteRe (handleEraseEvent "complete" "CRITICAL");
   mkPattern "erase-token" eraseTokenRe handleEraseToken;
   mkPattern "rtc-sync" rtcSyncRe handleRTCSync;
   mkPattern "bcast-triangulate-start" bcastTriangulateStartRe (handleBroadcastCommand "triangulate-start");
   mkPattern "bcast-tri-cycle-start" bcastTriCycleStartRe (handleBroadcastCommand "tri-cycle-start");
   mkPattern "bcast-triangulate-stop" bcastTriangulateStopRe (handleBroadcastCommand "triangulate-stop");
   mkPattern "bcast-sync" bcastSyncRe (handleBroadcastCommand "sync")].
End Patterns.
