(* ===== verification/TextParser.v ===== *)
(** [TextParser] of [serial/textparser.go]: a line of the radio's console, or
    of a text message, becomes events.

    [pktCache] is the only state.  [strings.ToLower] goes through the class
    [Unicode]; the order in which the cache is ranged over when it is pruned
    is the argument [rangeOrder]. *)
From Stdlib Require Import Floats.SpecFloat.
From S2P Require Import Prelude GoStrings GoFloat Regexp RegexpFacts TextEvents TextPatterns.

(** ** Package strings *)

(** [strings.LastIndex], as the number of bytes before the occurrence. *)
Fixpoint LastIndex (s sub : string) : option nat :=
  match match s with EmptyString => None | String _ s' => LastIndex s' sub end with
  | Some i => Some (S i)
  | None => if HasPrefix s sub then Some O else None
  end.

(** [strings.ReplaceAll] for an [old] that is not empty. *)
Fixpoint replaceFuel (n : nat) (old new s : string) : string :=
  match n, s with
  | S n, String c s' =>
      if HasPrefix s old
      then new +:+ replaceFuel n old new (string_drop (String.length old) s)
      else String c (replaceFuel n old new s')
  | _, _ => s
  end.
Definition ReplaceAll (s old new : string) : string := replaceFuel (String.length s) old new s.

(** [s[lo:]] *)
Definition slice_string (s : string) (lo : nat) : outcome string :=
  if (lo <=? String.length s)%nat then Ret (string_drop lo s) else Panic.

(** ** Definitions *)
Definition echoRouter : Regexp := Eval vm_compute in MustCompile "(?i)\[(Router|SerialConsole)\]".
Definition echoTextMsg : Regexp := Eval vm_compute in MustCompile "(?i)\btextmessage\s+msg=".
Definition fromExtract : Regexp := Eval vm_compute in MustCompile "(?i)from=(?:0x)?([0-9a-fA-F]+)".
Definition idExtract : Regexp := Eval vm_compute in MustCompile "(?i)\bid=(?:0x)?([0-9a-fA-F]+)".
Definition toExtract : Regexp := Eval vm_compute in MustCompile "(?i)\bto=(?:0x)?([0-9a-fA-F]+)".
Definition ansiClean : Regexp := Eval vm_compute in MustCompile "\x1b\[[0-9;]*[A-Za-z]".
Definition trailingHash : Regexp := Eval vm_compute in MustCompile "#+$".

(** [pktCache]: packet id to destination. *)
Abbreviation cache := (gmap Z Z).

Definition newline : string := String (byte_char 10) EmptyString.
Definition replacement : string := bytes_string [0xEF; 0xBF; 0xBD].

(** [cleanNonPrintable]: [WriteRune] writes U+FFFD for a byte that is no
    valid encoding. *)
Definition printable (c : Z) : bool := (c =? 9) || (c =? 10) || (c =? 13) || (32 <=? c).
Definition cleanNonPrintable (s : string) : string :=
  fold_right (fun r t => (if point r =? runeError then replacement else enc r) +:+ t) EmptyString
    (List.filter (fun r => printable (point r)) (runes s)).

Definition hex32 (s : string) : option Z := intOK (ParseUint 16 (2 ^ 32 - 1) s).

(** [parseNodeNum]: the value [ParseUint] returns with an error is used. *)
Definition parseNodeNum (nodeID : string) : Z :=
  intValue (ParseUint 16 (2 ^ 32 - 1)
    (if HasPrefix nodeID "!" then string_drop 1 nodeID else nodeID)).

(** The first group of the first match. *)
Definition submatch (x : Regexp) (s : string) : option string :=
  match FindStringSubmatch x s with Some (_ :: t :: _) => Some t | _ => None end.

Definition ExtractMeshFrom (raw : string) : Z :=
  if blank raw then 0
  else match submatch fromExtract raw with
       | Some t => default 0 (hex32 t)
       | None => 0
       end.

Section Parser.
Context `{Unicode} (rangeOrder : cache -> list Z).

(** [for k := range pktCache] until 128 entries are left. *)
Fixpoint deleteUntil (order : list Z) (c : cache) : cache :=
  match order with
  | [] => c
  | k :: order =>
      let c := delete k c in
      if (size c <=? 128)%nat then c else deleteUntil order c
  end.
Definition prune (c : cache) : cache :=
  if (256 <? size c)%nat then deleteUntil (rangeOrder c) c else c.

Definition cachePacketMeta (cleaned : string) (c : cache) : cache :=
  let lower := ToLower cleaned in
  if negb (Contains lower "lora rx") && negb (Contains lower "phone downloaded") then c
  else
    match submatch idExtract cleaned, submatch toExtract cleaned with
    | Some id, Some to =>
        match hex32 id, hex32 to with
        | Some id, Some to => prune (<[id := to]> c)
        | _, _ => c
        end
    | _, _ => c
    end.

Definition lookupPacketTo (id : Z) (c : cache) : Z * cache :=
  if id =? 0 then (0, c)
  else match c !! id with
       | Some to => (to, delete id c)
       | None => (0, c)
       end.

Definition isMeshtasticEcho (line : string) : bool :=
  let lower := ToLower line in
  match LastIndex lower "msg=" with
  | None => false
  | Some _ =>
      (MatchString echoRouter line || MatchString echoTextMsg line) &&
      (Contains lower "received text msg" || Contains lower "textmessage")
  end.

Definition normalizePayload (raw : string) : string :=
  let s := ReplaceAll raw (newline +:+ " Type:") " Type:" in
  let s := ReplaceAll s (newline +:+ " RSSI:") " RSSI:" in
  let s := ReplaceAll s (newline +:+ " GPS=") " GPS=" in
  let s := TrimSpace (RemoveAll trailingHash s) in
  if HasPrefix (ToLower s) "0m" then TrimSpace (string_drop 2 s) else s.

(** The offset found in the lower-case line is used in the line itself. *)
Definition extractPayload (line : string) : outcome string :=
  match LastIndex (ToLower line) "msg=" with
  | Some i =>
      let! payload := slice_string line (i + 4) in
      Ret (normalizePayload (TrimSpace payload))
  | None => Ret (normalizePayload line)
  end.

Fixpoint padHex (n : nat) (hex : string) : string :=
  match n with
  | O => hex
  | S n => if (String.length hex <? 8)%nat then padHex n ("0" +:+ hex) else hex
  end.

Definition parseTextEcho (rawLine payload : string) (c : cache) : list ParsedEvent * cache :=
  let nodeID := match submatch fromExtract rawLine with
                | Some hex => "!" +:+ padHex 8 hex
                | None => "unknown"
                end in
  let packetID := match submatch idExtract rawLine with
                  | Some t => default 0 (hex32 t)
                  | None => 0
                  end in
  let '(to, c) := lookupPacketTo packetID c in
  ([mkEvent "text-message" nodeID packetID to {["text" := VString payload]} rawLine EmptyString EmptyString], c).

(** The first pattern that matches handles the line. *)
Fixpoint firstMatch (ps : list patternEntry) (payload cleaned : string) : option (list ParsedEvent) :=
  match ps with
  | [] => None
  | p :: ps =>
      match FindStringSubmatch (regex p) payload with
      | Some m => Some (handle p m (SubexpNames (regex p)) cleaned)
      | None => firstMatch ps payload cleaned
      end
  end.

Definition clean (line : string) : string := TrimSpace (cleanNonPrintable (RemoveAll ansiClean line)).

Definition fragment (cleaned : string) : bool :=
  (String.length cleaned <=? 3)%nat &&
  (let stripped := TrimSpace (ToLower cleaned) in
   bool_decide (stripped = "0m") || blank stripped).

Definition ParseLine (line : string) (c : cache) : outcome (list ParsedEvent * cache) :=
  let cleaned := clean line in
  if blank cleaned then Ret ([], c)
  else if fragment cleaned then Ret ([], c)
  else
    let c := cachePacketMeta cleaned c in
    let! payload := extractPayload cleaned in
    match firstMatch initPatterns payload cleaned with
    | Some events => Ret (events, c)
    | None =>
        if isMeshtasticEcho cleaned then Ret (parseTextEcho cleaned payload c)
        else Ret ([plainEvent "raw" EmptyString ∅ cleaned], c)
    end.
End Parser.
