(* ===== verification/TextFacts.v ===== *)
(** Executing an expression on a text of which only parts are known, and what
    the captures of a pattern can be. *)
From S2P Require Import Prelude GoStrings Regexp RegexpFacts TextEvents TextPatterns TextParser.

(** ** Runs of one class *)
Definition stopsAt (s : set) (l : list rune) : Prop :=
  match l with r :: _ => inSet s (point r) = false | [] => True end.

Definition orElse {A} (o o' : option A) : option A := match o with Some x => Some x | None => o' end.

Lemma exec_cat {A} a b st (k : cursor -> option A) :
  exec (Cat a b) st k = exec a st (fun st' => exec b st' k).
Proof. done. Qed.
Lemma exec_char {A} s b r l cs (k : cursor -> option A) :
  exec (Char s) (mkCursor b (r :: l) cs) k =
    if inSet s (point r) then k (mkCursor (Some (point r)) l cs) else None.
Proof. done. Qed.

(** A continuation tried after the whole of [w], then after less and less. *)
Fixpoint tries {A} (k : cursor -> option A) (b : option Z) (w l : list rune) (cs : list (nat * string))
    : option A :=
  match w with
  | [] => k (mkCursor b l cs)
  | r :: w' => orElse (tries k (Some (point r)) w' l cs) (k (mkCursor b (w ++ l) cs))
  end.

Lemma exec_star_tries {A} s w l b cs (k : cursor -> option A) :
  Forall (fun r => inSet s (point r) = true) w -> stopsAt s l ->
  exec (Star true (Char s)) (mkCursor b (w ++ l) cs) k = tries k b w l cs.
Proof.
  intros Hw Hl. cbn [exec ahead]. assert (length (w ++ l) <= length (w ++ l))%nat as Hn by lia.
  revert Hn. generalize (length (w ++ l)) at 2 3 as n. intros n. revert b n.
  induction Hw as [|r w Hr Hw IH]; intros b n Hn.
  - cbn [app tries] in *. destruct n as [|n]; [done|]. cbn [loop exec ahead].
    destruct l as [|r l]; [done|]. cbn in Hl. by rewrite Hl.
  - cbn [app length] in Hn. destruct n as [|n]; [lia|]. cbn [app tries]. rewrite <- (IH (Some (point r)) n) by lia.
    cbn [loop exec ahead]. rewrite Hr. unfold progress, advance. cbn [ahead length caps].
    destruct (Nat.ltb_spec (length (w ++ l)) (S (length (w ++ l)))); [done|lia].
Qed.

(** [k] needs a character that is not in [s]. *)
Definition refuses {A} (k : cursor -> option A) (s : set) : Prop :=
  forall b r l cs, inSet s (point r) = true -> k (mkCursor b (r :: l) cs) = None.

Definition lastPoint (b : option Z) (w : list rune) : option Z := fold_left (fun _ r => Some (point r)) w b.

Lemma tries_refuses {A} s w l b cs (k : cursor -> option A) :
  refuses k s -> Forall (fun r => inSet s (point r) = true) w ->
  tries k b w l cs = k (mkCursor (lastPoint b w) l cs).
Proof.
  intros Hk Hw. revert b. induction Hw as [|r w Hr Hw IH]; intros b; [done|].
  cbn [tries app]. rewrite (Hk b r (w ++ l) cs Hr), IH. cbn. by destruct (k _).
Qed.

Lemma exec_star_run {A} s w l b cs (k : cursor -> option A) :
  Forall (fun r => inSet s (point r) = true) w -> stopsAt s l -> refuses k s ->
  exec (Star true (Char s)) (mkCursor b (w ++ l) cs) k = k (mkCursor (lastPoint b w) l cs).
Proof. intros Hw Hl Hk. rewrite exec_star_tries by done. by apply (tries_refuses s). Qed.

Lemma exec_plus_run {A} s w l b cs (k : cursor -> option A) :
  w <> [] -> Forall (fun r => inSet s (point r) = true) w -> stopsAt s l -> refuses k s ->
  exec (Plus true (Char s)) (mkCursor b (w ++ l) cs) k = k (mkCursor (lastPoint b w) l cs).
Proof.
  intros Hne Hw Hl Hk. destruct Hw as [|r w Hr Hw]; [done|].
  unfold Plus. rewrite exec_cat. cbn [app]. rewrite exec_char, Hr. by rewrite exec_star_run.
Qed.

Lemma refuses_char {A} s t b (k : cursor -> option A) :
  (forall c, inSet s c = true -> inSet t c = false) ->
  refuses (fun st => exec (Cat (Char t) b) st k) s.
Proof. intros Hd b' r l cs Hr. cbn [exec ahead]. by rewrite (Hd _ Hr). Qed.
