(* ===== verification/TextPlain.v ===== *)
(** Lines that are their own payload: what [ParseLine] does to a line before
    it searches the patterns, when the line is printable ASCII without the
    characters the preparation looks for. *)
From S2P Require Import Prelude GoStrings Regexp RegexpFacts TextEvents TextPatterns TextParser TextFacts.

(** ** Definitions *)

(** Printable ASCII. *)
Definition printText (s : string) : bool := forallb (within 32 126) (codes s).

(** Printable ASCII without [=] and [#]. *)
Definition plainChar (c : Z) : bool := within 32 126 c && negb (c =? 61) && negb (c =? 35).
Definition plainText (s : string) : bool := forallb plainChar (codes s).

(** The first and last characters are not blanks, and the first two are not
    what is left of an escape sequence. *)
Definition plainLine (s : string) : Prop :=
  plainText s = true /\
  (exists c s', s = String c s' /\ code c <> 32) /\
  (exists c s', s = (s' +:+ String c EmptyString)%string /\ code c <> 32) /\
  HasPrefix (smap lowerASCII s) "0m" = false.

(** Neither the first nor the last character is a blank. *)
Definition trimmed (s : string) : Prop :=
  (exists c s', s = String c s' /\ code c <> 32) /\
  (exists c s', s = (s' +:+ String c EmptyString)%string /\ code c <> 32).

(** ** Lemmas *)
Lemma print_ascii s : printText s = true -> isASCII s = true.
Proof.
  unfold printText, isASCII, codes. rewrite !forallb_forall. intros Hs c Hc.
  specialize (Hs (code c) (in_map _ _ _ Hc)). apply within_spec in Hs. apply Z.ltb_lt. lia.
Qed.

Lemma plain_print s : plainText s = true -> printText s = true.
Proof.
  unfold plainText, printText. rewrite !forallb_forall. intros Hs b [[Hb _]%andb_prop _]%Hs%andb_prop. done.
Qed.

Lemma plain_ascii s : plainText s = true -> isASCII s = true.
Proof. intros Hs. by apply print_ascii, plain_print. Qed.

Lemma printText_app s t : printText (s +:+ t) = printText s && printText t.
Proof. unfold printText. by rewrite codes_app, forallb_app. Qed.

Lemma print_code s c : printText s = true -> In c (String.list_ascii_of_string s) -> 32 <= code c <= 126.
Proof.
  unfold printText, codes. rewrite forallb_forall. intros Hs Hc.
  by apply within_spec, Hs, in_map.
Qed.

Lemma plainText_app s t : plainText (s +:+ t) = plainText s && plainText t.
Proof. unfold plainText. by rewrite codes_app, forallb_app. Qed.

Lemma plain_code s c : plainText s = true -> In c (String.list_ascii_of_string s) -> plainChar (code c) = true.
Proof.
  intros Hs Hc. unfold plainText in Hs. rewrite forallb_forall in Hs.
  apply Hs. apply in_map_iff. by exists c.
Qed.

(** Every match of [r] consumes the character [z]. *)
Fixpoint mustHave (z : Z) (r : re) : bool :=
  match r with
  | Char s => negb (negated s) && forallb (fun q => (q.1 =? z) && (q.2 =? z)) (ranges s)
  | Cat a b => mustHave z a || mustHave z b
  | Alt a b => mustHave z a && mustHave z b
  | Group _ a => mustHave z a
  | _ => false
  end.

Lemma mustHave_runs z r st st' :
  runs r st st' -> mustHave z r = true -> exists c, c ∈ ahead st /\ point c = z.
Proof.
  induction 1; intros Hm; cbn [mustHave] in Hm; try done; try by apply IHruns.
  - exists c. split; [rewrite H; by left|]. apply andb_prop in Hm as [Hn Hm]. unfold inSet, inRanges in H0.
    destruct (negated s); [done|]. cbn in H0. apply existsb_exists in H0 as (q & Hq & Hc%within_spec).
    rewrite forallb_forall in Hm. apply Hm, andb_prop in Hq as [?%Z.eqb_eq ?%Z.eqb_eq]. lia.
  - apply orb_prop in Hm as [Hm|Hm]; [by apply IHruns1|].
    destruct (IHruns2 Hm) as (c & Hc & Hz). exists c. split; [|done].
    destruct (runs_suffix _ _ _ H) as [w ->]. apply elem_of_app. by right.
  - apply andb_prop in Hm as [Hm _]. by apply IHruns.
  - apply andb_prop in Hm as [_ Hm]. by apply IHruns.
Qed.

Lemma find_needs z r b skip l :
  mustHave z r = true -> Forall (fun c => point c <> z) l -> find r b skip l = None.
Proof.
  intros Hm Hl. destruct (find r b skip l) as [f|] eqn:E; [|done]. exfalso.
  apply find_spec in E as (w & -> & _ & Hrun). apply (mustHave_runs z) in Hrun as (c & Hc & Hz); [|done].
  apply Forall_app in Hl as [_ Hl]. rewrite Forall_forall in Hl. by apply (Hl c).
Qed.

Lemma RemoveAll_none x s : find (prog x) None [] (runes s) = None -> RemoveAll x s = s.
Proof. intros Hf. unfold RemoveAll. cbn [findAll]. rewrite Hf. apply text_of_runes. Qed.

Lemma plain_points s z : plainText s = true -> plainChar z = false -> Forall (fun r => point r <> z) (runes s).
Proof.
  intros Hs Hz. rewrite runes_ascii by (by apply plain_ascii). apply List.Forall_forall.
  intros r (c & <- & Hc)%in_map_iff E. apply (plain_code s c Hs) in Hc. cbn in E. congruence.
Qed.

Lemma print_points s z : printText s = true -> within 32 126 z = false -> Forall (fun r => point r <> z) (runes s).
Proof.
  intros Hs Hz. rewrite runes_ascii by (by apply print_ascii). apply List.Forall_forall.
  intros r (c & <- & Hc)%in_map_iff E. apply (print_code s c Hs) in Hc. cbn in E. rewrite E in Hc.
  apply not_true_iff_false in Hz. by apply Hz, within_spec.
Qed.

Lemma cleanNonPrintable_print s : printText s = true -> cleanNonPrintable s = s.
Proof.
  intros Hs. pose proof (print_ascii s Hs) as Ha. unfold cleanNonPrintable. rewrite runes_ascii by done.
  induction s as [|c s IH]; [done|]. rewrite isASCII_cons in Ha. apply andb_prop in Ha as [_ Ha].
  change (String c s) with (String c EmptyString +:+ s)%string in Hs. rewrite printText_app in Hs.
  apply andb_prop in Hs as [Hc Hs]. unfold printText in Hc. cbn [codes String.list_ascii_of_string map forallb] in Hc.
  rewrite andb_true_r in Hc. apply within_spec in Hc.
  cbn [String.list_ascii_of_string map List.filter]. unfold printable at 1. cbn [point ascii_rune].
  destruct (Z.leb_spec 32 (code c)); [|lia]. rewrite orb_true_r. cbn [fold_right point ascii_rune enc].
  destruct (Z.eqb_spec (code c) runeError) as [E|_]; [unfold runeError in E; lia|]. by rewrite IH.
Qed.

(** *** Trims *)
Definition startsBlank (s : string) : bool :=
  match s with
  | String c _ => (code c <=? 32) || (128 <=? code c)
  | EmptyString => false
  end.

Lemma leading_none encs s :
  forallb startsBlank encs = true -> startsBlank s = false -> leading encs s = None.
Proof.
  intros He Hs. induction encs as [|e encs IH]; [done|]. cbn [forallb] in He. apply andb_prop in He as [He1 He].
  cbn [leading]. destruct (HasPrefix s e) eqn:Hp; [|by apply IH]. exfalso.
  destruct e as [|d e]; [done|]. destruct s as [|c s]; [done|]. rewrite HasPrefix_cons in Hp.
  apply andb_prop in Hp as [->%bool_decide_eq_true _]. cbn in He1, Hs. congruence.
Qed.

Lemma trim_with_none encs n s : leading encs s = None -> trim_with encs n s = s.
Proof. intros Hl. destruct n; [done|]. cbn. by rewrite Hl. Qed.

Lemma string_rev_app_spec s t : string_rev_app s t = (string_rev s +:+ t)%string.
Proof.
  unfold string_rev. revert t. induction s as [|c s IH]; intros t; [done|]. cbn [string_rev_app].
  rewrite IH, (IH (String c EmptyString)), <- string_app_assoc. done.
Qed.
Lemma string_rev_snoc s c : string_rev (s +:+ String c EmptyString) = String c (string_rev s).
Proof.
  induction s as [|d s IH]; [done|]. change (String d s +:+ ?x)%string with (String d (s +:+ x)).
  unfold string_rev in *. cbn [string_rev_app]. rewrite !(string_rev_app_spec _ (String d _)).
  unfold string_rev in *. by rewrite IH.
Qed.
Lemma string_rev_involutive s : string_rev (string_rev s) = s.
Proof.
  induction s as [|c s IH]; [done|]. unfold string_rev at 2. cbn [string_rev_app].
  by rewrite string_rev_app_spec, string_rev_snoc, IH.
Qed.

Lemma TrimSpace_none s :
  startsBlank s = false -> startsBlank (string_rev s) = false -> TrimSpace s = s.
Proof.
  intros Hl Hr. unfold TrimSpace, TrimRightSpace, TrimLeftSpace.
  rewrite (trim_with_none spaceEncodings) by (by apply leading_none).
  rewrite trim_with_none by (by apply leading_none). apply string_rev_involutive.
Qed.

Lemma print_not_blank s c : printText s = true -> In c (String.list_ascii_of_string s) -> code c <> 32 ->
  (code c <=? 32) || (128 <=? code c) = false.
Proof. intros Hs Hc%(print_code s c Hs) Hn. destruct (Z.leb_spec (code c) 32), (Z.leb_spec 128 (code c)); done || lia. Qed.

Lemma list_ascii_app s t :
  String.list_ascii_of_string (s +:+ t) = String.list_ascii_of_string s ++ String.list_ascii_of_string t.
Proof. induction s as [|c s IH]; [done|]. apply (f_equal (cons c)), IH. Qed.

Lemma TrimSpace_print s : printText s = true -> trimmed s -> TrimSpace s = s.
Proof.
  intros Hp ((c & s1 & E1 & H1) & (d & s2 & E2 & H2)). apply TrimSpace_none.
  - rewrite E1. apply (print_not_blank s); [done| |done]. rewrite E1. by left.
  - rewrite E2, string_rev_snoc. apply (print_not_blank s); [done| |done].
    rewrite E2, list_ascii_app. apply in_app_iff. right. by left.
Qed.

Lemma plain_trimmed s : plainLine s -> printText s = true /\ trimmed s.
Proof. intros (Hp & H1 & H2 & _). split; [by apply plain_print|done]. Qed.

Lemma TrimSpace_plain s : plainLine s -> TrimSpace s = s.
Proof. intros [Hp Ht]%plain_trimmed. by apply TrimSpace_print. Qed.

(** *** Strings *)
Lemma smap_app f a b : smap f (a +:+ b) = (smap f a +:+ smap f b)%string.
Proof. induction a as [|c a IH]; [done|]. by apply (f_equal (String (f c))). Qed.

Lemma length_app_string a b : String.length (a +:+ b) = (String.length a + String.length b)%nat.
Proof. induction a as [|c a IH]; [done|]. by apply (f_equal S). Qed.

Lemma length_smap f s : String.length (smap f s) = String.length s.
Proof. induction s as [|c s IH]; [done|]. cbn. by rewrite IH. Qed.

Lemma string_drop_app a b : string_drop (String.length a) (a +:+ b) = b.
Proof. induction a as [|c a IH]; [by destruct b|done]. Qed.

(** *** Searches for characters that are not there *)
Definition noChar (z : Z) (s : string) : Prop := Forall (fun b => b <> z) (codes s).

Lemma plain_noChar s z : plainText s = true -> plainChar z = false -> noChar z s.
Proof.
  unfold plainText, noChar. rewrite forallb_forall. intros Hs Hz. apply List.Forall_forall.
  intros b Hb%Hs ->. congruence.
Qed.

Lemma HasPrefix_noChar s sub z :
  noChar z s -> In z (codes sub) -> HasPrefix s sub = false.
Proof.
  revert s. induction sub as [|d sub IH]; intros s Hs Hin; [done|]. destruct s as [|c s]; [done|].
  rewrite HasPrefix_cons. case_bool_decide as E; [|done]. subst d.
  inversion Hs; subst. destruct Hin as [Hz|Hin]; [done|]. by rewrite IH.
Qed.

Lemma LastIndex_noChar s sub z : noChar z s -> In z (codes sub) -> LastIndex s sub = None.
Proof.
  intros Hs Hin. induction s as [|c s IH].
  - cbn. by destruct sub.
  - cbn [LastIndex]. rewrite IH by (by inversion Hs). by rewrite (HasPrefix_noChar _ _ z).
Qed.

Lemma replace_noChar n s old new z : noChar z s -> In z (codes old) -> replaceFuel n old new s = s.
Proof.
  intros Hs Hin. revert s Hs. induction n as [|n IH]; intros s Hs; [done|]. destruct s as [|c s]; [done|].
  cbn [replaceFuel]. rewrite (HasPrefix_noChar _ _ z) by done. f_equal. apply IH. by inversion Hs.
Qed.

Section Plain.
Context `{Unicode} (rangeOrder : cache -> list Z).

Lemma ToLower_ascii s : isASCII s = true -> ToLower s = smap lowerASCII s.
Proof. intros Hs. unfold ToLower. by rewrite Hs. Qed.

Lemma code_lowerASCII c : code (lowerASCII c) = 61 -> code c = 61.
Proof.
  unfold lowerASCII. destruct (_ && _) eqn:E; [|done].
  apply andb_prop in E as [?%Z.leb_le ?%Z.leb_le]. unfold byte_char, code.
  rewrite Ascii.N_ascii_embedding; unfold code in *; lia.
Qed.

Lemma lower_noEquals s : noChar 61 s -> noChar 61 (smap lowerASCII s).
Proof.
  unfold noChar. induction s as [|c s IH]; intros Hs; [constructor|]. inversion Hs; subst.
  constructor; [|by apply IH]. by intros ?%code_lowerASCII.
Qed.

Lemma no_submatch x s : find (prog x) None [] (runes s) = None -> submatch x s = None.
Proof. intros Hf. unfold submatch, FindStringSubmatch. by rewrite Hf. Qed.

Lemma clean_print s : printText s = true -> trimmed s -> clean s = s.
Proof.
  intros Hp Ht. unfold clean.
  rewrite RemoveAll_none by (apply (find_needs 27); [done|by apply print_points]).
  rewrite cleanNonPrintable_print by done. by apply TrimSpace_print.
Qed.

Lemma clean_plain s : plainLine s -> clean s = s.
Proof. intros [Hp Ht]%plain_trimmed. by apply clean_print. Qed.

Lemma normalize_plain s : plainLine s -> normalizePayload s = s.
Proof.
  intros Hs. pose proof Hs as (Hp & _ & _ & H0). unfold normalizePayload, ReplaceAll.
  pose proof (plain_noChar s 10 Hp eq_refl) as Hn.
  rewrite !(replace_noChar _ s _ _ 10) by (done || by left).
  rewrite RemoveAll_none by (apply (find_needs 35); [done|by apply plain_points]).
  rewrite TrimSpace_plain by done. rewrite ToLower_ascii by (by apply plain_ascii). by rewrite H0.
Qed.

Lemma extract_plain s : plainLine s -> extractPayload s = Ret s.
Proof.
  intros Hs. pose proof Hs as (Hp & _). unfold extractPayload.
  rewrite ToLower_ascii by (by apply plain_ascii).
  rewrite (LastIndex_noChar _ _ 61); [by rewrite normalize_plain| |by vm_compute; auto].
  apply lower_noEquals, plain_noChar; [done|by vm_compute].
Qed.

(** A line with no [=] announces no packet. *)
Lemma announce_plain s c : plainText s = true -> cachePacketMeta rangeOrder s c = c.
Proof.
  intros Hs. unfold cachePacketMeta. destruct (_ && _); [done|].
  rewrite (no_submatch idExtract); [done|]. apply (find_needs 61); [by vm_compute|by apply plain_points].
Qed.

(** What [ParseLine] does to such a line is the search through the patterns. *)
Lemma parse_plain s c :
  plainLine s -> fragment s = false ->
  ParseLine rangeOrder s c =
    match firstMatch initPatterns s s with
    | Some events => Ret (events, c)
    | None => Ret ([plainEvent "raw" EmptyString ∅ s], c)
    end.
Proof.
  intros Hs Hf. pose proof Hs as (Hp & (d & s' & E & _) & _). unfold ParseLine.
  rewrite clean_plain, extract_plain, Hf, announce_plain by done.
  replace (blank s) with false by (by subst s). cbn [obind].
  destruct (firstMatch _ _ _); [done|]. unfold isMeshtasticEcho.
  rewrite ToLower_ascii by (by apply plain_ascii).
  rewrite (LastIndex_noChar _ _ 61); [done| |by vm_compute; auto].
  apply lower_noEquals, plain_noChar; [done|by vm_compute].
Qed.
End Plain.
