(* ===== verification/TextPayload.v ===== *)
(** What follows the last [msg=] of a line decides its events. *)
From S2P Require Import Prelude GoStrings Regexp RegexpFacts TextEvents TextPatterns TextParser TextFacts TextPlain.

(** ** Definitions *)

(** An event without the line it was found in. *)
Definition noRaw (e : ParsedEvent) : ParsedEvent :=
  mkEvent (Kind e) (NodeID e) (PacketID e) (ToNode e) (Data e) EmptyString (Category e) (Level e).

(** ** Lemmas *)
Lemma LastIndex_last a b : noChar 61 b -> LastIndex (a +:+ "msg=" +:+ b) "msg=" = Some (String.length a).
Proof.
  intros Hb. induction a as [|c a IH].
  - change ("" +:+ "msg=" +:+ b)%string with ("msg=" +:+ b)%string.
    assert (LastIndex b "msg=" = None) as E by (apply (LastIndex_noChar _ _ 61); [done|by vm_compute; auto]).
    change ("msg=" +:+ b)%string with (String (byte_char 109) (String (byte_char 115) (String (byte_char 103) (String (byte_char 61) b)))).
    cbn [LastIndex]. rewrite E. rewrite !HasPrefix_cons. cbn. by destruct b.
  - cbn [String.length]. change (String c a +:+ "msg=" +:+ b)%string with (String c (a +:+ "msg=" +:+ b)).
    cbn [LastIndex]. by rewrite IH.
Qed.

Section Payload.
Context `{Unicode} (rangeOrder : cache -> list Z).

Lemma handle_noRaw p m ns raw raw' :
  p ∈ initPatterns -> map noRaw (handle p m ns raw) = map noRaw (handle p m ns raw').
Proof.
  enough (Forall (fun p => forall m ns raw raw', map noRaw (handle p m ns raw) = map noRaw (handle p m ns raw')) initPatterns)
    as Hall by (rewrite Forall_forall in Hall; auto).
  clear p m ns raw raw'. unfold initPatterns.
  repeat (apply Forall_cons; split); try apply Forall_nil_2; intros m ns raw raw'; cbn [handle];
    unfold handleStatus, handleDrone, handleTarget, handleDevice, handleBLERaw, handleAttackLong,
      handleAttackShort, handleGPSLock, handleGPSLost, handleNodeHB, handleACK, handleCodes, handleI2cScan,
      handleAIModels, handleGateTriggered, handleProbeHit, handleAnomaly, handleStartup, handleVibration,
      handleTamper, handleCamDetection, handleCamFace, handleCamPlate, handleTriData, handleTriFinal,
      handleTriComplete, handleDoneSummaryWithAck, handleIdentity, handleAttack, handleSetupMode,
      handleBatterySaverState, handleEraseEvent, handleEraseToken, handleRTCSync, handleBroadcastCommand;
    generalize (extractGroups m ns) as g; intros g.
  all: rewrite ?map_app; try (by case_bool_decide); try (by destruct (DecodeString _)); try (by destruct (bleTarget _)).
  all: reflexivity.
Qed.

Lemma firstMatch_noRaw ps payload cleaned :
  ps ⊆ initPatterns ->
  option_map (map noRaw) (firstMatch ps payload cleaned) = option_map (map noRaw) (firstMatch ps payload payload).
Proof.
  induction ps as [|p ps IH]; intros Hs; [done|]. cbn [firstMatch].
  destruct (FindStringSubmatch _ _); [|apply IH; set_solver]. cbn. f_equal. apply handle_noRaw. set_solver.
Qed.

Lemma extract_msg pre payload :
  printText pre = true -> plainLine payload -> extractPayload (pre +:+ "msg=" +:+ payload) = Ret payload.
Proof.
  intros Hpre Hp. pose proof Hp as (Hpl & _). unfold extractPayload.
  rewrite ToLower_ascii.
  - rewrite !smap_app. change (smap lowerASCII "msg=") with "msg="%string.
    rewrite LastIndex_last by (by apply lower_noEquals, plain_noChar).
    rewrite length_smap. unfold slice_string.
    rewrite string_app_assoc. replace (String.length pre + 4)%nat with (String.length (pre +:+ "msg="))
      by (by rewrite length_app_string).
    destruct (Nat.leb_spec (String.length (pre +:+ "msg=")) (String.length ((pre +:+ "msg=") +:+ payload)));
      [|rewrite length_app_string in *; lia].
    cbn [obind]. by rewrite string_drop_app, TrimSpace_plain, normalize_plain.
  - apply print_ascii. rewrite !printText_app, Hpre. cbn. by apply plain_print.
Qed.

(** ** Properties *)

End Payload.

