(* ===== verification/TextTypes.v ===== *)
(** The types of what events carry: the data of an event is a map to
    [interface{}], and its consumers assert types when they read it. *)
From S2P Require Import Prelude GoStrings GoFloat Regexp RegexpFacts TextEvents TextPatterns TextParser TextFacts.

(** ** Definitions *)
Inductive vtype : Type := TString | TInt | TInt64 | TFloat | TBool | TBytes | TUint32s | TStrings | TStringMap | TSlots.
#[export] Instance vtype_eq_dec : EqDecision vtype.
Proof. solve_decision. Defined.

Definition typeOf (v : value) : vtype :=
  match v with
  | VString _ => TString | VInt _ => TInt | VInt64 _ => TInt64 | VFloat _ => TFloat | VBool _ => TBool
  | VBytes _ => TBytes | VUint32s _ => TUint32s | VStrings _ => TStrings | VStringMap _ => TStringMap
  | VSlots _ => TSlots
  end.

(** The type assertions of [dispatchTextEvent] in [serial/manager.go] by kind,
    and those of the alert callback in [cmd/diginode-cc/main.go]. *)
Definition assertions (kind category : string) : list (string * vtype) :=
  if bool_decide (kind = "text-message") then [("text", TString)]
  else if bool_decide (kind = "target-detected") then
    [("mac", TString); ("rssi", TInt); ("name", TString); ("type", TString); ("channel", TInt);
     ("lat", TFloat); ("lon", TFloat); ("targetId", TString)]
  else if bool_decide (kind = "ble-raw") then
    [("mac", TString); ("rssi", TInt); ("channel", TInt); ("advBytes", TBytes)]
  else if bool_decide (kind = "tri-data") then
    [("mac", TString); ("rssi", TInt); ("nodeLat", TFloat); ("nodeLon", TFloat)]
  else if bool_decide (kind = "tri-final") then
    [("mac", TString); ("lat", TFloat); ("lon", TFloat); ("confidence", TFloat); ("uncertainty", TFloat)]
  else if bool_decide (kind = "tri-complete") then [("mac", TString); ("nodes", TInt)]
  else if bool_decide (kind = "node-telemetry") then
    [("lat", TFloat); ("lon", TFloat); ("temperatureC", TFloat); ("battery", TFloat)]
  else if bool_decide (kind = "command-ack") then [("ackType", TString)]
  else if bool_decide (kind = "alert") && bool_decide (category = "probe") then
    [("ssid", TString); ("mac", TString); ("rssi", TInt); ("channel", TInt); ("ghostSsid", TBool);
     ("dstMatch", TBool)]
  else [].

Definition typed (l : list (string * vtype)) (d : data) : Prop :=
  forall k ty v, (k, ty) ∈ l -> d !! k = Some v -> typeOf v = ty.
Definition wellTyped (e : ParsedEvent) : Prop := typed (assertions (Kind e) (Category e)) (Data e).

Definition eventKinds : list string :=
  ["node-telemetry"; "target-detected"; "ble-raw"; "alert"; "command-ack"; "drone-telemetry"; "tri-data";
   "tri-final"; "tri-complete"; "gate-codes"; "i2c-scan"; "ai-models"].

Definition proper (raw : string) (e : ParsedEvent) : Prop :=
  wellTyped e /\ Kind e ∈ eventKinds /\ Raw e = raw.

(** ** Lemmas *)
Definition agrees (l : list (string * vtype)) (key : string) (ty : vtype) : bool :=
  forallb (fun p => negb (bool_decide (p.1 = key)) || bool_decide (p.2 = ty)) l.

Lemma agrees_spec l key ty k' ty' : agrees l key ty = true -> (k', ty') ∈ l -> k' = key -> ty' = ty.
Proof.
  unfold agrees. rewrite forallb_forall. intros Ha Hin%list_elem_of_In ->. apply Ha in Hin. cbn in Hin.
  rewrite bool_decide_true in Hin by done. by apply bool_decide_eq_true in Hin.
Qed.

Create HintDb typed.

Lemma typed_none d : typed [] d.
Proof. intros k ty v Hin. by apply elem_of_nil in Hin. Qed.
Lemma typed_empty l : typed l ∅.
Proof. intros k ty v _ Hl. by rewrite lookup_empty in Hl. Qed.
Lemma typed_insert l k v d : agrees l k (typeOf v) = true -> typed l d -> typed l (<[k := v]> d).
Proof.
  intros Ha Hd k' ty' v' Hin Hl. apply lookup_insert_Some in Hl as [[<- <-]|[_ Hl]]; [|by eapply Hd].
  symmetry. by eapply agrees_spec.
Qed.
Lemma typed_nil l : typed l (list_to_map []).
Proof. apply typed_empty. Qed.
Lemma typed_cons l k v r : agrees l k (typeOf v) = true -> typed l (list_to_map r) -> typed l (list_to_map ((k, v) :: r)).
Proof. apply typed_insert. Qed.
Lemma typed_given l g k key f d :
  agrees l key (typeOf (f EmptyString)) = true -> (forall s, typeOf (f s) = typeOf (f EmptyString)) ->
  typed l d -> typed l (given g k key f d).
Proof. intros Ha Hf Hd. unfold given. destruct (blank _); [done|]. apply typed_insert; [by rewrite Hf|done]. Qed.
Lemma typed_flag l b key d : agrees l key TBool = true -> typed l d -> typed l (flag b key d).
Proof. intros Ha Hd. destruct b; [by apply typed_insert|done]. Qed.
Lemma typed_if l (b : bool) d d' : typed l d -> typed l d' -> typed l (if b then d else d').
Proof. by destruct b. Qed.
Lemma typed_union l d d' : typed l d -> typed l d' -> typed l (union d d').
Proof.
  intros Hd Hd' k ty v Hin Hl. apply lookup_union_Some_raw in Hl as [Hl|[_ Hl]]; [by eapply Hd|by eapply Hd'].
Qed.
Lemma typed_promote l d k t ty : agrees l k ty = true -> (forall v, d !! k = Some v -> typeOf v = ty) ->
  typed l t -> typed l (promote d k t).
Proof. intros Ha Hd Ht. unfold promote. destruct (d !! k) eqn:E; [|done]. apply typed_insert; [by rewrite (Hd v)|done]. Qed.

Lemma typed_sub l l' d : l' ⊆ l -> typed l d -> typed l' d.
Proof. intros Hs Hd k ty v Hin. by eapply Hd, Hs. Qed.

Section Types.
Context `{Unicode}.

(** *** The keys of a summary line are lower case *)
Lemma lowerASCII_not_T c : lowerASCII c <> byte_char 84.
Proof. by destruct c as [[] [] [] [] [] [] [] []]; vm_compute. Qed.

Lemma lower_not_ackType s : smap lowerASCII s <> "ackType"%string.
Proof.
  intros E. do 4 (destruct s as [|? s]; [done|]; cbn [smap] in E; injection E as ? E).
  by eapply lowerASCII_not_T.
Qed.

Lemma findAll_spec n r b l f :
  f ∈ (findAll n r b l).1 -> Forall wfRune l -> exists b' l', find r b' [] l' = Some f /\ Forall wfRune l'.
Proof.
  revert b l. induction n as [|n IH]; intros b l; cbn [findAll]; [by intros ?%elem_of_nil|].
  destruct (find r b [] l) as [f'|] eqn:E; [|by intros ?%elem_of_nil].
  destruct (findAll n r _ _) as [fs rest] eqn:Ef. intros [->|Hf]%elem_of_cons Hwf; [by exists b, l|].
  apply (IH (before (endAt f')) (ahead (endAt f'))); [by rewrite Ef|].
  destruct (find_spec _ _ _ _ _ E) as (w & -> & _ & Hr). apply (runs_wf _ _ _ Hr).
  by apply Forall_app in Hwf as [_ ?].
Qed.

Lemma kv_key f s : f ∈ (findAll (S (String.length s)) (prog kvBodyRe) None (runes s)).1 ->
  isASCII (groupText 1 (caps (endAt f))) = true.
Proof.
  intros Hf. destruct (findAll_spec _ _ _ _ _ Hf (runes_wf s)) as (b' & l' & E & Hwf).
  destruct (groupText_spec _ _ _ _ _ 1 E Hwf) as [->|(a & w & Ha & Ht & Et)]; [done|]. cbn in Et. rewrite Et.
  apply (takes_ascii a); [done|]. cbn in Ha. apply elem_of_cons in Ha as [[= ->]|Ha]; [by vm_compute|].
  apply elem_of_cons in Ha as [[= ?]|Ha%elem_of_nil]; done.
Qed.

Lemma parseKVBody_ackType s : parseKVBody s !! "ackType" = None.
Proof.
  unfold parseKVBody, FindAllStringSubmatch.
  assert (Forall (fun f => isASCII (groupText 1 (caps (endAt f))) = true)
            (findAll (S (String.length s)) (prog kvBodyRe) None (runes s)).1) as Hall.
  { apply Forall_forall. intros f. apply kv_key. }
  revert Hall. generalize (findAll (S (String.length s)) (prog kvBodyRe) None (runes s)).1 as fs. intros fs Hall.
  assert (forall d : data, d !! "ackType" = None -> fold_left (fun out m => match m with
            | [_; key; val] => <[ToLower key := kvValue val]> out | _ => out end)
            (map (submatches kvBodyRe) fs) d !! "ackType" = None) as Hd.
  { induction Hall as [|f fs Hf Hall IH]; intros d Hd; [done|]. cbn [map fold_left]. apply IH.
    unfold submatches. cbn [names kvBodyRe length seq map]. rewrite lookup_insert_ne; [done|].
    unfold ToLower. rewrite Hf. apply lower_not_ackType. }
  apply Hd, lookup_empty.
Qed.

Lemma typed_kv s : typed [("ackType", TString)] (parseKVBody s).
Proof.
  intros k ty v Hin Hl. apply elem_of_cons in Hin as [[= -> ->]|Hin%elem_of_nil]; [|done].
  by rewrite parseKVBody_ackType in Hl.
Qed.

Definition floats : list (string * vtype) :=
  [("temperatureC", TFloat); ("temperatureF", TFloat); ("lat", TFloat); ("lon", TFloat); ("battery", TFloat)].

Ltac agree := vm_compute; reflexivity.
Ltac typed_step :=
  lazymatch goal with
  | |- typed [] _ => apply typed_none
  | |- typed _ ∅ => apply typed_empty
  | |- typed _ (list_to_map []) => apply typed_nil
  | |- typed _ (parseKVBody _) => apply typed_kv
  | |- typed _ (list_to_map (_ :: _)) => apply typed_cons; [agree|]
  | |- typed _ (<[_ := _]> _) => apply typed_insert; [agree|]
  | |- typed _ (given _ _ _ _ _) => apply typed_given; [agree|intros; reflexivity|]
  | |- typed _ (flag _ _ _) => apply typed_flag; [agree|]
  | |- typed _ (if _ then _ else _) => apply typed_if
  | |- typed _ (union _ _) => apply typed_union
  end.
Ltac typed_data := unfold located, targetData; repeat typed_step.

Lemma typed_status g : typed floats (statusData g).
Proof. unfold statusData. typed_data. Qed.

Lemma typed_telemetry g : typed floats (telemetryData (statusData g)).
Proof.
  unfold telemetryData. assert (forall k, (k, TFloat) ∈ floats -> forall v, statusData g !! k = Some v -> typeOf v = TFloat) as Hs.
  { intros k Hin v. by apply typed_status. }
  repeat (apply (typed_promote _ _ _ _ TFloat); [reflexivity|apply Hs; by apply list_elem_of_In; cbn; auto 10|]).
  apply typed_empty.
Qed.

Ltac proper_event :=
  split; [unfold wellTyped; cbn [Kind Category Data plainEvent alertEvent ackEvent];
          match goal with |- typed ?l _ => let l' := eval vm_compute in l in change l with l' end
         |split; [by apply (bool_decide_eq_true_1 _); vm_compute|done]].

Lemma handlers_proper p m ns raw : p ∈ initPatterns -> Forall (proper raw) (handle p m ns raw).
Proof.
  enough (Forall (fun p => forall m ns raw, Forall (proper raw) (handle p m ns raw)) initPatterns) as Hall
    by (rewrite Forall_forall in Hall; auto).
  clear p m ns raw. unfold initPatterns.
  repeat (apply Forall_cons; split); try apply Forall_nil_2; intros m ns raw; cbn [handle];
    unfold handleStatus, handleDrone, handleTarget, handleDevice, handleBLERaw, handleAttackLong,
      handleAttackShort, handleGPSLock, handleGPSLost, handleNodeHB, handleACK, handleCodes, handleI2cScan,
      handleAIModels, handleGateTriggered, handleProbeHit, handleAnomaly, handleStartup, handleVibration,
      handleTamper, handleCamDetection, handleCamFace, handleCamPlate, handleTriData, handleTriFinal,
      handleTriComplete, handleDoneSummaryWithAck, handleIdentity, handleAttack, handleSetupMode,
      handleBatterySaverState, handleEraseEvent, handleEraseToken, handleRTCSync, handleBroadcastCommand;
    generalize (extractGroups m ns) as g; intros g.
  1: { apply Forall_app. split; [case_bool_decide; [apply Forall_nil_2|]|]; repeat (apply Forall_cons; split);
         try apply Forall_nil_2; proper_event; [|typed_data].
       eapply typed_sub; [|apply typed_telemetry]. intros x Hx. set_solver. }
  all: try destruct (DecodeString _).
  all: try destruct (bleTarget _).
  all: cbn [blank]; try (rewrite bool_decide_false by done).
  all: repeat (apply Forall_cons; split); try apply Forall_nil_2; proper_event; typed_data.
Qed.

Lemma firstMatch_proper ps payload cleaned es :
  ps ⊆ initPatterns -> firstMatch ps payload cleaned = Some es -> Forall (proper cleaned) es.
Proof.
  induction ps as [|p ps IH]; intros Hs; cbn [firstMatch]; [done|].
  destruct (FindStringSubmatch _ _); [|apply IH; intros x Hx; apply Hs; by right].
  intros [= <-]. apply handlers_proper, Hs. by left.
Qed.

(** ** Properties *)

End Types.

