(* ===== verification/TextSafety.v ===== *)
(** When [ParseLine] returns, and what its packet cache holds. *)
From S2P Require Import Prelude GoStrings Regexp RegexpFacts TextEvents TextPatterns TextParser TextFacts TextPlain TextTypes.

Section Safety.
Context `{Unicode} (rangeOrder : cache -> list Z).

(** ** Definitions *)

(** [msg=] lies further in the lower-case line than the line is long. *)
Definition overrun (cleaned : string) : Prop :=
  exists i, LastIndex (ToLower cleaned) "msg=" = Some i /\ (String.length cleaned < i + 4)%nat.

(** Lines one after the other. *)
Fixpoint ParseLines (lines : list string) (c : cache) : outcome (list (list ParsedEvent) * cache) :=
  match lines with
  | [] => Ret ([], c)
  | l :: lines =>
      let! (es, c) := ParseLine rangeOrder l c in
      let! (ess, c) := ParseLines lines c in
      Ret (es :: ess, c)
  end.

(** What a debug line says of a packet: its id and its destination. *)
Definition announced (line : string) : option (Z * Z) :=
  let cleaned := clean line in
  let lower := ToLower cleaned in
  if negb (Contains lower "lora rx") && negb (Contains lower "phone downloaded") then None
  else
    match submatch idExtract cleaned, submatch toExtract cleaned with
    | Some id, Some to => match hex32 id, hex32 to with Some id, Some to => Some (id, to) | _, _ => None end
    | _, _ => None
    end.

(** ** Lemmas *)
Lemma LastIndex_bound s sub i :
  LastIndex s sub = Some i -> (i + String.length sub <= String.length s)%nat.
Proof.
  assert (forall s sub, HasPrefix s sub = true -> (String.length sub <= String.length s)%nat) as Hp.
  { clear. intros s sub. revert s. induction sub as [|d sub IH]; intros s Hs; [cbn; lia|].
    destruct s as [|c s]; [done|]. rewrite HasPrefix_cons in Hs. apply andb_prop in Hs as [_ Hs%IH]. cbn. lia. }
  revert i. induction s as [|c s IH]; intros i; cbn [LastIndex].
  - destruct (HasPrefix _ _) eqn:E; [|done]. intros [= <-]. by apply Hp in E.
  - destruct (LastIndex s sub) as [j|] eqn:E.
    + intros [= <-]. specialize (IH j eq_refl). cbn. lia.
    + destruct (HasPrefix _ _) eqn:E'; [|done]. intros [= <-]. by apply Hp in E'.
Qed.

Lemma overrun_ascii s : isASCII s = true -> ~ overrun s.
Proof.
  intros Ha (i & Hi & Hl). rewrite (ToLower_ascii s Ha) in Hi. apply LastIndex_bound in Hi.
  rewrite length_smap in Hi. cbn in Hi. lia.
Qed.

Lemma extract_cases s :
  (overrun s /\ extractPayload s = Panic) \/ (~ overrun s /\ exists p, extractPayload s = Ret p).
Proof.
  unfold extractPayload, overrun. destruct (LastIndex _ _) as [i|] eqn:E.
  - unfold slice_string. destruct (Nat.leb_spec (i + 4) (String.length s)).
    + right. split; [|by eexists]. intros (j & [= <-] & ?). lia.
    + left. split; [by exists i|done].
  - right. split; [|by eexists]. by intros (j & ? & _).
Qed.

Lemma announce_spec line c :
  cachePacketMeta rangeOrder (clean line) c =
    match announced line with Some (id, to) => prune rangeOrder (<[id := to]> c) | None => c end.
Proof.
  unfold cachePacketMeta, announced. destruct (_ && _); [done|].
  destruct (submatch idExtract (clean line)) as [a|], (submatch toExtract (clean line)) as [b|]; try done.
  destruct (hex32 a) as [x|]; [|done]. by destruct (hex32 b) as [y|].
Qed.

Lemma deleteUntil_sub order c : deleteUntil order c ⊆ c.
Proof.
  revert c. induction order as [|k order IH]; intros c; cbn [deleteUntil]; [done|].
  destruct (_ <=? _)%nat; [apply delete_subseteq|]. etrans; [apply IH|apply delete_subseteq].
Qed.

Lemma deleteUntil_size order c :
  (forall k, is_Some (c !! k) -> k ∈ order) -> (size (deleteUntil order c) <= 128)%nat.
Proof.
  revert c. induction order as [|k order IH]; intros c Hk; cbn [deleteUntil].
  - replace c with (∅ : cache); [rewrite map_size_empty; lia|]. symmetry. apply map_empty. intros i.
    destruct (c !! i) eqn:E; [|done]. specialize (Hk i ltac:(eauto)). by apply elem_of_nil in Hk.
  - destruct (Nat.leb_spec (size (delete k c)) 128); [done|]. apply IH. intros i [v Hv].
    apply lookup_delete_Some in Hv as [Hne Hv]. specialize (Hk i ltac:(eauto)). by apply elem_of_cons in Hk as [->|?].
Qed.

Lemma prune_sub c : prune rangeOrder c ⊆ c.
Proof. unfold prune. destruct (_ <? _)%nat; [apply deleteUntil_sub|done]. Qed.

Lemma prune_size c : (forall m : cache, rangeOrder m ≡ₚ (map_to_list m).*1) -> (size (prune rangeOrder c) <= 256)%nat.
Proof.
  intros Hro. unfold prune. destruct (Nat.ltb_spec 256 (size c)); [|done].
  etrans; [apply deleteUntil_size|lia]. intros k [v Hv]. rewrite Hro.
  apply list_elem_of_fmap. exists (k, v). split; [done|by apply elem_of_map_to_list].
Qed.

(** A line adds what it announces, prunes, and a text message takes its entry. *)
Lemma ParseLine_cache line c es c' :
  ParseLine rangeOrder line c = Ret (es, c') ->
  let c1 := match announced line with Some (id, to) => prune rangeOrder (<[id := to]> c) | None => c end in
  c' = c /\ es = [] \/
  c' = c1 /\ Forall (fun e => Kind e <> "text-message") es \/
  exists e, es = [e] /\ Kind e = "text-message" /\
    (ToNode e, c') = lookupPacketTo (PacketID e) c1.
Proof.
  unfold ParseLine. destruct (blank _); [intros [= <- <-]; by left|].
  destruct (fragment _); [intros [= <- <-]; by left|]. rewrite announce_spec.
  set (c1 := match announced line with Some (id, to) => _ | None => c end).
  destruct (extractPayload _) as [p| |]; try done. cbn [obind].
  destruct (firstMatch _ _ _) as [es'|] eqn:E.
  { intros [= <- <-]. right. left. split; [done|]. apply firstMatch_proper in E; [|done].
    eapply Forall_impl; [exact E|]. intros e (_ & Hk & _) Ek. rewrite Ek in Hk.
    by apply (bool_decide_eq_true_2 _) in Hk. }
  destruct (isMeshtasticEcho _).
  - unfold parseTextEcho. destruct (lookupPacketTo _ c1) as [to c2] eqn:El. intros [= <- <-].
    right. right. by eexists.
  - intros [= <- <-]. right. left. split; [done|]. by constructor.
Qed.

Lemma lookupPacketTo_sub id c to c' : lookupPacketTo id c = (to, c') -> c' ⊆ c.
Proof.
  unfold lookupPacketTo. destruct (id =? 0); [by intros [= <- <-]|].
  destruct (c !! id); intros [= <- <-]; [apply delete_subseteq|done].
Qed.

(** Every entry was announced. *)
Definition cacheInv (before : list string) (c : cache) : Prop :=
  (size c <= 256)%nat /\
  forall id to, c !! id = Some to -> exists line, line ∈ before /\ announced line = Some (id, to).

Lemma cacheInv_sub before c c' : c' ⊆ c -> cacheInv before c -> cacheInv before c'.
Proof.
  intros Hs [Hn Hc]. split; [etrans; [by apply map_subseteq_size|done]|].
  intros id to Hl. apply Hc. by eapply lookup_weaken.
Qed.

Lemma cacheInv_announce before line c :
  (forall m : cache, rangeOrder m ≡ₚ (map_to_list m).*1) -> cacheInv before c ->
  cacheInv (before ++ [line])
    (match announced line with Some (id, to) => prune rangeOrder (<[id := to]> c) | None => c end).
Proof.
  intros Hro [Hn Hc]. destruct (announced line) as [[id to]|] eqn:E.
  - split; [by apply prune_size|]. intros i t Hl. eapply lookup_weaken in Hl; [|apply prune_sub].
    apply lookup_insert_Some in Hl as [[<- <-]|[_ Hl]].
    + exists line. split; [set_solver|done].
    + destruct (Hc _ _ Hl) as (l & Hin & Ha). exists l. split; [set_solver|done].
  - split; [done|]. intros i t Hl. destruct (Hc _ _ Hl) as (l & Hin & Ha). exists l. split; [set_solver|done].
Qed.

Lemma cacheInv_empty before : cacheInv before ∅.
Proof. split; [rewrite map_size_empty; lia|]. intros id to Hl. by rewrite lookup_empty in Hl. Qed.

Lemma ParseLines_inv lines before c ess c' :
  (forall m : cache, rangeOrder m ≡ₚ (map_to_list m).*1) ->
  ParseLines lines c = Ret (ess, c') -> cacheInv before c -> cacheInv (before ++ lines) c'.
Proof.
  intros Hro. revert before c ess. induction lines as [|line lines IH]; intros before c ess; cbn [ParseLines].
  - intros [= <- <-]. by rewrite app_nil_r.
  - destruct (ParseLine rangeOrder line c) as [[es c1]| |] eqn:E; try done. cbn [obind].
    destruct (ParseLines lines c1) as [[ess' c2]| |] eqn:E'; try done. intros [= <- <-] Hinv.
    change (line :: lines) with ([line] ++ lines). rewrite app_assoc. apply (IH _ _ _ E').
    pose proof (cacheInv_announce before line c Hro Hinv) as Hinv'.
    destruct (ParseLine_cache _ _ _ _ E) as [[-> _]|[[-> _]|(e & _ & _ & El)]].
    + destruct Hinv as [Hn Hc]. split; [done|]. intros id to (l & Hin & Ha)%Hc. exists l. split; [set_solver|done].
    + done.
    + symmetry in El. eapply cacheInv_sub; [by eapply lookupPacketTo_sub|done].
Qed.

(** ** Properties *)

(** C27: [ParseLine] returns, except that it panics when the lower-case form of
    the line is so much longer that the offset of [msg=] in it is past the end
    of the line; for a line that is ASCII once cleaned it always returns. *)
Theorem parse_line_total line c :
  let cleaned := clean line in
  (ParseLine rangeOrder line c = Panic <->
     cleaned <> EmptyString /\ fragment cleaned = false /\ overrun cleaned) /\
  ParseLine rangeOrder line c <> Diverge /\
  (isASCII cleaned = true -> exists es c', ParseLine rangeOrder line c = Ret (es, c')).
Proof.
  intros cleaned. unfold ParseLine. change (clean line) with cleaned. unfold blank.
  case_bool_decide as Eb; [split; [by split; [|intros (? & _)]|split; [done|by eauto]]|].
  destruct (fragment cleaned); [split; [by split; [|intros (_ & ? & _)]|split; [done|by eauto]]|].
  destruct (extract_cases cleaned) as [[Ho ->]|[Ho [p ->]]]; cbn [obind].
  - split; [by split|]. split; [done|]. by intros Ha%overrun_ascii.
  - assert (forall r : outcome (list ParsedEvent * cache), (exists es c', r = Ret (es, c')) ->
      (r = Panic <-> cleaned <> EmptyString /\ false = false /\ overrun cleaned) /\ r <> Diverge /\
      (isASCII cleaned = true -> exists es c', r = Ret (es, c'))) as Hr.
    { intros r (es & c' & ->). split; [by split; [|intros (_ & _ & ?)]|]. split; [done|by eauto]. }
    apply Hr. destruct (firstMatch _ _ _); [by eauto|]. destruct (isMeshtasticEcho _); [|by eauto].
    destruct (parseTextEcho _ _ _) as [es c']. by eauto.
Qed.

(** C25: over any sequence of lines the packet cache keeps at most 256 entries,
    all announced by earlier lines, and a destination that a text message
    carries was announced for its packet and is used once. *)
Theorem packet_cache lines line es ess c c' :
  (forall m : cache, rangeOrder m ≡ₚ (map_to_list m).*1) ->
  ParseLines lines ∅ = Ret (ess, c) -> ParseLine rangeOrder line c = Ret (es, c') ->
  (size c' <= 256)%nat /\
  (forall id to, c' !! id = Some to -> exists l, l ∈ lines ++ [line] /\ announced l = Some (id, to)) /\
  (forall e, e ∈ es -> Kind e = "text-message" -> ToNode e <> 0 ->
     (exists l, l ∈ lines ++ [line] /\ announced l = Some (PacketID e, ToNode e)) /\
     c' !! PacketID e = None).
Proof.
  intros Hro Hls Hl. apply (ParseLines_inv _ []) in Hls; [|done|apply cacheInv_empty].
  pose proof (cacheInv_announce lines line c Hro Hls) as Hinv. cbn [app] in Hls.
  destruct (ParseLine_cache _ _ _ _ Hl) as [[-> ->]|[[-> Hk]|(e & -> & Hk & El)]].
  - split; [apply Hls|]. split; [|by intros e ?%elem_of_nil].
    intros id to (l & Hin & Ha)%Hls. exists l. split; [set_solver|done].
  - split; [apply Hinv|]. split; [apply Hinv|]. intros e He Ek _. rewrite Forall_forall in Hk. by destruct (Hk e He).
  - symmetry in El. pose proof (lookupPacketTo_sub _ _ _ _ El) as Hs.
    pose proof (cacheInv_sub _ _ _ Hs Hinv) as [Hn Hc]. split; [done|]. split; [done|].
    intros e' [->|?%elem_of_nil]%elem_of_cons _ Ht; [|done]. revert Hinv El.
    generalize (match announced line with Some (id, to) => prune rangeOrder (<[id:=to]> c) | None => c end) as c1.
    intros c1 Hinv. unfold lookupPacketTo. destruct (PacketID e =? 0); [intros [= E0 _]; congruence|].
    destruct (c1 !! PacketID e) as [t|] eqn:E; intros [= Et Ec]; [|congruence].
    rewrite <- Ec, Et in *. split; [by apply Hinv|apply lookup_delete_eq].
Qed.
End Safety.

(** Ranges over the cache in the order of the keys. *)
Definition keyOrder (c : cache) : list Z := (map_to_list c).*1.

Lemma packet_cache_witness :
  let rx := "Lora RX (id=0x1f fr=0x2 to=0x3)"%string in
  let echo := "[Router] Received text msg from=0x2, id=0x1f, msg=hello"%string in
  exists es, @ParseLine asciiUnicode keyOrder echo {[31 := 3]} = Ret (es, ∅) /\
    forall e, e ∈ es -> Kind e = "text-message" -> ToNode e <> 0 ->
      (exists l, l ∈ [rx] ++ [echo] /\ @announced asciiUnicode l = Some (PacketID e, ToNode e)) /\
      (∅ : cache) !! PacketID e = None.
Proof.
  cbv zeta.
  assert (@ParseLines asciiUnicode keyOrder ["Lora RX (id=0x1f fr=0x2 to=0x3)"] ∅
          = Ret ([[plainEvent "raw" EmptyString ∅ "Lora RX (id=0x1f fr=0x2 to=0x3)"]], {[31 := 3]})) as H1
    by (vm_compute; reflexivity).
  eexists. split; [vm_compute; reflexivity|].
  eapply (@packet_cache asciiUnicode keyOrder _ "[Router] Received text msg from=0x2, id=0x1f, msg=hello" _ _ _ ∅ (fun m => reflexivity _) H1).
  vm_compute. reflexivity.
Defined.
