(* ===== verification/TextAcks.v ===== *)
(** Which acknowledgements the parser can produce, against the table of the
    acknowledgements that close commands ([commands/builder.go]). *)
From S2P Require Import Prelude GoStrings Builder Regexp RegexpFacts TextEvents TextPatterns TextParser TextFacts TextTypes.

(** ** Words of an expression without repetition *)
Fixpoint words (r : re) : option (list (list set)) :=
  match r with
  | Eps => Some [[]]
  | Char s => Some [[s]]
  | Cat a b =>
      match words a, words b with
      | Some l, Some k => Some (flat_map (fun x => map (app x) k) l)
      | _, _ => None
      end
  | Alt a b => match words a, words b with Some l, Some k => Some (l ++ k) | _, _ => None end
  | Group _ a => words a
  | _ => None
  end.

Definition spelled (w : list rune) (x : list set) : Prop := Forall2 (fun r s => inSet s (point r) = true) w x.

Lemma words_runs r st st' ws :
  runs r st st' -> words r = Some ws -> exists w x, ahead st = w ++ ahead st' /\ x ∈ ws /\ spelled w x.
Proof.
  intros Hr. revert ws. induction Hr; intros ws Hw; cbn [words] in Hw; try done.
  - injection Hw as <-. exists [], []. split; [done|]. split; [by left|constructor].
  - injection Hw as <-. exists [c], [s]. split; [done|]. split; [by left|]. by repeat constructor.
  - destruct (words a) as [l|], (words b) as [k|]; try done. injection Hw as <-.
    destruct (IHHr1 _ eq_refl) as (w1 & x1 & E1 & H1 & S1), (IHHr2 _ eq_refl) as (w2 & x2 & E2 & H2 & S2).
    exists (w1 ++ w2), (x1 ++ x2). split; [by rewrite E1, E2, app_assoc|]. split; [|by apply Forall2_app].
    apply list_elem_of_In, in_flat_map. exists x1. split; [by apply list_elem_of_In|].
    by apply in_map, list_elem_of_In.
  - destruct (words a) as [l|], (words b) as [k|]; try done. injection Hw as <-.
    destruct (IHHr _ eq_refl) as (w & x & E & Hx & S). exists w, x. split; [done|]. split; [set_solver|done].
  - destruct (words a) as [l|], (words b) as [k|]; try done. injection Hw as <-.
    destruct (IHHr _ eq_refl) as (w & x & E & Hx & S). exists w, x. split; [done|]. split; [set_solver|done].
  - by apply IHHr.
Qed.

(** An ASCII text is none of the words. *)
Definition spells (s : string) (x : list set) : bool :=
  (length (codes s) =? length x)%nat && forallb (fun p => inSet p.2 p.1) (combine (codes s) x).

Lemma spelled_spells w x s :
  spelled w x -> Forall wfRune w -> text_of w = s -> isASCII s = true -> spells s x = true.
Proof.
  intros Hs Hwf Ht Ha. assert (map point w = codes s) as Hc.
  { rewrite (ascii_runes w Hwf) by (by rewrite Ht). rewrite Ht, map_map. done. }
  unfold spells. rewrite <- Hc, length_map. clear Hc Ht Ha Hwf.
  induction Hs as [|r t w x Hr Hs IH]; [done|]. cbn. by rewrite Hr.
Qed.

Lemma takes_word a w ws s :
  takes a w -> words a = Some ws -> text_of w = s -> isASCII s = true -> existsb (spells s) ws = true.
Proof.
  intros (st & st' & Hr & E & Hwf) Hw Ht Ha.
  destruct (words_runs _ _ _ _ Hr Hw) as (w' & x & E' & Hx & Hs).
  assert (w' = w) as -> by (apply (app_inv_tail (ahead st')); congruence).
  apply existsb_exists. exists x. split; [by apply list_elem_of_In|]. by eapply spelled_spells.
Qed.

(** ** Captures by name *)
Lemma get_zip ns vs g k :
  get (zipGroups ns vs g) k = get g k \/ exists i, ns !! i = Some k /\ vs !! i = Some (get (zipGroups ns vs g) k).
Proof.
  revert vs g. induction ns as [|n ns IH]; intros vs g; [by left|]. destruct vs as [|v vs]; [by left|].
  cbn [zipGroups]. destruct (IH vs (if blank n then g else <[n:=v]> g)) as [E|(i & Hn & Hv)].
  - rewrite E. destruct (blank n); [by left|]. destruct (decide (n = k)) as [->|Hne].
    + right. exists 0%nat. split; [done|]. cbn. f_equal. symmetry. unfold get, groups in *. by rewrite lookup_insert_eq.
    + left. unfold get, groups in *. by rewrite lookup_insert_ne.
  - right. by exists (S i).
Qed.

(** A named capture is empty or was taken by a group of that name. *)
Lemma capture_spec x s m k :
  FindStringSubmatch x s = Some m -> k <> EmptyString ->
  get (extractGroups m (SubexpNames x)) k = EmptyString \/
  exists i a w, SubexpNames x !! S i = Some k /\ (S i, a) ∈ groupsIn (prog x) /\ takes a w /\
    get (extractGroups m (SubexpNames x)) k = text_of w.
Proof.
  intros Hm Hk. unfold extractGroups. destruct (get_zip (SubexpNames x) m ∅ k) as [->|(i & Hn & Hv)].
  - left. reflexivity.
  - destruct i as [|i]; [by injection Hn as <-|].
    destruct (submatch_spec _ _ _ _ _ Hm Hv) as [E|(a & w & Ha & Ht & E)]; [by left|right].
    by exists i, a, w.
Qed.

(** ** Definitions *)

(** The type of an acknowledgement event. *)
Definition ackTypeOf (e : ParsedEvent) : option string :=
  if bool_decide (Kind e = "command-ack")
  then match Data e !! "ackType" with Some (VString s) => Some s | _ => None end
  else None.

(** Entries of [ACKMap] that no line can produce. *)
Definition unreachableAcks : list string := ["ERASE_ACK"; "AUTOERASE_ACK"; "DEVICE_SCAN_DONE_ACK"].

Section Acks.
Context `{Unicode}.

(** ** Lemmas *)
Definition avoids (e : ParsedEvent) : Prop := forall t, ackTypeOf e = Some t -> t ∉ unreachableAcks.

Lemma avoids_plain kind node d raw : kind <> "command-ack" -> avoids (plainEvent kind node d raw).
Proof. intros Hk t. unfold ackTypeOf. by rewrite bool_decide_false. Qed.
Lemma avoids_alert level category node d raw : avoids (alertEvent level category node d raw).
Proof. intros t. unfold ackTypeOf. by rewrite bool_decide_false. Qed.
Lemma avoids_ack ty node d raw : d !! "ackType" = None -> ty ∉ unreachableAcks -> avoids (ackEvent ty node d raw).
Proof.
  intros Hd Hty t. unfold ackTypeOf, ackEvent. cbn [Kind plainEvent Data]. rewrite bool_decide_true by done.
  rewrite lookup_union_r by done. intros [= <-]. done.
Qed.

Ltac unreached := apply (bool_decide_eq_true_1 _); vm_compute; reflexivity.

Lemma handlers_avoid p m ns raw : p ∈ initPatterns -> name p <> "ack" -> Forall avoids (handle p m ns raw).
Proof.
  enough (Forall (fun p => name p <> "ack" -> forall m ns raw, Forall avoids (handle p m ns raw)) initPatterns) as Hall
    by (rewrite Forall_forall in Hall; auto).
  clear p m ns raw. unfold initPatterns.
  repeat (apply Forall_cons; split); try apply Forall_nil_2; intros Hn m ns raw; cbn [handle];
    try (by destruct Hn);
    unfold handleStatus, handleDrone, handleTarget, handleDevice, handleBLERaw, handleAttackLong,
      handleAttackShort, handleGPSLock, handleGPSLost, handleNodeHB, handleCodes, handleI2cScan,
      handleAIModels, handleGateTriggered, handleProbeHit, handleAnomaly, handleStartup, handleVibration,
      handleTamper, handleCamDetection, handleCamFace, handleCamPlate, handleTriData, handleTriFinal,
      handleTriComplete, handleDoneSummaryWithAck, handleIdentity, handleAttack, handleSetupMode,
      handleBatterySaverState, handleEraseEvent, handleEraseToken, handleRTCSync, handleBroadcastCommand;
    generalize (extractGroups m ns) as g; intros g.
  all: try apply Forall_app; try split.
  all: try case_bool_decide; try destruct (DecodeString _); try destruct (bleTarget _).
  all: repeat (apply Forall_cons; split); try apply Forall_nil_2.
  all: try apply avoids_alert; try (apply avoids_plain; discriminate).
  all: try (apply avoids_ack; [first [apply lookup_empty | apply parseKVBody_ackType | reflexivity]|unreached]).
  all: by intros t; unfold ackTypeOf; cbn [Kind]; rewrite bool_decide_false.
Qed.

(** No word of the group [kind] of the acknowledgement pattern spells one of
    the unreachable types. *)
Definition kindSpells (t : string) (g : nat * re) : bool :=
  if bool_decide (SubexpNames ackRe !! g.1 = Some "kind")
  then match words g.2 with Some ws => existsb (spells t) ws | None => true end
  else false.

Lemma ackKind_words :
  forallb (fun t => isASCII t && negb (blank t) && negb (existsb (kindSpells t) (groupsIn (prog ackRe)))) unreachableAcks
    = true.
Proof. vm_compute. reflexivity. Qed.

Lemma ackKind_spelled m s :
  FindStringSubmatch ackRe s = Some m -> get (extractGroups m (SubexpNames ackRe)) "kind" ∉ unreachableAcks.
Proof.
  intros Hm Hin. pose proof ackKind_words as Hw. rewrite forallb_forall in Hw.
  apply list_elem_of_In, Hw in Hin as [[Ha Hb]%andb_prop Hs%negb_true_iff]%andb_prop. clear Hw.
  destruct (capture_spec ackRe s m "kind" Hm ltac:(done)) as [E|(i & a & w & Hi & Hg & Ht & E)].
  - by rewrite E in Hb.
  - apply not_true_iff_false in Hs. apply Hs, existsb_exists. exists (S i, a).
    split; [by apply list_elem_of_In|]. unfold kindSpells. cbn [fst snd]. rewrite bool_decide_true by done.
    destruct (words a) as [ws|] eqn:Ew; [|done]. by eapply takes_word.
Qed.

Lemma ack_avoids m s raw :
  FindStringSubmatch ackRe s = Some m -> Forall avoids (handleACK m (SubexpNames ackRe) raw).
Proof.
  intros Hm%ackKind_spelled. constructor; [|constructor]. intros t Ht.
  enough (t = get (extractGroups m (SubexpNames ackRe)) "kind") as -> by done.
  revert Ht. generalize (extractGroups m (SubexpNames ackRe)) as g. intros g.
  unfold ackTypeOf, plainEvent. cbn [Kind Data]. rewrite bool_decide_true by done.
  destruct (blank (get g "value")); [|rewrite lookup_insert_ne by done]; by intros [= <-].
Qed.

Lemma ack_named p : p ∈ initPatterns -> name p = "ack" -> p = mkPattern "ack" ackRe handleACK.
Proof.
  enough (Forall (fun p => name p = "ack" -> p = mkPattern "ack" ackRe handleACK) initPatterns) as Hall
    by (rewrite Forall_forall in Hall; auto).
  unfold initPatterns. repeat (apply Forall_cons; split); try apply Forall_nil_2; cbn [name]; intros; done.
Qed.

Lemma firstMatch_avoids ps payload cleaned es :
  ps ⊆ initPatterns -> firstMatch ps payload cleaned = Some es -> Forall avoids es.
Proof.
  induction ps as [|p ps IH]; intros Hs; cbn [firstMatch]; [done|].
  destruct (FindStringSubmatch _ _) eqn:E; [|apply IH; set_solver]. intros [= <-].
  assert (p ∈ initPatterns) as Hp by set_solver. destruct (decide (name p = "ack")) as [Hn|Hn].
  - apply ack_named in Hn; [|done]. subst p. by eapply ack_avoids.
  - by apply handlers_avoid.
Qed.

Lemma unreachable_acks rangeOrder line c es c' :
  ParseLine rangeOrder line c = Ret (es, c') -> Forall avoids es.
Proof.
  unfold ParseLine. destruct (blank _); [intros [= <- <-]; constructor|].
  destruct (fragment _); [intros [= <- <-]; constructor|].
  destruct (extractPayload _) as [p| |]; try done. cbn [obind].
  destruct (firstMatch _ _ _) as [es'|] eqn:E; [intros [= <- <-]; by eapply firstMatch_avoids|].
  destruct (isMeshtasticEcho _).
  - unfold parseTextEcho. destruct (lookupPacketTo _ _) as [to c2]. intros [= <- <-].
    constructor; [|constructor]. intros t. unfold ackTypeOf. by rewrite bool_decide_false.
  - intros [= <- <-]. constructor; [|constructor]. by apply avoids_plain.
Qed.

(** A line that yields the acknowledgement, for every other type. *)
Definition sampleLine (ackType : string) : string :=
  let body := fun l => default ("A1: " +:+ ackType) (List.find (fun p => bool_decide (p.1 = ackType)) l ≫= fun p => Some p.2) in
  body [("STATUS_ACK", "A1: STATUS: Mode:SCAN Scan:IDLE Hits:0 Temp:30.0C Up:00:00:01");
        ("AUTOERASE_STATUS_ACK", "A1: AUTOERASE_STATUS: Enabled:YES");
        ("VIBRATION_STATUS_ACK", "A1: VIBRATION_STATUS: Enabled:YES");
        ("BASELINE_STATUS_ACK", "A1: BASELINE_STATUS: Scanning:NO");
        ("BATTERY_SAVER_STATUS_ACK", "A1: BATTERY_SAVER_STATUS: ENABLED");
        ("RAW_BLE_STATUS_ACK", "A1: RAW_BLE_STATUS: Mode:ON");
        ("I2C_SCAN_ACK", "A1: I2C_SCAN: 0x40 (1)"); ("C5_I2C_SCAN_ACK", "A1: C5_I2C_SCAN: 0x62 (1)");
        ("CODE_LIST_ACK", "A1: CODES:NONE"); ("MODEL_LIST_ACK", "A1: MODELS:NONE");
        ("SCAN_DONE_ACK", "A1: SCAN_DONE: W=1"); ("LIST_SCAN_DONE_ACK", "A1: LIST_SCAN_DONE: Hits=1");
        ("DEAUTH_DONE_ACK", "A1: DEAUTH_DONE: Total=1"); ("DRONE_DONE_ACK", "A1: DRONE_DONE: Detected=1");
        ("RANDOMIZATION_DONE_ACK", "A1: RANDOMIZATION_DONE: Total=1");
        ("BASELINE_DONE_ACK", "A1: BASELINE_DONE: Devices=1")].

Definition yields (rangeOrder : cache -> list Z) (line ackType : string) : bool :=
  match ParseLine rangeOrder line ∅ with
  | Ret (es, _) => existsb (fun e => bool_decide (ackTypeOf e = Some ackType)) es
  | _ => false
  end.

Lemma samples_yield rangeOrder :
  forallb (fun p => bool_decide (p.1 ∈ unreachableAcks) || yields rangeOrder (sampleLine p.1) p.1)
    (map_to_list ACKMap) = true.
Proof. vm_compute. reflexivity. Qed.

(** ** Properties *)

(** Of the types of acknowledgement that close commands, exactly
    [ERASE_ACK], [AUTOERASE_ACK] and [DEVICE_SCAN_DONE_ACK] are yielded by no
    line. *)
Theorem ack_vocabulary rangeOrder ackType :
  is_Some (ACKMap !! ackType) ->
  (ackType ∈ unreachableAcks <->
   forall line c es c', ParseLine rangeOrder line c = Ret (es, c') ->
     Forall (fun e => ackTypeOf e <> Some ackType) es).
Proof.
  intros [name Hn]. split.
  - intros Hu line c es c' Hp%unreachable_acks. eapply Forall_impl; [exact Hp|]. intros e He Ht. by apply (He _ Ht).
  - intros Hall. apply elem_of_map_to_list, list_elem_of_In in Hn.
    pose proof (samples_yield rangeOrder) as Hs. rewrite forallb_forall in Hs. apply Hs in Hn. clear Hs.
    cbn [fst] in Hn. apply orb_prop in Hn as [Hd%bool_decide_eq_true|Hy]; [done|]. exfalso. unfold yields in Hy.
    destruct (ParseLine _ _ _) as [[es c']| |] eqn:E; try done. apply Hall in E. rewrite Forall_forall in E.
    apply existsb_exists in Hy as (e & Hin%list_elem_of_In & Ht%bool_decide_eq_true). by apply (E e Hin).
Qed.
End Acks.

Lemma ack_vocabulary_witness :
  is_Some (ACKMap !! "ERASE_ACK") /\
  forall line c es c', @ParseLine asciiUnicode (fun _ => []) line c = Ret (es, c') ->
    Forall (fun e => ackTypeOf e <> Some "ERASE_ACK") es.
Proof.
  assert (is_Some (ACKMap !! "ERASE_ACK")) as Hs by (eexists; vm_compute; reflexivity).
  split; [exact Hs|]. apply (@ack_vocabulary asciiUnicode (fun _ => []) "ERASE_ACK" Hs). left.
Defined.
