(* ===== verification/TextLines.v ===== *)
(** Which pattern takes a sensor's line: the search through [initPatterns] in
    order is a lookup by the word after the node's name. *)
From S2P Require Import Prelude GoStrings Regexp RegexpFacts TextEvents TextPatterns TextParser TextFacts.

(** ** Definitions *)

(** The names of sensors: letters and digits, the last a digit, as in AH34. *)
Definition alnumRange : list (Z * Z) := [(48, 57); (65, 90); (97, 122)].
Definition allIn (rs : list (Z * Z)) (s : string) : bool := forallb (inRanges rs) (codes s).
Definition sensorName (id : string) : Prop :=
  exists a d, id = (a +:+ d)%string /\ a <> EmptyString /\ d <> EmptyString /\
    allIn alnumRange a = true /\ allIn digitRange d = true.

Definition lits (s : string) : list known := map One (codes s).
Definition namePrefix : list known := [Many alnumRange; Many digitRange] ++ lits ": ".

(** The words of the firmware and the patterns written for them. *)
Definition verbs : list (string * list string) :=
  [("STATUS:", ["status"]); ("DRONE:", ["drone"]); ("TARGET_DATA:", ["tri-target-data"]);
   ("T_D:", ["tri-target-data"]); ("T_F:", ["tri-final"]); ("T_C:", ["tri-complete"]);
   ("Target:", ["target-type-first"; "target-mac-first"]); ("DEVICE:", ["device"]);
   ("D:", ["device-short"]); ("BLERAW:", ["ble-raw"]); ("B:", ["ble-raw-short"]);
   ("ATTACK:", ["attack-long"; "attack-short"; "attack"]); ("GPS: LOCKED", ["gps-lock"]);
   ("GPS: LOST", ["gps-lost"]); ("HEARTBEAT:", ["node-hb-saver"]); ("Time:", ["node-hb-inline"]);
   ("CODES:", ["codes"]); ("MODELS:", ["ai-models"]); ("TRIGGERED:", ["gate-triggered"]);
   ("PROBE_HIT ", ["probe-hit"]); ("SCAN_ACK", ["ack"]); ("DEVICE_SCAN_ACK", ["ack"]);
   ("CONFIG_ACK", ["ack"]); ("STOP_ACK", ["ack"]); ("BATTERY_SAVER_ACK", ["ack"]);
   ("ANOMALY-", ["anomaly"]); ("STARTUP:", ["startup"]); ("VIBRATION:", ["vibration"]);
   ("TAMPER_", ["tamper"]); ("SCAN_DONE:", ["scan-done"]); ("DEAUTH_DONE:", ["deauth-done"]);
   ("LIST_SCAN_DONE:", ["list-scan-done"]); ("DRONE_DONE:", ["drone-done"]);
   ("RANDOMIZATION_DONE:", ["randomization-done"]); ("BASELINE_DONE:", ["baseline-done"]);
   ("BASELINE_STATUS:", ["baseline-status"]); ("VIBRATION_STATUS:", ["vibration-status"]);
   ("RAW_BLE_STATUS:", ["raw-ble-status"]); ("AUTOERASE_STATUS:", ["autoerase-status"]);
   ("I2C_SCAN:", ["i2c-scan"]); ("C5_I2C_SCAN:", ["i2c-scan"]); ("IDENTITY:", ["identity"]);
   ("SETUP_MODE:", ["setup-mode"]); ("BATTERY_SAVER:", ["battery-saver-state"]);
   ("BATTERY_SAVER_STATUS:", ["battery-saver-status"]); ("ERASE_EXECUTING:", ["erase-executing"]);
   ("ERASE_COMPLETE", ["erase-complete"]); ("ERASE_TOKEN:", ["erase-token"]);
   ("RTC_SYNC:", ["rtc-sync"]); ("ERASE_ACK", []); ("AUTOERASE_ACK", [])].

Section Lines.
Context `{Unicode}.

(** The patterns of the given names, in the order of the parser. *)
Definition named (ps : list string) : list patternEntry :=
  List.filter (fun p => bool_decide (name p ∈ ps)) initPatterns.

(** ** Lemmas *)
Definition analysed : list (string * option (list re)) :=
  map (fun p => (name p, if anchored (prog (regex p)) then residual namePrefix [prog (regex p)] else None))
    initPatterns.

Lemma verbs_analysed :
  (let t := analysed in
   forallb (fun v => forallb (fun q => bool_decide (q.1 ∈ v.2) ||
                                       match q.2 with Some R => dead (lits v.1) R | None => false end) t)
     verbs) = true.
Proof. vm_compute. reflexivity. Qed.

Lemma verb_dead v p :
  v ∈ verbs -> p ∈ initPatterns -> (name p) ∉ v.2 ->
  anchored (prog (regex p)) = true /\ dead (namePrefix ++ lits v.1) [prog (regex p)] = true.
Proof.
  intros Hv%list_elem_of_In Hp%list_elem_of_In Hn. pose proof verbs_analysed as Ht. cbv zeta in Ht.
  rewrite forallb_forall in Ht. apply Ht in Hv. rewrite forallb_forall in Hv.
  specialize (Hv _ (in_map _ _ _ Hp)). cbn [fst snd] in Hv. rewrite bool_decide_false in Hv by done.
  cbn [orb] in Hv. destruct (anchored _); [|done]. split; [done|].
  unfold dead in *. rewrite residual_app. by destruct (residual namePrefix _).
Qed.

Lemma codes_map s : isASCII s = true -> map point (runes s) = codes s.
Proof. intros Hs. rewrite runes_ascii by done. unfold codes. by rewrite map_map. Qed.

Lemma allIn_ascii rs s : forallb (fun r => r.2 <? 128) rs = true -> allIn rs s = true -> isASCII s = true.
Proof.
  unfold allIn, isASCII, codes, inRanges. rewrite !forallb_forall. intros Hr Hs c Hc.
  specialize (Hs (code c) (in_map _ _ _ Hc)). apply existsb_exists in Hs as (r & Hin & Hc'%within_spec).
  apply Hr, Z.ltb_lt in Hin. apply Z.ltb_lt. lia.
Qed.

Lemma allIn_runes rs s :
  isASCII s = true -> allIn rs s = true -> Forall (fun r => inRanges rs (point r) = true) (runes s).
Proof.
  intros Ha Hs. apply List.Forall_forall. intros r Hr. unfold allIn in Hs. rewrite forallb_forall in Hs.
  apply Hs. rewrite <- codes_map by done. by apply in_map.
Qed.

Lemma starts_lits s p l : isASCII s = true -> starts p l -> starts (lits s ++ p) (runes s ++ l).
Proof.
  intros Ha Hp. induction s as [|c s IH]; [done|]. rewrite isASCII_cons in Ha.
  apply andb_prop in Ha as [Hc%Z.ltb_lt Ha]. rewrite runes_ascii_cons by done.
  change (lits (String c s) ++ p) with (One (code c) :: (lits s ++ p)).
  change ((ascii_rune c :: runes s) ++ l) with (ascii_rune c :: (runes s ++ l)).
  constructor; [done|by apply IH].
Qed.

Lemma runes_ne s : s <> EmptyString -> runes s <> [].
Proof. destruct s as [|c s]; [done|]. rewrite runes_cons. by destruct (decodeRune _). Qed.

Lemma sensorName_starts id v rest :
  sensorName id -> isASCII v = true ->
  starts (namePrefix ++ lits v) (runes (id +:+ ": " +:+ v +:+ rest)).
Proof.
  intros (a & d & -> & Ha & Hd & Hia & Hid) Hv.
  assert (isASCII a = true) as Haa by (by apply (allIn_ascii alnumRange)).
  assert (isASCII d = true) as Had by (by apply (allIn_ascii digitRange)).
  rewrite <- string_app_assoc, !runes_app by done.
  unfold namePrefix. cbn [app]. constructor; [by apply runes_ne|by apply allIn_runes|].
  constructor; [by apply runes_ne|by apply allIn_runes|].
  rewrite <- (app_nil_r (lits v)). apply (starts_lits ": "); [done|]. apply starts_lits; [done|constructor].
Qed.

Lemma firstMatch_filter (f : patternEntry -> bool) ps payload cleaned :
  (forall p, p ∈ ps -> f p = false -> FindStringSubmatch (regex p) payload = None) ->
  firstMatch ps payload cleaned = firstMatch (List.filter f ps) payload cleaned.
Proof.
  induction ps as [|p ps IH]; intros Hf; [done|]. cbn [firstMatch List.filter].
  rewrite IH by (intros q Hq; apply Hf; by right). destruct (f p) eqn:E; [done|].
  by rewrite Hf by (done || left).
Qed.

(** ** Properties *)

End Lines.

