(* ===== verification/SerialManager.v ===== *)
(** The serial manager, [internal/serial/manager.go]: what it makes of the
    events of the text parser, the ring of text messages polled over HTTP, the
    stored radio configuration and the reader of the serial port.

    The handlers and callbacks registered with the manager may call it again:
    the operations that run them work on any state that holds a manager (the
    class [Host]), and a packet handler is a function on that state.
    [json.Marshal] of an event's data is the argument [Marshal]. *)
From Stdlib Require Import Floats.SpecFloat.
From S2P Require Import Prelude GoStrings GoFloat Varint Frame Messages Classify FromRadio Regexp RegexpFacts TextEvents TextPatterns TextParser.

(** ** Definitions *)
Record TextMessage : Type := mkTextMessage {
  Seq : Z; tNodeID : string; Message : string; SiteID : string;
  Timestamp : Z   (** the instant that is formatted *)
}.

(** Which callbacks are set (not nil). *)
Record callbacks : Type := mkCallbacks {
  onTargetDetected : bool; onTriData : bool; onTriFinal : bool; onTriComplete : bool;
  onMeshTelemetry : bool; onCommandAck : bool; onAlert : bool; onBLERaw : bool
}.
Definition allCallbacks : callbacks := mkCallbacks true true true true true true true true.

(** [handlers] names the registered packet handlers; a nil [textParser] is
    [None], the parser otherwise its cache; the zero time is [None]. *)
Record Manager : Type := mkManager {
  protocol : string;
  handlers : list Z;
  textMessages : list TextMessage;
  textSeq : Z;
  deviceTime : option Z;
  textParser : option cache;
  syntheticID : Z;
  set : callbacks;
  radioConfig : gmap string ConfigPayload.t
}.

Definition NewManager : Manager :=
  mkManager "text" [] [] 0 None (Some ∅) 0 (mkCallbacks false false false false false false false false) ∅.

Definition set_protocol (v : string) (m : Manager) : Manager :=
  mkManager v (handlers m) (textMessages m) (textSeq m) (deviceTime m) (textParser m) (syntheticID m) (set m) (radioConfig m).
Definition set_handlers (v : list Z) (m : Manager) : Manager :=
  mkManager (protocol m) v (textMessages m) (textSeq m) (deviceTime m) (textParser m) (syntheticID m) (set m) (radioConfig m).
Definition set_ring (l : list TextMessage) (n : Z) (m : Manager) : Manager :=
  mkManager (protocol m) (handlers m) l n (deviceTime m) (textParser m) (syntheticID m) (set m) (radioConfig m).
Definition set_deviceTime (v : option Z) (m : Manager) : Manager :=
  mkManager (protocol m) (handlers m) (textMessages m) (textSeq m) v (textParser m) (syntheticID m) (set m) (radioConfig m).
Definition set_textParser (v : option cache) (m : Manager) : Manager :=
  mkManager (protocol m) (handlers m) (textMessages m) (textSeq m) (deviceTime m) v (syntheticID m) (set m) (radioConfig m).
Definition set_syntheticID (v : Z) (m : Manager) : Manager :=
  mkManager (protocol m) (handlers m) (textMessages m) (textSeq m) (deviceTime m) (textParser m) v (set m) (radioConfig m).
Definition set_callbacks (v : callbacks) (m : Manager) : Manager :=
  mkManager (protocol m) (handlers m) (textMessages m) (textSeq m) (deviceTime m) (textParser m) (syntheticID m) v (radioConfig m).
Definition set_radioConfig (v : gmap string ConfigPayload.t) (m : Manager) : Manager :=
  mkManager (protocol m) (handlers m) (textMessages m) (textSeq m) (deviceTime m) (textParser m) (syntheticID m) (set m) v.

(** *** Registration and small state *)
Definition RegisterHandler (h : Z) (m : Manager) : Manager := set_handlers (handlers m ++ [h]) m.
Definition SetProtocol (proto : string) : Manager -> Manager := set_protocol proto.
Definition GetProtocol (m : Manager) : string := protocol m.
Definition SetDeviceTime (t : option Z) : Manager -> Manager := set_deviceTime t.
Definition GetDeviceTime (m : Manager) : option Z := deviceTime m.

(** [cfg] is nil or a section. *)
Definition StoreConfig (cfg : option ConfigPayload.t) (m : Manager) : Manager :=
  match cfg with
  | None => m
  | Some c =>
      if blank (ConfigPayload.Section c) then m
      else set_radioConfig (<[ConfigPayload.Section c := c]> (radioConfig m)) m
  end.
Definition GetRadioConfig (m : Manager) : gmap string ConfigPayload.t := radioConfig m.

(** *** The ring of text messages *)
Definition ringCap : nat := 200.

Definition AddTextMessage (now : Z) (nodeID message siteID : string) (m : Manager) : Manager :=
  let seq := int64 (textSeq m + 1) in
  let l := textMessages m ++ [mkTextMessage seq nodeID message siteID now] in
  set_ring (if (ringCap <? length l)%nat then drop (length l - ringCap) l else l) seq m.

Definition ClearTextMessages (m : Manager) : Manager := set_ring [] 0 m.

Definition GetTextMessages (sinceSeq : Z) (m : Manager) : list TextMessage :=
  List.filter (fun msg => sinceSeq <? Seq msg) (textMessages m).

(** *** Events become packets and callbacks *)
Inductive call : Type :=
| TargetDetected (mac ssid deviceType : string) (rssi channel : Z) (lat lon : spec_float) (nodeID targetID : string)
| TriData (mac nodeID : string) (rssi : Z) (lat lon : spec_float)
| TriFinal (mac : string) (lat lon confidence uncertainty : spec_float)
| TriComplete (mac : string) (nodes : Z)
| MeshTelemetry (from : Z) (lat lon : spec_float) (d : data)
| CommandAck (ackKind ackStatus ackNode : string) (d : data)
| Alert (category level nodeID raw : string) (d : data)
| BLERaw (nodeID mac : string) (rssi channel : Z) (advBytes : bytes).

(** A state that holds the manager and records the calls of its callbacks. *)
Class Host (W : Type) : Type := {
  manager : W -> Manager;
  setManager : Manager -> W -> W;
  notify : call -> W -> W
}.

(** What the operations rely on. *)
Class HostLaws {W : Type} (Ho : Host W) : Prop := {
  manager_setManager m w : manager (setManager m w) = m;
  manager_notify c w : manager (notify c w) = manager w
}.

(** Type assertions with the zero value on failure. *)
Definition asString (v : option value) : string := match v with Some (VString s) => s | _ => EmptyString end.
Definition asZ (v : option value) : Z := match v with Some (VInt n) => n | _ => 0 end.
Definition asF (v : option value) : spec_float := match v with Some (VFloat f) => f | _ => S754_zero false end.
Definition asBytes (v : option value) : bytes := match v with Some (VBytes b) => b | _ => [] end.

Definition nonZero (f : spec_float) : bool := negb (SFeqb f (S754_zero false)).

Definition BroadcastAddr : Z := 0xFFFFFFFF.

(** A packet as [dispatchTextEvent] makes it up. *)
Definition syntheticPacket (portNum from to id : Z) (payload : bytes) : FromRadioPacket.t :=
  FromRadioPacket.mk FromRadioMeshPacket [] None None
    (Some (MeshPacketData.set_ID id (MeshPacketData.set_To to (MeshPacketData.set_From from
       (MeshPacketData.set_Payload payload (MeshPacketData.set_PortNum portNum MeshPacketData.zero))))))
    None None.

Definition withNode (node : string) (to : Z) (e : ParsedEvent) : ParsedEvent :=
  mkEvent (Kind e) node (PacketID e) (if ToNode e =? 0 then to else ToNode e) (Data e) (Raw e) (Category e) (Level e).

Definition newlineChar : Ascii.ascii := byte_char 10.

Section Dispatch.
Context `{Unicode} {W : Type} `{Host W}.
Variable rangeOrder : cache -> list Z.
Variable Marshal : data -> option bytes.
Variable invoke : Z -> FromRadioPacket.t -> W -> outcome W.

Fixpoint invokeAll (hs : list Z) (pkt : FromRadioPacket.t) (w : W) : outcome W :=
  match hs with
  | [] => Ret w
  | h :: hs => let! w := invoke h pkt w in invokeAll hs pkt w
  end.

(** The packet id, or the next synthetic one. *)
Definition packetIDOf (e : ParsedEvent) (w : W) : Z * W :=
  if PacketID e =? 0
  then let id := uint32 (syntheticID (manager w) + 1) in (id, setManager (set_syntheticID id (manager w)) w)
  else (PacketID e, w).

Definition callIf (b : bool) (c : call) (w : W) : W := if b then notify c w else w.

Definition dispatchTextEvent (e : ParsedEvent) (w : W) : outcome W :=
  let hs := handlers (manager w) in
  let cb := set (manager w) in
  let kind := Kind e in
  let str k := asString (Data e !! k) in
  let int k := asZ (Data e !! k) in
  let flt k := asF (Data e !! k) in
  if bool_decide (kind = "text-message") then
    if bool_decide (NodeID e = "!00000000") || bool_decide (NodeID e = "unknown") then Ret w
    else
      let '(id, w) := packetIDOf e w in
      let to := if ToNode e =? 0 then BroadcastAddr else ToNode e in
      invokeAll hs (syntheticPacket PortNumTextMessage (parseNodeNum (NodeID e)) to id
                      (bytes_of_string (str "text"))) w
  else if bool_decide (kind = "drone-telemetry") then
    match Marshal (Data e) with
    | None => Ret w
    | Some json =>
        let '(id, w) := packetIDOf e w in
        invokeAll hs (syntheticPacket PortNumDetectionSensor (parseNodeNum (NodeID e)) 0 id json) w
    end
  else if bool_decide (kind = "target-detected") then
    if blank (str "mac") then Ret w
    else Ret (callIf (onTargetDetected cb)
      (TargetDetected (str "mac") (str "name") (str "type") (int "rssi") (int "channel") (flt "lat") (flt "lon")
         (NodeID e) (str "targetId")) w)
  else if bool_decide (kind = "ble-raw") then
    if blank (str "mac") then Ret w
    else
      let adv := asBytes (Data e !! "advBytes") in
      Ret (callIf (onBLERaw cb && (0 <? zlen adv)) (BLERaw (NodeID e) (str "mac") (int "rssi") (int "channel") adv) w)
  else if bool_decide (kind = "tri-data") then
    Ret (callIf (onTriData cb && negb (blank (str "mac")))
      (TriData (str "mac") (NodeID e) (int "rssi") (flt "nodeLat") (flt "nodeLon")) w)
  else if bool_decide (kind = "tri-final") then
    Ret (callIf (onTriFinal cb && negb (blank (str "mac")))
      (TriFinal (str "mac") (flt "lat") (flt "lon") (flt "confidence") (flt "uncertainty")) w)
  else if bool_decide (kind = "tri-complete") then
    Ret (callIf (onTriComplete cb) (TriComplete (str "mac") (int "nodes")) w)
  else if bool_decide (kind = "node-telemetry") then
    let from := parseNodeNum (NodeID e) in
    let from := if (from =? 0) && bool_decide (is_Some (textParser (manager w))) then ExtractMeshFrom (Raw e) else from in
    Ret (callIf (onMeshTelemetry cb && negb (from =? 0) &&
                 (nonZero (flt "lat") || nonZero (flt "lon") || nonZero (flt "temperatureC") || nonZero (flt "battery")))
      (MeshTelemetry from (flt "lat") (flt "lon") (Data e)) w)
  else if bool_decide (kind = "command-ack") then
    Ret (callIf (onCommandAck cb) (CommandAck (str "ackType") (str "status") (NodeID e) (Data e)) w)
  else if bool_decide (kind = "alert") then
    Ret (callIf (onAlert cb) (Alert (Category e) (Level e) (NodeID e) (Raw e) (Data e)) w)
  else Ret w.

Fixpoint dispatchAll (es : list ParsedEvent) (w : W) : outcome W :=
  match es with
  | [] => Ret w
  | e :: es => let! w := dispatchTextEvent e w in dispatchAll es w
  end.

(** [m.textParser.ParseLine(line)], then the events that [keep] lets through,
    each as [f] leaves it. *)
Definition parseAndDispatch (keep : ParsedEvent -> bool) (f : ParsedEvent -> ParsedEvent) (line : string) (w : W)
    : outcome W :=
  match textParser (manager w) with
  | None => Ret w
  | Some c =>
      let! (es, c) := ParseLine rangeOrder line c in
      dispatchAll (map f (List.filter keep es)) (setManager (set_textParser (Some c) (manager w)) w)
  end.

(** *** Text of a mesh packet *)
Definition meshKeep (e : ParsedEvent) : bool := negb (bool_decide (Kind e ∈ ["raw"; "text-message"])).

Definition meshLine (from to : Z) (line : string) (w : W) : outcome W :=
  let line := TrimSpace line in
  if blank line then Ret w
  else parseAndDispatch meshKeep (withNode ("!" +:+ hex08x from) to) line w.

Fixpoint meshLines (from to : Z) (lines : list string) (w : W) : outcome W :=
  match lines with
  | [] => Ret w
  | l :: lines => let! w := meshLine from to l w in meshLines from to lines w
  end.

Definition ProcessMeshText (from to channel : Z) (text : string) (w : W) : outcome W :=
  if bool_decide (textParser (manager w) = None) || blank text then Ret w
  else meshLines from to (Split newlineChar text) w.

(** *** Simulated input *)
Definition SimulatePacket (pkt : FromRadioPacket.t) (w : W) : outcome W := invokeAll (handlers (manager w)) pkt w.

Definition simulated (e : ParsedEvent) : bool := negb (bool_decide (Kind e = "raw")).

Fixpoint simulateLines (lines : list string) (processed : Z) (w : W) : outcome (Z * W) :=
  match lines with
  | [] => Ret (processed, w)
  | line :: lines =>
      match textParser (manager w) with
      | None => Ret (processed, w)
      | Some c =>
          let! (es, c) := ParseLine rangeOrder line c in
          let es := List.filter simulated es in
          let! w := dispatchAll es (setManager (set_textParser (Some c) (manager w)) w) in
          simulateLines lines (processed + zlen es) w
      end
  end.
Definition SimulateLines (lines : list string) (w : W) : outcome (Z * W) :=
  if bool_decide (textParser (manager w) = None) then Ret (0, w) else simulateLines lines 0 w.

(** *** The reader of the port *)

(** At least 70% printable: [float64(printable)/float64(len(s)) > 0.7]. *)
Definition printableCount (s : string) : Z :=
  zlen (List.filter (fun r => within 0x20 0x7E (point r)) (runes s)).
Definition sevenTenths : spec_float := Eval vm_compute in roundDecimal false 7 (-1).
Definition isPrintableText (s : string) : bool :=
  if blank s then false
  else SFltb sevenTenths (SFdiv prec64 emax64 (floatZ (printableCount s)) (floatZ (slen s))).

(** The kinds that the binary path also brings. *)
Definition blockedKinds : list string :=
  ["raw"; "ble-raw"; "target-detected"; "alert"; "tri-data"; "tri-final"; "tri-complete"].
Definition consoleKeep (e : ParsedEvent) : bool := negb (bool_decide (Kind e ∈ blockedKinds)).

Definition consoleLine (line : bytes) (w : W) : outcome W :=
  let line := TrimSpace (string_of_bytes line) in
  if blank line then Ret w
  else if negb (isPrintableText line) then Ret w
  else parseAndDispatch consoleKeep id line w.

(** [bytes.IndexByte] *)
Fixpoint IndexByte (l : bytes) (c : byte) : option nat :=
  match l with
  | [] => None
  | b :: l => if decide (b = c) then Some O else S <$> IndexByte l c
  end.

(** The complete lines of the buffer, one turn of the loop each. *)
Fixpoint textLoop (fuel : nat) (textBuf : bytes) (w : W) : outcome (bytes * W) :=
  match fuel with
  | O => Diverge
  | S fuel =>
      match IndexByte textBuf x0a with
      | None => Ret (textBuf, w)
      | Some idx =>
          let! w := consoleLine (take idx textBuf) w in
          textLoop fuel (drop (S idx) textBuf) w
      end
  end.

Variable fuel : nat.

Fixpoint dispatchFrames (frames : list bytes) (w : W) : outcome W :=
  match frames with
  | [] => Ret w
  | frame :: frames =>
      let! r := DecodeFromRadio fuel frame in
      match r with
      | (Some packet, None) =>
          let! w := invokeAll (handlers (manager w)) packet w in dispatchFrames frames w
      | _ => dispatchFrames frames w
      end
  end.

(** The locals of [readLoopBinary]. *)
Record Reader : Type := mkReader { decoder : FrameDecoder; textBuf : bytes }.
Definition NewReader : Reader := mkReader NewFrameDecoder [].

Definition keepTail (l : bytes) : bytes := if 4096 <? zlen l then drop (length l - 2048) l else l.

(** One turn of [readLoopBinary] with the bytes [chunk] read. *)
Definition readChunk (chunk : bytes) (r : Reader) (w : W) : outcome (Reader * W) :=
  if zlen chunk =? 0 then Ret (r, w)
  else
    let '(d, frames) := Feed (decoder r) chunk in
    let! w := dispatchFrames frames w in
    let buf := textBuf r ++ chunk in
    let! (buf, w) := textLoop (S (length buf)) buf w in
    Ret (mkReader d (keepTail buf), w).

Fixpoint readChunks (chunks : list bytes) (r : Reader) (w : W) : outcome (Reader * W) :=
  match chunks with
  | [] => Ret (r, w)
  | chunk :: chunks => let! (r, w) := readChunk chunk r w in readChunks chunks r w
  end.
End Dispatch.

(** The manager with the log of its callbacks. *)
#[export] Instance Logged : Host (Manager * list call) := {
  manager := fst;
  setManager m w := (m, w.2);
  notify c w := (w.1, w.2 ++ [c])
}.
#[export] Instance Logged_laws : HostLaws Logged.
Proof. by split. Qed.

(** ** Examples *)
Definition console (lines : list string) : outcome (list call) :=
  let w := (set_callbacks allCallbacks NewManager, []) in
  let chunk := bytes_of_string (fold_right (fun l t => l +:+ String newlineChar t) EmptyString lines) in
  let! (r, w) := @readChunk asciiUnicode _ Logged (fun _ => []) (fun _ => None) (fun _ _ => Ret) 10 chunk NewReader w in
  Ret w.2.

Example console_ack : console ["AH34: SCAN_ACK:STARTED"] =
  Ret [CommandAck "SCAN_ACK" "STARTED" "AH34" (list_to_map [("ackType", VString "SCAN_ACK"); ("status", VString "STARTED")])].
Proof. vm_compute. reflexivity. Qed.
Example console_blocked : console ["AH34: DEVICE:aa:bb:cc:dd:ee:ff W -40 C6"; "AH34: TAMPER_DETECTED"] = Ret [].
Proof. vm_compute. reflexivity. Qed.
Example printable_share : (isPrintableText (bytes_string [65; 65; 65; 65; 65; 65; 65; 1; 1; 1]),
                           isPrintableText (bytes_string [65; 65; 65; 65; 65; 65; 65; 65; 1; 1; 1])) = (false, true).
Proof. vm_compute. reflexivity. Qed.

Definition meshText (from : Z) (text : string) : outcome (list call) :=
  let! w := @ProcessMeshText asciiUnicode _ Logged (fun _ => []) (fun _ => None) (fun _ _ => Ret) from 0xFFFFFFFF 0 text
              (set_callbacks allCallbacks NewManager, []) in Ret w.2.
Example mesh_target : meshText 0x0409c9d8 "AH34: DEVICE:aa:bb:cc:dd:ee:ff W -40 C6" =
  Ret [TargetDetected "AA:BB:CC:DD:EE:FF" "" "WiFi" (-40) 6 (S754_zero false) (S754_zero false) "!0409c9d8" ""].
Proof. vm_compute. reflexivity. Qed.
