(* ===== verification/SerialFacts.v ===== *)
(** The ring of text messages against its history, and the reader of the port
    against a split of the whole stream at its newlines. *)
From S2P Require Import Prelude GoStrings Frame Messages FromRadio Regexp TextEvents TextParser SerialManager.

(** ** Definitions *)

(** *** The ring *)
Inductive ringOp : Type :=
| Add (now : Z) (nodeID message siteID : string)
| Clear.

Definition ringStep (m : Manager) (op : ringOp) : Manager :=
  match op with
  | Add now n t s => AddTextMessage now n t s m
  | Clear => ClearTextMessages m
  end.

(** Every message since the last clear, numbered from 1. *)
Definition historyStep (l : list TextMessage) (op : ringOp) : list TextMessage :=
  match op with
  | Add now n t s => l ++ [mkTextMessage (zlen l + 1) n t s now]
  | Clear => []
  end.
Definition history (ops : list ringOp) : list TextMessage := fold_left historyStep ops [].

(** The last [n] elements. *)
Definition lastn {A} (n : nat) (l : list A) : list A := drop (length l - n) l.

(** *** The stream *)

(** The complete lines of a stream and what follows the last newline. *)
Fixpoint splitLines (l : bytes) : list bytes * bytes :=
  match l with
  | [] => ([], [])
  | b :: l =>
      let r := splitLines l in
      if decide (b = x0a) then ([] :: r.1, r.2)
      else match r.1 with
           | [] => ([], b :: r.2)
           | x :: xs => ((b :: x) :: xs, r.2)
           end
  end.

(** No line is longer than the buffer. *)
Definition shortLines (l : bytes) : Prop :=
  Forall (fun x => zlen x <= 4096) ((splitLines l).1 ++ [(splitLines l).2]).

(** ** Lemmas *)

(** *** The ring *)
Definition ringRel (m : Manager) (h : list TextMessage) : Prop :=
  textMessages m = lastn ringCap h /\ textSeq m = zlen h /\
  forall i msg, h !! i = Some msg -> Seq msg = Z.of_nat i + 1.

Lemma lastn_snoc {A} n (l : list A) x :
  (0 < n)%nat -> lastn n (l ++ [x]) = lastn n (lastn n l ++ [x]).
Proof.
  intros Hn. unfold lastn. rewrite !length_app, length_drop. cbn [length].
  destruct (Nat.le_gt_cases (length l + 1) n).
  - replace (length l - n)%nat with 0%nat by lia. cbn [drop]. f_equal. lia.
  - rewrite !drop_app_le, ?drop_drop by (rewrite ?length_drop; lia). f_equal. f_equal. lia.
Qed.

Lemma ring_step m h op :
  zlen h + 1 < 2 ^ 63 -> ringRel m h -> ringRel (ringStep m op) (historyStep h op).
Proof.
  intros Hb (Hl & Hs & Hi). destruct op as [now n t s|]; cbn [ringStep historyStep].
  - unfold AddTextMessage. rewrite Hs, int64_small by (pose proof (zlen_nonneg h); lia).
    split; [|split].
    + cbn [textMessages set_ring]. rewrite Hl. rewrite (lastn_snoc ringCap h) by (unfold ringCap; lia).
      set (l := lastn ringCap h ++ _). unfold lastn. destruct (Nat.ltb_spec ringCap (length l)); [done|].
      replace (length l - ringCap)%nat with 0%nat by lia. done.
    + cbn. zlen_lia.
    + intros i msg [Hm|[Hge Hm]]%lookup_app_Some; [by apply Hi|].
      apply list_lookup_singleton_Some in Hm as [Ei <-]. cbn. unfold zlen. lia.
  - split; [done|]. split; [done|]. by intros [|i] msg.
Qed.

Lemma history_length ops : zlen (history ops) <= zlen ops.
Proof.
  unfold history. enough (forall l, zlen (fold_left historyStep ops l) <= zlen l + zlen ops) as Hl
    by (apply (Hl [])).
  induction ops as [|op ops IH]; intros l; cbn [fold_left]; [zlen_lia|].
  specialize (IH (historyStep l op)). destruct op; cbn [historyStep] in *; autorewrite with zlen in *; zlen_lia.
Qed.

Lemma ring_run ops : zlen ops < 2 ^ 63 -> ringRel (fold_left ringStep ops NewManager) (history ops).
Proof.
  induction ops as [|op ops IH] using rev_ind; intros Hb.
  - split; [done|]. split; [done|]. by intros [|i] msg.
  - rewrite zlen_app in Hb. change (zlen [op]) with 1 in Hb. unfold history. rewrite !fold_left_app. cbn [fold_left].
    apply ring_step; [|apply IH; lia]. pose proof (history_length ops). unfold history in *. lia.
Qed.

(** Messages numbered in order: those after [since] are a suffix. *)
Lemma filter_later h since k :
  (forall i msg, h !! i = Some msg -> Seq msg = k + Z.of_nat i + 1) -> k <= since ->
  List.filter (fun msg => since <? Seq msg) h = drop (Z.to_nat (since - k)) h.
Proof.
  revert k. induction h as [|x h IH]; intros k Hi Hk; [by rewrite drop_nil|]. cbn [List.filter].
  pose proof (Hi 0%nat x eq_refl) as Hx. destruct (decide (since = k)) as [->|Hne].
  - replace (k <? Seq x) with true by lia. replace (Z.to_nat (k - k)) with 0%nat by lia. cbn [drop]. f_equal.
    clear IH. assert (forall y, In y h -> k <? Seq y = true) as Hall.
    { intros y (i & Hy)%list_elem_of_In%list_elem_of_lookup. pose proof (Hi (S i) y Hy). lia. }
    clear Hi Hx. induction h as [|y h IH]; [done|]. cbn [List.filter]. rewrite Hall by (by left).
    f_equal. apply IH. intros z Hz. apply Hall. by right.
  - replace (since <? Seq x) with false by lia. rewrite (IH (k + 1)) by (lia || (intros i msg Hm; pose proof (Hi (S i) msg Hm); lia)).
    replace (Z.to_nat (since - k)) with (S (Z.to_nat (since - (k + 1)))) by lia. done.
Qed.

(** *** The stream *)
Lemma splitLines_app a b :
  let r := splitLines ((splitLines a).2 ++ b) in
  splitLines (a ++ b) = ((splitLines a).1 ++ r.1, r.2).
Proof.
  cbv zeta. induction a as [|c a IH]; [cbn; by destruct (splitLines b)|]. cbn [app splitLines].
  rewrite IH. destruct (decide (c = x0a)); [done|].
  destruct (splitLines a) as [ls t]. cbn [fst snd]. destruct ls as [|x ls]; [|done].
  cbn [fst snd app splitLines]. rewrite decide_False by done. by destruct (splitLines (t ++ b)) as [[|y ys] t'].
Qed.

Lemma splitLines_index l :
  match IndexByte l x0a with
  | None => splitLines l = ([], l)
  | Some i => splitLines l = (take i l :: (splitLines (drop (S i) l)).1, (splitLines (drop (S i) l)).2)
  end.
Proof.
  induction l as [|b l IH]; [done|]. cbn [IndexByte splitLines]. destruct (decide (b = x0a)) as [->|Hb]; [done|].
  destruct (IndexByte l x0a) as [i|]; cbn [fmap option_fmap option_map]; by rewrite IH.
Qed.

Lemma splitLines_rest l : IndexByte (splitLines l).2 x0a = None.
Proof.
  induction l as [|b l IH]; [done|]. cbn [splitLines]. destruct (decide (b = x0a)) as [|Hb]; [done|].
  destruct (splitLines l).1; cbn [snd]; [|done]. cbn [IndexByte]. rewrite decide_False by done. by rewrite IH.
Qed.

(** A beginning without newline only lengthens the first piece. *)
Lemma splitLines_prefix a b :
  IndexByte a x0a = None ->
  splitLines (a ++ b) =
    match (splitLines b).1 with
    | [] => ([], a ++ (splitLines b).2)
    | x :: xs => ((a ++ x) :: xs, (splitLines b).2)
    end.
Proof.
  induction a as [|c a IH]; intros Ha; [cbn; by destruct (splitLines b) as [[|x xs] t]|].
  cbn [IndexByte] in Ha. destruct (decide (c = x0a)) as [|Hc]; [done|]. cbn [app splitLines].
  rewrite IH by (by destruct (IndexByte a x0a)). rewrite decide_False by done. by destruct (splitLines b) as [[|x xs] t].
Qed.

Lemma splitLines_again l : splitLines (splitLines l).2 = ([], (splitLines l).2).
Proof.
  pose proof (splitLines_prefix (splitLines l).2 [] (splitLines_rest l)) as E. cbn in E. by rewrite app_nil_r in E.
Qed.

Lemma shortLines_rest a b : shortLines (a ++ b) -> zlen (splitLines a).2 <= 4096.
Proof.
  unfold shortLines. rewrite splitLines_app, (splitLines_prefix (splitLines a).2) by apply splitLines_rest.
  cbv zeta. rewrite Forall_forall. intros Hs.
  assert (exists t, (splitLines a).2 ++ t ∈
    (splitLines (a ++ b)).1 ++ [(splitLines (a ++ b)).2]) as [t Ht].
  { rewrite splitLines_app, (splitLines_prefix (splitLines a).2) by apply splitLines_rest. cbv zeta.
    destruct (splitLines b) as [[|x xs] t]; cbn [fst snd]; eexists; rewrite !elem_of_app, ?elem_of_cons; eauto. }
  rewrite splitLines_app, (splitLines_prefix (splitLines a).2) in Ht by apply splitLines_rest. cbv zeta in Ht.
  apply Hs in Ht. zlen_lia.
Qed.

Section Stream.
Context `{Unicode} {W : Type} `{Host W}.
Variable rangeOrder : cache -> list Z.
Variable Marshal : data -> option bytes.
Variable invoke : Z -> FromRadioPacket.t -> W -> outcome W.

Fixpoint consoleLines (lines : list bytes) (w : W) : outcome W :=
  match lines with
  | [] => Ret w
  | l :: lines => let! w := consoleLine rangeOrder Marshal invoke l w in consoleLines lines w
  end.

Lemma consoleLines_app l k w :
  consoleLines (l ++ k) w = let! w := consoleLines l w in consoleLines k w.
Proof.
  revert w. induction l as [|x l IH]; intros w; [done|]. cbn [app consoleLines].
  destruct (consoleLine _ _ _ _ _); cbn [obind]; [apply IH|done|done].
Qed.

Lemma textLoop_split fuel l w :
  (length l < fuel)%nat ->
  textLoop rangeOrder Marshal invoke fuel l w
    = let! w := consoleLines (splitLines l).1 w in Ret ((splitLines l).2, w).
Proof.
  revert l w. induction fuel as [|fuel IH]; intros l w Hf; [lia|]. cbn [textLoop].
  pose proof (splitLines_index l) as Hs. destruct (IndexByte l x0a) as [i|] eqn:E; rewrite Hs; [|done].
  cbn [fst snd consoleLines]. destruct (consoleLine _ _ _ _ _); cbn [obind]; [|done|done].
  apply IH. rewrite length_drop. destruct l; [done|]. cbn in *. lia.
Qed.

Lemma keepTail_short l : zlen l <= 4096 -> keepTail l = l.
Proof. intros Hl. unfold keepTail. destruct (Z.ltb_spec 4096 (zlen l)); [lia|done]. Qed.

Lemma keepTail_bound l : zlen (keepTail l) <= 4096.
Proof.
  unfold keepTail. destruct (Z.ltb_spec 4096 (zlen l)); [|done]. unfold zlen. rewrite length_drop. lia.
Qed.

Lemma readChunks_split fuel pre chunks w :
  frameStart1 ∉ concat chunks -> shortLines (pre ++ concat chunks) ->
  readChunks rangeOrder Marshal invoke fuel chunks (mkReader NewFrameDecoder (splitLines pre).2) w
    = let s := splitLines ((splitLines pre).2 ++ concat chunks) in
      let! w := consoleLines s.1 w in Ret (mkReader NewFrameDecoder s.2, w).
Proof.
  revert pre w. induction chunks as [|c chunks IH]; intros pre w Hf Hs; cbn [readChunks concat] in *.
  - cbv zeta. by rewrite app_nil_r, splitLines_again.
  - apply not_elem_of_app in Hf as [Hc Hf]. rewrite app_assoc in Hs. unfold readChunk.
    assert (splitLines ((splitLines pre).2 ++ c ++ concat chunks) =
            ((splitLines ((splitLines pre).2 ++ c)).1 ++
               (splitLines ((splitLines ((splitLines pre).2 ++ c)).2 ++ concat chunks)).1,
             (splitLines ((splitLines ((splitLines pre).2 ++ c)).2 ++ concat chunks)).2)) as E
      by (rewrite app_assoc; apply splitLines_app).
    cbv zeta. rewrite E. cbn [fst snd]. rewrite consoleLines_app. clear E.
    assert (splitLines (pre ++ c) = ((splitLines pre).1 ++ (splitLines ((splitLines pre).2 ++ c)).1,
                                     (splitLines ((splitLines pre).2 ++ c)).2)) as E by apply splitLines_app.
    destruct (Z.eqb_spec (zlen c) 0) as [Hz|Hz].
    + destruct c as [|x c]; [|unfold zlen in Hz; cbn in Hz; lia].
      rewrite !app_nil_r in *. cbn [obind]. rewrite IH by done. cbv zeta.
      by rewrite splitLines_again.
    + rewrite Feed_noise by done. cbn [dispatchFrames obind decoder textBuf].
      rewrite textLoop_split by lia. destruct (consoleLines _ w) as [w1| |] eqn:Ew; cbn [obind]; [|done|done].
      rewrite keepTail_short.
      * specialize (IH (pre ++ c) w1 Hf Hs). rewrite E in IH. exact IH.
      * apply shortLines_rest in Hs. by rewrite E in Hs.
Qed.

Lemma readChunks_bound fuel chunks r w r' w' :
  zlen (textBuf r) <= 4096 -> readChunks rangeOrder Marshal invoke fuel chunks r w = Ret (r', w') ->
  zlen (textBuf r') <= 4096.
Proof.
  revert r w. induction chunks as [|c chunks IH]; intros r w Hr; cbn [readChunks]; [by intros [= <- _]|].
  unfold readChunk. destruct (zlen c =? 0); cbn [obind]; [by apply IH|].
  destruct (Feed (decoder r) c) as [d frames].
  destruct (dispatchFrames _ _ _ _) as [w1| |]; cbn [obind]; try done.
  rewrite textLoop_split by lia. destruct (consoleLines _ _) as [w2| |]; cbn [obind]; try done.
  apply IH. apply keepTail_bound.
Qed.

(** ** Properties *)

(** C20: a stream of console text that holds no frame start and no line over
    4096 bytes is cut into exactly its newline-terminated lines, each handled
    once and in order whatever the reads, and the buffer never holds more than
    4096 bytes between reads, whatever is received. *)
Theorem console_stream fuel chunks w :
  (frameStart1 ∉ concat chunks -> shortLines (concat chunks) ->
   readChunks rangeOrder Marshal invoke fuel chunks NewReader w
     = let s := splitLines (concat chunks) in
       let! w := consoleLines s.1 w in Ret (mkReader NewFrameDecoder s.2, w)) /\
  (forall r w', readChunks rangeOrder Marshal invoke fuel chunks NewReader w = Ret (r, w') ->
     zlen (textBuf r) <= 4096).
Proof.
  split.
  - intros Hf Hs. by apply (readChunks_split fuel []).
  - intros r w'. apply readChunks_bound. by vm_compute.
Qed.
End Stream.

(** The ring holds the last 200 messages since the last clear under
    consecutive numbers, and a poll with the number of a message no older than
    that returns exactly the messages after it, none lost and none twice; a
    number not reached again since a clear returns none. *)
Theorem text_ring_refines ops since :
  zlen ops < 2 ^ 63 ->
  let m := fold_left ringStep ops NewManager in
  textMessages m = lastn 200 (history ops) /\
  (forall i msg, history ops !! i = Some msg -> Seq msg = Z.of_nat i + 1) /\
  (zlen (history ops) - 200 <= since -> 0 <= since ->
   GetTextMessages since m = drop (Z.to_nat since) (history ops)).
Proof.
  intros Hb m. destruct (ring_run ops Hb) as (Hl & _ & Hi). split; [done|]. split; [done|].
  intros Hs Hs0. unfold GetTextMessages, m. rewrite Hl. set (h := history ops) in *. unfold lastn.
  rewrite (filter_later _ since (Z.of_nat (length h - ringCap))).
  - rewrite drop_drop. f_equal. unfold ringCap, zlen in *. lia.
  - intros i msg Hm. rewrite lookup_drop in Hm. apply Hi in Hm. lia.
  - unfold ringCap, zlen in *. lia.
Qed.

Lemma text_ring_refines_witness :
  let ops := [Add 5 "!1" "a" ""; Add 6 "!2" "b" ""; Clear; Add 7 "!3" "c" ""] in
  GetTextMessages 0 (fold_left ringStep ops NewManager) = [mkTextMessage 1 "!3" "c" "" 7] /\
  GetTextMessages 2 (fold_left ringStep ops NewManager) = [].
Proof.
  cbv zeta. set (ops := [Add 5 "!1" "a" ""; Add 6 "!2" "b" ""; Clear; Add 7 "!3" "c" ""]).
  split.
  - apply (text_ring_refines ops 0); vm_compute; (reflexivity || discriminate).
  - apply (text_ring_refines ops 2); vm_compute; (reflexivity || discriminate).
Defined.

Lemma console_stream_witness :
  let chunks := [bytes_of_string "AH34: SCAN_"; bytes_of_string ("ACK:OK" +:+ String newlineChar "AH"); []] in
  let w := (set_callbacks allCallbacks NewManager, []) in
  let run := @readChunks asciiUnicode _ Logged (fun _ => []) (fun _ => None) (fun _ _ => Ret) 10 in
  let lines := @consoleLines asciiUnicode _ Logged (fun _ => []) (fun _ => None) (fun _ _ => Ret) in
  run chunks NewReader w
    = let! w := lines [bytes_of_string "AH34: SCAN_ACK:OK"] w in
      Ret (mkReader NewFrameDecoder (bytes_of_string "AH"), w).
Proof.
  cbv zeta.
  apply (@console_stream asciiUnicode _ Logged (fun _ => []) (fun _ => None) (fun _ _ => Ret) 10
           [bytes_of_string "AH34: SCAN_"; bytes_of_string ("ACK:OK" +:+ String newlineChar "AH"); []]
           (set_callbacks allCallbacks NewManager, [])).
  - apply (bool_decide_eq_true_1 _). vm_compute. reflexivity.
  - unfold shortLines. apply List.Forall_forall. intros x Hx.
    assert (forallb (fun x => zlen x <=? 4096)
      [bytes_of_string "AH34: SCAN_ACK:OK"; bytes_of_string "AH"] = true) as Hall by (vm_compute; reflexivity).
    rewrite forallb_forall in Hall. apply Z.leb_le, Hall. vm_compute. vm_compute in Hx. exact Hx.
Defined.
