(* ===== verification/SerialLink.v ===== *)
(** The connection of the serial manager, [Start], [connect], [Stop] and
    [WakeDevice] of [internal/serial/manager.go], as interleaved steps.

    [Start] runs in its own goroutine, and once more for every request to
    connect while disconnected.  It reads [m.stopCh] and [m.port] without the
    mutex each time it needs them; a blocked [select] keeps the channel it was
    entered with.  The port is a third-party object: opening it and reading
    from it succeed or fail as a step says.  Delays are not timed: the timer of
    a wait fires whenever its step is taken. *)
From S2P Require Import Prelude Frame FromRadio.

(** ** Definitions *)

(** Where a [Start] goroutine is. *)
Inductive place : Type :=
| LTop                  (** before the [select] at the head of the loop *)
| LConnect              (** about to call [connect] *)
| LRetry (ch : Z)       (** waiting to try again *)
| LReadTop              (** before the [select] at the head of the read loop *)
| LReading (p : Z)      (** in [m.port.Read] *)
| LLost                 (** the read loop has returned *)
| LAfter (ch : Z)       (** waiting after the loss of the connection *)
| LDone.                (** returned *)

#[export] Instance place_eq_dec : EqDecision place.
Proof. solve_decision. Defined.

(** [crashed]: a panic outside any recovering caller. *)
Record Link : Type := mkLink {
  port : option Z;
  connected : bool;
  stopCh : Z;
  closedChs : gset Z;
  closedPorts : gset Z;
  loops : gmap Z place;
  next : Z;               (** the next channel, port or goroutine *)
  health : list bool;     (** the events [broadcastSerialState] sent *)
  written : list bytes;   (** frames written to a port *)
  crashed : bool
}.

Definition set_port (p : option Z) (c : bool) (w : Link) : Link :=
  mkLink p c (stopCh w) (closedChs w) (closedPorts w) (loops w) (next w) (health w) (written w) (crashed w).
Definition set_stopCh (ch : Z) (w : Link) : Link :=
  mkLink (port w) (connected w) ch (closedChs w) (closedPorts w) (loops w) (next w) (health w) (written w) (crashed w).
Definition close_ch (ch : Z) (w : Link) : Link :=
  mkLink (port w) (connected w) (stopCh w) (closedChs w ∪ {[ch]}) (closedPorts w) (loops w) (next w) (health w) (written w)
    (crashed w).
Definition close_port (p : Z) (w : Link) : Link :=
  mkLink (port w) (connected w) (stopCh w) (closedChs w) (closedPorts w ∪ {[p]}) (loops w) (next w) (health w) (written w)
    (crashed w).
Definition set_loop (i : Z) (l : place) (w : Link) : Link :=
  mkLink (port w) (connected w) (stopCh w) (closedChs w) (closedPorts w) (<[i := l]> (loops w)) (next w) (health w) (written w) (crashed w).
Definition bump (w : Link) : Link :=
  mkLink (port w) (connected w) (stopCh w) (closedChs w) (closedPorts w) (loops w) (next w + 1) (health w) (written w) (crashed w).
Definition broadcastSerialState (c : bool) (w : Link) : Link :=
  mkLink (port w) (connected w) (stopCh w) (closedChs w) (closedPorts w) (loops w) (next w) (health w ++ [c]) (written w) (crashed w).
Definition crash (w : Link) : Link :=
  mkLink (port w) (connected w) (stopCh w) (closedChs w) (closedPorts w) (loops w) (next w) (health w) (written w) true.
Definition write (frame : bytes) (w : Link) : Link :=
  mkLink (port w) (connected w) (stopCh w) (closedChs w) (closedPorts w) (loops w) (next w) (health w) (written w ++ [frame]) (crashed w).

(** One loop that has not started, as [main] leaves it. *)
Definition NewLink : Link := mkLink None false 0 ∅ ∅ {[1 := LTop]} 2 [] [] false.

(** *** SendToRadio *)
Inductive sendError : Type := ErrNotConnected | ErrWrite.

Definition SendToRadio (writeOK : bool) (data : bytes) (w : Link) : Link * option sendError :=
  match port w with
  | None => (w, Some ErrNotConnected)
  | Some _ => if writeOK then (write (EncodeFrame data) w, None) else (w, Some ErrWrite)
  end.
Definition sendWantConfig (writeOK : bool) : Link -> Link * option sendError := SendToRadio writeOK BuildWantConfig.
Definition RefreshConfig (writeOK : bool) : Link -> Link * option sendError := sendWantConfig writeOK.

(** Closing the port under the mutex. *)
Definition closePort (w : Link) : Link :=
  set_port None false (match port w with Some p => close_port p w | None => w end).

(** *** connect *)
Definition connect (openOK writeOK : bool) (w : Link) : Link * bool :=
  if openOK then
    let w := bump (set_port (Some (next w)) true w) in
    ((sendWantConfig writeOK (broadcastSerialState true w)).1, true)
  else (w, false).

(** *** Start *)

(** What the environment decides in a step of a loop. *)
Inductive choice : Type :=
| Go                              (** the step has no choice *)
| Open (openOK writeOK : bool)
| Timer | Stopped                 (** which case of the [select] *)
| Read (ok : bool).

Definition chClosed (ch : Z) (w : Link) : bool := bool_decide (ch ∈ closedChs w).
Definition portClosed (p : Z) (w : Link) : bool := bool_decide (p ∈ closedPorts w).

Definition loopStep (i : Z) (l : place) (c : choice) (w : Link) : Link :=
  match l, c with
  | LTop, Go => set_loop i (if chClosed (stopCh w) w then LDone else LConnect) w
  | LConnect, Open openOK writeOK =>
      let '(w, ok) := connect openOK writeOK w in set_loop i (if ok then LReadTop else LRetry (stopCh w)) w
  | LRetry _, Timer | LAfter _, Timer => set_loop i LTop w
  | LRetry ch, Stopped | LAfter ch, Stopped => if chClosed ch w then set_loop i LDone w else w
  | LReadTop, Go =>
      if chClosed (stopCh w) w then set_loop i LLost w
      else match port w with
           | Some p => set_loop i (LReading p) w
           | None => crash w
           end
  | LReading p, Read ok => set_loop i (if ok && negb (portClosed p w) then LReadTop else LLost) w
  | LLost, Go => let w := broadcastSerialState false (closePort w) in set_loop i (LAfter (stopCh w)) w
  | _, _ => w
  end.

(** *** Steps *)
Inductive linkAction : Type :=
| Loop (i : Z) (c : choice)
| HandleConnect                   (** [POST /serial/connect] *)
| StopClose                       (** [Stop]: [close(m.stopCh)] *)
| StopRest                        (** [Stop]: the part under the mutex *)
| Wake                            (** [WakeDevice]: up to opening the port itself *)
| Send (writeOK : bool) (data : bytes).

(** Closing a closed channel panics in the request's goroutine, which recovers. *)
Definition linkStep (w : Link) (a : linkAction) : Link :=
  if crashed w then w else
  match a with
  | Loop i c => match loops w !! i with Some l => loopStep i l c w | None => w end
  | HandleConnect => if connected w then w else bump (set_loop (next w) LTop w)
  | StopClose => close_ch (stopCh w) w
  | StopRest => bump (set_stopCh (next w) (closePort w))
  | Wake => broadcastSerialState false (closePort w)
  | Send writeOK data => (SendToRadio writeOK data w).1
  end.

Definition linkRun (acts : list linkAction) (w : Link) : Link := fold_left linkStep acts w.

(** ** Lemmas *)

(** Numbers are given out in order, and the flag says whether there is a port. *)
Record linkInv (w : Link) : Prop := {
  inv_stopCh : stopCh w < next w;
  inv_closed ch : ch ∈ closedChs w -> ch < next w;
  inv_loops i : is_Some (loops w !! i) -> i < next w;
  inv_flag : connected w = bool_decide (is_Some (port w))
}.

Lemma linkInv_new : linkInv NewLink.
Proof.
  constructor; [done|by intros ch ?%elem_of_empty| |done].
  intros i [l Hl]. change (loops NewLink) with ({[1 := LTop]} : gmap Z place) in Hl.
  apply lookup_singleton_Some in Hl as [<- _]. by vm_compute.
Qed.

Lemma inv_set_loop i l w : i < next w -> linkInv w -> linkInv (set_loop i l w).
Proof.
  intros Hi [H1 H2 H3 H4]. constructor; try done. cbn. intros j [l' [[<- _]|[_ Hl]]%lookup_insert_Some]; [done|eauto].
Qed.

Lemma inv_closePort w : linkInv w -> linkInv (closePort w).
Proof. intros [H1 H2 H3 H4]. unfold closePort. by destruct (port w). Qed.

Lemma inv_write writeOK data w : linkInv w -> linkInv (SendToRadio writeOK data w).1.
Proof.
  intros Hw. unfold SendToRadio. destruct (port w) eqn:E; [|done]. destruct writeOK; [|done].
  destruct Hw as [H1 H2 H3 H4]. by constructor.
Qed.

Lemma inv_bump w : linkInv w -> linkInv (bump w).
Proof.
  intros [H1 H2 H3 H4]. constructor; cbn; [lia| | |done].
  - intros ch ?%H2. lia.
  - intros i ?%H3. lia.
Qed.

Lemma inv_connect openOK writeOK w : linkInv w -> linkInv (connect openOK writeOK w).1.
Proof.
  intros Hw. unfold connect. destruct openOK; [|done]. cbn [fst]. apply inv_write.
  enough (linkInv (bump (set_port (Some (next w)) true w))) as [H1 H2 H3 H4] by by constructor.
  apply inv_bump. destruct Hw as [H1 H2 H3 H4]. by constructor.
Qed.

Lemma next_connect openOK writeOK w : next w <= next (connect openOK writeOK w).1.
Proof. unfold connect. destruct openOK, writeOK; cbn; lia. Qed.

Lemma inv_loopStep i l c w : i < next w -> linkInv w -> linkInv (loopStep i l c w).
Proof.
  intros Hi Hw. destruct l, c; cbn [loopStep]; try done; try (by apply inv_set_loop); try (by case_match).
  - pose proof (inv_connect openOK writeOK w Hw). pose proof (next_connect openOK writeOK w).
    destruct (connect openOK writeOK w) as [w1 ok]. cbn in *. apply inv_set_loop; [lia|done].
  - case_match; [by apply inv_set_loop|done].
  - case_match; [by apply inv_set_loop|]. case_match; [by apply inv_set_loop|]. by destruct Hw; constructor.
  - apply inv_set_loop; [cbn; unfold closePort; by destruct (port w)|].
    enough (linkInv (closePort w)) as [H1 H2 H3 H4] by by constructor. by apply inv_closePort.
  - case_match; [by apply inv_set_loop|done].
Qed.

Lemma inv_step w a : linkInv w -> linkInv (linkStep w a).
Proof.
  intros Hw. unfold linkStep. destruct (crashed w); [done|]. destruct a.
  - destruct (loops w !! i) eqn:E; [|done]. apply inv_loopStep; [|done]. by apply (inv_loops w Hw).
  - destruct (connected w); [done|]. destruct Hw as [H1 H2 H3 H4]. constructor; cbn; [lia| | |done].
    + intros ch ?%H2. lia.
    + intros j [l [[<- _]|[_ Hl]]%lookup_insert_Some]; [lia|]. assert (j < next w) by (apply H3; by eexists). lia.
  - destruct Hw as [H1 H2 H3 H4]. constructor; cbn; [done| |done|done].
    intros ch [?%H2| ->%elem_of_singleton]%elem_of_union; lia.
  - assert (linkInv (closePort w)) as [H1 H2 H3 H4] by by apply inv_closePort.
    assert (next (closePort w) = next w) as En by (unfold closePort; by destruct (port w)). revert H1 H2 H3 H4 En.
    generalize (closePort w) as w1. intros w1 H1 H2 H3 H4 En. constructor; cbn; [lia| | |done].
    + intros ch ?%H2. lia.
    + intros i ?%H3. lia.
  - enough (linkInv (closePort w)) as [H1 H2 H3 H4] by by constructor. by apply inv_closePort.
  - by apply inv_write.
Qed.

Lemma linkRun_app l k w : linkRun (l ++ k) w = linkRun k (linkRun l w).
Proof. apply fold_left_app. Qed.

Lemma linkInv_run acts w : linkInv w -> linkInv (linkRun acts w).
Proof. revert w. induction acts as [|a acts IH]; intros w Hw; [done|]. by apply IH, inv_step. Qed.

(** *** A loop that no stop will reach *)
Definition unstoppable (i : Z) (w : Link) : Prop :=
  linkInv w /\ (stopCh w ∉ closedChs w) /\
  match loops w !! i with
  | Some (LRetry ch) | Some (LAfter ch) => ch ∉ closedChs w
  | Some LDone | None => False
  | _ => True
  end.

Lemma closePort_rest w :
  stopCh (closePort w) = stopCh w /\ closedChs (closePort w) = closedChs w /\ loops (closePort w) = loops w /\
  next (closePort w) = next w /\ crashed (closePort w) = crashed w.
Proof. unfold closePort. by destruct (port w). Qed.

Lemma connect_rest openOK writeOK w :
  stopCh (connect openOK writeOK w).1 = stopCh w /\ closedChs (connect openOK writeOK w).1 = closedChs w /\
  loops (connect openOK writeOK w).1 = loops w /\ crashed (connect openOK writeOK w).1 = crashed w.
Proof. unfold connect. by destruct openOK, writeOK. Qed.

(** A step of any loop leaves the channels alone and the other loops where they
    are. *)
Lemma loopStep_rest i l c w :
  stopCh (loopStep i l c w) = stopCh w /\ closedChs (loopStep i l c w) = closedChs w /\
  forall j, j <> i -> loops (loopStep i l c w) !! j = loops w !! j.
Proof.
  destruct (closePort_rest w) as (H1 & H2 & H3 & _).
  destruct l, c; cbn [loopStep]; try done;
    try (repeat case_match; cbn; repeat split; try done; intros j Hj; by rewrite lookup_insert_ne).
  - pose proof (connect_rest openOK writeOK w) as (E1 & E2 & E3 & _). destruct (connect openOK writeOK w) as [w1 ok].
    cbn in *. rewrite E1, E2, E3. repeat split. intros j Hj. by rewrite lookup_insert_ne.
  - revert H1 H2 H3. generalize (closePort w) as w1. intros w1 H1 H2 H3. cbn. rewrite H1, H2, H3. repeat split.
    intros j Hj. by rewrite lookup_insert_ne.
Qed.

Lemma unstoppable_loop i l c w :
  unstoppable i w -> loops w !! i = Some l -> unstoppable i (loopStep i l c w).
Proof.
  intros (Hw & Hs & Hl) E. rewrite E in Hl.
  split; [apply inv_loopStep; [apply (inv_loops w Hw); by rewrite E|done]|].
  destruct (loopStep_rest i l c w) as (E1 & E2 & _). rewrite E1, E2. split; [done|].
  destruct l, c; cbn [loopStep] in *; rewrite ?E; try done; unfold chClosed in *;
    try (cbn; rewrite ?lookup_insert_eq; done).
  - rewrite bool_decide_false by done. cbn. by rewrite lookup_insert_eq.
  - pose proof (connect_rest openOK writeOK w) as (E3 & E4 & _). destruct (connect openOK writeOK w) as [w1 ok].
    cbn in *. rewrite lookup_insert_eq. destruct ok; [done|]. by rewrite E3.
  - rewrite bool_decide_false by done. by rewrite E.
  - rewrite bool_decide_false by done. destruct (port w); cbn; [by rewrite lookup_insert_eq|by rewrite E].
  - cbn. rewrite lookup_insert_eq. by destruct (ok && _).
  - clear E1 E2. destruct (closePort_rest w) as (H1 & _). revert H1. generalize (closePort w) as w1. intros w1 H1.
    cbn. rewrite lookup_insert_eq. by rewrite H1.
  - rewrite bool_decide_false by done. by rewrite E.
Qed.

Lemma unstoppable_same i w w' :
  linkInv w' -> stopCh w' = stopCh w -> closedChs w' = closedChs w -> loops w' !! i = loops w !! i ->
  unstoppable i w -> unstoppable i w'.
Proof. intros Hw E1 E2 E3 (_ & Hs & Hl). unfold unstoppable. by rewrite E1, E2, E3. Qed.

Lemma unstoppable_step i a w : a <> StopClose -> unstoppable i w -> unstoppable i (linkStep w a).
Proof.
  intros Ha Hu. pose proof (inv_step w a (proj1 Hu)) as Hw'. unfold linkStep in *.
  destruct (crashed w); [done|]. destruct (closePort_rest w) as (H1 & H2 & H3 & H4 & _).
  destruct a as [j c| | | | |writeOK data]; try done.
  - destruct (loops w !! j) as [l|] eqn:E; [|done]. destruct (decide (j = i)) as [->|Hne].
    + by apply unstoppable_loop.
    + destruct (loopStep_rest j l c w) as (E1 & E2 & E3). apply (unstoppable_same i w); try done. by apply E3.
  - destruct (connected w); [done|]. apply (unstoppable_same i w); try done. cbn. rewrite lookup_insert_ne; [done|].
    intros <-. destruct Hu as (Hw & _ & Hl). assert (is_Some (loops w !! next w)) as Hx%(inv_loops w Hw); [|lia].
    destruct (loops w !! next w); [by eexists|done].
  - destruct Hu as (Hw & Hs & Hl). split; [done|]. clear Hw'. revert H1 H2 H3. generalize (closePort w) as w1.
    intros w1 H1 H2 H3. cbn. rewrite H2, H3. split; [|done]. intros Hn%(inv_closed w Hw). lia.
  - apply (unstoppable_same i w); try done. change (loops (closePort w) !! i = loops w !! i). by rewrite H3.
  - apply (unstoppable_same i w); try done; unfold SendToRadio; by destruct (port w), writeOK.
Qed.

Lemma unstoppable_run i acts w : StopClose ∉ acts -> unstoppable i w -> unstoppable i (linkRun acts w).
Proof.
  revert w. induction acts as [|a acts IH]; intros w Hn Hu; [done|].
  apply not_elem_of_cons in Hn as [Ha Hn]. apply IH; [done|]. by apply unstoppable_step.
Qed.

(** Steps of others leave a loop where it is. *)
Definition others (i : Z) (acts : list linkAction) : Prop :=
  Forall (fun a => forall c, a <> Loop i c) acts.

Lemma others_step i a w l :
  linkInv w -> (forall c, a <> Loop i c) -> loops w !! i = Some l -> loops (linkStep w a) !! i = Some l.
Proof.
  intros Hw Ha Hl. unfold linkStep. destruct (crashed w); [done|].
  destruct (closePort_rest w) as (_ & _ & H3 & _). destruct a as [j c| | | | |writeOK data].
  - destruct (loops w !! j) as [l'|] eqn:E; [|done]. destruct (loopStep_rest j l' c w) as (_ & _ & E3).
    rewrite E3; [done|]. intros ->. by apply (Ha c).
  - destruct (connected w); [done|]. cbn. rewrite lookup_insert_ne; [done|]. intros <-.
    assert (is_Some (loops w !! next w)) as Hx%(inv_loops w Hw) by by eexists. lia.
  - done.
  - change (loops (closePort w) !! i = Some l). by rewrite H3.
  - change (loops (closePort w) !! i = Some l). by rewrite H3.
  - unfold SendToRadio. by destruct (port w), writeOK.
Qed.

Lemma others_run i acts w l :
  linkInv w -> others i acts -> loops w !! i = Some l -> loops (linkRun acts w) !! i = Some l.
Proof.
  intros Hw Ho. revert w Hw. induction Ho as [|a acts Ha _ IH]; intros w Hw Hl; [done|].
  apply IH; [by apply inv_step|]. by apply others_step.
Qed.

Lemma stopRest_fresh w :
  linkInv w -> crashed (linkStep w StopRest) = false ->
  (stopCh (linkStep w StopRest) ∉ closedChs (linkStep w StopRest)) /\ connected (linkStep w StopRest) = false.
Proof.
  intros Hw. unfold linkStep. destruct (crashed w) eqn:E; [by rewrite E|]. intros _.
  destruct (closePort_rest w) as (_ & H2 & _). split; [|done]. change (next w ∉ closedChs (closePort w)).
  rewrite H2. intros Hn%(inv_closed w Hw). lia.
Qed.

(** A loop takes a step. *)
Lemma linkRun_loop i c l acts w :
  crashed w = false -> loops w !! i = Some l -> linkRun (Loop i c :: acts) w = linkRun acts (loopStep i l c w).
Proof.
  intros Hc Hl. change (linkRun acts (linkStep w (Loop i c)) = linkRun acts (loopStep i l c w)).
  f_equal. unfold linkStep. by rewrite Hc, Hl.
Qed.

(** The way back from a read that failed. *)
Lemma reconnects i p w :
  linkInv w -> crashed w = false -> connected w = false -> loops w !! i = Some (LReading p) -> (stopCh w ∉ closedChs w) ->
  let w2 := linkRun [Loop i (Read false); Loop i Go; Loop i Timer; Loop i Go; Loop i (Open true true)] w in
  connected w2 = true /\ loops w2 !! i = Some LReadTop.
Proof.
  intros Hw Hc Hd Hl Hs. cbv zeta. pose proof (inv_flag w Hw) as Hf. rewrite Hd in Hf. symmetry in Hf.
  apply bool_decide_eq_false in Hf. clear Hw. destruct w as [[q|] co sc cc cp lo ne he wr cr]; [by destruct Hf|].
  cbn in Hc, Hd, Hl, Hs. subst. rewrite (linkRun_loop i (Read false) (LReading p)) by done. cbn [loopStep andb].
  rewrite (linkRun_loop i Go LLost) by (done || apply lookup_insert_eq).
  rewrite (linkRun_loop i Timer (LAfter sc)) by (done || apply lookup_insert_eq).
  rewrite (linkRun_loop i Go LTop) by (done || apply lookup_insert_eq). cbn [loopStep].
  unfold chClosed. rewrite bool_decide_false by done.
  rewrite (linkRun_loop i (Open true true) LConnect) by (done || apply lookup_insert_eq).
  split; [done|]. apply lookup_insert_eq.
Qed.

(** *** One loop *)

(** No second loop is started, and the port is only taken away while the loop is
    not about to read it. *)
Fixpoint careful (acts : list linkAction) (w : Link) : Prop :=
  match acts with
  | [] => True
  | a :: acts =>
      match a with
      | HandleConnect => False
      | StopRest | Wake => loops w !! 1 <> Some LReadTop
      | _ => True
      end /\ careful acts (linkStep w a)
  end.

Definition soleLoop (w : Link) : Prop :=
  crashed w = false /\ (forall i, is_Some (loops w !! i) -> i = 1) /\
  (loops w !! 1 = Some LReadTop -> is_Some (port w)) /\
  (forall p, loops w !! 1 = Some (LReading p) -> port w = Some p \/ (p ∈ closedPorts w)).
Lemma sole_place l w :
  soleLoop w -> is_Some (loops w !! 1) -> (l = LReadTop -> is_Some (port w)) ->
  (forall p, l = LReading p -> port w = Some p \/ (p ∈ closedPorts w)) -> soleLoop (set_loop 1 l w).
Proof.
  intros (Hc & Hi & _) Hl Ht Hr. split; [done|]. split; [|split].
  - cbn. intros i [l' [[<- _]|[_ E]]%lookup_insert_Some]; [done|by apply Hi].
  - cbn. rewrite lookup_insert_eq. intros [= ->]. by apply Ht.
  - intros p. cbn. rewrite lookup_insert_eq. intros [= ->]. by apply Hr.
Qed.

(** Taking the port away while the loop does not rely on it. *)
Lemma sole_closePort w : loops w !! 1 <> Some LReadTop -> soleLoop w -> soleLoop (closePort w).
Proof.
  intros Hl (Hc & Hi & Ht & Hr). destruct (closePort_rest w) as (_ & _ & E3 & _ & E5).
  split; [by rewrite E5|]. split; [by rewrite E3|]. split; [by rewrite E3|]. intros p. rewrite E3. intros Hp%Hr.
  right. unfold closePort. destruct (port w) as [q|]; cbn; destruct Hp as [[= ->]|Hp]; set_solver.
Qed.

Lemma sole_loopStep l c w : soleLoop w -> loops w !! 1 = Some l -> soleLoop (loopStep 1 l c w).
Proof.
  intros Hs El. pose proof Hs as (Hc & Hi & Ht & Hr). assert (is_Some (loops w !! 1)) as Hsome by by eexists.
  destruct l as [| |ch| |p| |ch|], c as [|openOK writeOK| | |ok]; cbn [loopStep]; try done;
    try (by apply sole_place).
  - apply sole_place; try done; by case_match.
  - unfold connect. destruct openOK; [|by apply sole_place]. destruct writeOK.
    all: split; [done|split; [|split]]; cbn.
    all: try (intros i [l' [[<- _]|[_ E]]%lookup_insert_Some]; [done|by apply Hi]).
    all: try by eexists. all: intros p; rewrite lookup_insert_eq; done.
  - by case_match; [apply sole_place|].
  - case_match; [by apply sole_place|]. destruct (Ht El) as [q Hq]. rewrite Hq. apply sole_place; try done.
    intros p [= ->]. by left.
  - apply sole_place; try done; destruct (ok && _) eqn:E; try done. intros _. apply andb_prop in E as [_ E%negb_true_iff].
    unfold portClosed in E. apply bool_decide_eq_false in E. destruct (Hr p El) as [->|]; [by eexists|done].
  - apply sole_place; try done; [|change (is_Some (loops (closePort w) !! 1)); by destruct (closePort_rest w) as (_ & _ & -> & _)].
    enough (soleLoop (closePort w)) by done. apply sole_closePort; [by rewrite El|done].
  - by case_match; [apply sole_place|].
Qed.

Lemma sole_run acts w : careful acts w -> soleLoop w -> soleLoop (linkRun acts w).
Proof.
  revert w. induction acts as [|a acts IH]; intros w Hc Hs; [done|]. destruct Hc as [Ha Hc]. apply IH; [done|].
  clear IH Hc. unfold linkStep. pose proof Hs as (-> & Hi & Ht & Hr). destruct a as [i c| | | | |writeOK data].
  - destruct (loops w !! i) as [l|] eqn:E; [|done]. assert (i = 1) as -> by (apply Hi; by eexists).
    by apply sole_loopStep.
  - done.
  - done.
  - apply (sole_closePort w Ha Hs).
  - apply (sole_closePort w Ha Hs).
  - unfold SendToRadio. destruct (port w) eqn:E, writeOK; try done; split; try done; cbn; by rewrite ?E.
Qed.

(** ** Properties *)

(** C14: a stop that comes while the loop is reading the port never ends it: the
    loop holds no channel that was closed, the manager has a new one, and after
    the failed read the loop connects again. *)
Theorem stop_misses_reader pre mid acts i p :
  let w0 := linkRun pre NewLink in
  let w1 := linkRun (StopClose :: mid ++ [StopRest]) w0 in
  loops w0 !! i = Some (LReading p) -> others i mid -> crashed w1 = false ->
  (StopClose ∉ acts -> loops (linkRun acts w1) !! i <> Some LDone) /\
  let w2 := linkRun [Loop i (Read false); Loop i Go; Loop i Timer; Loop i Go; Loop i (Open true true)] w1 in
  connected w1 = false /\ connected w2 = true /\ loops w2 !! i = Some LReadTop.
Proof.
  intros w0 w1 Hl Ho Hc. pose proof (linkInv_run pre _ linkInv_new) as Hw0. fold w0 in Hw0.
  assert (linkInv w1) as Hw1 by by apply linkInv_run.
  assert (loops w1 !! i = Some (LReading p)) as Hl1.
  { apply others_run; [done| |done]. apply Forall_cons. split; [done|]. apply Forall_app. split; [done|].
    by repeat constructor. }
  assert ((stopCh w1 ∉ closedChs w1) /\ connected w1 = false) as [Hs Hd].
  { unfold w1 in *. change (StopClose :: mid ++ [StopRest]) with ((StopClose :: mid) ++ [StopRest]) in *.
    rewrite linkRun_app in *. apply stopRest_fresh; [by apply linkInv_run|done]. }
  split.
  - intros Ha Hdone. assert (unstoppable i w1) as Hu by (split; [done|split; [done|by rewrite Hl1]]).
    apply (unstoppable_run i acts w1 Ha) in Hu as (_ & _ & Hu). by rewrite Hdone in Hu.
  - split; [done|]. by apply (reconnects i p).
Qed.

(** With the one loop of [main], the reader dereferences a nil port only if
    a stop or a wake-up takes the port away between two reads, and then it does,
    which ends the program. *)
Theorem reader_crash acts a :
  (careful acts NewLink -> crashed (linkRun acts NewLink) = false) /\
  (let w := linkRun acts NewLink in
   crashed w = false -> loops w !! 1 = Some LReadTop -> a = StopRest \/ a = Wake /\ (stopCh w ∉ closedChs w) ->
   crashed (linkRun [a; Loop 1 Go] w) = true).
Proof.
  split.
  - intros Hc. apply (sole_run acts NewLink Hc). split; [done|]. split; [|split]; cbn.
    + intros i [l Hl]. by apply lookup_singleton_Some in Hl as [<- _].
    + by rewrite lookup_singleton_eq.
    + intros p. by rewrite lookup_singleton_eq.
  - intros w Hc Hl Ha. pose proof (linkInv_run acts _ linkInv_new) as Hw. fold w in Hw. clearbody w.
    assert (crashed (linkStep w a) = false /\ loops (linkStep w a) !! 1 = Some LReadTop /\
            (stopCh (linkStep w a) ∉ closedChs (linkStep w a)) /\ port (linkStep w a) = None) as (H1 & H2 & H3 & H4).
    { destruct (closePort_rest w) as (E1 & E2 & E3 & _ & E5). unfold linkStep. rewrite Hc.
      destruct Ha as [->|[-> Hs]].
      - split; [by rewrite <- Hc, <- E5|]. split; [by rewrite <- Hl, <- E3|]. split; [|done].
        change (next w ∉ closedChs (closePort w)). rewrite E2. intros Hn%(inv_closed w Hw). lia.
      - split; [by rewrite <- Hc, <- E5|]. split; [by rewrite <- Hl, <- E3|]. split; [|done].
        change (stopCh (closePort w) ∉ closedChs (closePort w)). by rewrite E1, E2. }
    change (linkRun [a; Loop 1 Go] w) with (linkRun [Loop 1 Go] (linkStep w a)).
    rewrite (linkRun_loop 1 Go LReadTop) by done. cbn [loopStep]. unfold chClosed.
    by rewrite bool_decide_false, H4.
Qed.

(** ** Witnesses *)
Definition reading : list linkAction := [Loop 1 Go; Loop 1 (Open true true); Loop 1 Go].

Lemma stop_misses_reader_witness :
  let w1 := linkRun (StopClose :: [Send true []] ++ [StopRest]) (linkRun reading NewLink) in
  connected w1 = false /\
  loops (linkRun [Loop 1 (Read true); Loop 1 Go; Loop 1 Stopped; Wake] w1) !! 1 <> Some LDone.
Proof.
  cbv zeta.
  assert (loops (linkRun reading NewLink) !! 1 = Some (LReading 2)) as Hl by (vm_compute; reflexivity).
  assert (others 1 [Send true []]) as Ho by (repeat constructor; discriminate).
  destruct (stop_misses_reader reading [Send true []] [Loop 1 (Read true); Loop 1 Go; Loop 1 Stopped; Wake] 1 2 Hl Ho)
    as [Hd (Hc & _)]; [vm_compute; reflexivity|].
  split; [exact Hc|]. apply Hd. intros Hin. apply list_elem_of_In in Hin.
  destruct Hin as [E|[E|[E|[E|[]]]]]; discriminate E.
Defined.

Lemma reader_crash_witness :
  crashed (linkRun (reading ++ [StopRest; Loop 1 (Read true)]) NewLink) = false /\
  crashed (linkRun [Wake; Loop 1 Go] (linkRun (take 2 reading) NewLink)) = true.
Proof.
  split.
  - apply (reader_crash (reading ++ [StopRest; Loop 1 (Read true)]) Wake). vm_compute. repeat split; discriminate.
  - apply (reader_crash (take 2 reading) Wake); [vm_compute; reflexivity|vm_compute; reflexivity|].
    right. split; [reflexivity|]. apply (bool_decide_eq_true_1 _). vm_compute. reflexivity.
Defined.
