(* ===== verification/Station.v ===== *)
(** The packet path as [cmd/diginode-cc/main.go] wires it: the dispatcher is
    the packet handler of the serial manager and calls it back with the text of
    mesh packets, whose events may be packets for the dispatcher again. *)
From Stdlib Require Import Floats.SpecFloat.
From S2P Require Import Prelude GoStrings GoFloat Frame Messages Classify FromRadio Dispatcher Regexp RegexpFacts TextEvents TextPatterns TextParser TextSafety SerialManager.

(** ** Definitions *)

(** What happens, in order: the calls of the dispatcher on its handlers and
    those of the serial manager on its callbacks. *)
Inductive entry : Type :=
| Acted (a : action)
| Called (c : call).

(** [reads] counts the readings of the clock. *)
Record Station : Type := mkStation {
  serial : Manager;
  dispatcher : Dispatcher;
  log : list entry;
  reads : nat
}.

#[export] Instance StationHost : Host Station := {
  manager := serial;
  setManager m w := mkStation m (dispatcher w) (log w) (reads w);
  notify c w := mkStation (serial w) (dispatcher w) (log w ++ [Called c]) (reads w)
}.
#[export] Instance StationHost_laws : HostLaws StationHost.
Proof. by split. Qed.

Definition record (a : action) (w : Station) : Station :=
  mkStation (serial w) (dispatcher w) (log w ++ [Acted a]) (reads w).
Definition dispatched (d : Dispatcher) (w : Station) : Station := mkStation (serial w) d (log w) (S (reads w)).
Definition tick (w : Station) : Station := mkStation (serial w) (dispatcher w) (log w) (S (reads w)).

Section Station.
Context `{Unicode}.
Variable rangeOrder : cache -> list Z.
Variable Marshal : data -> option bytes.
Variable fuel : nat.
Variable wired : wiring.
Variable GetLongName : Z -> string.
Variable clock : nat -> Z.

(** The handlers of the dispatcher that act on the serial manager; [handle]
    is [HandlePacket] as the manager calls it. *)
Definition effect (handle : FromRadioPacket.t -> Station -> outcome Station) (a : action) (w : Station)
    : outcome Station :=
  match a with
  | Dispatcher.ProcessMeshText from to channel text =>
      ProcessMeshText rangeOrder Marshal (fun _ => handle) from to channel text w
  | Dispatcher.StoreConfig cfg => Ret (setManager (StoreConfig (Some cfg) (serial w)) w)
  | OnDeviceTimeNow now => Ret (setManager (SetDeviceTime (Some now) (serial w)) w)
  | OnDeviceTime unixSeconds => Ret (setManager (SetDeviceTime (Some (unixSeconds * second)) (serial w)) w)
  | HandleTextMessage from to channel text =>
      Ret (tick (setManager (AddTextMessage (clock (reads w)) ("!" +:+ hex08x from) text "" (serial w)) w))
  | _ => Ret w
  end.

Fixpoint perform (handle : FromRadioPacket.t -> Station -> outcome Station) (acts : list action) (w : Station)
    : outcome Station :=
  match acts with
  | [] => Ret w
  | a :: acts => let! w := effect handle a (record a w) in perform handle acts w
  end.

(** [depth] bounds how often the dispatcher is re-entered. *)
Fixpoint handlePacket (depth : nat) (pkt : FromRadioPacket.t) (w : Station) : outcome Station :=
  match depth with
  | O => Diverge
  | S depth =>
      let! (d, acts) := HandlePacket fuel wired GetLongName (clock (reads w)) pkt (dispatcher w) in
      perform (handlePacket depth) acts (dispatched d w)
  end.

(** The bytes read from the port. *)
Definition receive (depth : nat) (chunks : list bytes) (r : Reader) (w : Station) : outcome (Reader * Station) :=
  readChunks rangeOrder Marshal (fun _ => handlePacket depth) fuel chunks r w.
End Station.

(** The node a call names. *)
Definition nodeHex (num : Z) : string := "!" +:+ hex08x num.

Definition actionFrom (from : Z) (a : action) : Prop :=
  match a with
  | TouchNode n _ _ | ClassifyNode n _ | MarkLocal n | SetFirmwareVersion n _ | SetLastMessage n _
  | SetSensorShortID n _ => n = from
  | HandleTextMessage f _ _ _ | HandleStatusRequest f _ _ _ | WebhookTextMessage f _ _ _
  | Dispatcher.ProcessMeshText f _ _ _ | ObserveInboundPacket f _ _ | HandleDroneDetection f _
  | WebhookDroneDetection f _ | HandlePosition f _ | WebhookPosition f _ | HandleTelemetry f _
  | HandleEnvironment f _ | HandleRoutingAck f _ _ | HandleAdminReply f _ _ => f = from
  | AlertEval nodeID => nodeID = nodeHex from
  | HandleNodeInfo _ | Dispatcher.StoreConfig _ | OnDeviceTimeNow _ | OnDeviceTime _ => True
  end.

Definition callFrom (from : Z) (c : call) : Prop :=
  match c with
  | TargetDetected _ _ _ _ _ _ _ nodeID _ | TriData _ nodeID _ _ _ | CommandAck _ _ nodeID _
  | Alert _ _ nodeID _ _ | BLERaw nodeID _ _ _ _ => nodeID = nodeHex from
  | MeshTelemetry f _ _ _ => f = from
  | TriFinal _ _ _ _ _ | TriComplete _ _ => True
  end.

Definition entryFrom (from : Z) (e : entry) : Prop :=
  match e with Acted a => actionFrom from a | Called c => callFrom from c end.

(** A mesh packet with text. *)
Definition textPacket (mp : MeshPacketData.t) : FromRadioPacket.t :=
  FromRadioPacket.mk FromRadioMeshPacket [] None None (Some mp) None None.
