(* ===== verification/StationFacts.v ===== *)
(** Relational reasoning about [ProcessMeshText], and what the text of a mesh
    packet can do to the station. *)
From Stdlib Require Import Floats.SpecFloat.
From S2P Require Import Prelude GoStrings GoFloat Frame Messages MeshPayload Classify FromRadio Dispatcher Regexp RegexpFacts TextEvents TextPatterns TextParser TextSafety SerialManager Station.

(** ** Node numbers *)
Lemma hexDigitLower_digit d :
  0 <= d < 16 -> exists c, hexDigitLower d = String c EmptyString /\ digitOf (code c) = Some d.
Proof.
  intros Hd.
  enough (Forall (fun d => exists c, hexDigitLower d = String c EmptyString /\ digitOf (code c) = Some d)
            (map Z.of_nat (seq 0 16))) as Hall.
  { rewrite Forall_forall in Hall. apply Hall, list_elem_of_In, in_map_iff.
    exists (Z.to_nat d). split; [lia|]. apply in_seq. lia. }
  repeat (apply Forall_cons; split; [eexists; split; vm_compute; reflexivity|]). constructor.
Qed.

(** One digit of a number written by [%08x]. *)
Lemma uintDigits_nibble v k s :
  0 <= v < 2 ^ 32 -> 0 <= k ->
  uintDigits 16 (2 ^ 32 - 1) (codes (hexDigitLower (Z.land (Z.shiftr v k) 15) +:+ s)) (v / 2 ^ (k + 4))
    = uintDigits 16 (2 ^ 32 - 1) (codes s) (v / 2 ^ k).
Proof.
  intros Hv Hk.
  assert (Z.land (Z.shiftr v k) 15 = (v / 2 ^ k) mod 16) as ->
    by (rewrite Z.shiftr_div_pow2 by done; change 15 with (Z.ones 4); by rewrite Z.land_ones).
  assert (v / 2 ^ (k + 4) * 16 + (v / 2 ^ k) mod 16 = v / 2 ^ k) as Hs.
  { rewrite Z.pow_add_r, <- Z.div_div by lia. change (2 ^ 4) with 16.
    pose proof (Z.div_mod (v / 2 ^ k) 16 ltac:(lia)). lia. }
  assert (0 <= v / 2 ^ k < 2 ^ 32) as Hb by (split; [apply Z.div_pos; lia|];
    apply Z.div_lt_upper_bound; [lia|]; nia).
  pose proof (Z.mod_pos_bound (v / 2 ^ k) 16 ltac:(lia)) as Hd.
  destruct (hexDigitLower_digit _ Hd) as (c & -> & Hc).
  change (codes (String c EmptyString +:+ s)) with (code c :: codes s). cbn [uintDigits]. rewrite Hc, Hs.
  destruct (Z.leb_spec 16 ((v / 2 ^ k) mod 16)); [lia|].
  by destruct (Z.ltb_spec (2 ^ 32 - 1) (v / 2 ^ k)); [lia|].
Qed.

(** [parseNodeNum] reads back what [%08x] wrote. *)
Lemma parseNodeNum_nodeHex v : 0 <= v < 2 ^ 32 -> parseNodeNum (nodeHex v) = v.
Proof.
  intros Hv. unfold parseNodeNum. assert (forall s, HasPrefix ("!" +:+ s) "!" = true) as Hp by (by intros [|c s]).
  unfold nodeHex at 1. rewrite Hp.
  change (string_drop 1 (nodeHex v)) with (hex08x v).
  enough (uintDigits 16 (2 ^ 32 - 1) (codes (hex08x v)) 0 = IntOK v) as E.
  { unfold ParseUint. destruct (codes (hex08x v)) as [|c l]; [by injection E as <-|]. by rewrite E. }
  replace 0 with (v / 2 ^ (28 + 4)) by (apply Z.div_small; done). unfold hex08x.
  rewrite (uintDigits_nibble v 28), (uintDigits_nibble v 24), (uintDigits_nibble v 20), (uintDigits_nibble v 16),
    (uintDigits_nibble v 12), (uintDigits_nibble v 8), (uintDigits_nibble v 4) by lia.
  rewrite <- (Z.shiftr_0_r v) at 1. rewrite <- (string_app_nil_r (hexDigitLower _)).
  rewrite (uintDigits_nibble v 0) by lia. cbn [codes]. by rewrite Z.pow_0_r, Z.div_1_r.
Qed.

(** ** [ParseLine] never runs for ever *)
Lemma ParseLine_cases `{Unicode} rangeOrder line c :
  ParseLine rangeOrder line c = Panic \/ exists es c', ParseLine rangeOrder line c = Ret (es, c').
Proof.
  unfold ParseLine. destruct (blank _); [by eauto|]. destruct (fragment _); [by eauto|].
  destruct (extract_cases (clean line)) as [[_ ->]|[_ [p ->]]]; cbn [obind]; [by left|]. right.
  destruct (firstMatch _ _ _); [by eauto|]. destruct (isMeshtasticEcho _); [|by eauto].
  destruct (parseTextEcho _ _ _) as [es c']. by eauto.
Qed.

(** ** Relational reasoning

    Two runs of [ProcessMeshText] on one state that differ in the packet
    handler only: [R w m m'] holds of them when it holds of their steps. *)
Section Relational.
Context `{Unicode} {W : Type} `{Host W}.
Variable rangeOrder : cache -> list Z.
Variable Marshal : data -> option bytes.
Variables invoke invoke' : Z -> FromRadioPacket.t -> W -> outcome W.
Variable from : Z.
Variable R : W -> outcome W -> outcome W -> Prop.

Hypothesis from_range : 0 <= from < 2 ^ 32.
Hypothesis R_ret : forall w, R w (Ret w) (Ret w).
Hypothesis R_panic : forall w, R w Panic Panic.
Hypothesis R_bind : forall w m m' k k',
  R w m m' -> (forall w', m = Ret w' -> R w' (k w') (k' w')) -> R w (obind m k) (obind m' k').
Hypothesis R_set : forall w m, R w (Ret (setManager m w)) (Ret (setManager m w)).
Hypothesis R_notify : forall w c, (0 < from -> callFrom from c) -> R w (Ret (notify c w)) (Ret (notify c w)).
Hypothesis R_invoke : forall w h id json,
  R w (invoke h (syntheticPacket PortNumDetectionSensor from 0 id json) w)
      (invoke' h (syntheticPacket PortNumDetectionSensor from 0 id json) w).

Lemma invokeAll_rel hs id json w :
  let pkt := syntheticPacket PortNumDetectionSensor from 0 id json in
  R w (invokeAll invoke hs pkt w) (invokeAll invoke' hs pkt w).
Proof.
  cbv zeta. revert w. induction hs as [|h hs IH]; intros w; cbn [invokeAll]; [apply R_ret|].
  apply R_bind; [apply R_invoke|]. intros w' _. apply IH.
Qed.

Lemma callIf_rel b c w : (0 < from -> callFrom from c) -> R w (Ret (callIf b c w)) (Ret (callIf b c w)).
Proof. intros Hc. destruct b; [by apply R_notify|apply R_ret]. Qed.

Lemma dispatch_rel e w :
  NodeID e = nodeHex from -> Kind e <> "text-message" ->
  R w (dispatchTextEvent Marshal invoke e w) (dispatchTextEvent Marshal invoke' e w).
Proof.
  intros Hn Hk. unfold dispatchTextEvent. rewrite Hn, parseNodeNum_nodeHex by lia.
  rewrite (bool_decide_false _ Hk). cbv zeta.
  destruct (bool_decide (Kind e = "drone-telemetry")).
  { destruct (Marshal (Data e)) as [json|]; [|apply R_ret]. unfold packetIDOf.
    destruct (PacketID e =? 0); [|apply invokeAll_rel].
    apply (R_bind w (Ret (setManager (set_syntheticID (uint32 (syntheticID (manager w) + 1)) (manager w)) w))
                    (Ret (setManager (set_syntheticID (uint32 (syntheticID (manager w) + 1)) (manager w)) w))
      (invokeAll invoke _ _) (invokeAll invoke' _ _)); [apply R_set|]. intros w' _. apply invokeAll_rel. }
  repeat (case_bool_decide; [try (destruct (blank _); [by apply R_ret|]); apply callIf_rel; intros Hpos; cbn [callFrom]; destruct (Z.eqb_spec from 0); [lia|done]|]).
  apply R_ret.
Qed.

Lemma dispatchAll_rel es w :
  Forall (fun e => NodeID e = nodeHex from /\ Kind e <> "text-message") es ->
  R w (dispatchAll Marshal invoke es w) (dispatchAll Marshal invoke' es w).
Proof.
  intros He. revert w. induction He as [|e es [Hn Hk] _ IH]; intros w; cbn [dispatchAll]; [apply R_ret|].
  apply R_bind; [by apply dispatch_rel|]. intros w' _. apply IH.
Qed.

Lemma meshLine_rel to line w :
  R w (meshLine rangeOrder Marshal invoke from to line w) (meshLine rangeOrder Marshal invoke' from to line w).
Proof.
  unfold meshLine. destruct (blank _); [apply R_ret|]. unfold parseAndDispatch.
  destruct (textParser (manager w)) as [c|]; [|apply R_ret].
  destruct (ParseLine_cases rangeOrder (TrimSpace line) c) as [->|(es & c' & ->)]; cbn [obind]; [apply R_panic|].
  set (evs := map _ _). apply (R_bind w (Ret _) (Ret _) (dispatchAll Marshal invoke evs) (dispatchAll Marshal invoke' evs)).
  - apply R_set.
  - intros w' _. apply dispatchAll_rel. unfold evs. apply Forall_map, List.Forall_forall.
    intros e [_ Hk]%filter_In. split; [done|]. cbn. unfold meshKeep in Hk.
    apply negb_true_iff, bool_decide_eq_false in Hk. intros E. apply Hk. rewrite E. set_solver.
Qed.

Lemma mesh_rel to channel text w :
  R w (ProcessMeshText rangeOrder Marshal invoke from to channel text w)
      (ProcessMeshText rangeOrder Marshal invoke' from to channel text w).
Proof.
  unfold ProcessMeshText. destruct (_ || _); [apply R_ret|].
  generalize (Split newlineChar text) as lines. intros lines. revert w.
  induction lines as [|l lines IH]; intros w; cbn [meshLines]; [apply R_ret|].
  apply R_bind; [apply meshLine_rel|]. intros w' _. apply IH.
Qed.
End Relational.

(** ** The station *)
Definition quiet (a : action) : Prop :=
  match a with Dispatcher.ProcessMeshText _ _ _ _ => False | _ => True end.

Section Station.
Context `{Unicode}.
Variable rangeOrder : cache -> list Z.
Variable Marshal : data -> option bytes.
Variable fuel : nat.
Variable wired : wiring.
Variable GetLongName : Z -> string.
Variable clock : nat -> Z.
Notation effect := (effect rangeOrder Marshal clock).
Notation perform := (perform rangeOrder Marshal clock).
Notation handlePacket := (handlePacket rangeOrder Marshal fuel wired GetLongName clock).

Lemma Forall_when (P : action -> Prop) b l : (b = true -> Forall P l) -> Forall P (when b l).
Proof. intros Hl. destruct b; [by apply Hl|constructor]. Qed.

(** Every action for a mesh packet names its sender. *)
Lemma handleText_from mp : Forall (actionFrom (MeshPacketData.From mp)) (handleText wired mp).
Proof.
  unfold handleText. rewrite !Forall_app. repeat split; apply Forall_when; intros _;
    repeat (apply Forall_cons; split; [done|]); try apply Forall_nil_2.
  apply Forall_when. intros _. apply Forall_cons. split; [done|]. apply Forall_when. intros _. by repeat constructor.
Qed.

Lemma touch_from mp : Forall (actionFrom (MeshPacketData.From mp)) (touchAndClassify wired GetLongName mp).
Proof.
  unfold touchAndClassify. apply Forall_when. intros _. apply Forall_cons. split; [done|].
  destruct (_ && _); [by repeat constructor|]. apply Forall_when. intros _. by repeat constructor.
Qed.

Lemma handlePosition_from mp acts :
  handlePosition fuel wired mp = Ret acts -> Forall (actionFrom (MeshPacketData.From mp)) acts.
Proof.
  unfold handlePosition. destruct (_ && _); [|intros [= <-]; constructor].
  destruct (decodePositionPayload _ _); cbn [obind]; try done. intros [= <-].
  apply Forall_cons. split; [done|]. apply Forall_app. split; apply Forall_when; intros _; by repeat constructor.
Qed.

Lemma handleTelemetry_from mp d r :
  handleTelemetry fuel wired mp d = Ret r -> Forall (actionFrom (MeshPacketData.From mp)) r.2.
Proof.
  unfold handleTelemetry. destruct (_ >? 0); [|intros [= <-]; constructor].
  destruct (decodeTelemetryPayload _ _) as [[dm em]| |]; cbn [obind]; try done. intros [= <-]. cbn [fst snd].
  apply Forall_app. split; [destruct dm|destruct em]; try constructor; apply Forall_when; intros _; by repeat constructor.
Qed.

Lemma handleDetection_from mp : Forall (actionFrom (MeshPacketData.From mp)) (handleDetection wired mp).
Proof.
  unfold handleDetection. rewrite !Forall_app. repeat split; apply Forall_when; intros _; by repeat constructor.
Qed.

Lemma handleMeshPacket_from now mp d d' acts :
  handleMeshPacket fuel wired GetLongName now mp d = Ret (d', acts) ->
  Forall (actionFrom (MeshPacketData.From mp)) acts.
Proof.
  unfold handleMeshPacket. destruct (isDuplicate _ _ _) as [[] m]; [intros [= _ <-]; constructor|].
  cbv zeta. set (first := _ ++ touchAndClassify _ _ _).
  assert (Forall (actionFrom (MeshPacketData.From mp)) first) as Hf.
  { apply Forall_app. split; [|apply touch_from]. apply Forall_when. intros _. by repeat constructor. }
  clearbody first.
  destruct (_ =? PortNumTextMessage); [intros [= _ <-]; apply Forall_app; split; [done|apply handleText_from]|].
  destruct (_ =? PortNumPosition).
  { destruct (handlePosition _ _ _) eqn:E; cbn [obind]; try done. intros [= _ <-]. apply Forall_app.
    split; [done|by apply handlePosition_from]. }
  destruct (_ =? PortNumTelemetry).
  { destruct (handleTelemetry _ _ _ _) eqn:E; cbn [obind]; try done. intros [= _ <-]. apply Forall_app.
    split; [done|by eapply handleTelemetry_from]. }
  destruct (_ =? PortNumDetectionSensor); [intros [= _ <-]; apply Forall_app; split; [done|apply handleDetection_from]|].
  destruct (_ =? PortNumRouting); [|destruct (_ =? PortNumAdmin)]; intros [= _ <-]; try done;
    (apply Forall_app; split; [done|]; apply Forall_when; intros _; by repeat constructor).
Qed.

(** A detection packet has the dispatcher call none of the serial manager. *)
Lemma detection_acts from id json now d :
  exists r, HandlePacket fuel wired GetLongName now (syntheticPacket PortNumDetectionSensor from 0 id json) d = Ret r /\
    Forall quiet r.2 /\ Forall (actionFrom from) r.2.
Proof.
  cbn [HandlePacket syntheticPacket FromRadioPacket.Type_ FromRadioPacket.MeshPacket].
  set (mp := MeshPacketData.set_ID _ _).
  pose proof (handleMeshPacket_from now mp d) as Hf. unfold handleMeshPacket in *.
  destruct (isDuplicate _ mp _) as [[] m]; [eexists; split; [done|]; split; [constructor|by eapply Hf]|].
  eexists. split; [done|]. split; [|by eapply Hf]. cbn [snd]. clear Hf. rewrite !Forall_app. repeat split.
  - apply Forall_when. intros _. by repeat constructor.
  - unfold touchAndClassify. apply Forall_when. intros _. apply Forall_cons. split; [done|].
    cbn. by repeat constructor.
  - unfold handleDetection. rewrite !Forall_app. repeat split; apply Forall_when; intros _; by repeat constructor.
Qed.

Lemma effect_quiet h h' a w : quiet a -> effect h a w = effect h' a w.
Proof. by destruct a. Qed.

Lemma perform_quiet h h' acts w : Forall quiet acts -> perform h acts w = perform h' acts w.
Proof.
  intros Hq. revert w. induction Hq as [|a acts Ha _ IH]; intros w; cbn [Station.perform]; [done|].
  rewrite (effect_quiet h h') by done. destruct (effect h' a _); cbn [obind]; [apply IH|done|done].
Qed.

Lemma effect_returns h a w : quiet a -> exists w', effect h a w = Ret w'.
Proof. destruct a; cbn [quiet]; intros Hq; try done; by eexists. Qed.

Lemma perform_returns h acts w : Forall quiet acts -> exists w', perform h acts w = Ret w'.
Proof.
  intros Hq. revert w. induction Hq as [|a acts Ha _ IH]; intros w; cbn [Station.perform]; [by eexists|].
  destruct (effect_returns h a (record a w) Ha) as [w' ->]. apply IH.
Qed.

(** Such a packet is handled without entering the manager again. *)
Lemma detection_depth n from id json w :
  handlePacket (S n) (syntheticPacket PortNumDetectionSensor from 0 id json) w
    = handlePacket 1 (syntheticPacket PortNumDetectionSensor from 0 id json) w /\
  exists w', handlePacket 1 (syntheticPacket PortNumDetectionSensor from 0 id json) w = Ret w'.
Proof.
  cbn [Station.handlePacket].
  destruct (detection_acts from id json (clock (reads w)) (dispatcher w)) as ([d acts] & -> & Hq & _).
  cbn [obind snd] in *. split; [by apply perform_quiet|by apply perform_returns].
Qed.

(** Text goes one level deeper. *)
Lemma mesh_depth n from to channel text w :
  0 <= from < 2 ^ 32 ->
  ProcessMeshText rangeOrder Marshal (fun _ => handlePacket (S n)) from to channel text w
    = ProcessMeshText rangeOrder Marshal (fun _ => handlePacket 1) from to channel text w.
Proof.
  intros Hr. apply (mesh_rel rangeOrder Marshal _ _ from (fun _ m m' => m = m')); try done.
  - intros w0 m m' k k' -> Hk. destruct m'; cbn [obind]; auto.
  - intros w0 h id json. apply detection_depth.
Qed.

Lemma mesh_returns from to channel text w :
  0 <= from < 2 ^ 32 ->
  ProcessMeshText rangeOrder Marshal (fun _ => handlePacket 1) from to channel text w <> Diverge.
Proof.
  intros Hr. apply (mesh_rel rangeOrder Marshal _ (fun _ => handlePacket 1) from (fun _ m _ => m <> Diverge)); try done.
  - intros w0 m m' k k' Hm Hk. destruct m; cbn [obind]; auto.
  - intros w0 h id json. destruct (detection_depth 0 from id json w0) as [_ [w' ->]]. done.
Qed.

(** *** Every packet *)
Definition meshRange (a : action) : Prop :=
  match a with Dispatcher.ProcessMeshText f _ _ _ => 0 <= f < 2 ^ 32 | _ => True end.

Lemma quiet_range a : quiet a -> meshRange a.
Proof. by destruct a. Qed.

Lemma reportFirmware_quiet num d : Forall quiet (reportFirmware num d).
Proof. apply Forall_when. intros _. by repeat constructor. Qed.

Lemma HandlePacket_range now pkt d d' acts :
  (forall mp, FromRadioPacket.MeshPacket pkt = Some mp -> 0 <= MeshPacketData.From mp < 2 ^ 32) ->
  HandlePacket fuel wired GetLongName now pkt d = Ret (d', acts) -> Forall meshRange acts.
Proof.
  intros Hr. unfold HandlePacket.
  destruct (FromRadioPacket.Type_ pkt); try (intros [= _ <-]; constructor).
  - destruct (FromRadioPacket.MyInfo pkt) as [info|]; [|intros [= _ <-]; constructor].
    intros [= _ <-]. eapply Forall_impl; [|apply quiet_range]. apply Forall_app.
    split; apply Forall_when; intros _; [by repeat constructor|].
    do 3 (apply Forall_cons; split; [done|]). apply reportFirmware_quiet.
  - destruct (FromRadioPacket.NodeInfo pkt) as [info|]; [|intros [= _ <-]; constructor].
    unfold handleNodeInfo. intros Hd. eapply Forall_impl; [|apply quiet_range]. revert Hd.
    destruct (nodeHandler wired); [|intros [= _ <-]; constructor].
    destruct (_ && _); [|destruct (_ && _)]; intros [= _ <-]; repeat (apply Forall_cons; split; [done|]);
      try apply reportFirmware_quiet; constructor.
  - destruct (FromRadioPacket.MeshPacket pkt) as [mp|]; [|intros [= _ <-]; constructor].
    intros Hm%handleMeshPacket_from. eapply Forall_impl; [exact Hm|]. intros [] Ha; try done. cbn in *. subst.
    by apply Hr.
  - destruct (FromRadioPacket.Config pkt); intros [= _ <-]; [|constructor]. apply Forall_when. intros _. by repeat constructor.
  - destruct (FromRadioPacket.Metadata pkt) as [meta|]; [|intros [= _ <-]; constructor].
    unfold handleMetadata. case_bool_decide; intros [= _ <-]; [constructor|].
    apply Forall_when. intros _. by repeat constructor.
Qed.

Lemma perform_depth n acts w :
  Forall meshRange acts -> perform (handlePacket (S n)) acts w = perform (handlePacket 1) acts w.
Proof.
  intros Hq. revert w. induction Hq as [|a acts Ha _ IH]; intros w; cbn [Station.perform]; [done|].
  assert (effect (handlePacket (S n)) a (record a w) = effect (handlePacket 1) a (record a w)) as ->.
  { destruct a; try done. cbn [Station.effect]. by apply mesh_depth. }
  destruct (effect _ a _); cbn [obind]; [apply IH|done|done].
Qed.

Lemma perform_not_diverge acts w :
  Forall meshRange acts -> perform (handlePacket 1) acts w <> Diverge.
Proof.
  intros Hq. revert w. induction Hq as [|a acts Ha _ IH]; intros w; cbn [Station.perform]; [done|].
  destruct (effect (handlePacket 1) a (record a w)) eqn:E; cbn [obind]; [apply IH|done|].
  destruct a; try done. cbn [Station.effect] in E. by apply mesh_returns in E.
Qed.

Lemma handlePacket_S n pkt w :
  handlePacket (S n) pkt w
    = let! (d, acts) := HandlePacket fuel wired GetLongName (clock (reads w)) pkt (dispatcher w) in
      perform (handlePacket n) acts (dispatched d w).
Proof. done. Qed.

Lemma text_acts now mp d :
  MeshPacketData.PortNum mp = PortNumTextMessage ->
  exists r, HandlePacket fuel wired GetLongName now (textPacket mp) d = Ret r.
Proof.
  intros Hp. cbn. unfold handleMeshPacket. destruct (isDuplicate _ _ _) as [[] m]; [by eexists|].
  rewrite Hp. by eexists.
Qed.

(** *** The log *)
Definition grows (from : Z) (w w' : Station) : Prop :=
  exists new, log w' = log w ++ new /\ Forall (entryFrom from) new.

Lemma grows_same from w w' : log w' = log w -> grows from w w'.
Proof. intros E. exists []. by rewrite E, app_nil_r. Qed.
Lemma grows_trans from w1 w2 w3 : grows from w1 w2 -> grows from w2 w3 -> grows from w1 w3.
Proof.
  intros (l & E & Hl) (k & E' & Hk). exists (l ++ k). rewrite E', E, app_assoc. split; [done|by apply Forall_app].
Qed.
Lemma grows_record from a w : actionFrom from a -> grows from w (record a w).
Proof. intros Ha. exists [Acted a]. split; [done|]. by repeat constructor. Qed.

Lemma effect_quiet_grows from h a w w' : quiet a -> effect h a w = Ret w' -> grows from w w'.
Proof. destruct a; cbn [quiet]; intros Hq; try done; intros [= <-]; by apply grows_same. Qed.

Lemma perform_quiet_grows from h acts w w' :
  Forall quiet acts -> Forall (actionFrom from) acts -> perform h acts w = Ret w' -> grows from w w'.
Proof.
  intros Hq. revert w. induction Hq as [|a acts Ha _ IH]; intros w Hf; cbn [Station.perform].
  - intros [= <-]. by apply grows_same.
  - apply Forall_cons in Hf as [Hfa Hf]. destruct (effect h a (record a w)) as [w1| |] eqn:E; cbn [obind]; try done.
    intros Hp. eapply grows_trans; [by apply (grows_record from a)|].
    eapply grows_trans; [by eapply effect_quiet_grows|by apply IH].
Qed.

Lemma detection_grows n from id json w w' :
  handlePacket n (syntheticPacket PortNumDetectionSensor from 0 id json) w = Ret w' -> grows from w w'.
Proof.
  destruct n as [|n]; [done|]. cbn [Station.handlePacket].
  destruct (detection_acts from id json (clock (reads w)) (dispatcher w)) as ([d acts] & -> & Hq & Hf).
  cbn [obind snd] in *. intros Hp. eapply perform_quiet_grows in Hp; [|done|done].
  eapply grows_trans; [|exact Hp]. by apply grows_same.
Qed.

Lemma mesh_grows n from to channel text w w' :
  0 < from < 2 ^ 32 ->
  ProcessMeshText rangeOrder Marshal (fun _ => handlePacket n) from to channel text w = Ret w' -> grows from w w'.
Proof.
  intros Hr. assert (0 <= from < 2 ^ 32) as Hr0 by lia. revert w'.
  apply (mesh_rel rangeOrder Marshal (fun _ => handlePacket n) (fun _ => handlePacket n) from
           (fun w m _ => forall w', m = Ret w' -> grows from w w') Hr0).
  - intros w0 w' [= <-]. by apply grows_same.
  - done.
  - intros w0 m m' k k' Hm Hk w' E. destruct m as [w1| |]; try done. cbn [obind] in E.
    eapply grows_trans; [by apply Hm|by eapply Hk].
  - intros w0 m w' [= <-]. by apply grows_same.
  - intros w0 c Hc w' [= <-]. exists [Called c]. split; [done|]. repeat constructor. apply Hc. lia.
  - intros w0 h id json w'. apply detection_grows.
Qed.

Lemma perform_grows n from acts w w' :
  0 < from < 2 ^ 32 -> Forall (actionFrom from) acts -> perform (handlePacket n) acts w = Ret w' -> grows from w w'.
Proof.
  intros Hr Hf. revert w. induction Hf as [|a acts Ha _ IH]; intros w; cbn [Station.perform].
  - intros [= <-]. by apply grows_same.
  - destruct (effect _ a (record a w)) as [w1| |] eqn:E; cbn [obind]; try done. intros Hp.
    eapply grows_trans; [by apply (grows_record from a)|]. eapply grows_trans; [|by apply IH].
    destruct a; try (eapply effect_quiet_grows; [|exact E]; done).
    cbn in Ha. subst. cbn [Station.effect] in E. by eapply mesh_grows.
Qed.

(** *** A text that stops the program *)
Lemma ParseLine_panics line c :
  clean line <> EmptyString -> fragment (clean line) = false -> overrun (clean line) ->
  ParseLine rangeOrder line c = Panic.
Proof.
  intros He Hf Ho. unfold ParseLine, blank. rewrite bool_decide_false, Hf by done.
  by destruct (extract_cases (clean line)) as [[_ ->]|[Hn _]].
Qed.

Lemma effect_quiet_parser h a w w' :
  quiet a -> effect h a w = Ret w' -> textParser (serial w') = textParser (serial w).
Proof.
  destruct a; cbn [quiet]; intros Hq; try done; intros [= <-]; try done.
  cbn. unfold SerialManager.StoreConfig. by destruct (blank _).
Qed.

Lemma perform_panics h pre a post w :
  Forall quiet pre ->
  (forall w', textParser (serial w') = textParser (serial w) -> effect h a w' = Panic) ->
  perform h (pre ++ a :: post) w = Panic.
Proof.
  intros Hq. revert w. induction Hq as [|x pre Hx _ IH]; intros w Ha; cbn [app Station.perform].
  - by rewrite Ha.
  - destruct (effect_returns h x (record x w) Hx) as [w1 E]. rewrite E. cbn [obind]. apply IH.
    intros w' Hw. apply Ha. rewrite Hw. by apply (effect_quiet_parser _ _ _ _ Hx E).
Qed.

Lemma mesh_panics h from to channel text c w :
  textParser (serial w) = Some c -> Split newlineChar text = [text] ->
  clean (TrimSpace text) <> EmptyString -> fragment (clean (TrimSpace text)) = false ->
  overrun (clean (TrimSpace text)) ->
  ProcessMeshText rangeOrder Marshal h from to channel text w = Panic.
Proof.
  intros Hp Hs He Hf Ho. unfold ProcessMeshText. cbn [manager StationHost]. rewrite Hp, Hs.
  rewrite bool_decide_false by done. cbn [orb]. assert (blank text = false) as ->.
  { unfold blank. apply bool_decide_false. intros ->. by apply He. }
  cbn [meshLines]. unfold meshLine. assert (blank (TrimSpace text) = false) as ->.
  { unfold blank. apply bool_decide_false. intros E. apply He. by rewrite E. }
  unfold parseAndDispatch. cbn [manager StationHost]. rewrite Hp. by rewrite ParseLine_panics.
Qed.

(** ** Properties *)

(** C24: handling a packet re-enters the dispatcher at most once: a depth of two
    gives the result of every greater depth, and for a text message that result
    is a state or a panic, never an endless recursion. *)
Theorem reentry_bounded n pkt w :
  (forall mp, FromRadioPacket.MeshPacket pkt = Some mp -> 0 <= MeshPacketData.From mp < 2 ^ 32) ->
  handlePacket (S (S n)) pkt w = handlePacket 2 pkt w /\
  (forall mp, pkt = textPacket mp -> MeshPacketData.PortNum mp = PortNumTextMessage ->
     handlePacket 2 pkt w <> Diverge).
Proof.
  intros Hr. rewrite (handlePacket_S (S n)), (handlePacket_S 1). split.
  - destruct (HandlePacket _ _ _ _ pkt _) as [[d acts]| |] eqn:E; cbn [obind]; try done.
    apply perform_depth. by eapply HandlePacket_range.
  - intros mp -> Hp. destruct (text_acts (clock (reads w)) mp (dispatcher w) Hp) as [[d acts] E].
    rewrite E. cbn [obind]. apply perform_not_diverge. by eapply HandlePacket_range.
Qed.


(** One text message whose lower-case form is longer than itself by enough
    to push its last [msg=] past the end makes the handling of its packet panic,
    in the goroutine that reads the port. *)
Theorem text_panics n mp c w :
  let text := string_of_bytes (MeshPacketData.Payload mp) in
  let cleaned := clean (TrimSpace text) in
  serialMgr wired = true -> textParser (serial w) = Some c ->
  MeshPacketData.PortNum mp = PortNumTextMessage ->
  (isDuplicate (dedup (dispatcher w)) mp (clock (reads w))).1 = false ->
  Split newlineChar text = [text] -> cleaned <> EmptyString -> fragment cleaned = false -> overrun cleaned ->
  handlePacket (S n) (textPacket mp) w = Panic.
Proof.
  intros text cleaned Hw Hp Hport Hdup Hs He Hf Ho. rewrite handlePacket_S. cbn [HandlePacket textPacket
    FromRadioPacket.Type_ FromRadioPacket.MeshPacket]. unfold handleMeshPacket.
  destruct (isDuplicate _ mp _) as [dup m]. cbn in Hdup. subst dup. rewrite Hport. cbn [obind].
  change (PortNumTextMessage =? PortNumTextMessage) with true. cbv zeta iota beta. unfold handleText. rewrite Hw.
  assert (zlen (MeshPacketData.Payload mp) >? 0 = true) as ->.
  { destruct (MeshPacketData.Payload mp) as [|b l] eqn:E; [|apply Z.gtb_lt; zlen_lia].
    by destruct He. }
  cbn [andb when]. rewrite !app_assoc. apply perform_panics.
  - rewrite !Forall_app. repeat split; try (apply Forall_when; intros _; by repeat constructor).
    unfold touchAndClassify. apply Forall_when. intros _. apply Forall_cons. split; [done|].
    destruct (_ && _); [by repeat constructor|]. apply Forall_when. intros _. by repeat constructor.
  - intros w' Hw'. cbn [Station.effect]. by apply (mesh_panics _ _ _ _ _ c); rewrite ?Hw'.
Qed.
End Station.

(** ** Witnesses *)
Definition sensor : Z := 0x0409c9d8.
Definition textMessage (id : Z) (text : string) : MeshPacketData.t :=
  MeshPacketData.set_ID id (MeshPacketData.set_To 0xFFFFFFFF (MeshPacketData.set_From sensor
    (MeshPacketData.set_PortNum PortNumTextMessage
      (MeshPacketData.set_Payload (bytes_of_string text) MeshPacketData.zero)))).

Definition started : Station :=
  mkStation (RegisterHandler 0 (set_callbacks allCallbacks NewManager)) NewDispatcher [] 0.
Definition oneSecond (n : nat) : Z := Z.of_nat n * second.
Definition anyJSON (d : data) : option bytes := Some (bytes_of_string "{}").
Definition nobody (num : Z) : string := EmptyString.

Lemma reentry_bounded_witness :
  let pkt := textPacket (textMessage 7 "AH34: DRONE: aa:bb:cc:dd:ee:ff ID:X1 R-50 GPS:1.5,2.5") in
  let run := fun depth => @handlePacket asciiUnicode keyOrder anyJSON 10 allWired nobody oneSecond depth pkt started in
  run 9%nat = run 2%nat /\ run 2%nat <> Diverge.
Proof.
  cbv zeta.
  pose proof (@reentry_bounded asciiUnicode keyOrder anyJSON 10 allWired nobody oneSecond 7
    (textPacket (textMessage 7 "AH34: DRONE: aa:bb:cc:dd:ee:ff ID:X1 R-50 GPS:1.5,2.5")) started) as [E Hd].
  - intros mp [= <-]. vm_compute. split; [discriminate|reflexivity].
  - split; [exact E|]. apply (Hd (textMessage 7 "AH34: DRONE: aa:bb:cc:dd:ee:ff ID:X1 R-50 GPS:1.5,2.5")); reflexivity.
Defined.


(** U+023A, two bytes, has the lower-case form U+2C65, three bytes. *)
Fixpoint lowerA (s : string) : string :=
  match s with
  | EmptyString => EmptyString
  | String c rest =>
      match rest with
      | String d t =>
          if (code c =? 0xC8) && (code d =? 0xBA) then bytes_string [0xE2; 0xB1; 0xA5] +:+ lowerA t
          else String (lowerASCII c) (lowerA rest)
      | EmptyString => String (lowerASCII c) EmptyString
      end
  end.
Definition latinUnicode : Unicode := {| mapUpper := smap upperASCII; mapLower := lowerA |}.

Definition sixBytes : string := bytes_string [0xC8; 0xBA] +:+ "msg=".

Lemma text_panics_witness :
  @handlePacket latinUnicode keyOrder anyJSON 10 allWired nobody oneSecond 2
    (textPacket (textMessage 7 sixBytes)) started = Panic.
Proof.
  apply (@text_panics latinUnicode keyOrder anyJSON 10 allWired nobody oneSecond 1 (textMessage 7 sixBytes) ∅ started);
    try (vm_compute; reflexivity).
  - vm_compute. discriminate.
  - exists 3%nat. split; [vm_compute; reflexivity|vm_compute; lia].
Defined.

(** The same from the bytes on the port: a FromRadio frame with that packet. *)
Definition hostileFrame : bytes :=
  EncodeFrame (map byte_of_Z
    [0x12; 0x1B; 0x0D; 0xD8; 0xC9; 0x09; 0x04; 0x15; 0xFF; 0xFF; 0xFF; 0xFF; 0x22; 0x0A; 0x08; 0x01; 0x12; 0x06;
     0xC8; 0xBA; 0x6D; 0x73; 0x67; 0x3D; 0x35; 0x07; 0x00; 0x00; 0x00]).

Example hostile_frame :
  @receive latinUnicode keyOrder anyJSON 10 allWired nobody oneSecond 2 [hostileFrame] NewReader started = Panic /\
  exists r, @receive asciiUnicode keyOrder anyJSON 10 allWired nobody oneSecond 2 [hostileFrame] NewReader started
    = Ret r /\ map Message (textMessages (serial r.2)) = [sixBytes].
Proof. split; [vm_compute; reflexivity|]. eexists. split; vm_compute; reflexivity. Qed.
