(* ===== verification/TextCommands.v ===== *)
(** The command queue behind the text parser: [main.go] hands every
    acknowledgement the serial manager finds in a line to
    [HandleStructuredACK]. *)
From S2P Require Import Prelude GoStrings Builder Commands.
From S2P Require Import Regexp TextEvents TextParser TextAcks SerialManager.

(** ** Definitions *)

(** Commands that only an unreachable acknowledgement covers. *)
Definition unanswerable : list string := ["ERASE_FORCE"; "AUTOERASE_ENABLE"].

Section Answers.
Context `{U : Unicode}.
Variable quote : string -> string.
Variable uuid : Z -> string.
Variable rangeOrder : cache -> list Z.

(** An event of some line; the serial manager may have replaced its node. *)
Definition yielded (e : ParsedEvent) : Prop :=
  exists line c es c' e0, ParseLine rangeOrder line c = Ret (es, c') /\ e0 ∈ es /\
    TextEvents.Kind e = TextEvents.Kind e0 /\ Data e = Data e0.

(** The events are dispatched one after the other; each acknowledgement is
    handed over as [dispatchTextEvent] does. *)
Inductive answered : list ParsedEvent -> Service -> Service -> Prop :=
| answered_nil s : answered [] s s
| answered_ack e es ord ord' now result s s' :
    TextEvents.Kind e = "command-ack" ->
    answered es (HandleStructuredACK quote uuid ord ord' now (asString (Data e !! "ackType"))
                   (asString (Data e !! "status")) (TextEvents.NodeID e) result s) s' ->
    answered (e :: es) s s'
| answered_other e es s s' :
    TextEvents.Kind e <> "command-ack" -> answered es s s' -> answered (e :: es) s s'.

(** ** Lemmas *)
Lemma unanswerable_matches :
  forallb (fun p => bool_decide (p.1 ∈ unreachableAcks) ||
                    forallb (fun n => negb (nameMatches p.1 p.2 n)) unanswerable) (map_to_list ACKMap) = true.
Proof. vm_compute. reflexivity. Qed.

Lemma not_covered kind name cmd :
  kind ∉ unreachableAcks -> ACKMap !! kind = Some name -> cmdName cmd ∈ unanswerable -> covers kind name cmd = false.
Proof.
  intros Hk Hn%elem_of_map_to_list%list_elem_of_In Hc%list_elem_of_In. pose proof unanswerable_matches as Hm.
  rewrite forallb_forall in Hm. apply Hm in Hn. clear Hm. cbn [fst snd] in Hn. rewrite bool_decide_false in Hn by done.
  cbn [orb] in Hn. rewrite forallb_forall in Hn. apply Hn, negb_true_iff in Hc. unfold covers. by rewrite Hc.
Qed.

Lemma probe_not_unanswerable : "PROBE_START" ∉ unanswerable.
Proof. apply (bool_decide_eq_true_1 _). vm_compute. reflexivity. Qed.

(** The command is where it was. *)
Definition kept (id : string) (ref : Z) (cmd : Command) (s : Service) : Prop :=
  wf s /\ pending s !! id = Some ref /\ heap s !! ref = Some cmd /\ (forall x, next s <= x -> uuid x <> id).

Lemma probeClose_kept now id ref cmd s id' :
  cmdName cmd ∈ unanswerable -> kept id ref cmd s -> kept id ref cmd (probeClose now s id').
Proof.
  intros Hn (Hs & Hp & Hc & Hu). pose proof (wf_probeClose now s id' Hs) as Hw. unfold probeClose in *.
  destruct (pending s !! id') as [ref'|] eqn:Hp'; [|done]. destruct (heap s !! ref') as [c|] eqn:Hc'; [|done].
  destruct (bool_decide (cmdName c = "PROBE_START")) eqn:Ec; [|done].
  destruct (bool_decide (Status c = StatusRunning)) eqn:Es; [|done]. cbn [andb] in *.
  apply bool_decide_eq_true in Ec. assert (id' <> id) as Hne.
  { intros ->. assert (c = cmd) as -> by congruence. rewrite Ec in Hn. revert Hn. apply (bool_decide_eq_true_1 _).
    vm_compute. reflexivity. }
  assert (ref' <> ref) as Hr by (intros ->; apply Hne; by apply (wf_same_ref s id' id ref)).
  split; [done|]. cbn. rewrite pending_broadcast, heap_broadcast, next_broadcast. cbn.
  rewrite lookup_delete_ne, lookup_alter_ne by done. done.
Qed.

Lemma probeClose_fold_kept now id ref cmd ord s :
  cmdName cmd ∈ unanswerable -> kept id ref cmd s -> kept id ref cmd (fold_left (probeClose now) ord s).
Proof.
  intros Hn. revert s. induction ord as [|x ord IH]; intros s Hk; [done|]. by apply IH, probeClose_kept.
Qed.

Lemma not_halted target cmd : cmdName cmd ∈ unanswerable -> halted target cmd = false.
Proof.
  intros Hn. unfold halted. rewrite bool_decide_false; [done|]. intros Hs. revert Hs.
  apply list_elem_of_In in Hn. destruct Hn as [<-|[<-|[]]]; apply (bool_decide_eq_true_1 _); vm_compute; reflexivity.
Qed.

Lemma stopClose_kept now target id ref cmd ord s :
  cmdName cmd ∈ unanswerable -> kept id ref cmd s ->
  kept id ref cmd (fold_left (stopClose quote uuid now target) ord s).
Proof.
  intros Hn. revert s. induction ord as [|x ord IH]; intros s (Hs & Hp & Hc & Hu); [done|]. apply IH.
  split; [by apply wf_stopClose|]. split; [|split].
  - rewrite <- Hp. apply (stopClose_fold_pending quote uuid now target [x] s id Hs); [|done].
    intros ref' cmd' (Hp' & Hc' & Hl). assert (ref' = ref) as -> by congruence. assert (cmd' = cmd) as -> by congruence.
    by rewrite not_halted in Hl.
  - apply stopClose_heap; [done|done|]. intros _. by apply not_halted.
  - intros y Hy. apply Hu. pose proof (stopClose_next quote uuid now target s x). lia.
Qed.

Lemma HandleStructuredACK_kept ord ord' now kind st node res id ref cmd s :
  cmdName cmd ∈ unanswerable -> kind ∉ unreachableAcks -> kept id ref cmd s ->
  kept id ref cmd (HandleStructuredACK quote uuid ord ord' now kind st node res s).
Proof.
  intros Hn Hk (Hs & Hp & Hc & Hu). unfold HandleStructuredACK.
  pose proof (matched_spec kind ord s) as Hm. destruct (matched kind ord s) as [[[id' ref'] cmd']|]; [|done].
  destruct Hm as (name & Ha & _ & Hp' & Hc' & Hcov & _).
  assert (id' <> id) as Hne.
  { intros ->. assert (ref' = ref) as -> by congruence. assert (cmd' = cmd) as -> by congruence.
    by rewrite (not_covered kind name) in Hcov. }
  destruct (ackOne_spec quote uuid now kind st node res id' ref' cmd' s Hs Hp' Hc') as (_ & Hx & _ & Hother & _).
  destruct (Hother id ref cmd (not_eq_sym Hne) Hp Hc Hu) as [Hp1 Hc1].
  assert (kept id ref cmd (ackOne quote uuid now kind st node res id' ref' s)) as Hkept.
  { split; [by apply wf_ackOne|]. split; [done|]. split; [done|]. intros y Hy. apply Hu. lia. }
  unfold fanOut. assert (forall b : bool, kept id ref cmd
      (if b then fold_left (probeClose now) ord' (ackOne quote uuid now kind st node res id' ref' s)
       else ackOne quote uuid now kind st node res id' ref' s)) as Hb
    by (intros []; [by apply probeClose_fold_kept|done]).
  destruct (bool_decide (kind = "STOP_ACK")); [|apply Hb]. by apply stopClose_kept.
Qed.

Lemma yielded_ack e :
  yielded e -> TextEvents.Kind e = "command-ack" -> asString (Data e !! "ackType") ∉ unreachableAcks.
Proof.
  intros (line & c & es & c' & e0 & Hp & Hin & Ek & Ed) Hk. apply unreachable_acks in Hp. rewrite Forall_forall in Hp.
  specialize (Hp e0 Hin). unfold avoids, ackTypeOf in Hp. rewrite <- Ek, <- Ed, bool_decide_true in Hp by done.
  destruct (Data e !! "ackType") as [[]|]; cbn [asString]; try by apply Hp.
  all: apply (bool_decide_eq_true_1 _); vm_compute; reflexivity.
Qed.

(** ** Properties *)

(** C11: whatever lines arrive, a pending ERASE_FORCE or AUTOERASE_ENABLE command
    is never acknowledged: after any acknowledgements found in lines it is in
    the map as it was, and no timeout closes it. *)
Theorem erase_never_acknowledged es evs s' id ref cmd :
  let s := run quote uuid es NewService in
  pending s !! id = Some ref -> heap s !! ref = Some cmd -> cmdName cmd ∈ unanswerable ->
  (forall x, next s <= x -> uuid x <> id) ->
  Forall yielded evs -> answered evs s s' ->
  pending s' !! id = Some ref /\ heap s' !! ref = Some cmd /\
  forall now grace, windowElapsed now grace cmd = false.
Proof.
  intros s Hp Hc Hn Hu Hy Ha. assert (kept id ref cmd s) as Hk
    by (split; [by apply wf_reachable|split; [exact Hp|split; [exact Hc|exact Hu]]]).
  assert (kept id ref cmd s') as (_ & Hp' & Hc' & _).
  { clearbody s. clear Hp Hc Hu. induction Ha as [s|e evs ord ord' now result s s' He _ IH|e evs s s' _ _ IH]; [done| |];
      apply Forall_cons in Hy as [Hye Hy]; [|by apply IH].
    apply IH; [done|]. apply HandleStructuredACK_kept; [done| |done]. by apply yielded_ack. }
  split; [done|]. split; [done|]. intros now grace. unfold windowElapsed.
  rewrite bool_decide_false; [done|]. intros E. by rewrite E in Hn; apply probe_not_unanswerable in Hn.
Qed.
End Answers.

(** A pending ERASE_FORCE command, and the answer of another command. *)
Definition erasing : list event :=
  [EWire true true;
   EEnqueue 0 "a" 7 "ERASE_FORCE" "null" "@HB01" "ERASE_FORCE" ["tok"] "@HB01 ERASE_FORCE:tok"; ESendBegin 0 0;
   ESendFinish 0 1 true].

Definition stopAck : ParsedEvent :=
  plainEvent "command-ack" "HB01"
    (list_to_map [("ackType", VString "STOP_ACK"); ("status", VString "OK")]) "HB01: STOP_ACK:OK".

Lemma erase_never_acknowledged_witness :
  let s := runs erasing NewService in
  exists cmd s', cmdName cmd = "ERASE_FORCE" /\ Status cmd = StatusSent /\
    @answered asciiUnicode anyQuote anyUUID [stopAck] s s' /\
    pending s' !! "a" = Some 0 /\ heap s' !! 0 = Some cmd /\
    forall now grace, windowElapsed now grace cmd = false.
Proof.
  intros s. destruct (heap s !! 0) as [cmd|] eqn:E; [|vm_compute in E; discriminate E].
  assert (cmdName cmd = "ERASE_FORCE" /\ Status cmd = StatusSent) as [Hn Hs]
    by (vm_compute in E; injection E as <-; split; reflexivity).
  exists cmd. eexists. split; [exact Hn|]. split; [exact Hs|].
  assert (@answered asciiUnicode anyQuote anyUUID [stopAck] s
    (@HandleStructuredACK asciiUnicode anyQuote anyUUID ["a"] ["a"] 5 "STOP_ACK" "OK" "HB01" None s)) as Ha
    by (apply (@answered_ack asciiUnicode anyQuote anyUUID stopAck [] ["a"] ["a"] 5 None); [reflexivity|constructor]).
  split; [exact Ha|].
  apply (@erase_never_acknowledged asciiUnicode anyQuote anyUUID (fun _ => []) erasing [stopAck] _ "a" 0 cmd);
    [vm_compute; reflexivity|exact E|rewrite Hn; apply (bool_decide_eq_true_1 _); vm_compute; reflexivity| | |exact Ha].
  - intros x _. destruct x; vm_compute; discriminate.
  - constructor; [|constructor]. exists "HB01: STOP_ACK:OK", ∅. eexists _, _, stopAck.
    split; [vm_compute; reflexivity|]. split; [by left|]. split; reflexivity.
Defined.
