(* ===== verification/Hub.v ===== *)
(** The WebSocket hub, [internal/ws], with the part of [handleWebSocket] of
    [internal/api/server.go] that serves one connection.

    The goroutines are the hub loop [Run], and for every connection the HTTP
    handler, [ReadPump] and [WritePump].  They share the channels: the
    buffered [broadcast] and one buffered [send] per client; [register] and
    [unregister] are unbuffered, so their two ends meet in one step.  An
    [event] is one step of one goroutine, [exec] runs it: it may be blocked,
    it may crash the process (a panic of the hub loop), or it yields the next
    world.  A panic of an HTTP handler is recovered by the server and ends
    that handler only.

    After a registration the handler goes on while the hub still decides on
    the client, so the decision is a step of its own.  What the hub does for
    an unregistration and for one message is one step: it touches each
    [send] once, so it commutes with the steps of the pumps.

    A frame remembers whether the hub or the handler sent it; the code only
    has the bytes. *)
From S2P Require Import Prelude.

(** ** Definitions *)

(** *** Channels of frames

    [pushed] is a history variable: all that was ever sent. *)
Inductive frame : Type :=
| InitFrame (data : string)
| HubFrame (data : string)
| NilFrame.                (* what a receive from a closed channel yields *)

Record chan : Type := mkChan {
  buf : list frame;
  closed : bool;
  pushed : list frame
}.

(** [make(chan []byte, 256)] *)
Definition sendCap : Z := 256.
Definition makeChan : chan := mkChan [] false [].

(** [select { case ch <- m: default: }]: [None] is the panic on a closed
    channel; the flag says whether the channel took [m]. *)
Definition trySend (m : frame) (ch : chan) : option (bool * chan) :=
  if closed ch then None
  else if zlen (buf ch) <? sendCap
       then Some (true, mkChan (buf ch ++ [m]) false (pushed ch ++ [m]))
       else Some (false, ch).

(** [close(ch)]: [None] is the panic on a closed channel. *)
Definition closing (ch : chan) : chan := mkChan (buf ch) true (pushed ch).
Definition closeChan (ch : chan) : option chan :=
  if closed ch then None else Some (closing ch).

(** A receive: [None] blocks; the flag is [ok]. *)
Definition recv (ch : chan) : option (frame * bool * chan) :=
  match buf ch with
  | m :: r => Some (m, true, mkChan r (closed ch) (pushed ch))
  | [] => if closed ch then Some (NilFrame, false, ch) else None
  end.

(** *** State

    The hub loop: in its [select], with a client received from [register],
    returned. *)
Inductive loopState : Type :=
| Waiting
| Admitting (c : Z)
| Ended.

Record Hub : Type := mkHub {
  clients : gset Z;
  broadcast : list string;
  maxClients : Z;
  loop : loopState
}.

(** [make(chan []byte, 256)] of [NewHub] *)
Definition broadcastCap : Z := 256.
Definition NewHub (max : Z) : Hub := mkHub ∅ [] max Waiting.

(** The handler and then [ReadPump] of a connection. *)
Inductive stage : Type :=
| Registering       (* blocked in Register *)
| Greeting          (* registered, the init event is not sent yet *)
| Reading           (* ReadPump is in its loop *)
| Leaving           (* ReadPump is blocked in Unregister *)
| Gone              (* ReadPump has returned *)
| Panicked.         (* the handler panicked *)

(** [WritePump]: in its [select]; after a write, about to take
    [n := len(c.send)]; with [n] frames of the drain loop left; returned. *)
Inductive pump : Type :=
| Selecting
| Counting
| Draining (n : nat)
| Stopped.

(** [wire]: the text frames written to the connection; [since]: how many
    messages the hub had taken at registration (history). *)
Record conn : Type := mkConn {
  stage_ : stage;
  pump_ : pump;
  wire : list frame;
  closeFrame : bool;
  since : nat
}.

Definition set_stage (v : stage) (c : conn) : conn :=
  mkConn v (pump_ c) (wire c) (closeFrame c) (since c).
Definition set_pump (v : pump) (c : conn) : conn :=
  mkConn (stage_ c) v (wire c) (closeFrame c) (since c).
Definition write (m : frame) (c : conn) : conn :=
  mkConn (stage_ c) (pump_ c) (wire c ++ [m]) (closeFrame c) (since c).

(** [taken]: the messages the hub has received from [broadcast] (history). *)
Record World : Type := mkWorld {
  hub : Hub;
  chans : gmap Z chan;
  conns : gmap Z conn;
  taken : list string
}.

Definition set_hub (v : Hub) (w : World) : World := mkWorld v (chans w) (conns w) (taken w).
Definition set_chan (c : Z) (v : chan) (w : World) : World :=
  mkWorld (hub w) (<[c := v]> (chans w)) (conns w) (taken w).
Definition set_conn (c : Z) (v : conn) (w : World) : World :=
  mkWorld (hub w) (chans w) (<[c := v]> (conns w)) (taken w).

Definition start (max : Z) : World := mkWorld (NewHub max) ∅ ∅ [].

Definition set_clients (v : gset Z) (h : Hub) : Hub :=
  mkHub v (broadcast h) (maxClients h) (loop h).
Definition set_broadcast (v : list string) (h : Hub) : Hub :=
  mkHub (clients h) v (maxClients h) (loop h).
Definition set_loop (v : loopState) (h : Hub) : Hub :=
  mkHub (clients h) (broadcast h) (maxClients h) v.

Definition waiting (w : World) : bool :=
  match loop (hub w) with Waiting => true | _ => false end.

(** *** Steps *)
Inductive result : Type :=
| Blocked
| Crash
| Next (w : World).

(** The goroutine [c] in stage [s]: the step is not enabled otherwise. *)
Definition atStage (c : Z) (p : stage -> bool) (w : World) (k : conn -> chan -> result) : result :=
  match conns w !! c, chans w !! c with
  | Some cn, Some ch => if p (stage_ cn) then k cn ch else Blocked
  | _, _ => Blocked
  end.

Definition crashing {A} (m : option A) (k : A -> result) : result :=
  match m with Some a => k a | None => Crash end.

Definition isRegistering (s : stage) : bool := match s with Registering => true | _ => false end.
Definition isGreeting (s : stage) : bool := match s with Greeting => true | _ => false end.
Definition isReading (s : stage) : bool := match s with Reading => true | _ => false end.
Definition isLeaving (s : stage) : bool := match s with Leaving => true | _ => false end.

(** [NewClient] for a new connection; the pointer [c] is fresh. *)
Definition Connect (c : Z) (w : World) : result :=
  match chans w !! c, conns w !! c with
  | None, None => Next (set_conn c (mkConn Registering Selecting [] false 0) (set_chan c makeChan w))
  | _, _ => Blocked
  end.

(** [Register] meets [case client := <-h.register]. *)
Definition Register (c : Z) (w : World) : result :=
  atStage c isRegistering w (fun cn _ =>
    if negb (waiting w) then Blocked
    else Next (set_hub (set_loop (Admitting c) (hub w))
           (set_conn c (mkConn Greeting (pump_ cn) (wire cn) (closeFrame cn) (length (taken w))) w))).

(** The body of that case. *)
Definition full (h : Hub) : bool :=
  (0 <? maxClients h) && (maxClients h <=? Z.of_nat (size (clients h))).

Definition Admit (w : World) : result :=
  match loop (hub w) with
  | Admitting c =>
      match chans w !! c with
      | None => Crash
      | Some ch =>
          let h := set_loop Waiting (hub w) in
          if full h
          then crashing (closeChan ch) (fun ch => Next (set_chan c ch (set_hub h w)))
          else Next (set_hub (set_clients (clients h ∪ {[c]}) h) w)
      end
  | _ => Blocked
  end.

(** [handleWebSocket] sends the init event ([None]: it did not marshal) and
    starts the pumps.  [Client.Send] on a closed channel panics. *)
Definition Greet (c : Z) (init : option string) (w : World) : result :=
  atStage c isGreeting w (fun cn ch =>
    match init with
    | None => Next (set_conn c (set_stage Reading cn) w)
    | Some data =>
        match trySend (InitFrame data) ch with
        | None => Next (set_conn c (set_stage Panicked cn) w)
        | Some (_, ch) => Next (set_chan c ch (set_conn c (set_stage Reading cn) w))
        end
    end).

(** [ReadMessage] fails: [ReadPump] runs its deferred function. *)
Definition ReadEnd (c : Z) (w : World) : result :=
  atStage c isReading w (fun cn _ => Next (set_conn c (set_stage Leaving cn) w)).

(** [Unregister] meets [case client := <-h.unregister]. *)
Definition Unregister (c : Z) (w : World) : result :=
  atStage c isLeaving w (fun cn ch =>
    if negb (waiting w) then Blocked
    else
      let w := set_conn c (set_stage Gone cn) w in
      if bool_decide (c ∈ clients (hub w)) then
        let w := set_hub (set_clients (clients (hub w) ∖ {[c]}) (hub w)) w in
        crashing (closeChan ch) (fun ch => Next (set_chan c ch w))
      else Next w).

(** [Broadcast]: blocked when the buffer is full. *)
Definition Broadcast (data : string) (w : World) : result :=
  if zlen (broadcast (hub w)) <? broadcastCap
  then Next (set_hub (set_broadcast (broadcast (hub w) ++ [data]) (hub w)) w)
  else Blocked.

(** The body of [for client := range h.clients]. *)
Definition deliver (data : string) (c : Z) (w : World) : result :=
  match chans w !! c with
  | None => Crash
  | Some ch =>
      crashing (trySend (HubFrame data) ch) (fun r =>
        let '(sent, ch') := r in
        if (sent : bool) then Next (set_chan c ch' w)
        else crashing (closeChan ch) (fun ch =>
               Next (set_chan c ch
                 (set_hub (set_clients (clients (hub w) ∖ {[c]}) (hub w)) w))))
  end.

Fixpoint deliverAll (data : string) (order : list Z) (w : World) : result :=
  match order with
  | [] => Next w
  | c :: order =>
      match deliver data c w with
      | Next w => deliverAll data order w
      | r => r
      end
  end.

(** [case message := <-h.broadcast]: [order] is the order in which the map is
    ranged over. *)
Definition Deliver (order : list Z) (w : World) : result :=
  if negb (waiting w) || negb (bool_decide (order ≡ₚ elements (clients (hub w))))
  then Blocked
  else match broadcast (hub w) with
       | [] => Blocked
       | data :: rest =>
           deliverAll data order
             (mkWorld (set_broadcast rest (hub w)) (chans w) (conns w) (taken w ++ [data]))
       end.

(** [Stop] was called and the loop sees [h.done]. *)
Definition Stop (w : World) : result :=
  if waiting w then Next (set_hub (set_loop Ended (hub w)) w) else Blocked.

(** The write pump runs once the pumps are started. *)
Definition pumping (s : stage) : bool :=
  match s with Reading | Leaving | Gone => true | _ => false end.

(** One step of [WritePump]; [ok] is whether the write succeeds. *)
Definition Write (c : Z) (ok : bool) (w : World) : result :=
  atStage c pumping w (fun cn ch =>
    let step (p : pump) :=
      match recv ch with
      | None => Blocked
      | Some (m, _, ch') =>
          Next (set_chan c ch'
            (set_conn c (if ok then write m (set_pump p cn) else set_pump Stopped cn) w))
      end in
    match pump_ cn with
    | Selecting =>
        match recv ch with
        | Some (_, false, _) =>
            Next (set_conn c (mkConn (stage_ cn) Stopped (wire cn) true (since cn)) w)
        | _ => step Counting
        end
    | Counting => Next (set_conn c (set_pump (Draining (length (buf ch))) cn) w)
    | Draining O => Next (set_conn c (set_pump Selecting cn) w)
    | Draining (S n) => step (Draining n)
    | Stopped => Blocked
    end).

(** A failed ping ends [WritePump]. *)
Definition PingFail (c : Z) (w : World) : result :=
  atStage c pumping w (fun cn _ =>
    match pump_ cn with
    | Selecting => Next (set_conn c (set_pump Stopped cn) w)
    | _ => Blocked
    end).

Inductive event : Type :=
| EConnect (c : Z)
| ERegister (c : Z)
| EAdmit
| EGreet (c : Z) (init : option string)
| EReadEnd (c : Z)
| EUnregister (c : Z)
| EBroadcast (data : string)
| EDeliver (order : list Z)
| EStop
| EWrite (c : Z) (ok : bool)
| EPingFail (c : Z).

Definition exec (e : event) (w : World) : result :=
  match e with
  | EConnect c => Connect c w
  | ERegister c => Register c w
  | EAdmit => Admit w
  | EGreet c init => Greet c init w
  | EReadEnd c => ReadEnd c w
  | EUnregister c => Unregister c w
  | EBroadcast data => Broadcast data w
  | EDeliver order => Deliver order w
  | EStop => Stop w
  | EWrite c ok => Write c ok w
  | EPingFail c => PingFail c w
  end.

(** [Some w]: the world after the events, those that block being skipped;
    [None]: the process crashed. *)
Fixpoint run (es : list event) (w : World) : option World :=
  match es with
  | [] => Some w
  | e :: es =>
      match exec e w with
      | Blocked => run es w
      | Crash => None
      | Next w => run es w
      end
  end.

(** ** Concrete runs *)
Example two_clients_one_message :
  match run [EConnect 1; ERegister 1; EAdmit; EGreet 1 (Some "init"%string);
             EConnect 2; ERegister 2; EGreet 2 (Some "init"%string); EAdmit;
             EBroadcast "m"; EDeliver [2; 1]; EWrite 1 true; EWrite 1 true; EWrite 1 true;
             EWrite 2 true] (start 0) with
  | Some w => map wire (map snd (map_to_list (conns w)))
  | None => []
  end = [[InitFrame "init"]; [InitFrame "init"; HubFrame "m"]].
Proof. vm_compute. reflexivity. Qed.

(** ** What a client receives *)
Definition hubData (l : list frame) : list string :=
  omap (fun m => match m with HubFrame d => Some d | _ => None end) l.

Definition isHubFrame (m : frame) : bool := match m with HubFrame _ => true | _ => false end.
Definition others (l : list frame) : list frame := filter (fun m => isHubFrame m = false) l.

Arguments hubData : simpl never.
Arguments others : simpl never.

Lemma hubData_app a b : hubData (a ++ b) = hubData a ++ hubData b.
Proof. apply omap_app. Qed.
Lemma others_app a b : others (a ++ b) = others a ++ others b.
Proof. apply filter_app. Qed.

Lemma hubData_prefix a b : a `prefix_of` b -> hubData a `prefix_of` hubData b.
Proof. intros [k ->]. rewrite hubData_app. by eexists. Qed.

Lemma others_prefix a b : a `prefix_of` b -> others a `prefix_of` others b.
Proof. intros [k ->]. rewrite others_app. by eexists. Qed.

Lemma elem_of_others m l : isHubFrame m = false -> m ∈ l -> m ∈ others l.
Proof. intros. by apply list_elem_of_filter. Qed.

Lemma drop_snoc {A} n (l : list A) x : (n <= length l)%nat -> drop n (l ++ [x]) = drop n l ++ [x].
Proof. intros. by rewrite drop_app_le. Qed.

(** ** The invariant

    [inb]: the client is in the map; [adm]: the hub is deciding on it. *)
Definition buffered (p : pump) (ch : chan) : Prop :=
  match p with Draining n => (n <= length (buf ch))%nat | _ => True end.

Definition greeted (s : stage) : bool :=
  match s with Registering | Greeting | Panicked => false | _ => true end.

Record client_ok (inb adm : bool) (tk : list string) (cn : conn) (ch : chan) : Prop := {
  ok_open : inb || adm || isRegistering (stage_ cn) = true -> closed ch = false;
  ok_stage : inb || adm = true -> stage_ cn <> Registering /\ stage_ cn <> Gone /\ stage_ cn <> Panicked;
  ok_one : inb && adm = false;
  ok_fresh : stage_ cn = Registering -> pushed ch = [];
  ok_since : (since cn <= length tk)%nat;
  ok_stream : hubData (pushed ch) `prefix_of` drop (since cn) tk;
  ok_whole : inb = true -> hubData (pushed ch) = drop (since cn) tk;
  ok_none : adm = true -> since cn = length tk /\ hubData (pushed ch) = [];
  ok_others : others (pushed ch) = [] \/ greeted (stage_ cn) = true /\ exists d, others (pushed ch) = [InitFrame d];
  ok_wire : wire cn `prefix_of` pushed ch;
  ok_queue : pump_ cn <> Stopped -> wire cn ++ buf ch = pushed ch;
  ok_pump : pumping (stage_ cn) = false -> pump_ cn = Selecting /\ wire cn = [] /\ closeFrame cn = false;
  ok_drain : buffered (pump_ cn) ch;
  ok_room : zlen (buf ch) <= sendCap
}.

Definition isAdmitting (c : Z) (h : Hub) : bool :=
  match loop h with Admitting c' => c =? c' | _ => false end.

Definition inClients (c : Z) (h : Hub) : bool := bool_decide (c ∈ clients h).

Record hub_ok (h : Hub) : Prop := {
  ok_broadcast : zlen (broadcast h) <= broadcastCap;
  ok_size : 0 < maxClients h -> Z.of_nat (size (clients h)) <= maxClients h
}.

(** [tk c] is what the hub has taken, as far as client [c] is concerned: in
    the middle of a delivery the clients still to be served are one message
    behind. *)
Record ok_for (tk : Z -> list string) (w : World) : Prop := {
  ok_hub : hub_ok (hub w);
  ok_dom : forall c, is_Some (chans w !! c) <-> is_Some (conns w !! c);
  ok_known : forall c, inClients c (hub w) || isAdmitting c (hub w) = true -> is_Some (chans w !! c);
  ok_client : forall c cn ch, conns w !! c = Some cn -> chans w !! c = Some ch ->
    client_ok (inClients c (hub w)) (isAdmitting c (hub w)) (tk c) cn ch
}.
Definition ok (w : World) : Prop := ok_for (fun _ => taken w) w.

Lemma start_ok max : ok (start max).
Proof.
  split; cbn.
  - split; cbn; [by vm_compute|]. intros. rewrite size_empty. lia.
  - intros c. by rewrite !lookup_empty.
  - intros c Hc. unfold inClients in Hc. cbn in Hc. by rewrite bool_decide_false in Hc by set_solver.
  - intros c cn ch Hc. by rewrite lookup_empty in Hc.
Qed.

(** A step that touches one client, and in the hub only what concerns it. *)
Lemma ok_set tk tk' w c cn ch h t :
  ok_for tk w -> hub_ok h -> is_Some (chans w !! c) ->
  (forall c', c' <> c -> inClients c' h = inClients c' (hub w) /\
                         isAdmitting c' h = isAdmitting c' (hub w) /\ tk' c' = tk c') ->
  client_ok (inClients c h) (isAdmitting c h) (tk' c) cn ch ->
  ok_for tk' (mkWorld h (<[c := ch]> (chans w)) (<[c := cn]> (conns w)) t).
Proof.
  intros Hw Hh Hc Hrest Hcl. pose proof (ok_dom _ _ Hw) as Hdom. split; cbn; [done|..].
  - intros c'. destruct (decide (c' = c)) as [->|Hne].
    + rewrite !lookup_insert_eq. naive_solver.
    + by rewrite !lookup_insert_ne.
  - intros c' Hc'. destruct (decide (c' = c)) as [->|Hne].
    + rewrite lookup_insert_eq. eauto.
    + rewrite lookup_insert_ne by done. destruct (Hrest _ Hne) as (E1 & E2 & _).
      apply (ok_known _ _ Hw). by rewrite <- E1, <- E2.
  - intros c' cn' ch'. destruct (decide (c' = c)) as [->|Hne].
    + rewrite !lookup_insert_eq. intros [= <-] [= <-]. done.
    + rewrite !lookup_insert_ne by done. destruct (Hrest _ Hne) as (-> & -> & ->).
      apply (ok_client _ _ Hw).
Qed.

Lemma ok_set_conn w c cn ch h :
  ok w -> hub_ok h -> chans w !! c = Some ch ->
  (forall c', c' <> c -> inClients c' h = inClients c' (hub w) /\
                         isAdmitting c' h = isAdmitting c' (hub w)) ->
  client_ok (inClients c h) (isAdmitting c h) (taken w) cn ch ->
  ok (mkWorld h (chans w) (<[c := cn]> (conns w)) (taken w)).
Proof.
  intros Hw Hh Hc Hrest Hcl. rewrite <- (insert_id (chans w) c ch) by done.
  eapply ok_set; [done..|eauto| |done]. intros c' Hne. by destruct (Hrest c' Hne).
Qed.

Lemma ok_set_chan tk tk' w c cn ch h t :
  ok_for tk w -> hub_ok h -> conns w !! c = Some cn ->
  (forall c', c' <> c -> inClients c' h = inClients c' (hub w) /\
                         isAdmitting c' h = isAdmitting c' (hub w) /\ tk' c' = tk c') ->
  client_ok (inClients c h) (isAdmitting c h) (tk' c) cn ch ->
  ok_for tk' (mkWorld h (<[c := ch]> (chans w)) (conns w) t).
Proof.
  intros Hw Hh Hc Hrest Hcl. rewrite <- (insert_id (conns w) c cn) by done.
  eapply ok_set; [done..| |done|done]. apply (ok_dom _ _ Hw). eauto.
Qed.

Lemma ok_set_hub w h :
  ok w -> hub_ok h ->
  (forall c, inClients c h = inClients c (hub w) /\ isAdmitting c h = isAdmitting c (hub w)) ->
  ok (mkWorld h (chans w) (conns w) (taken w)).
Proof.
  intros [H1 H2 H3 H4] Hh Hc. split; cbn; [done|done|..].
  - intros c. destruct (Hc c) as [-> ->]. apply H3.
  - intros c cn ch. destruct (Hc c) as [-> ->]. apply H4.
Qed.

Lemma hub_ok_clients v h :
  hub_ok h -> (size v <= size (clients h))%nat -> hub_ok (set_clients v h).
Proof. intros [H1 H2] Hs. split; cbn; [done|]. intros Hm. specialize (H2 Hm). lia. Qed.

Lemma inClients_diff c c' h : c' <> c -> inClients c' (set_clients (clients h ∖ {[c]}) h) = inClients c' h.
Proof. intros. unfold inClients. apply bool_decide_ext. set_solver. Qed.
Lemma inClients_same c h : inClients c (set_clients (clients h ∖ {[c]}) h) = false.
Proof. apply bool_decide_false. set_solver. Qed.

(** *** What the steps do to the client they touch *)
Section Client.
Variables (inb adm : bool) (tk : list string) (cn : conn) (ch : chan).
Hypothesis Hc : client_ok inb adm tk cn ch.

(** The facts of [Hc], the stage replaced when it is known. *)
Ltac facts :=
  destruct Hc as [Hopen Hstage Hone Hfresh Hsince Hstream Hwhole Hnone Hothers Hwire Hqueue
                  Hpump Hdrain Hroom].

Lemma client_register :
  stage_ cn = Registering -> adm = false ->
  client_ok inb true tk (mkConn Greeting (pump_ cn) (wire cn) (closeFrame cn) (length tk)) ch.
Proof.
  intros Es ->. facts. specialize (Hfresh Es). rewrite Es, Hfresh in *.
  destruct inb; [by destruct (Hstage eq_refl)|].
  split; cbn in *; rewrite ?Hfresh; auto; try done; apply prefix_nil.
Qed.

Lemma client_admit : adm = true -> client_ok true false tk cn ch.
Proof.
  intros ->. facts. destruct inb; [done|].
  split; cbn in *; auto. intros _. destruct (Hnone eq_refl) as [-> ->]. by rewrite drop_all.
Qed.

Lemma client_reject : adm = true -> client_ok false false tk cn (closing ch).
Proof.
  intros ->. facts. destruct (Hstage ltac:(by destruct inb)) as [Hs _].
  split; cbn in *; auto; try done. by destruct (stage_ cn).
Qed.

Lemma client_taken x :
  inb = false -> adm = false -> client_ok inb adm (tk ++ [x]) cn ch.
Proof.
  intros -> ->. facts. split; cbn in *; auto; try done.
  - rewrite length_app. lia.
  - rewrite drop_snoc by done. by apply prefix_app_r.
Qed.

Lemma client_pushed x r :
  inb = true -> trySend (HubFrame x) ch = Some (true, r) -> client_ok inb adm (tk ++ [x]) cn r.
Proof.
  intros -> Hs. unfold trySend in Hs. destruct (closed ch) eqn:Ecl; [done|].
  destruct (zlen (buf ch) <? sendCap) eqn:Er; [|done]. injection Hs as <-.
  apply Z.ltb_lt in Er. facts. destruct adm; [done|].
  assert (hubData (pushed ch ++ [HubFrame x]) = drop (since cn) (tk ++ [x])) as E.
  { rewrite hubData_app, drop_snoc, (Hwhole eq_refl) by done. reflexivity. }
  split; cbn; rewrite ?E; auto; try done.
  - intros Es. rewrite Es in *. by destruct (Hstage eq_refl).
  - rewrite length_app. lia.
  - by rewrite others_app, app_nil_r.
  - by apply prefix_app_r.
  - intros Hp. by rewrite app_assoc, (Hqueue Hp).
  - unfold buffered in *. destruct (pump_ cn); cbn; rewrite ?length_app; auto; lia.
  - rewrite zlen_app. unfold zlen at 2. cbn. lia.
Qed.

Lemma client_dropped x :
  inb = true -> client_ok false adm (tk ++ [x]) cn (closing ch).
Proof.
  intros ->. facts. destruct adm; [done|].
  split; cbn in *; auto; try done.
  - destruct (Hstage eq_refl) as [? _]. by destruct (stage_ cn).
  - rewrite length_app. lia.
  - rewrite drop_snoc by done. by apply prefix_app_r.
Qed.

Lemma client_reading :
  stage_ cn = Greeting -> client_ok inb adm tk (set_stage Reading cn) ch.
Proof.
  intros Es. facts. rewrite Es in *. split; cbn in *; auto; try done; intuition done.
Qed.

Lemma client_greeted data r :
  stage_ cn = Greeting -> trySend (InitFrame data) ch = Some (true, r) ->
  client_ok inb adm tk (set_stage Reading cn) r.
Proof.
  intros Es Hs. unfold trySend in Hs. destruct (closed ch) eqn:Ecl; [done|].
  destruct (zlen (buf ch) <? sendCap) eqn:Er; [|done]. injection Hs as <-.
  apply Z.ltb_lt in Er. facts. rewrite Es in *.
  assert (others (pushed ch) = []) as Ho by naive_solver.
  split; cbn in *; rewrite ?hubData_app, ?app_nil_r; auto; try done.
  - right. split; [done|]. exists data. by rewrite others_app, Ho.
  - by apply prefix_app_r.
  - intros Hp. by rewrite app_assoc, (Hqueue Hp).
  - unfold buffered in *. destruct (pump_ cn); cbn; rewrite ?length_app; auto; lia.
  - rewrite zlen_app. unfold zlen at 2. cbn. lia.
Qed.

Lemma client_panicked :
  stage_ cn = Greeting -> closed ch = true -> client_ok inb adm tk (set_stage Panicked cn) ch.
Proof.
  intros Es Hcl. facts. rewrite Es, Hcl in *. rewrite orb_false_r in Hopen.
  split; cbn in *; rewrite ?orb_false_r; auto; try done; intuition done.
Qed.

Lemma client_leaving :
  stage_ cn = Reading -> client_ok inb adm tk (set_stage Leaving cn) ch.
Proof.
  intros Es. facts. rewrite Es in *. split; cbn in *; auto; try done; intuition done.
Qed.

Lemma client_gone :
  stage_ cn = Leaving -> inb = false -> adm = false -> client_ok inb adm tk (set_stage Gone cn) ch.
Proof.
  intros Es -> ->. facts. rewrite Es in *. split; cbn in *; auto; try done; intuition done.
Qed.

Lemma client_removed :
  stage_ cn = Leaving -> inb = true -> adm = false -> client_ok false adm tk (set_stage Gone cn) (closing ch).
Proof.
  intros Es -> ->. facts. rewrite Es in *. split; cbn in *; auto; try done; intuition done.
Qed.

(** The pump. *)
Lemma client_pump p :
  pumping (stage_ cn) = true -> pump_ cn <> Stopped -> buffered p ch ->
  client_ok inb adm tk (set_pump p cn) ch.
Proof.
  intros Es Hp Hb. facts. split; cbn in *; auto; try done. congruence.
Qed.

Lemma client_stopped b :
  pumping (stage_ cn) = true ->
  client_ok inb adm tk (mkConn (stage_ cn) Stopped (wire cn) b (since cn)) ch.
Proof. intros Es. facts. split; cbn in *; auto; try done. congruence. Qed.

Lemma recv_inv m ok r :
  recv ch = Some (m, ok, r) ->
  (ok = true /\ buf ch = m :: buf r /\ closed r = closed ch /\ pushed r = pushed ch) \/
  (ok = false /\ m = NilFrame /\ buf ch = [] /\ r = ch).
Proof.
  unfold recv. destruct (buf ch) eqn:E; [destruct (closed ch); [|done]|];
    intros [= <- <- <-]; [right|left]; auto.
Qed.

Lemma client_lost m r :
  recv ch = Some (m, true, r) -> pumping (stage_ cn) = true ->
  client_ok inb adm tk (set_pump Stopped cn) r.
Proof.
  intros Hr Es. apply recv_inv in Hr as [(_ & Hb & Hcl & Hp)|[? _]]; [|done].
  facts. split; cbn; rewrite ?Hcl, ?Hp; auto; try done; try congruence.
  rewrite Hb, zlen_cons in Hroom. lia.
Qed.

Lemma client_written m r p :
  recv ch = Some (m, true, r) -> pumping (stage_ cn) = true -> pump_ cn <> Stopped -> buffered p r ->
  client_ok inb adm tk (write m (set_pump p cn)) r.
Proof.
  intros Hr Es Hns Hbp. apply recv_inv in Hr as [(_ & Hb & Hcl & Hp)|[? _]]; [|done].
  facts. specialize (Hqueue Hns). rewrite Hb in Hqueue.
  split; cbn; rewrite ?Hcl, ?Hp; auto; try done; try congruence.
  - rewrite <- Hqueue. exists (buf r). by rewrite <- app_assoc.
  - intros _. by rewrite <- app_assoc.
  - rewrite Hb, zlen_cons in Hroom. lia.
Qed.
End Client.

(** ** Every step keeps it *)
Definition good (r : result) : Prop :=
  match r with Blocked => True | Crash => False | Next w => ok w end.

Lemma atStage_good c p w k :
  ok w ->
  (forall cn ch, conns w !! c = Some cn -> chans w !! c = Some ch -> p (stage_ cn) = true ->
     client_ok (inClients c (hub w)) (isAdmitting c (hub w)) (taken w) cn ch -> good (k cn ch)) ->
  good (atStage c p w k).
Proof.
  intros Hw Hk. unfold atStage. destruct (conns w !! c) as [cn|] eqn:E1; [|done].
  destruct (chans w !! c) as [ch|] eqn:E2; [|done]. destruct (p (stage_ cn)) eqn:E3; [|done].
  apply Hk; [done..|]. by apply (ok_client _ _ Hw).
Qed.

Lemma isAdmitting_waiting c w : waiting w = true -> isAdmitting c (hub w) = false.
Proof. unfold waiting, isAdmitting. by destruct (loop (hub w)). Qed.

Lemma ok_hub_of w : ok w -> hub_ok (hub w).
Proof. apply ok_hub. Qed.
#[local] Hint Resolve ok_hub_of : core.

(** The new world as a record. *)
Ltac world :=
  cbn [good]; unfold set_hub, set_conn, set_chan; cbn [hub chans conns taken].

Lemma Connect_good c w : ok w -> good (Connect c w).
Proof.
  intros Hw. unfold Connect. destruct (chans w !! c) eqn:E1; [done|].
  destruct (conns w !! c) eqn:E2; [done|]. cbn.
  assert (inClients c (hub w) || isAdmitting c (hub w) = false) as Hno.
  { destruct (_ || _) eqn:E; [|done]. apply (ok_known _ _ Hw) in E as [? ?]. congruence. }
  apply orb_false_iff in Hno as [Hn1 Hn2].
  split; cbn; [by eauto|..].
  - intros c'. destruct (decide (c' = c)) as [->|].
    + rewrite !lookup_insert_eq. naive_solver.
    + rewrite !lookup_insert_ne by done. apply (ok_dom _ _ Hw).
  - intros c' Hc'. destruct (decide (c' = c)) as [->|].
    + rewrite lookup_insert_eq. eauto.
    + rewrite lookup_insert_ne by done. by apply (ok_known _ _ Hw).
  - intros c' cn ch. destruct (decide (c' = c)) as [->|].
    + rewrite !lookup_insert_eq, Hn1, Hn2. intros [= <-] [= <-].
      split; cbn; try done; try lia; eauto using prefix_nil.
    + rewrite !lookup_insert_ne by done. apply (ok_client _ _ Hw).
Qed.


Lemma Register_good c w : ok w -> good (Register c w).
Proof.
  intros Hw. apply atStage_good; [done|]. intros cn ch E1 E2 Es Hc.
  destruct (waiting w) eqn:Ew; [|done]. cbn [negb]. world.
  destruct (stage_ cn) eqn:Est; try done. rewrite (isAdmitting_waiting _ _ Ew) in Hc.
  apply (ok_set_conn w c _ ch); [done|by destruct (ok_hub _ _ Hw)|done|..].
  - intros c' Hne. split; [done|]. rewrite (isAdmitting_waiting c') by done. cbn. by apply Z.eqb_neq.
  - replace (isAdmitting c (set_loop (Admitting c) (hub w))) with true by (symmetry; apply Z.eqb_refl).
    by eapply client_register.
Qed.

Lemma full_false h : full h = false -> 0 < maxClients h -> Z.of_nat (size (clients h)) < maxClients h.
Proof. unfold full. lia. Qed.

Lemma isAdmitting_other c c' h : loop h = Admitting c -> c' <> c -> isAdmitting c' h = false.
Proof. unfold isAdmitting. intros -> ?. by apply Z.eqb_neq. Qed.

Lemma Admit_good w : ok w -> good (Admit w).
Proof.
  intros Hw. unfold Admit. destruct (loop (hub w)) as [|c|] eqn:El; [done| |done].
  assert (isAdmitting c (hub w) = true) as Ha by (unfold isAdmitting; rewrite El; apply Z.eqb_refl).
  destruct (ok_known _ _ Hw c) as [ch E2]; [by rewrite Ha, orb_true_r|]. rewrite E2.
  destruct (proj1 (ok_dom _ _ Hw c) ltac:(eauto)) as [cn E1].
  pose proof (ok_client _ _ Hw _ _ _ E1 E2) as Hc. rewrite Ha in Hc.
  assert (closed ch = false) as Eo by (apply (ok_open _ _ _ _ _ Hc); by rewrite orb_true_r).
  assert (forall c' : Z, c' <> c -> isAdmitting c' (set_loop Waiting (hub w)) = isAdmitting c' (hub w)) as Hoth.
  { intros c' Hne. by rewrite (isAdmitting_other c c' _ El Hne). }
  destruct (full _) eqn:Ef.
  - unfold closeChan, crashing. rewrite Eo. world.
    apply (ok_set_chan (fun _ => taken w) _ w c cn); [done|by destruct (ok_hub _ _ Hw)|done|by auto|].
    eapply client_reject in Hc; [|done]. assert (inClients c (hub w) = false) as Hin.
    { pose proof (ok_client _ _ Hw _ _ _ E1 E2) as Hc'. pose proof (ok_one _ _ _ _ _ Hc') as Ho.
      rewrite Ha, andb_true_r in Ho. done. }
    change (inClients c (set_loop _ _)) with (inClients c (hub w)). by rewrite Hin.
  - world. rewrite <- (insert_id (chans w) c ch) by done.
    apply (ok_set_chan (fun _ => taken w) _ w c cn); [done| |done|..].
    + destruct (ok_hub _ _ Hw) as [H1 H2]. split; cbn; [done|]. intros Hm.
      apply full_false in Ef; [|done]. cbn in Ef.
      pose proof (size_union_alt (clients (hub w)) {[c]}). 
      assert (size ({[c]} ∖ clients (hub w)) <= 1)%nat.
      { rewrite <- (size_singleton (C := gset Z) c). apply subseteq_size. set_solver. }
      lia.
    + intros c' Hne. split; [|split; [by apply Hoth|done]]. apply bool_decide_ext. set_solver.
    + replace (inClients c _) with true by (symmetry; apply bool_decide_true; set_solver).
      by eapply client_admit.
Qed.

Lemma trySend_full m ch r : trySend m ch = Some (false, r) -> r = ch.
Proof. unfold trySend. destruct (closed ch); [done|]. destruct (_ <? _); congruence. Qed.

Lemma Greet_good c init w : ok w -> good (Greet c init w).
Proof.
  intros Hw. apply atStage_good; [done|]. intros cn ch E1 E2 Es Hc.
  destruct (stage_ cn) eqn:Est; try done. destruct init as [data|].
  2: { world. apply (ok_set_conn w c _ ch); auto. by apply client_reading. }
  destruct (trySend (InitFrame data) ch) as [[[] r]|] eqn:Et; world.
  - apply (ok_set (fun _ => taken w)); eauto. by eapply client_greeted.
  - apply trySend_full in Et as ->. apply (ok_set (fun _ => taken w)); eauto. by apply client_reading.
  - apply (ok_set_conn w c _ ch); auto. apply client_panicked; [done..|].
    unfold trySend in Et. destruct (closed ch); [done|]. by destruct (_ <? _).
Qed.

Lemma ReadEnd_good c w : ok w -> good (ReadEnd c w).
Proof.
  intros Hw. apply atStage_good; [done|]. intros cn ch E1 E2 Es Hc. world.
  destruct (stage_ cn) eqn:Est; try done. apply (ok_set_conn w c _ ch); auto.
  by apply client_leaving.
Qed.

Lemma clients_diff_ok c h : hub_ok h -> hub_ok (set_clients (clients h ∖ {[c]}) h).
Proof. intros Hh. apply hub_ok_clients; [done|]. apply subseteq_size. set_solver. Qed.

Lemma Unregister_good c w : ok w -> good (Unregister c w).
Proof.
  intros Hw. apply atStage_good; [done|]. intros cn ch E1 E2 Es Hc.
  destruct (waiting w) eqn:Ew; [|done]. cbn [negb].
  destruct (stage_ cn) eqn:Est; try done. rewrite (isAdmitting_waiting _ _ Ew) in Hc. cbn [hub set_conn].
  destruct (bool_decide _) eqn:Ein; fold (inClients c (hub w)) in Ein.
  - rewrite Ein in Hc. unfold crashing, closeChan. rewrite (ok_open _ _ _ _ _ Hc) by done. world.
    apply (ok_set (fun _ => taken w)); eauto using clients_diff_ok.
    + intros. by rewrite inClients_diff.
    + rewrite inClients_same. change (isAdmitting c _) with (isAdmitting c (hub w)).
      rewrite (isAdmitting_waiting _ _ Ew). by eapply client_removed.
  - world. apply (ok_set_conn w c _ ch); auto. rewrite Ein, (isAdmitting_waiting _ _ Ew) in *.
    by apply client_gone.
Qed.

Lemma Broadcast_good d w : ok w -> good (Broadcast d w).
Proof.
  intros Hw. unfold Broadcast. destruct (_ <? _) eqn:Er; [|done]. world.
  apply ok_set_hub; [done| |done]. apply Z.ltb_lt in Er. destruct (ok_hub_of _ Hw) as [H1 H2].
  split; cbn; [|done]. rewrite zlen_app. unfold zlen at 2. cbn. lia.
Qed.

Lemma Stop_good w : ok w -> good (Stop w).
Proof.
  intros Hw. unfold Stop. destruct (waiting w) eqn:Ew; [|done]. world.
  apply ok_set_hub; [done|by destruct (ok_hub_of _ Hw)|]. intros c.
  by rewrite (isAdmitting_waiting _ _ Ew).
Qed.

Lemma PingFail_good c w : ok w -> good (PingFail c w).
Proof.
  intros Hw. apply atStage_good; [done|]. intros cn ch E1 E2 Es Hc.
  destruct (pump_ cn) eqn:Ep; try done. world. apply (ok_set_conn w c _ ch); auto.
  by apply client_stopped.
Qed.

(** One receive of the pump, successful or not. *)
Lemma pump_step_good c w cn ch m r p (ok_ : bool) :
  ok w -> conns w !! c = Some cn -> chans w !! c = Some ch -> pumping (stage_ cn) = true ->
  recv ch = Some (m, true, r) -> pump_ cn <> Stopped -> buffered p r ->
  ok (set_chan c r (set_conn c (if ok_ then write m (set_pump p cn) else set_pump Stopped cn) w)).
Proof.
  intros Hw E1 E2 Es Hr Hp Hb. world. pose proof (ok_client _ _ Hw _ _ _ E1 E2) as Hc.
  apply (ok_set (fun _ => taken w)); eauto. destruct ok_; [by eapply client_written|by eapply client_lost].
Qed.

Lemma Write_good c b w : ok w -> good (Write c b w).
Proof.
  intros Hw. apply atStage_good; [done|]. intros cn ch E1 E2 Es Hc.
  pose proof (ok_drain _ _ _ _ _ Hc) as Hd. destruct (pump_ cn) as [| |[|n]|] eqn:Ep; [..|done].
  - destruct (recv ch) as [[[m []] r]|] eqn:Er; [| |done].
    + apply (pump_step_good c w cn ch); auto. by rewrite Ep.
    + world. apply (ok_set_conn w c _ ch); auto. by apply client_stopped.
  - world. apply (ok_set_conn w c _ ch); auto. apply client_pump; [done|done|by rewrite Ep|cbn; lia].
  - world. apply (ok_set_conn w c _ ch); auto. apply client_pump; [done|done|by rewrite Ep|done].
  - destruct (recv ch) as [[[m o] r]|] eqn:Er; [|done].
    destruct (recv_inv _ _ _ _ Er) as [(-> & Hb & _)|(_ & _ & Hb & _)];
      cbn in Hd; rewrite Hb in Hd; cbn in Hd; [|lia].
    apply (pump_step_good c w cn ch); auto; [by rewrite Ep|cbn; lia].
Qed.

(** *** Delivery *)
Definition behind (order : list Z) (d : string) (tk : list string) (c : Z) : list string :=
  if bool_decide (c ∈ order) then tk else tk ++ [d].

Lemma behind_head c order d tk : behind (c :: order) d tk c = tk.
Proof. unfold behind. rewrite bool_decide_true by (by left). done. Qed.
Lemma behind_served c order d tk : c ∉ order -> behind order d tk c = tk ++ [d].
Proof. intros. unfold behind. by rewrite bool_decide_false. Qed.
Lemma behind_other c c' order d tk : c' <> c -> behind order d tk c' = behind (c :: order) d tk c'.
Proof. intros Hne. unfold behind. erewrite bool_decide_ext; [done|]. rewrite elem_of_cons. naive_solver. Qed.

Lemma isAdmitting_none c h : loop h = Waiting -> isAdmitting c h = false.
Proof. unfold isAdmitting. by intros ->. Qed.

(** What a delivery does to the channel of a client. *)
Definition served (d : string) (ch : chan) (still : Prop) (ch' : chan) : Prop :=
  (zlen (buf ch) < sendCap /\ still /\
   ch' = mkChan (buf ch ++ [HubFrame d]) false (pushed ch ++ [HubFrame d])) \/
  (zlen (buf ch) = sendCap /\ ~ still /\ ch' = closing ch).

Lemma deliver_eval d c w ch :
  chans w !! c = Some ch -> closed ch = false ->
  deliver d c w =
    if zlen (buf ch) <? sendCap
    then Next (set_chan c (mkChan (buf ch ++ [HubFrame d]) false (pushed ch ++ [HubFrame d])) w)
    else Next (set_chan c (closing ch) (set_hub (set_clients (clients (hub w) ∖ {[c]}) (hub w)) w)).
Proof.
  intros E Ho. unfold deliver, crashing, trySend, closeChan. rewrite E, Ho.
  by destruct (_ <? _).
Qed.

Lemma deliver_ok d c order tk w :
  ok_for (behind (c :: order) d tk) w -> loop (hub w) = Waiting -> c ∈ clients (hub w) -> c ∉ order ->
  exists w' ch ch', deliver d c w = Next w' /\ ok_for (behind order d tk) w' /\
    loop (hub w') = Waiting /\ broadcast (hub w') = broadcast (hub w) /\ taken w' = taken w /\
    conns w' = conns w /\
    (forall c', c' <> c -> c' ∈ clients (hub w') <-> c' ∈ clients (hub w)) /\
    chans w !! c = Some ch /\ chans w' = <[c := ch']> (chans w) /\ served d ch (c ∈ clients (hub w')) ch'.
Proof.
  intros Hw Hl Hin Hnot.
  assert (inClients c (hub w) = true) as Hc1 by by apply bool_decide_true.
  destruct (ok_known _ _ Hw c) as [ch E2]; [by rewrite Hc1|].
  destruct (proj1 (ok_dom _ _ Hw c) ltac:(eauto)) as [cn E1].
  pose proof (ok_client _ _ Hw _ _ _ E1 E2) as Hc.
  rewrite Hc1, isAdmitting_none, behind_head in Hc by done.
  assert (closed ch = false) as Ho by (by apply (ok_open _ _ _ _ _ Hc)).
  rewrite (deliver_eval d c w ch E2 Ho). destruct (zlen (buf ch) <? sendCap) eqn:Er.
  - do 3 eexists. split; [done|]. split; [world|split_and!; try done].
    + eapply (ok_set_chan _ _ w c cn); [done|apply Hw|done|by eauto using behind_other|].
      rewrite Hc1, isAdmitting_none, behind_served by done. eapply client_pushed; [done..|].
      unfold trySend. by rewrite Ho, Er.
    + left. apply Z.ltb_lt in Er. done.
  - do 3 eexists. split; [done|]. split; [world|split_and!; try done].
    + eapply (ok_set_chan _ _ w c cn); [done| |done|..].
      * apply clients_diff_ok, Hw.
      * intros. split; [by apply inClients_diff|]. split; [done|by apply behind_other].
      * rewrite inClients_same, isAdmitting_none, behind_served by done. by eapply client_dropped.
    + cbn. set_solver.
    + right. apply Z.ltb_ge in Er. pose proof (ok_room _ _ _ _ _ Hc). cbn.
      split; [lia|]. split; [set_solver|done].
Qed.

Lemma deliverAll_ok d order tk w :
  ok_for (behind order d tk) w -> loop (hub w) = Waiting -> taken w = tk ++ [d] ->
  NoDup order -> (forall c, c ∈ order -> c ∈ clients (hub w)) ->
  exists w', deliverAll d order w = Next w' /\ ok w' /\
    broadcast (hub w') = broadcast (hub w) /\ taken w' = taken w /\ conns w' = conns w /\
    (forall c, c ∉ order -> (c ∈ clients (hub w') <-> c ∈ clients (hub w)) /\ chans w' !! c = chans w !! c) /\
    (forall c, c ∈ order -> exists ch ch', chans w !! c = Some ch /\ chans w' !! c = Some ch' /\
       served d ch (c ∈ clients (hub w')) ch').
Proof.
  revert w. induction order as [|c order IH]; intros w Hw Hl Ht Hnd Hin.
  - exists w. split; [done|]. split; [unfold ok; rewrite Ht; exact Hw|].
    split_and!; try done. intros c Hc. by apply elem_of_nil in Hc.
  - apply NoDup_cons in Hnd as [Hnot Hnd]. cbn [deliverAll].
    destruct (deliver_ok d c order tk w Hw Hl) as
      (w1 & ch & ch' & -> & Hw1 & Hl1 & Hb1 & Ht1 & Hc1 & Hcl & E & Hch & Hs); [apply Hin; by left|done|].
    destruct (IH w1) as (w' & -> & Hw' & Hb' & Ht' & Hc' & Hout & Hins); [done|done|by rewrite Ht1|done|..].
    { intros c' Hc''. apply Hcl; [by intros ->|]. apply Hin. by right. }
    exists w'. rewrite Hb', Ht', Ht1, Hc', Hc1. split_and!; try done.
    + intros c' [Hne Hnin]%not_elem_of_cons. destruct (Hout c' Hnin) as [-> ->].
      by rewrite Hch, lookup_insert_ne, Hcl.
    + intros c' [->|Hc'']%elem_of_cons.
      * exists ch, ch'. destruct (Hout c Hnot) as [Hm ->]. rewrite Hch, lookup_insert_eq.
        split; [done|split; [done|]]. unfold served in *. by rewrite Hm.
      * destruct (Hins c' Hc'') as (x & x' & Ex & ?). exists x, x'. split; [|done].
        rewrite Hch, lookup_insert_ne in Ex by (by intros ->). done.
Qed.

(** The message is taken: every client in the map is one behind. *)
Lemma taken_ok d rest order w :
  ok w -> loop (hub w) = Waiting -> broadcast (hub w) = d :: rest -> order ≡ₚ elements (clients (hub w)) ->
  ok_for (behind order d (taken w))
    (mkWorld (set_broadcast rest (hub w)) (chans w) (conns w) (taken w ++ [d])).
Proof.
  intros [[H1 H1'] H2 H3 H4] Hl Hb Ho. split; [|done|done|].
  - split; cbn; [|done]. rewrite Hb, zlen_cons in H1. lia.
  - intros c cn ch E1 E2. specialize (H4 c cn ch E1 E2). cbn. unfold behind.
    change (inClients c (set_broadcast _ _)) with (inClients c (hub w)).
    change (isAdmitting c (set_broadcast _ _)) with (isAdmitting c (hub w)).
    destruct (bool_decide (c ∈ order)) eqn:Ein; [done|]. apply bool_decide_eq_false in Ein.
    apply client_taken; [done| |by apply isAdmitting_none].
    apply bool_decide_false. intros Hin. apply Ein. rewrite Ho. by apply elem_of_elements.
Qed.

Lemma waiting_loop w : waiting w = true -> loop (hub w) = Waiting.
Proof. unfold waiting. by destruct (loop (hub w)). Qed.

Lemma Deliver_ok order w d rest :
  ok w -> waiting w = true -> broadcast (hub w) = d :: rest -> order ≡ₚ elements (clients (hub w)) ->
  exists w', Deliver order w = Next w' /\ ok w' /\
    broadcast (hub w') = rest /\ taken w' = taken w ++ [d] /\ conns w' = conns w /\
    (forall c, c ∉ clients (hub w) -> (c ∉ clients (hub w')) /\ chans w' !! c = chans w !! c) /\
    (forall c, c ∈ clients (hub w) -> exists ch ch', chans w !! c = Some ch /\ chans w' !! c = Some ch' /\
       served d ch (c ∈ clients (hub w')) ch').
Proof.
  intros Hw Ew Eb Eo. unfold Deliver. rewrite Ew, bool_decide_true, Eb by done. cbn [negb orb].
  assert (forall c, c ∈ order <-> c ∈ clients (hub w)) as Hin.
  { intros c. by rewrite Eo, elem_of_elements. }
  destruct (deliverAll_ok d order (taken w) _ (taken_ok d rest order w Hw (waiting_loop _ Ew) Eb Eo)
    (waiting_loop _ Ew) eq_refl) as (w' & -> & Hok & Hb & Ht & Hc & Hout & Hins).
  - rewrite Eo. apply NoDup_elements.
  - intros c. by rewrite Hin.
  - exists w'. split_and!; try done; intros c Hn; rewrite <- Hin in Hn; [|by apply Hins].
    destruct (Hout c Hn) as [Hm ->]. split; [|done]. rewrite Hm, <- Hin. done.
Qed.

Lemma Deliver_good order w : ok w -> good (Deliver order w).
Proof.
  intros Hw. destruct (waiting w) eqn:Ew; [|by unfold Deliver; rewrite Ew].
  destruct (decide (order ≡ₚ elements (clients (hub w)))) as [Eo|Eo];
    [|by unfold Deliver; rewrite bool_decide_false, orb_true_r].
  destruct (broadcast (hub w)) as [|d rest] eqn:Eb; [unfold Deliver; rewrite Eb; by destruct (_ || _)|].
  by destruct (Deliver_ok order w d rest Hw Ew Eb Eo) as (w' & -> & Hok & _).
Qed.

Lemma exec_good e w : ok w -> good (exec e w).
Proof.
  destruct e; cbn [exec]; auto using Connect_good, Register_good, Admit_good, Greet_good, ReadEnd_good,
    Unregister_good, Broadcast_good, Deliver_good, Stop_good, Write_good, PingFail_good.
Qed.

Lemma run_good es w : ok w -> exists w', run es w = Some w' /\ ok w'.
Proof.
  revert w. induction es as [|e es IH]; intros w Hw; cbn [run]; [by eauto|].
  pose proof (exec_good e w Hw) as Hg. destruct (exec e w); [by apply IH|done|by apply IH].
Qed.

Lemma run_events_app es es' w : run (es ++ es') w = match run es w with Some w' => run es' w' | None => None end.
Proof.
  revert w. induction es as [|e es IH]; intros w; [done|]. cbn [run app].
  destruct (exec e w); [apply IH|done|apply IH].
Qed.

Lemma run_ok es max w : run es (start max) = Some w -> ok w.
Proof. destruct (run_good es _ (start_ok max)) as (w' & -> & Hw). by intros [= <-]. Qed.

(** The limit does not change. *)
Definition sameMax (w : World) (r : result) : Prop :=
  match r with Next w' => maxClients (hub w') = maxClients (hub w) | _ => True end.

Lemma deliverAll_max d order w : sameMax w (deliverAll d order w).
Proof.
  revert w. induction order as [|c order IH]; intros w; [done|]. cbn [deliverAll].
  destruct (deliver d c w) as [| |w1] eqn:E; [done..|].
  assert (maxClients (hub w1) = maxClients (hub w)) as Hm.
  { unfold deliver, crashing, closeChan in E. repeat case_match; simplify_eq; done. }
  specialize (IH w1). destruct (deliverAll d order w1); [done..|]. cbn in *. congruence.
Qed.

Lemma Deliver_max order w : sameMax w (Deliver order w).
Proof.
  unfold Deliver. destruct (_ || _); [done|]. destruct (broadcast (hub w)) as [|d rest]; [done|].
  exact (deliverAll_max d order (mkWorld (set_broadcast rest (hub w)) (chans w) (conns w) (taken w ++ [d]))).
Qed.

Lemma exec_max e w : sameMax w (exec e w).
Proof.
  destruct e; cbn [exec]; try apply Deliver_max; unfold Connect, Register, Admit, Greet, ReadEnd,
    Unregister, Broadcast, Stop, Write, PingFail, atStage, crashing; repeat case_match; done.
Qed.

Lemma run_maxClients es max w : run es (start max) = Some w -> maxClients (hub w) = max.
Proof.
  assert (forall w0 w1, run es w0 = Some w1 -> maxClients (hub w1) = maxClients (hub w0)) as Hg.
  { induction es as [|e es IH]; intros w0 w1; cbn [run]; [by intros [= ->]|].
    pose proof (exec_max e w0) as He. destruct (exec e w0) as [| |w2]; [by apply IH|done|].
    intros E. by rewrite (IH _ _ E). }
  intros E. by apply Hg in E.
Qed.

(** *** A client that is turned away *)

(** Its channel is closed while its handler is in stage [st], before the
    pumps. *)
Definition away (st : stage) (c : Z) (w : World) : Prop :=
  exists ch cn, chans w !! c = Some ch /\ conns w !! c = Some cn /\ closed ch = true /\
    stage_ cn = st /\ wire cn = [] /\ closeFrame cn = false.

Lemma atStage_inv c p w k w' :
  atStage c p w k = Next w' ->
  exists cn ch, conns w !! c = Some cn /\ chans w !! c = Some ch /\ p (stage_ cn) = true /\ k cn ch = Next w'.
Proof.
  unfold atStage. destruct (conns w !! c) as [cn|]; [|done]. destruct (chans w !! c) as [ch|]; [|done].
  destruct (p (stage_ cn)) eqn:E; [|done]. eauto 10.
Qed.

(** A step at another client's stage. *)
Lemma away_elsewhere st c c' w w' p k :
  away st c w -> atStage c' p w k = Next w' -> p st = false ->
  (forall cn ch, conns w !! c' = Some cn -> chans w !! c' = Some ch -> k cn ch = Next w' ->
     (forall x, x <> c' -> conns w' !! x = conns w !! x /\ chans w' !! x = chans w !! x)) ->
  away st c w'.
Proof.
  intros (ch & cn & E1 & E2 & Hcl & Hst & Hwi) (cn' & ch' & E1' & E2' & Hp' & Hk)%atStage_inv Hp Hfr.
  assert (c <> c') as Hne by (intros <-; congruence).
  destruct (Hfr _ _ E1' E2' Hk c Hne) as [Ec Eh]. exists ch, cn. rewrite Ec, Eh. done.
Qed.

Lemma away_outside st c w : ok w -> away st c w -> inClients c (hub w) || isAdmitting c (hub w) = false.
Proof.
  intros Hw (ch & cn & E1 & E2 & Hcl & _). pose proof (ok_open _ _ _ _ _ (ok_client _ _ Hw _ _ _ E2 E1)) as Ho.
  destruct (inClients c (hub w) || isAdmitting c (hub w)); [|done]. specialize (Ho eq_refl). congruence.
Qed.

(** The step changed the records of [c'] only. *)
Ltac elsewhere :=
  intros cn ch _ _ Hk x Hne; unfold crashing, set_chan, set_conn, set_hub in Hk; repeat case_match;
  simplify_eq; cbn in *; simplify_eq; cbn; rewrite ?lookup_insert_ne by done; done.

Lemma away_Deliver st c order w w' :
  ok w -> away st c w -> Deliver order w = Next w' -> away st c w'.
Proof.
  intros Hw Ha E. pose proof (away_outside st c w Hw Ha) as Hout. apply orb_false_iff in Hout as [Hin _].
  apply bool_decide_eq_false in Hin.
  destruct (waiting w) eqn:Ew; [|by unfold Deliver in E; rewrite Ew in E].
  destruct (decide (order ≡ₚ elements (clients (hub w)))) as [Eo|Eo];
    [|by unfold Deliver in E; rewrite bool_decide_false, orb_true_r in E].
  destruct (broadcast (hub w)) as [|d rest] eqn:Eb; [unfold Deliver in E; rewrite Eb in E; by destruct (_ || _)|].
  destruct (Deliver_ok order w d rest Hw Ew Eb Eo) as (w1 & E1 & _ & _ & _ & Hc & Hn & _).
  assert (w1 = w') as -> by congruence. destruct (Hn c Hin) as [_ Hch]. unfold away. by rewrite Hc, Hch.
Qed.

Lemma away_exec st c e w w' :
  ok w -> away st c w -> st = Greeting /\ (forall d, e <> EGreet c d) \/ st = Panicked ->
  exec e w = Next w' -> away st c w'.
Proof.
  intros Hw Ha Hst. pose proof (away_outside st c w Hw Ha) as Hout. apply orb_false_iff in Hout as [_ Hadm].
  assert (forall p, p Greeting = false -> p Panicked = false -> p st = false) as Hp.
  { by destruct Hst as [[-> _]| ->]. }
  destruct e as [c'|c'| |c' d|c'|c'|d|order| |c' b|c']; cbn [exec]; intros E.
  - unfold Connect in E. destruct (chans w !! c') eqn:E3; [done|]. destruct (conns w !! c') eqn:E4; [done|].
    injection E as <-. destruct Ha as (ch & cn & E1 & E2 & Hrest).
    exists ch, cn. cbn. rewrite !lookup_insert_ne by congruence. done.
  - eapply away_elsewhere; [exact Ha|exact E|by apply Hp|elsewhere].
  - unfold Admit in E. destruct (loop (hub w)) as [|c'|] eqn:El; [done| |done].
    unfold isAdmitting in Hadm. rewrite El in Hadm. apply Z.eqb_neq in Hadm.
    destruct Ha as (ch & cn & E1 & E2 & Hrest). exists ch, cn.
    unfold crashing, set_chan, set_hub in E; repeat case_match; simplify_eq; cbn;
      rewrite ?lookup_insert_ne by congruence; done.
  - destruct (decide (c' = c)) as [->|Hne].
    + destruct Ha as (ch & cn & E1 & E2 & Hcl & Es & _). apply atStage_inv in E as (? & ? & ? & ? & Hg & _).
      destruct Hst as [[_ Hd]| ->]; [by destruct (Hd d)|]. simplify_eq. by rewrite Es in Hg.
    + apply atStage_inv in E as (cn' & ch' & E3 & E4 & _ & Hk). destruct Ha as (ch & cn & E1 & E2 & Hrest).
      exists ch, cn. unfold set_chan, set_conn in Hk; repeat case_match; simplify_eq; cbn;
        rewrite ?lookup_insert_ne by done; done.
  - eapply away_elsewhere; [exact Ha|exact E|by apply Hp|elsewhere].
  - eapply away_elsewhere; [exact Ha|exact E|by apply Hp|elsewhere].
  - unfold Broadcast in E. destruct (_ <? _); [|done]. by injection E as <-.
  - by eapply away_Deliver.
  - unfold Stop in E. destruct (waiting w); [|done]. by injection E as <-.
  - eapply away_elsewhere; [exact Ha|exact E|by apply Hp|elsewhere].
  - eapply away_elsewhere; [exact Ha|exact E|by apply Hp|elsewhere].
Qed.

Lemma away_run st c es w w' :
  ok w -> away st c w -> st = Greeting /\ Forall (fun e => forall d, e <> EGreet c d) es \/ st = Panicked ->
  run es w = Some w' -> away st c w'.
Proof.
  revert w. induction es as [|e es IH]; intros w Hw Ha Hst; cbn [run]; [by intros [= <-]|].
  pose proof (exec_good e w Hw) as Hg.
  assert (st = Greeting /\ (forall d, e <> EGreet c d) \/ st = Panicked) as He.
  { destruct Hst as [[? Hf%Forall_cons_1]|?]; [left; destruct Hf; by split|by right]. }
  assert (st = Greeting /\ Forall (fun e => forall d, e <> EGreet c d) es \/ st = Panicked) as Hes.
  { destruct Hst as [[? Hf%Forall_cons_1]|?]; [left; destruct Hf; by split|by right]. }
  destruct (exec e w) as [| |w1] eqn:E; [by apply IH|done|]. apply IH; [done| |done].
  exact (away_exec st c e w w1 Hw Ha He E).
Qed.

Lemma away_Greet c d w : away Greeting c w -> exists w', Greet c (Some d) w = Next w' /\ away Panicked c w'.
Proof.
  intros (ch & cn & E1 & E2 & Hcl & Es & Hwi). unfold Greet, atStage, trySend. rewrite E2, E1, Es, Hcl. cbn.
  eexists. split; [done|]. exists ch, (set_stage Panicked cn). cbn. by rewrite lookup_insert_eq.
Qed.

Lemma away_Admit c w cn :
  ok w -> loop (hub w) = Admitting c -> full (hub w) = true -> conns w !! c = Some cn ->
  stage_ cn = Greeting -> exists w', Admit w = Next w' /\ away Greeting c w'.
Proof.
  intros Hw El Ef Hcn Es. destruct (proj2 (ok_dom _ _ Hw c) ltac:(eauto)) as [ch Hch].
  pose proof (ok_client _ _ Hw _ _ _ Hcn Hch) as Hc.
  assert (isAdmitting c (hub w) = true) as Ha by (unfold isAdmitting; rewrite El; apply Z.eqb_refl).
  destruct (ok_pump _ _ _ _ _ Hc) as (_ & Hwi & Hcf); [by rewrite Es|].
  unfold Admit, crashing, closeChan. rewrite El, Hch.
  change (full (set_loop Waiting (hub w))) with (full (hub w)). rewrite Ef.
  rewrite (ok_open _ _ _ _ _ Hc) by (by rewrite Ha, orb_true_r). eexists. split; [done|].
  exists (closing ch), cn. cbn. by rewrite lookup_insert_eq.
Qed.

(** ** Properties *)

(** C23: whatever the interleaving of handlers, pumps, broadcasts and the hub
    loop, the loop never sends on or closes a closed channel, so the process
    does not crash; there are never more clients than [WS_MAX_CLIENTS] when it
    is positive, and no channel holds more than its capacity. *)
Theorem hub_never_crashes es max :
  exists w, run es (start max) = Some w /\
    (0 < max -> Z.of_nat (size (clients (hub w))) <= max) /\
    zlen (broadcast (hub w)) <= broadcastCap /\
    (forall c, c ∈ clients (hub w) -> exists ch, chans w !! c = Some ch /\ closed ch = false) /\
    (forall c ch, chans w !! c = Some ch -> zlen (buf ch) <= sendCap).
Proof.
  destruct (run_good es _ (start_ok max)) as (w & Hr & Hw). exists w. split; [done|].
  assert (maxClients (hub w) = max) as Hm by by eapply run_maxClients.
  destruct (ok_hub_of _ Hw) as [Hb Hs]. rewrite Hm in Hs. split; [done|split; [done|]]. split.
  - intros c Hc. apply (bool_decide_true (c ∈ clients (hub w))) in Hc.
    destruct (ok_known _ _ Hw c) as [ch Hch]; [unfold inClients; by rewrite Hc|].
    destruct (proj1 (ok_dom _ _ Hw c) ltac:(eauto)) as [cn Hcn]. exists ch. split; [done|].
    apply (ok_open _ _ _ _ _ (ok_client _ _ Hw _ _ _ Hcn Hch)). unfold inClients. by rewrite Hc.
  - intros c ch Hch. destruct (proj1 (ok_dom _ _ Hw c) ltac:(eauto)) as [cn Hcn].
    apply (ok_room _ _ _ _ _ (ok_client _ _ Hw _ _ _ Hcn Hch)).
Qed.

Lemma hubData_not_nil l l' : l `prefix_of` l' -> NilFrame ∈ l -> NilFrame ∈ l'.
Proof. intros [k ->] Hin. apply elem_of_app. by left. Qed.


(** When the hub takes a message, each client of the map gets it at the
    end of its buffer if there is room, and is otherwise dropped and its
    channel closed with the buffer as it was; nobody else is touched. *)
Theorem delivery_outcomes es max w order d rest :
  run es (start max) = Some w -> waiting w = true -> broadcast (hub w) = d :: rest ->
  order ≡ₚ elements (clients (hub w)) ->
  exists w', exec (EDeliver order) w = Next w' /\
    broadcast (hub w') = rest /\ taken w' = taken w ++ [d] /\ conns w' = conns w /\
    (forall c, c ∉ clients (hub w) -> (c ∉ clients (hub w')) /\ chans w' !! c = chans w !! c) /\
    (forall c, c ∈ clients (hub w) -> exists ch ch', chans w !! c = Some ch /\ chans w' !! c = Some ch' /\
       served d ch (c ∈ clients (hub w')) ch').
Proof.
  intros Hr%run_ok Hw Hb Ho. destruct (Deliver_ok order w d rest Hr Hw Hb Ho) as (w' & E & _ & Hrest).
  by exists w'.
Qed.

(** When the hub turns a client away because the limit is reached before
    the handler has sent the init event, that send panics whatever happens in
    between, and the connection is left without pumps: nothing is ever
    written to it, not even a close frame. *)
Theorem rejected_client_panics es max w c cn es1 w1 d :
  run es (start max) = Some w -> loop (hub w) = Admitting c -> full (hub w) = true ->
  conns w !! c = Some cn -> stage_ cn = Greeting ->
  Forall (fun e => forall d, e <> EGreet c d) es1 -> run (EAdmit :: es1) w = Some w1 ->
  exists w2, exec (EGreet c (Some d)) w1 = Next w2 /\
    forall es2 w3, run es2 w2 = Some w3 -> away Panicked c w3.
Proof.
  intros Hr%run_ok El Ef Hcn Es Hf Hrun. cbn [run exec] in Hrun.
  destruct (away_Admit c w cn Hr El Ef Hcn Es) as (w' & E & Ha). rewrite E in Hrun.
  pose proof (exec_good EAdmit w Hr) as Hw'. cbn [exec] in Hw'. rewrite E in Hw'. cbn in Hw'.
  pose proof (away_run Greeting c es1 w' w1 Hw' Ha (or_introl (conj eq_refl Hf)) Hrun) as Ha1.
  assert (ok w1) as Hw1 by (destruct (run_good es1 w' Hw') as (? & ? & ?); congruence).
  destruct (away_Greet c d w1 Ha1) as (w2 & E2 & Ha2). exists w2. split; [done|]. intros es2 w3.
  pose proof (exec_good (EGreet c (Some d)) w1 Hw1) as Hw2. cbn [exec] in Hw2. rewrite E2 in Hw2.
  by apply away_run; [..|right].
Qed.

(** ** Witnesses *)
Definition joined (c : Z) : list event := [EConnect c; ERegister c; EAdmit; EGreet c (Some "init"%string)].
Definition worldOf (es : list event) (max : Z) : World := default (start max) (run es (start max)).
Definition connOf (c : Z) (w : World) : conn := default (mkConn Gone Stopped [] false 0) (conns w !! c).
Definition chanOf (c : Z) (w : World) : chan := default makeChan (chans w !! c).

Definition chatter : list event :=
  joined 1 ++ [EBroadcast "a"; EDeliver [1]] ++ joined 2 ++
  [EBroadcast "b"; EBroadcast "c"; EDeliver [2; 1]; EWrite 2 true; EWrite 2 true; EWrite 2 true; EDeliver [1; 2]].


(** Client 1 has 256 frames waiting, client 2 none. *)
Definition slowOne : list event :=
  joined 1 ++ concat (repeat [EBroadcast "m"; EDeliver [1]] 255) ++ joined 2 ++ [EBroadcast "n"].

Lemma delivery_outcomes_witness :
  exists w', exec (EDeliver [1; 2]) (worldOf slowOne 0) = Next w' /\ taken w' = repeat "m"%string 255 ++ ["n"%string] /\
    exists ch ch', chans w' !! 1 = Some ch' /\ served "n" ch (1 ∈ clients (hub w')) ch'.
Proof.
  destruct (delivery_outcomes slowOne 0 (worldOf slowOne 0) [1; 2] "n" []) as (w' & E & _ & Ht & _ & _ & Hs).
  - vm_compute. reflexivity.
  - vm_compute. reflexivity.
  - vm_compute. reflexivity.
  - apply (bool_decide_unpack _). vm_compute. exact I.
  - exists w'. split; [exact E|]. split; [rewrite Ht; vm_compute; reflexivity|].
    destruct (Hs 1) as (ch & ch' & _ & Hc & Hv); [vm_compute; reflexivity|]. exists ch, ch'. split; [exact Hc|exact Hv].
Defined.

(** One client at most: the second is turned away. *)
Definition oneTooMany : list event := joined 1 ++ [EConnect 2; ERegister 2].

Lemma rejected_client_panics_witness :
  exists w2, exec (EGreet 2 (Some "init"%string)) (worldOf (oneTooMany ++ [EAdmit]) 1) = Next w2 /\
    away Panicked 2 w2.
Proof.
  destruct (rejected_client_panics oneTooMany 1 (worldOf oneTooMany 1) 2 (connOf 2 (worldOf oneTooMany 1)) []
    (worldOf (oneTooMany ++ [EAdmit]) 1) "init") as (w2 & E & H).
  - vm_compute. reflexivity.
  - vm_compute. reflexivity.
  - vm_compute. reflexivity.
  - vm_compute. reflexivity.
  - vm_compute. reflexivity.
  - constructor.
  - vm_compute. reflexivity.
  - exists w2. split; [exact E|]. exact (H [] w2 eq_refl).
Defined.
