(* ===== verification/NodeData.v ===== *)
(** The [Node] of [internal/nodes/service.go]: the struct with its zero value
    and one update function per assigned field, what each handler assigns to
    it, and the row of the table [nodes] it is stored in.

    Times are nanoseconds since 1970, [float32] fields are bit patterns and
    [float64] fields are [spec_float]s (see [GoFloat32.v]). *)
From Stdlib Require Import Floats.SpecFloat.
From S2P Require Import Prelude GoStrings GoFloat GoFloat32 Messages.

(** ** The struct *)
Definition zero64 : spec_float := S754_zero false.

(** [time.Time{}], the first of January of the year 1. *)
Definition zeroTime : Z := -62135596800000000000.
Definition IsZero (t : Z) : bool := t =? zeroTime.

Module Node.
Record t : Type := mk {
  ID : string;
  NodeNum : Z;
  NodeID : string;
  NodeType : string;
  LongName : string;
  ShortName : string;
  HWModel : string;
  MacAddr : string;
  Role : string;
  IsLicensed : bool;
  FirmwareVersion : string;
  Latitude : spec_float;
  Longitude : spec_float;
  Altitude : spec_float;
  BatteryLevel : Z;
  Voltage : Z;
  ChannelUtilization : Z;
  AirUtilTx : Z;
  UptimeSeconds : Z;
  Humidity : Z;
  Pressure : Z;
  SatsInView : Z;
  Temperature : spec_float;
  SNR : Z;
  RSSI : Z;
  LastHeard : Z;
  IsOnline : bool;
  IsLocal : bool;
  SiteID : string;
  OriginSiteID : string;
  LastMessage : string;
  SensorShortID : string;
  TemperatureC : spec_float;
  TemperatureF : spec_float;
  TemperatureUpdatedAt : option Z;
  TelemetryUpdatedAt : option Z
}.
(** [&Node{NodeNum: num}] *)
Definition fresh (num : Z) : t :=
  mk "" num "" "" "" "" "" "" "" false "" zero64 zero64 zero64 0 0 0 0 0 0 0 0 zero64 0 0
  zeroTime false false "" "" "" "" zero64 zero64 None None.
Definition set_NodeID (v : string) (r : t) : t :=
  mk (ID r) (NodeNum r) v (NodeType r) (LongName r) (ShortName r) (HWModel r) (MacAddr r)
  (Role r) (IsLicensed r) (FirmwareVersion r) (Latitude r) (Longitude r) (Altitude r)
  (BatteryLevel r) (Voltage r) (ChannelUtilization r) (AirUtilTx r) (UptimeSeconds r)
  (Humidity r) (Pressure r) (SatsInView r) (Temperature r) (SNR r) (RSSI r) (LastHeard r)
  (IsOnline r) (IsLocal r) (SiteID r) (OriginSiteID r) (LastMessage r) (SensorShortID r)
  (TemperatureC r) (TemperatureF r) (TemperatureUpdatedAt r) (TelemetryUpdatedAt r).
Definition set_NodeType (v : string) (r : t) : t :=
  mk (ID r) (NodeNum r) (NodeID r) v (LongName r) (ShortName r) (HWModel r) (MacAddr r) (Role r)
  (IsLicensed r) (FirmwareVersion r) (Latitude r) (Longitude r) (Altitude r) (BatteryLevel r)
  (Voltage r) (ChannelUtilization r) (AirUtilTx r) (UptimeSeconds r) (Humidity r) (Pressure r)
  (SatsInView r) (Temperature r) (SNR r) (RSSI r) (LastHeard r) (IsOnline r) (IsLocal r)
  (SiteID r) (OriginSiteID r) (LastMessage r) (SensorShortID r) (TemperatureC r) (TemperatureF r)
  (TemperatureUpdatedAt r) (TelemetryUpdatedAt r).
Definition set_LongName (v : string) (r : t) : t :=
  mk (ID r) (NodeNum r) (NodeID r) (NodeType r) v (ShortName r) (HWModel r) (MacAddr r) (Role r)
  (IsLicensed r) (FirmwareVersion r) (Latitude r) (Longitude r) (Altitude r) (BatteryLevel r)
  (Voltage r) (ChannelUtilization r) (AirUtilTx r) (UptimeSeconds r) (Humidity r) (Pressure r)
  (SatsInView r) (Temperature r) (SNR r) (RSSI r) (LastHeard r) (IsOnline r) (IsLocal r)
  (SiteID r) (OriginSiteID r) (LastMessage r) (SensorShortID r) (TemperatureC r) (TemperatureF r)
  (TemperatureUpdatedAt r) (TelemetryUpdatedAt r).
Definition set_ShortName (v : string) (r : t) : t :=
  mk (ID r) (NodeNum r) (NodeID r) (NodeType r) (LongName r) v (HWModel r) (MacAddr r) (Role r)
  (IsLicensed r) (FirmwareVersion r) (Latitude r) (Longitude r) (Altitude r) (BatteryLevel r)
  (Voltage r) (ChannelUtilization r) (AirUtilTx r) (UptimeSeconds r) (Humidity r) (Pressure r)
  (SatsInView r) (Temperature r) (SNR r) (RSSI r) (LastHeard r) (IsOnline r) (IsLocal r)
  (SiteID r) (OriginSiteID r) (LastMessage r) (SensorShortID r) (TemperatureC r) (TemperatureF r)
  (TemperatureUpdatedAt r) (TelemetryUpdatedAt r).
Definition set_HWModel (v : string) (r : t) : t :=
  mk (ID r) (NodeNum r) (NodeID r) (NodeType r) (LongName r) (ShortName r) v (MacAddr r) (Role r)
  (IsLicensed r) (FirmwareVersion r) (Latitude r) (Longitude r) (Altitude r) (BatteryLevel r)
  (Voltage r) (ChannelUtilization r) (AirUtilTx r) (UptimeSeconds r) (Humidity r) (Pressure r)
  (SatsInView r) (Temperature r) (SNR r) (RSSI r) (LastHeard r) (IsOnline r) (IsLocal r)
  (SiteID r) (OriginSiteID r) (LastMessage r) (SensorShortID r) (TemperatureC r) (TemperatureF r)
  (TemperatureUpdatedAt r) (TelemetryUpdatedAt r).
Definition set_MacAddr (v : string) (r : t) : t :=
  mk (ID r) (NodeNum r) (NodeID r) (NodeType r) (LongName r) (ShortName r) (HWModel r) v (Role r)
  (IsLicensed r) (FirmwareVersion r) (Latitude r) (Longitude r) (Altitude r) (BatteryLevel r)
  (Voltage r) (ChannelUtilization r) (AirUtilTx r) (UptimeSeconds r) (Humidity r) (Pressure r)
  (SatsInView r) (Temperature r) (SNR r) (RSSI r) (LastHeard r) (IsOnline r) (IsLocal r)
  (SiteID r) (OriginSiteID r) (LastMessage r) (SensorShortID r) (TemperatureC r) (TemperatureF r)
  (TemperatureUpdatedAt r) (TelemetryUpdatedAt r).
Definition set_Role (v : string) (r : t) : t :=
  mk (ID r) (NodeNum r) (NodeID r) (NodeType r) (LongName r) (ShortName r) (HWModel r)
  (MacAddr r) v (IsLicensed r) (FirmwareVersion r) (Latitude r) (Longitude r) (Altitude r)
  (BatteryLevel r) (Voltage r) (ChannelUtilization r) (AirUtilTx r) (UptimeSeconds r)
  (Humidity r) (Pressure r) (SatsInView r) (Temperature r) (SNR r) (RSSI r) (LastHeard r)
  (IsOnline r) (IsLocal r) (SiteID r) (OriginSiteID r) (LastMessage r) (SensorShortID r)
  (TemperatureC r) (TemperatureF r) (TemperatureUpdatedAt r) (TelemetryUpdatedAt r).
Definition set_IsLicensed (v : bool) (r : t) : t :=
  mk (ID r) (NodeNum r) (NodeID r) (NodeType r) (LongName r) (ShortName r) (HWModel r)
  (MacAddr r) (Role r) v (FirmwareVersion r) (Latitude r) (Longitude r) (Altitude r)
  (BatteryLevel r) (Voltage r) (ChannelUtilization r) (AirUtilTx r) (UptimeSeconds r)
  (Humidity r) (Pressure r) (SatsInView r) (Temperature r) (SNR r) (RSSI r) (LastHeard r)
  (IsOnline r) (IsLocal r) (SiteID r) (OriginSiteID r) (LastMessage r) (SensorShortID r)
  (TemperatureC r) (TemperatureF r) (TemperatureUpdatedAt r) (TelemetryUpdatedAt r).
Definition set_FirmwareVersion (v : string) (r : t) : t :=
  mk (ID r) (NodeNum r) (NodeID r) (NodeType r) (LongName r) (ShortName r) (HWModel r)
  (MacAddr r) (Role r) (IsLicensed r) v (Latitude r) (Longitude r) (Altitude r) (BatteryLevel r)
  (Voltage r) (ChannelUtilization r) (AirUtilTx r) (UptimeSeconds r) (Humidity r) (Pressure r)
  (SatsInView r) (Temperature r) (SNR r) (RSSI r) (LastHeard r) (IsOnline r) (IsLocal r)
  (SiteID r) (OriginSiteID r) (LastMessage r) (SensorShortID r) (TemperatureC r) (TemperatureF r)
  (TemperatureUpdatedAt r) (TelemetryUpdatedAt r).
Definition set_Latitude (v : spec_float) (r : t) : t :=
  mk (ID r) (NodeNum r) (NodeID r) (NodeType r) (LongName r) (ShortName r) (HWModel r)
  (MacAddr r) (Role r) (IsLicensed r) (FirmwareVersion r) v (Longitude r) (Altitude r)
  (BatteryLevel r) (Voltage r) (ChannelUtilization r) (AirUtilTx r) (UptimeSeconds r)
  (Humidity r) (Pressure r) (SatsInView r) (Temperature r) (SNR r) (RSSI r) (LastHeard r)
  (IsOnline r) (IsLocal r) (SiteID r) (OriginSiteID r) (LastMessage r) (SensorShortID r)
  (TemperatureC r) (TemperatureF r) (TemperatureUpdatedAt r) (TelemetryUpdatedAt r).
Definition set_Longitude (v : spec_float) (r : t) : t :=
  mk (ID r) (NodeNum r) (NodeID r) (NodeType r) (LongName r) (ShortName r) (HWModel r)
  (MacAddr r) (Role r) (IsLicensed r) (FirmwareVersion r) (Latitude r) v (Altitude r)
  (BatteryLevel r) (Voltage r) (ChannelUtilization r) (AirUtilTx r) (UptimeSeconds r)
  (Humidity r) (Pressure r) (SatsInView r) (Temperature r) (SNR r) (RSSI r) (LastHeard r)
  (IsOnline r) (IsLocal r) (SiteID r) (OriginSiteID r) (LastMessage r) (SensorShortID r)
  (TemperatureC r) (TemperatureF r) (TemperatureUpdatedAt r) (TelemetryUpdatedAt r).
Definition set_Altitude (v : spec_float) (r : t) : t :=
  mk (ID r) (NodeNum r) (NodeID r) (NodeType r) (LongName r) (ShortName r) (HWModel r)
  (MacAddr r) (Role r) (IsLicensed r) (FirmwareVersion r) (Latitude r) (Longitude r) v
  (BatteryLevel r) (Voltage r) (ChannelUtilization r) (AirUtilTx r) (UptimeSeconds r)
  (Humidity r) (Pressure r) (SatsInView r) (Temperature r) (SNR r) (RSSI r) (LastHeard r)
  (IsOnline r) (IsLocal r) (SiteID r) (OriginSiteID r) (LastMessage r) (SensorShortID r)
  (TemperatureC r) (TemperatureF r) (TemperatureUpdatedAt r) (TelemetryUpdatedAt r).
Definition set_BatteryLevel (v : Z) (r : t) : t :=
  mk (ID r) (NodeNum r) (NodeID r) (NodeType r) (LongName r) (ShortName r) (HWModel r)
  (MacAddr r) (Role r) (IsLicensed r) (FirmwareVersion r) (Latitude r) (Longitude r) (Altitude r)
  v (Voltage r) (ChannelUtilization r) (AirUtilTx r) (UptimeSeconds r) (Humidity r) (Pressure r)
  (SatsInView r) (Temperature r) (SNR r) (RSSI r) (LastHeard r) (IsOnline r) (IsLocal r)
  (SiteID r) (OriginSiteID r) (LastMessage r) (SensorShortID r) (TemperatureC r) (TemperatureF r)
  (TemperatureUpdatedAt r) (TelemetryUpdatedAt r).
Definition set_Voltage (v : Z) (r : t) : t :=
  mk (ID r) (NodeNum r) (NodeID r) (NodeType r) (LongName r) (ShortName r) (HWModel r)
  (MacAddr r) (Role r) (IsLicensed r) (FirmwareVersion r) (Latitude r) (Longitude r) (Altitude r)
  (BatteryLevel r) v (ChannelUtilization r) (AirUtilTx r) (UptimeSeconds r) (Humidity r)
  (Pressure r) (SatsInView r) (Temperature r) (SNR r) (RSSI r) (LastHeard r) (IsOnline r)
  (IsLocal r) (SiteID r) (OriginSiteID r) (LastMessage r) (SensorShortID r) (TemperatureC r)
  (TemperatureF r) (TemperatureUpdatedAt r) (TelemetryUpdatedAt r).
Definition set_ChannelUtilization (v : Z) (r : t) : t :=
  mk (ID r) (NodeNum r) (NodeID r) (NodeType r) (LongName r) (ShortName r) (HWModel r)
  (MacAddr r) (Role r) (IsLicensed r) (FirmwareVersion r) (Latitude r) (Longitude r) (Altitude r)
  (BatteryLevel r) (Voltage r) v (AirUtilTx r) (UptimeSeconds r) (Humidity r) (Pressure r)
  (SatsInView r) (Temperature r) (SNR r) (RSSI r) (LastHeard r) (IsOnline r) (IsLocal r)
  (SiteID r) (OriginSiteID r) (LastMessage r) (SensorShortID r) (TemperatureC r) (TemperatureF r)
  (TemperatureUpdatedAt r) (TelemetryUpdatedAt r).
Definition set_AirUtilTx (v : Z) (r : t) : t :=
  mk (ID r) (NodeNum r) (NodeID r) (NodeType r) (LongName r) (ShortName r) (HWModel r)
  (MacAddr r) (Role r) (IsLicensed r) (FirmwareVersion r) (Latitude r) (Longitude r) (Altitude r)
  (BatteryLevel r) (Voltage r) (ChannelUtilization r) v (UptimeSeconds r) (Humidity r)
  (Pressure r) (SatsInView r) (Temperature r) (SNR r) (RSSI r) (LastHeard r) (IsOnline r)
  (IsLocal r) (SiteID r) (OriginSiteID r) (LastMessage r) (SensorShortID r) (TemperatureC r)
  (TemperatureF r) (TemperatureUpdatedAt r) (TelemetryUpdatedAt r).
Definition set_UptimeSeconds (v : Z) (r : t) : t :=
  mk (ID r) (NodeNum r) (NodeID r) (NodeType r) (LongName r) (ShortName r) (HWModel r)
  (MacAddr r) (Role r) (IsLicensed r) (FirmwareVersion r) (Latitude r) (Longitude r) (Altitude r)
  (BatteryLevel r) (Voltage r) (ChannelUtilization r) (AirUtilTx r) v (Humidity r) (Pressure r)
  (SatsInView r) (Temperature r) (SNR r) (RSSI r) (LastHeard r) (IsOnline r) (IsLocal r)
  (SiteID r) (OriginSiteID r) (LastMessage r) (SensorShortID r) (TemperatureC r) (TemperatureF r)
  (TemperatureUpdatedAt r) (TelemetryUpdatedAt r).
Definition set_Humidity (v : Z) (r : t) : t :=
  mk (ID r) (NodeNum r) (NodeID r) (NodeType r) (LongName r) (ShortName r) (HWModel r)
  (MacAddr r) (Role r) (IsLicensed r) (FirmwareVersion r) (Latitude r) (Longitude r) (Altitude r)
  (BatteryLevel r) (Voltage r) (ChannelUtilization r) (AirUtilTx r) (UptimeSeconds r) v
  (Pressure r) (SatsInView r) (Temperature r) (SNR r) (RSSI r) (LastHeard r) (IsOnline r)
  (IsLocal r) (SiteID r) (OriginSiteID r) (LastMessage r) (SensorShortID r) (TemperatureC r)
  (TemperatureF r) (TemperatureUpdatedAt r) (TelemetryUpdatedAt r).
Definition set_Pressure (v : Z) (r : t) : t :=
  mk (ID r) (NodeNum r) (NodeID r) (NodeType r) (LongName r) (ShortName r) (HWModel r)
  (MacAddr r) (Role r) (IsLicensed r) (FirmwareVersion r) (Latitude r) (Longitude r) (Altitude r)
  (BatteryLevel r) (Voltage r) (ChannelUtilization r) (AirUtilTx r) (UptimeSeconds r)
  (Humidity r) v (SatsInView r) (Temperature r) (SNR r) (RSSI r) (LastHeard r) (IsOnline r)
  (IsLocal r) (SiteID r) (OriginSiteID r) (LastMessage r) (SensorShortID r) (TemperatureC r)
  (TemperatureF r) (TemperatureUpdatedAt r) (TelemetryUpdatedAt r).
Definition set_SatsInView (v : Z) (r : t) : t :=
  mk (ID r) (NodeNum r) (NodeID r) (NodeType r) (LongName r) (ShortName r) (HWModel r)
  (MacAddr r) (Role r) (IsLicensed r) (FirmwareVersion r) (Latitude r) (Longitude r) (Altitude r)
  (BatteryLevel r) (Voltage r) (ChannelUtilization r) (AirUtilTx r) (UptimeSeconds r)
  (Humidity r) (Pressure r) v (Temperature r) (SNR r) (RSSI r) (LastHeard r) (IsOnline r)
  (IsLocal r) (SiteID r) (OriginSiteID r) (LastMessage r) (SensorShortID r) (TemperatureC r)
  (TemperatureF r) (TemperatureUpdatedAt r) (TelemetryUpdatedAt r).
Definition set_Temperature (v : spec_float) (r : t) : t :=
  mk (ID r) (NodeNum r) (NodeID r) (NodeType r) (LongName r) (ShortName r) (HWModel r)
  (MacAddr r) (Role r) (IsLicensed r) (FirmwareVersion r) (Latitude r) (Longitude r) (Altitude r)
  (BatteryLevel r) (Voltage r) (ChannelUtilization r) (AirUtilTx r) (UptimeSeconds r)
  (Humidity r) (Pressure r) (SatsInView r) v (SNR r) (RSSI r) (LastHeard r) (IsOnline r)
  (IsLocal r) (SiteID r) (OriginSiteID r) (LastMessage r) (SensorShortID r) (TemperatureC r)
  (TemperatureF r) (TemperatureUpdatedAt r) (TelemetryUpdatedAt r).
Definition set_SNR (v : Z) (r : t) : t :=
  mk (ID r) (NodeNum r) (NodeID r) (NodeType r) (LongName r) (ShortName r) (HWModel r)
  (MacAddr r) (Role r) (IsLicensed r) (FirmwareVersion r) (Latitude r) (Longitude r) (Altitude r)
  (BatteryLevel r) (Voltage r) (ChannelUtilization r) (AirUtilTx r) (UptimeSeconds r)
  (Humidity r) (Pressure r) (SatsInView r) (Temperature r) v (RSSI r) (LastHeard r) (IsOnline r)
  (IsLocal r) (SiteID r) (OriginSiteID r) (LastMessage r) (SensorShortID r) (TemperatureC r)
  (TemperatureF r) (TemperatureUpdatedAt r) (TelemetryUpdatedAt r).
Definition set_RSSI (v : Z) (r : t) : t :=
  mk (ID r) (NodeNum r) (NodeID r) (NodeType r) (LongName r) (ShortName r) (HWModel r)
  (MacAddr r) (Role r) (IsLicensed r) (FirmwareVersion r) (Latitude r) (Longitude r) (Altitude r)
  (BatteryLevel r) (Voltage r) (ChannelUtilization r) (AirUtilTx r) (UptimeSeconds r)
  (Humidity r) (Pressure r) (SatsInView r) (Temperature r) (SNR r) v (LastHeard r) (IsOnline r)
  (IsLocal r) (SiteID r) (OriginSiteID r) (LastMessage r) (SensorShortID r) (TemperatureC r)
  (TemperatureF r) (TemperatureUpdatedAt r) (TelemetryUpdatedAt r).
Definition set_LastHeard (v : Z) (r : t) : t :=
  mk (ID r) (NodeNum r) (NodeID r) (NodeType r) (LongName r) (ShortName r) (HWModel r)
  (MacAddr r) (Role r) (IsLicensed r) (FirmwareVersion r) (Latitude r) (Longitude r) (Altitude r)
  (BatteryLevel r) (Voltage r) (ChannelUtilization r) (AirUtilTx r) (UptimeSeconds r)
  (Humidity r) (Pressure r) (SatsInView r) (Temperature r) (SNR r) (RSSI r) v (IsOnline r)
  (IsLocal r) (SiteID r) (OriginSiteID r) (LastMessage r) (SensorShortID r) (TemperatureC r)
  (TemperatureF r) (TemperatureUpdatedAt r) (TelemetryUpdatedAt r).
Definition set_IsOnline (v : bool) (r : t) : t :=
  mk (ID r) (NodeNum r) (NodeID r) (NodeType r) (LongName r) (ShortName r) (HWModel r)
  (MacAddr r) (Role r) (IsLicensed r) (FirmwareVersion r) (Latitude r) (Longitude r) (Altitude r)
  (BatteryLevel r) (Voltage r) (ChannelUtilization r) (AirUtilTx r) (UptimeSeconds r)
  (Humidity r) (Pressure r) (SatsInView r) (Temperature r) (SNR r) (RSSI r) (LastHeard r) v
  (IsLocal r) (SiteID r) (OriginSiteID r) (LastMessage r) (SensorShortID r) (TemperatureC r)
  (TemperatureF r) (TemperatureUpdatedAt r) (TelemetryUpdatedAt r).
Definition set_IsLocal (v : bool) (r : t) : t :=
  mk (ID r) (NodeNum r) (NodeID r) (NodeType r) (LongName r) (ShortName r) (HWModel r)
  (MacAddr r) (Role r) (IsLicensed r) (FirmwareVersion r) (Latitude r) (Longitude r) (Altitude r)
  (BatteryLevel r) (Voltage r) (ChannelUtilization r) (AirUtilTx r) (UptimeSeconds r)
  (Humidity r) (Pressure r) (SatsInView r) (Temperature r) (SNR r) (RSSI r) (LastHeard r)
  (IsOnline r) v (SiteID r) (OriginSiteID r) (LastMessage r) (SensorShortID r) (TemperatureC r)
  (TemperatureF r) (TemperatureUpdatedAt r) (TelemetryUpdatedAt r).
Definition set_SiteID (v : string) (r : t) : t :=
  mk (ID r) (NodeNum r) (NodeID r) (NodeType r) (LongName r) (ShortName r) (HWModel r)
  (MacAddr r) (Role r) (IsLicensed r) (FirmwareVersion r) (Latitude r) (Longitude r) (Altitude r)
  (BatteryLevel r) (Voltage r) (ChannelUtilization r) (AirUtilTx r) (UptimeSeconds r)
  (Humidity r) (Pressure r) (SatsInView r) (Temperature r) (SNR r) (RSSI r) (LastHeard r)
  (IsOnline r) (IsLocal r) v (OriginSiteID r) (LastMessage r) (SensorShortID r) (TemperatureC r)
  (TemperatureF r) (TemperatureUpdatedAt r) (TelemetryUpdatedAt r).
Definition set_OriginSiteID (v : string) (r : t) : t :=
  mk (ID r) (NodeNum r) (NodeID r) (NodeType r) (LongName r) (ShortName r) (HWModel r)
  (MacAddr r) (Role r) (IsLicensed r) (FirmwareVersion r) (Latitude r) (Longitude r) (Altitude r)
  (BatteryLevel r) (Voltage r) (ChannelUtilization r) (AirUtilTx r) (UptimeSeconds r)
  (Humidity r) (Pressure r) (SatsInView r) (Temperature r) (SNR r) (RSSI r) (LastHeard r)
  (IsOnline r) (IsLocal r) (SiteID r) v (LastMessage r) (SensorShortID r) (TemperatureC r)
  (TemperatureF r) (TemperatureUpdatedAt r) (TelemetryUpdatedAt r).
Definition set_LastMessage (v : string) (r : t) : t :=
  mk (ID r) (NodeNum r) (NodeID r) (NodeType r) (LongName r) (ShortName r) (HWModel r)
  (MacAddr r) (Role r) (IsLicensed r) (FirmwareVersion r) (Latitude r) (Longitude r) (Altitude r)
  (BatteryLevel r) (Voltage r) (ChannelUtilization r) (AirUtilTx r) (UptimeSeconds r)
  (Humidity r) (Pressure r) (SatsInView r) (Temperature r) (SNR r) (RSSI r) (LastHeard r)
  (IsOnline r) (IsLocal r) (SiteID r) (OriginSiteID r) v (SensorShortID r) (TemperatureC r)
  (TemperatureF r) (TemperatureUpdatedAt r) (TelemetryUpdatedAt r).
Definition set_SensorShortID (v : string) (r : t) : t :=
  mk (ID r) (NodeNum r) (NodeID r) (NodeType r) (LongName r) (ShortName r) (HWModel r)
  (MacAddr r) (Role r) (IsLicensed r) (FirmwareVersion r) (Latitude r) (Longitude r) (Altitude r)
  (BatteryLevel r) (Voltage r) (ChannelUtilization r) (AirUtilTx r) (UptimeSeconds r)
  (Humidity r) (Pressure r) (SatsInView r) (Temperature r) (SNR r) (RSSI r) (LastHeard r)
  (IsOnline r) (IsLocal r) (SiteID r) (OriginSiteID r) (LastMessage r) v (TemperatureC r)
  (TemperatureF r) (TemperatureUpdatedAt r) (TelemetryUpdatedAt r).
Definition set_TemperatureC (v : spec_float) (r : t) : t :=
  mk (ID r) (NodeNum r) (NodeID r) (NodeType r) (LongName r) (ShortName r) (HWModel r)
  (MacAddr r) (Role r) (IsLicensed r) (FirmwareVersion r) (Latitude r) (Longitude r) (Altitude r)
  (BatteryLevel r) (Voltage r) (ChannelUtilization r) (AirUtilTx r) (UptimeSeconds r)
  (Humidity r) (Pressure r) (SatsInView r) (Temperature r) (SNR r) (RSSI r) (LastHeard r)
  (IsOnline r) (IsLocal r) (SiteID r) (OriginSiteID r) (LastMessage r) (SensorShortID r) v
  (TemperatureF r) (TemperatureUpdatedAt r) (TelemetryUpdatedAt r).
Definition set_TemperatureF (v : spec_float) (r : t) : t :=
  mk (ID r) (NodeNum r) (NodeID r) (NodeType r) (LongName r) (ShortName r) (HWModel r)
  (MacAddr r) (Role r) (IsLicensed r) (FirmwareVersion r) (Latitude r) (Longitude r) (Altitude r)
  (BatteryLevel r) (Voltage r) (ChannelUtilization r) (AirUtilTx r) (UptimeSeconds r)
  (Humidity r) (Pressure r) (SatsInView r) (Temperature r) (SNR r) (RSSI r) (LastHeard r)
  (IsOnline r) (IsLocal r) (SiteID r) (OriginSiteID r) (LastMessage r) (SensorShortID r)
  (TemperatureC r) v (TemperatureUpdatedAt r) (TelemetryUpdatedAt r).
Definition set_TemperatureUpdatedAt (v : option Z) (r : t) : t :=
  mk (ID r) (NodeNum r) (NodeID r) (NodeType r) (LongName r) (ShortName r) (HWModel r)
  (MacAddr r) (Role r) (IsLicensed r) (FirmwareVersion r) (Latitude r) (Longitude r) (Altitude r)
  (BatteryLevel r) (Voltage r) (ChannelUtilization r) (AirUtilTx r) (UptimeSeconds r)
  (Humidity r) (Pressure r) (SatsInView r) (Temperature r) (SNR r) (RSSI r) (LastHeard r)
  (IsOnline r) (IsLocal r) (SiteID r) (OriginSiteID r) (LastMessage r) (SensorShortID r)
  (TemperatureC r) (TemperatureF r) v (TelemetryUpdatedAt r).
Definition set_TelemetryUpdatedAt (v : option Z) (r : t) : t :=
  mk (ID r) (NodeNum r) (NodeID r) (NodeType r) (LongName r) (ShortName r) (HWModel r)
  (MacAddr r) (Role r) (IsLicensed r) (FirmwareVersion r) (Latitude r) (Longitude r) (Altitude r)
  (BatteryLevel r) (Voltage r) (ChannelUtilization r) (AirUtilTx r) (UptimeSeconds r)
  (Humidity r) (Pressure r) (SatsInView r) (Temperature r) (SNR r) (RSSI r) (LastHeard r)
  (IsOnline r) (IsLocal r) (SiteID r) (OriginSiteID r) (LastMessage r) (SensorShortID r)
  (TemperatureC r) (TemperatureF r) (TemperatureUpdatedAt r) v.
End Node.

(** [NodeType] is a string type with these constants. *)
Definition NodeTypeUnknown : string := "".
Definition NodeTypeOperator : string := "operator".
Definition NodeTypeGotailme : string := "gotailme".
Definition NodeTypeAntihunter : string := "antihunter".
Definition NodeTypeGatesensor : string := "gatesensor".
Definition NodeTypeAICamera : string := "aicam".

Definition same (s t : string) : bool := bool_decide (s = t).

(** [16 * time.Minute] *)
Definition NodeOnlineTimeout : Z := 16 * 60 * 1000000000.

Definition isNodeOnline (now : Z) (n : Node.t) : bool :=
  if Node.IsLocal n then true
  else if IsZero (Node.LastHeard n) then false
  else now - Node.LastHeard n <? NodeOnlineTimeout.

(** [PositionData.Latitude] and [Longitude] *)
Definition e7 : spec_float := roundDecimal false 1 (-7).
Definition degrees (i : Z) : spec_float := SFmul prec64 emax64 (float64_of_int i) e7.

(** [v*9.0/5.0 + 32.0] *)
Definition fahrenheit (v : spec_float) : spec_float :=
  SFadd prec64 emax64 (SFdiv prec64 emax64 (SFmul prec64 emax64 v (floatZ 9)) (floatZ 5)) (floatZ 32).

(** [strings.EqualFold(s, "aicam")]: no character outside ASCII folds to one
    of these letters. *)
Definition equalFoldASCII (s t : string) : bool := same (smap lowerASCII s) (smap lowerASCII t).

(** ** What the handlers assign *)

(** [TouchNode] *)
Definition touched (now snr rssi : Z) (n : Node.t) : Node.t :=
  Node.set_IsOnline true (Node.set_LastHeard now (Node.set_RSSI rssi (Node.set_SNR snr n))).

(** [MarkLocal] *)
Definition markedLocal (n : Node.t) : Node.t :=
  Node.set_NodeType NodeTypeGotailme (Node.set_IsLocal true n).

(** [ClassifyNode]: [None] when it returns early. *)
Definition isLeaf (t : string) : bool :=
  same t NodeTypeAntihunter || same t NodeTypeGatesensor || same t NodeTypeAICamera.

Definition classified (target : string) (n : Node.t) : option Node.t :=
  if same target "" then None
  else if same (Node.NodeType n) target then None
  else if isLeaf (Node.NodeType n) then None
  else if same (Node.NodeType n) NodeTypeGotailme && same target NodeTypeOperator then None
  else Some (Node.set_NodeType target n).

(** [HandleNodeInfo] *)
Definition withUser (u : UserInfo.t) (n : Node.t) : Node.t :=
  Node.set_IsLicensed (UserInfo.IsLicensed u) (Node.set_Role (UserInfo.Role u)
    (Node.set_HWModel (UserInfo.HWModel u) (Node.set_MacAddr (UserInfo.MacAddr u)
      (Node.set_ShortName (UserInfo.ShortName u) (Node.set_LongName (UserInfo.LongName u)
        (Node.set_NodeID (UserInfo.ID u) n)))))).

Definition withPosition (p : PositionData.t) (n : Node.t) : Node.t :=
  let n := Node.set_Altitude (float64_of_int (PositionData.Altitude p))
             (Node.set_Longitude (degrees (PositionData.LongitudeI p))
               (Node.set_Latitude (degrees (PositionData.LatitudeI p)) n)) in
  if PositionData.Sats p >? 0 then Node.set_SatsInView (PositionData.Sats p) n else n.

Definition withMetrics (m : DeviceMetrics.t) (n : Node.t) : Node.t :=
  Node.set_AirUtilTx (DeviceMetrics.AirUtilTx m)
    (Node.set_ChannelUtilization (DeviceMetrics.ChannelUtilization m)
      (Node.set_Voltage (DeviceMetrics.Voltage m)
        (Node.set_BatteryLevel (DeviceMetrics.BatteryLevel m) n))).

Definition named (n : Node.t) : Node.t :=
  if same (Node.NodeType n) NodeTypeAntihunter || same (Node.NodeType n) NodeTypeGatesensor then n
  else if equalFoldASCII (Node.LongName n) "aicam" then Node.set_NodeType NodeTypeAICamera n
  else if HasPrefix (Node.LongName n) "GoTailMe" then Node.set_NodeType NodeTypeGotailme n
  else if same (Node.NodeType n) NodeTypeUnknown then Node.set_NodeType NodeTypeOperator n
  else n.

Definition onOption {A} (o : option A) (f : A -> Node.t -> Node.t) (n : Node.t) : Node.t :=
  match o with Some a => f a n | None => n end.

(** [time.Unix(sec, 0)] *)
Definition Unix (sec : Z) : Z := sec * 1000000000.

Definition informed (now : Z) (info : NodeInfoLite.t) (n : Node.t) : Node.t :=
  let n := onOption (NodeInfoLite.User info) withUser n in
  let n := onOption (NodeInfoLite.Position info) withPosition n in
  let n := onOption (NodeInfoLite.Metrics info) withMetrics n in
  let n := Node.set_SNR (NodeInfoLite.SNR info) n in
  let n := if NodeInfoLite.LastHeard info >? 0
           then Node.set_LastHeard (Unix (NodeInfoLite.LastHeard info)) n else n in
  named (Node.set_IsOnline (isNodeOnline now n) n).

(** [HandleTelemetry] *)
Definition heard (now : Z) (n : Node.t) : Node.t :=
  Node.set_IsOnline true (Node.set_LastHeard now n).

Definition measured (now : Z) (m : DeviceMetrics.t) (n : Node.t) : Node.t :=
  Node.set_TelemetryUpdatedAt (Some now)
    (heard now (Node.set_UptimeSeconds (DeviceMetrics.UptimeSeconds m) (withMetrics m n))).

(** [HandleEnvironment] *)
Definition sensed (now : Z) (env : EnvironmentMetrics.t) (n : Node.t) : Node.t :=
  let t := float64_of_32 (EnvironmentMetrics.Temperature env) in
  heard now (Node.set_TemperatureUpdatedAt (Some now)
    (Node.set_Pressure (EnvironmentMetrics.BarometricPressure env)
      (Node.set_Humidity (EnvironmentMetrics.RelativeHumidity env)
        (Node.set_TemperatureF (fahrenheit t) (Node.set_TemperatureC t (Node.set_Temperature t n)))))).

(** [HandlePosition] *)
Definition located (now : Z) (p : PositionData.t) (n : Node.t) : Node.t := heard now (withPosition p n).

(** [HandleAntihunterHeartbeat]: the values of the data map that are a
    [float64].  [outOfRange] is the implementation-defined result of
    converting a float beyond the range of [uint32]. *)
Record readings : Type := mkReadings {
  temperatureC : option spec_float;
  temperatureF : option spec_float;
  battery : option spec_float
}.

Definition truncate (f : spec_float) : Z :=
  match f with
  | S754_finite s m e =>
      let v := if 0 <=? e then Z.pos m * 2 ^ e else Z.pos m / 2 ^ (- e) in if s then - v else v
  | _ => 0
  end.

Definition uint32_of_float (outOfRange : spec_float -> Z) (f : spec_float) : Z :=
  if finite64 f && (truncate f <? 2 ^ 32) then truncate f else uint32 (outOfRange f).

Section Heartbeat.
Variable outOfRange : spec_float -> Z.

(** Each part returns the node and whether it changed. *)
Definition beatPosition (lat lon : spec_float) (n : Node.t) : Node.t * bool :=
  if negb (isZero64 lat) || negb (isZero64 lon)
  then (Node.set_Longitude lon (Node.set_Latitude lat n), true)
  else (n, false).

Definition beatTemperature (now : Z) (data : readings) (n : Node.t) : Node.t * bool :=
  match temperatureC data with
  | Some v =>
      if isZero64 v then (n, false)
      else
        let f := match temperatureF data with
                 | Some tf => if isZero64 tf then fahrenheit v else tf
                 | None => fahrenheit v
                 end in
        (Node.set_TemperatureUpdatedAt (Some now)
           (Node.set_TemperatureF f (Node.set_TemperatureC v (Node.set_Temperature v n))), true)
  | None => (n, false)
  end.

Definition beatBattery (now : Z) (data : readings) (n : Node.t) : Node.t * bool :=
  match battery data with
  | Some v =>
      if float_lt zero64 v then
        let pct := Z.min (uint32_of_float outOfRange v) 100 in
        if Node.BatteryLevel n =? pct then (n, false)
        else (Node.set_TelemetryUpdatedAt (Some now) (Node.set_BatteryLevel pct n), true)
      else (n, false)
  | None => (n, false)
  end.

Definition beaten (now : Z) (lat lon : spec_float) (data : readings) (n : Node.t) : Node.t * bool :=
  let '(n, c1) := beatPosition lat lon n in
  let '(n, c2) := beatTemperature now data n in
  let '(n, c3) := beatBattery now data n in
  (heard now n, c1 || c2 || c3).
End Heartbeat.

(** ** The row *)

(** The columns [persistNode] writes, and the two it leaves alone.  [None] is
    NULL. *)
Record Row : Type := mkRow {
  rNodeID : option string;
  rLongName : option string;
  rShortName : option string;
  rHWModel : option string;
  rRole : option string;
  rLatitude : option spec_float;
  rLongitude : option spec_float;
  rAltitude : option spec_float;
  rBatteryLevel : option Z;
  rVoltage : option spec_float;
  rChannelUtilization : option spec_float;
  rAirUtilTx : option spec_float;
  rSNR : option spec_float;
  rLastHeard : option Z;
  rIsOnline : option bool;
  rTemperatureC : option spec_float;
  rTemperatureF : option spec_float;
  rTemperatureUpdatedAt : option Z;
  rLastMessage : option string;
  rNodeType : string;
  rSensorShortID : string;
  rFirmwareVersion : option string;
  rIsLicensed : bool;
  rSiteID : option string;
  rOriginSiteID : option string
}.

Definition nullStr (s : string) : option string := if same s "" then None else Some s.
Definition nullFloat (f : spec_float) : option spec_float := if isZero64 f then None else Some f.
Definition nullInt (i : Z) : option Z := if i =? 0 then None else Some i.
Definition nullTime (t : Z) : option Z := if IsZero t then None else Some t.
Definition nullTimePtr (t : option Z) : option Z :=
  match t with Some t => nullTime t | None => None end.
Definition null32 (b : Z) : option spec_float := nullFloat (float64_of_32 b).

(** The VALUES of the INSERT. *)
Definition rowOf (n : Node.t) : Row :=
  mkRow (nullStr (Node.NodeID n)) (nullStr (Node.LongName n)) (nullStr (Node.ShortName n))
    (nullStr (Node.HWModel n)) (nullStr (Node.Role n))
    (nullFloat (Node.Latitude n)) (nullFloat (Node.Longitude n)) (nullFloat (Node.Altitude n))
    (nullInt (Node.BatteryLevel n)) (null32 (Node.Voltage n)) (null32 (Node.ChannelUtilization n))
    (null32 (Node.AirUtilTx n)) (null32 (Node.SNR n)) (nullTime (Node.LastHeard n))
    (Some (Node.IsOnline n)) (nullFloat (Node.TemperatureC n)) (nullFloat (Node.TemperatureF n))
    (nullTimePtr (Node.TemperatureUpdatedAt n)) (nullStr (Node.LastMessage n)) (Node.NodeType n)
    (Node.SensorShortID n) (nullStr (Node.FirmwareVersion n)) (Node.IsLicensed n) None None.

Definition coalesce {A} (a b : option A) : option A := match a with Some _ => a | None => b end.
Definition unlessEmpty (a b : string) : string := if same a "" then b else a.

(** ON CONFLICT (node_num) DO UPDATE *)
Definition mergeRow (new old : Row) : Row :=
  mkRow (coalesce (rNodeID new) (rNodeID old)) (coalesce (rLongName new) (rLongName old))
    (coalesce (rShortName new) (rShortName old)) (coalesce (rHWModel new) (rHWModel old))
    (coalesce (rRole new) (rRole old)) (coalesce (rLatitude new) (rLatitude old))
    (coalesce (rLongitude new) (rLongitude old)) (coalesce (rAltitude new) (rAltitude old))
    (coalesce (rBatteryLevel new) (rBatteryLevel old)) (coalesce (rVoltage new) (rVoltage old))
    (coalesce (rChannelUtilization new) (rChannelUtilization old))
    (coalesce (rAirUtilTx new) (rAirUtilTx old)) (coalesce (rSNR new) (rSNR old))
    (coalesce (rLastHeard new) (rLastHeard old)) (rIsOnline new)
    (coalesce (rTemperatureC new) (rTemperatureC old)) (coalesce (rTemperatureF new) (rTemperatureF old))
    (coalesce (rTemperatureUpdatedAt new) (rTemperatureUpdatedAt old))
    (coalesce (rLastMessage new) (rLastMessage old)) (unlessEmpty (rNodeType new) (rNodeType old))
    (unlessEmpty (rSensorShortID new) (rSensorShortID old))
    (coalesce (rFirmwareVersion new) (rFirmwareVersion old)) (rIsLicensed new)
    (rSiteID old) (rOriginSiteID old).

(** The type of the column [role] and of [battery_level]: values outside make
    the statement fail. *)
Definition node_role : list string :=
  ["CLIENT"; "ROUTER"; "REPEATER"; "TRACKER"; "SENSOR"; "TAK"; "CLIENT_MUTE"; "TAK_TRACKER";
   "LOST_AND_FOUND"; "SENSOR_MANAGED"].

Definition typed (r : Row) : bool :=
  match rRole r with Some role => bool_decide (role ∈ node_role) | None => true end &&
  match rBatteryLevel r with Some b => b <? 2 ^ 31 | None => true end.

(** ** [Load] of one row *)
Definition orDefault {A} (d : A) (o : option A) : A := match o with Some a => a | None => d end.
Definition or32 (o : option spec_float) : Z := orDefault 0 (option_map float32_of_64 o).

Definition loadRow (now : Z) (num : Z) (r : Row) : Node.t :=
  let n := Node.fresh num in
  let n := Node.set_NodeID (orDefault ("!" +:+ hex08x num) (rNodeID r)) n in
  let n := Node.set_LongName (orDefault "" (rLongName r)) n in
  let n := Node.set_ShortName (orDefault "" (rShortName r)) n in
  let n := Node.set_HWModel (orDefault "" (rHWModel r)) n in
  let n := Node.set_Role (orDefault "" (rRole r)) n in
  let n := Node.set_Latitude (orDefault zero64 (rLatitude r)) n in
  let n := Node.set_Longitude (orDefault zero64 (rLongitude r)) n in
  let n := Node.set_Altitude (orDefault zero64 (rAltitude r)) n in
  let n := Node.set_BatteryLevel (uint32 (orDefault 0 (rBatteryLevel r))) n in
  let n := Node.set_Voltage (or32 (rVoltage r)) n in
  let n := Node.set_ChannelUtilization (or32 (rChannelUtilization r)) n in
  let n := Node.set_AirUtilTx (or32 (rAirUtilTx r)) n in
  let n := Node.set_SNR (or32 (rSNR r)) n in
  let n := Node.set_LastHeard (orDefault zeroTime (rLastHeard r)) n in
  let n := Node.set_SiteID (orDefault "" (rSiteID r)) n in
  let n := Node.set_OriginSiteID (orDefault "" (rOriginSiteID r)) n in
  let n := Node.set_Temperature (orDefault zero64 (rTemperatureC r))
             (Node.set_TemperatureC (orDefault zero64 (rTemperatureC r)) n) in
  let n := Node.set_TemperatureF (orDefault zero64 (rTemperatureF r)) n in
  let n := Node.set_TemperatureUpdatedAt (rTemperatureUpdatedAt r) n in
  let n := Node.set_LastMessage (orDefault "" (rLastMessage r)) n in
  let n := Node.set_NodeType (rNodeType r) n in
  let n := Node.set_FirmwareVersion (orDefault "" (rFirmwareVersion r)) n in
  let n := Node.set_IsLicensed (rIsLicensed r) n in
  let n := Node.set_SensorShortID (rSensorShortID r) n in
  Node.set_IsOnline (isNodeOnline now n) n.

(** [GetAll] *)
Definition refresh (now : Z) (n : Node.t) : Node.t := Node.set_IsOnline (isNodeOnline now n) n.

(** ** JSON

    [json.Marshal] of a node fails exactly when one of its numbers is NaN or
    infinite. *)
Definition marshals (n : Node.t) : bool :=
  forallb finite64 [Node.Latitude n; Node.Longitude n; Node.Altitude n; Node.Temperature n;
                    Node.TemperatureC n; Node.TemperatureF n] &&
  forallb finite32 [Node.Voltage n; Node.ChannelUtilization n; Node.AirUtilTx n; Node.Humidity n;
                    Node.Pressure n; Node.SNR n].

(** ** After a restart

    Writing a node over its row and loading the row again gives [overlay]:
    each stored field of the node where it is not zero, and what the row
    would have given where it is. *)
Definition orElse {A} (zero : A -> bool) (a b : A) : A := if zero a then b else a.
Definition empty (s : string) : bool := same s "".
Definition canonical (b : Z) : Z := if isNaN32 b then qNaN32 else b.

Definition overlay (n o : Node.t) : Node.t :=
  let f64 g := orElse isZero64 (g n) (g o) in
  let f32 g := if isZero32 (g n) then g o else canonical (g n) in
  let str g := orElse empty (g n) (g o) in
  Node.mk "" (Node.NodeNum o) (str Node.NodeID) (str Node.NodeType) (str Node.LongName)
    (str Node.ShortName) (str Node.HWModel) "" (str Node.Role) (Node.IsLicensed n)
    (str Node.FirmwareVersion) (f64 Node.Latitude) (f64 Node.Longitude) (f64 Node.Altitude)
    (orElse (fun b => b =? 0) (Node.BatteryLevel n) (Node.BatteryLevel o)) (f32 Node.Voltage)
    (f32 Node.ChannelUtilization) (f32 Node.AirUtilTx) 0 0 0 0 (f64 Node.TemperatureC) (f32 Node.SNR)
    0 (orElse IsZero (Node.LastHeard n) (Node.LastHeard o)) (Node.IsOnline o) false (Node.SiteID o)
    (Node.OriginSiteID o) (str Node.LastMessage) (str Node.SensorShortID) (f64 Node.TemperatureC)
    (f64 Node.TemperatureF)
    (coalesce (nullTimePtr (Node.TemperatureUpdatedAt n)) (Node.TemperatureUpdatedAt o)) None.

(** The widths of the fields. *)
Definition sized (n : Node.t) : Prop :=
  0 <= Node.BatteryLevel n < 2 ^ 32 /\ 0 <= Node.Voltage n < 2 ^ 32 /\
  0 <= Node.ChannelUtilization n < 2 ^ 32 /\ 0 <= Node.AirUtilTx n < 2 ^ 32 /\ 0 <= Node.SNR n < 2 ^ 32.

Lemma orDefault_str d (s : string) o : orDefault d (coalesce (nullStr s) o) = orElse empty s (orDefault d o).
Proof. unfold nullStr, orElse, empty. by destruct (same s ""). Qed.

Lemma orDefault_float d f o : orDefault d (coalesce (nullFloat f) o) = orElse isZero64 f (orDefault d o).
Proof. unfold nullFloat, orElse. by destruct (isZero64 f). Qed.

Lemma widen_nan b : isNaN32 b = true -> float64_of_32 b = S754_nan.
Proof.
  unfold isNaN32, float64_of_32. destruct (expo32 b =? 255); [|done]. by destruct (frac32 b =? 0).
Qed.

Lemma or32_coalesce b o :
  0 <= b < 2 ^ 32 -> or32 (coalesce (null32 b) o) = if isZero32 b then or32 o else canonical b.
Proof.
  intros Hb. unfold null32, nullFloat. rewrite isZero64_widen by done. destruct (isZero32 b); [done|].
  cbn. unfold canonical. destruct (isNaN32 b) eqn:En; [by rewrite widen_nan|by apply narrow_widen].
Qed.

Lemma orDefault_time t o :
  orDefault zeroTime (coalesce (nullTime t) o) = orElse IsZero t (orDefault zeroTime o).
Proof. unfold nullTime, orElse. by destruct (IsZero t). Qed.

Lemma orDefault_battery b o :
  0 <= b < 2 ^ 32 ->
  uint32 (orDefault 0 (coalesce (nullInt b) o)) = orElse (fun b => b =? 0) b (uint32 (orDefault 0 o)).
Proof. intros Hb. unfold nullInt, orElse. destruct (b =? 0); [done|]. by apply uint32_small. Qed.

Lemma unlessEmpty_orElse a b : unlessEmpty a b = orElse empty a b.
Proof. done. Qed.

Lemma loadRow_eq now num r :
  loadRow now num r = refresh now
    (Node.mk "" num (orDefault ("!" +:+ hex08x num) (rNodeID r)) (rNodeType r) (orDefault "" (rLongName r))
       (orDefault "" (rShortName r)) (orDefault "" (rHWModel r)) "" (orDefault "" (rRole r)) (rIsLicensed r)
       (orDefault "" (rFirmwareVersion r)) (orDefault zero64 (rLatitude r)) (orDefault zero64 (rLongitude r))
       (orDefault zero64 (rAltitude r)) (uint32 (orDefault 0 (rBatteryLevel r))) (or32 (rVoltage r))
       (or32 (rChannelUtilization r)) (or32 (rAirUtilTx r)) 0 0 0 0 (orDefault zero64 (rTemperatureC r))
       (or32 (rSNR r)) 0 (orDefault zeroTime (rLastHeard r)) false false (orDefault "" (rSiteID r))
       (orDefault "" (rOriginSiteID r)) (orDefault "" (rLastMessage r)) (rSensorShortID r)
       (orDefault zero64 (rTemperatureC r)) (orDefault zero64 (rTemperatureF r)) (rTemperatureUpdatedAt r) None).
Proof. reflexivity. Qed.

Lemma loadRow_merge now num n old :
  sized n ->
  loadRow now num (mergeRow (rowOf n) old) = refresh now (overlay n (loadRow now num old)).
Proof.
  intros (H1 & H2 & H3 & H4 & H5). rewrite !loadRow_eq. unfold refresh at 2, overlay, mergeRow, rowOf.
  cbn [rNodeID rLongName rShortName rHWModel rRole rLatitude rLongitude rAltitude rBatteryLevel rVoltage
    rChannelUtilization rAirUtilTx rSNR rLastHeard rIsOnline rTemperatureC rTemperatureF
    rTemperatureUpdatedAt rLastMessage rNodeType rSensorShortID rFirmwareVersion rIsLicensed rSiteID
    rOriginSiteID].
  rewrite !orDefault_str, !orDefault_float, !or32_coalesce, orDefault_time, orDefault_battery by done.
  reflexivity.
Qed.

(** ** The classification ladder *)
Definition sensor (t : string) : bool := same t NodeTypeAntihunter || same t NodeTypeGatesensor.

Definition rank (t : string) : Z :=
  if sensor t then 3
  else if same t NodeTypeGotailme || same t NodeTypeAICamera then 2
  else if same t NodeTypeOperator then 1
  else 0.

(** Up the ladder, and a sensor keeps its type. *)
Definition climbs (m n : Node.t) : Prop :=
  rank (Node.NodeType m) <= rank (Node.NodeType n) /\
  (sensor (Node.NodeType m) = true -> Node.NodeType n = Node.NodeType m).

#[export] Instance climbs_preorder : PreOrder climbs.
Proof.
  split.
  - intros n. split; [lia|done].
  - intros l m n [H1 H2] [H3 H4]. split; [lia|]. intros Hs. rewrite H4; [by apply H2|]. by rewrite (H2 Hs).
Qed.

Lemma climbs_same m n : Node.NodeType n = Node.NodeType m -> climbs m n.
Proof. intros E. split; [rewrite E; lia|done]. Qed.

Lemma same_true s t : same s t = true -> s = t.
Proof. apply bool_decide_eq_true. Qed.

(** The types the dispatcher sets. *)
Definition dispatched (t : string) : bool :=
  bool_decide (t ∈ [NodeTypeOperator; NodeTypeGotailme; NodeTypeAntihunter; NodeTypeGatesensor]).

Lemma rank_le t : rank t <= 3.
Proof. unfold rank. repeat case_match; lia. Qed.
Lemma rank_le2 t : sensor t = false -> rank t <= 2.
Proof. unfold rank. intros ->. repeat case_match; lia. Qed.
Lemma rank_le1 t :
  sensor t = false -> same t NodeTypeGotailme = false -> same t NodeTypeAICamera = false -> rank t <= 1.
Proof. unfold rank. intros -> -> ->. cbn. destruct (same _ _); lia. Qed.

Lemma classified_climbs t m n : dispatched t = true -> classified t m = Some n -> climbs m n.
Proof.
  intros Ht%bool_decide_eq_true. unfold classified. destruct (same t ""); [done|].
  destruct (same (Node.NodeType m) t); [done|]. destruct (isLeaf (Node.NodeType m)) eqn:El; [done|].
  destruct (same (Node.NodeType m) NodeTypeGotailme && same t NodeTypeOperator) eqn:Eg; [done|]. intros [= <-].
  unfold isLeaf in El. apply orb_false_iff in El as [Es Ec]. fold (sensor (Node.NodeType m)) in Es.
  split; [|by rewrite Es]. cbn [Node.set_NodeType Node.NodeType].
  repeat (apply elem_of_cons in Ht as [-> | Ht]); [..|by apply elem_of_nil in Ht].
  - change (same NodeTypeOperator NodeTypeOperator) with true in Eg. rewrite andb_true_r in Eg.
    by apply rank_le1.
  - by apply rank_le2.
  - apply rank_le.
  - apply rank_le.
Qed.

Lemma named_climbs n : climbs n (named n).
Proof.
  unfold named. destruct (_ || _) eqn:Es; [done|]. fold (sensor (Node.NodeType n)) in Es.
  destruct (equalFoldASCII _ _); [split; [by apply rank_le2|by rewrite Es]|].
  destruct (HasPrefix _ _); [split; [by apply rank_le2|by rewrite Es]|].
  destruct (same _ NodeTypeUnknown) eqn:Eu; [|done]. apply same_true in Eu.
  split; [|by rewrite Es]. rewrite Eu. by vm_compute.
Qed.
