(* ===== verification/Nodes.v ===== *)
(** The node tracking service, [internal/nodes/service.go].

    The map holds pointers, and every asynchronous [go s.persistNode(node)]
    keeps one, so the model has a heap of nodes with addresses: a node that
    was removed from the map is still written to the database by the jobs
    that have its address.  An [event] is a method call under the mutex, a
    started database job, or the DELETE of [ClearAll], which follows the
    clearing of the map without the mutex.  The broadcast and the start of a
    job after the unlock are taken as part of the call. *)
From Stdlib Require Import Floats.SpecFloat.
From stdpp Require Import sorting.
From S2P Require Import Prelude GoStrings GoFloat GoFloat32 Messages FromRadio Dispatcher NodeData.

(** ** Definitions *)
Inductive wsEvent : Type :=
| NodeUpdate (n : Node.t)
| NodePosition (num : Z) (lat lon alt : spec_float)
| NodeRemove (num : Z) (nodeID : string).

(** What [json.Marshal] makes of an event: [Broadcast] drops it on error. *)
Definition sendable (e : wsEvent) : bool :=
  match e with
  | NodeUpdate n => marshals n
  | NodePosition _ lat lon alt => forallb finite64 [lat; lon; alt]
  | NodeRemove _ _ => true
  end.

Inductive job : Type :=
| PersistNode (a : Z)
| PersistPosition (a : Z).

Record position : Type := mkPosition { pNode : Z; pLat : spec_float; pLon : spec_float; pAlt : spec_float }.

(** [rows] and [positions] are the tables. *)
Record Service : Type := mkService {
  nodes : gmap Z Z;
  heap : gmap Z Node.t;
  next : Z;
  jobs : list job;
  sent : list wsEvent;
  rows : gmap Z Row;
  positions : list position
}.

Definition NewService (rows : gmap Z Row) (positions : list position) : Service :=
  mkService ∅ ∅ 0 [] [] rows positions.

Definition set_nodes (v : gmap Z Z) (s : Service) : Service :=
  mkService v (heap s) (next s) (jobs s) (sent s) (rows s) (positions s).
Definition set_heap (v : gmap Z Node.t) (s : Service) : Service :=
  mkService (nodes s) v (next s) (jobs s) (sent s) (rows s) (positions s).
Definition set_jobs (v : list job) (s : Service) : Service :=
  mkService (nodes s) (heap s) (next s) v (sent s) (rows s) (positions s).
Definition set_rows (v : gmap Z Row) (s : Service) : Service :=
  mkService (nodes s) (heap s) (next s) (jobs s) (sent s) v (positions s).
Definition set_positions (v : list position) (s : Service) : Service :=
  mkService (nodes s) (heap s) (next s) (jobs s) (sent s) (rows s) v.

Definition Broadcast (e : wsEvent) (s : Service) : Service :=
  if sendable e
  then mkService (nodes s) (heap s) (next s) (jobs s) (sent s ++ [e]) (rows s) (positions s)
  else s.
Definition go (j : job) (s : Service) : Service := set_jobs (jobs s ++ [j]) s.

(** The object behind [s.nodes[num]]. *)
Definition nodeAt (a : Z) (s : Service) : option Node.t := heap s !! a.
Definition GetByNodeNum (num : Z) (s : Service) : option Node.t :=
  match nodes s !! num with Some a => nodeAt a s | None => None end.

Definition store (a : Z) (n : Node.t) (s : Service) : Service := set_heap (<[a := n]> (heap s)) s.

(** A new object entered in the map. *)
Definition alloc (num : Z) (n : Node.t) (s : Service) : Z * Service :=
  let a := next s in
  (a, mkService (<[num := a]> (nodes s)) (<[a := n]> (heap s)) (a + 1) (jobs s) (sent s) (rows s) (positions s)).

(** [node, exists := s.nodes[num]; if !exists { node = &Node{NodeNum: num}; ... }] *)
Definition obtain (num : Z) (s : Service) : Z * Service :=
  match nodes s !! num with
  | Some a => (a, s)
  | None => alloc num (Node.fresh num) s
  end.

(** Runs [f] on the node at [a]. *)
Definition withNode (a : Z) (s : Service) (f : Node.t -> Service) : Service :=
  match nodeAt a s with Some n => f n | None => s end.

(** The end of most handlers: store, broadcast, persist. *)
Definition update (a : Z) (n : Node.t) (s : Service) : Service :=
  go (PersistNode a) (Broadcast (NodeUpdate n) (store a n s)).

(** *** Methods *)
Definition TouchNode (now num snr rssi : Z) (s : Service) : Service :=
  let '(a, s) :=
    match nodes s !! num with
    | Some a => (a, s)
    | None =>
        let n := Node.set_IsOnline true (Node.set_NodeID ("!" +:+ hex08x num) (Node.fresh num)) in
        let '(a, s) := alloc num n s in (a, Broadcast (NodeUpdate n) s)
    end in
  withNode a s (fun n => store a (touched now snr rssi n) s).

Definition MarkLocal (num : Z) (s : Service) : Service :=
  match nodes s !! num with
  | None => s
  | Some a => withNode a s (fun n => go (PersistNode a) (store a (markedLocal n) s))
  end.

Definition ClassifyNode (num : Z) (nodeType : string) (s : Service) : Service :=
  match nodes s !! num with
  | None => s
  | Some a => withNode a s (fun n =>
      match classified nodeType n with
      | None => s
      | Some n' => update a n' s
      end)
  end.

Definition UpdateLongName (num : Z) (longName : string) (s : Service) : option Service :=
  match nodes s !! num with
  | None => None
  | Some a => Some (withNode a s (fun n => update a (Node.set_LongName longName n) s))
  end.

Definition HandleNodeInfo (now : Z) (info : NodeInfoLite.t) (s : Service) : Service :=
  let '(a, s) := obtain (NodeInfoLite.Num info) s in
  withNode a s (fun n => update a (informed now info n) s).

Definition HandleTelemetry (now from : Z) (metrics : DeviceMetrics.t) (s : Service) : Service :=
  let '(a, s) := obtain from s in
  withNode a s (fun n => update a (measured now metrics n) s).

Definition HandleEnvironment (now from : Z) (env : EnvironmentMetrics.t) (s : Service) : Service :=
  let '(a, s) := obtain from s in
  withNode a s (fun n => update a (sensed now env n) s).

Definition SetFirmwareVersion (num : Z) (firmware : string) (s : Service) : Service :=
  if same firmware "" then s
  else match nodes s !! num with
       | None => s
       | Some a => withNode a s (fun n =>
           if same (Node.FirmwareVersion n) firmware then s
           else update a (Node.set_FirmwareVersion firmware n) s)
       end.

Definition HandleAntihunterHeartbeat (outOfRange : spec_float -> Z) (now from : Z) (lat lon : spec_float)
    (data : readings) (s : Service) : Service :=
  let '(a, s) := obtain from s in
  withNode a s (fun n =>
    let '(n', changed) := beaten outOfRange now lat lon data n in
    if changed : bool then update a n' s else store a n' s).

Definition SetSensorShortID (from : Z) (shortID : string) (s : Service) : Service :=
  if same shortID "" then s
  else
    let '(a, s) := obtain from s in
    withNode a s (fun n =>
      if same (Node.SensorShortID n) shortID then s
      else update a (Node.set_SensorShortID shortID n) s).

Definition SetLastMessage (now from : Z) (msg : string) (s : Service) : Service :=
  if same msg "" then s
  else
    let '(a, s) := obtain from s in
    withNode a s (fun n => update a (heard now (Node.set_LastMessage msg n)) s).

Definition HandlePosition (now from : Z) (pos : PositionData.t) (s : Service) : Service :=
  let '(a, s) := obtain from s in
  withNode a s (fun n =>
    let n' := located now pos n in
    go (PersistPosition a)
      (Broadcast (NodePosition from (Node.Latitude n') (Node.Longitude n') (Node.Altitude n')) (store a n' s))).

(** [ClearAll] up to its statement, and the statement. *)
Definition ClearAll (s : Service) : Service := set_nodes ∅ s.
Definition DeleteRows (accepted : bool) (s : Service) : Service :=
  if accepted then set_positions [] (set_rows ∅ s) else s.

Definition Remove (num : Z) (s : Service) : Service :=
  match nodes s !! num with
  | None => s
  | Some a => withNode a s (fun n =>
      Broadcast (NodeRemove num (Node.NodeID n)) (set_nodes (delete num (nodes s)) s))
  end.

(** *** Queries *)
Definition nodesOf (s : Service) : list Node.t :=
  omap (fun ka => nodeAt ka.2 s) (map_to_list (nodes s)).

Definition byNum (m n : Node.t) : Prop := Node.NodeNum m <= Node.NodeNum n.
#[export] Instance byNum_dec m n : Decision (byNum m n).
Proof. unfold byNum. apply _. Defined.

(** [GetAll] recomputes [IsOnline] in the shared objects. *)
Definition refreshAt (now a : Z) (h : gmap Z Node.t) : gmap Z Node.t := alter (refresh now) a h.

Definition GetAll (now : Z) (s : Service) : list Node.t * Service :=
  let s := set_heap (foldr (fun ka h => refreshAt now ka.2 h) (heap s) (map_to_list (nodes s))) s in
  (merge_sort byNum (nodesOf s), s).

(** [order] is the order in which the map is ranged over. *)
Definition GetLocalNodeNum (order : list Z) (s : Service) : Z :=
  match omap (fun num => match GetByNodeNum num s with
                         | Some n => if Node.IsLocal n then Some (Node.NodeNum n) else None
                         | None => None end) order with
  | num :: _ => num
  | [] => 0
  end.

Definition GetLongName (num : Z) (s : Service) : string :=
  match GetByNodeNum num s with Some n => Node.LongName n | None => "" end.

Definition LookupNodeIDAndSite (num : Z) (s : Service) : string * string :=
  match GetByNodeNum num s with Some n => (Node.NodeID n, Node.SiteID n) | None => ("", "")%string end.

(** *** The database jobs

    [textOK] says which strings the column type TEXT takes; [accepted] is
    the rest of the verdict of the database. *)
Section Database.
Variable textOK : string -> bool.

Definition textsOK (r : Row) : bool :=
  forallb (fun o => match o with Some t => textOK t | None => true end)
    [rNodeID r; rLongName r; rShortName r; rHWModel r; rLastMessage r; rFirmwareVersion r] &&
  textOK (rNodeType r) && textOK (rSensorShortID r).

Definition upsert (num : Z) (r : Row) (m : gmap Z Row) : gmap Z Row :=
  <[num := match m !! num with Some old => mergeRow r old | None => r end]> m.

Definition persistNode (accepted : bool) (n : Node.t) (s : Service) : Service :=
  if accepted && typed (rowOf n) && textsOK (rowOf n)
  then set_rows (upsert (Node.NodeNum n) (rowOf n) (rows s)) s
  else s.

Definition persistPosition (accepted : bool) (n : Node.t) (s : Service) : Service :=
  if isZero64 (Node.Latitude n) && isZero64 (Node.Longitude n) then s
  else if accepted && bool_decide (is_Some (rows s !! Node.NodeNum n))
  then set_positions
         (positions s ++ [mkPosition (Node.NodeNum n) (Node.Latitude n) (Node.Longitude n) (Node.Altitude n)]) s
  else s.

Definition runJob (accepted : bool) (j : job) (s : Service) : Service :=
  match j with
  | PersistNode a => withNode a s (fun n => persistNode accepted n s)
  | PersistPosition a => withNode a s (fun n => persistPosition accepted n s)
  end.

(** The [i]-th started job runs. *)
Definition RunJob (i : nat) (accepted : bool) (s : Service) : Service :=
  match jobs s !! i with
  | Some j => runJob accepted j (set_jobs (delete i (jobs s)) s)
  | None => s
  end.

(** [Load]: [None] when the query fails; [scans] says of which rows the scan
    succeeds. *)
Definition Load (queryOK : bool) (scans : Z -> bool) (now : Z) (s : Service) : option Service :=
  if queryOK
  then Some (foldl (fun s kr => if scans kr.1 then (alloc kr.1 (loadRow now kr.1 kr.2) s).2 else s) s
               (map_to_list (rows s)))
  else None.

(** *** Interleaving *)
Inductive call : Type :=
| CTouchNode (num snr rssi : Z)
| CMarkLocal (num : Z)
| CClassifyNode (num : Z) (nodeType : string)
| CUpdateLongName (num : Z) (longName : string)
| CHandleNodeInfo (info : NodeInfoLite.t)
| CHandleTelemetry (from : Z) (metrics : DeviceMetrics.t)
| CHandleEnvironment (from : Z) (env : EnvironmentMetrics.t)
| CSetFirmwareVersion (num : Z) (firmware : string)
| CHeartbeat (from : Z) (lat lon : spec_float) (data : readings)
| CSetSensorShortID (from : Z) (shortID : string)
| CSetLastMessage (from : Z) (msg : string)
| CHandlePosition (from : Z) (pos : PositionData.t)
| CClearAll
| CRemove (num : Z)
| CGetAll.

Variable outOfRange : spec_float -> Z.

Definition invoke (now : Z) (c : call) (s : Service) : Service :=
  match c with
  | CTouchNode num snr rssi => TouchNode now num snr rssi s
  | CMarkLocal num => MarkLocal num s
  | CClassifyNode num t => ClassifyNode num t s
  | CUpdateLongName num l => match UpdateLongName num l s with Some s => s | None => s end
  | CHandleNodeInfo info => HandleNodeInfo now info s
  | CHandleTelemetry from m => HandleTelemetry now from m s
  | CHandleEnvironment from e => HandleEnvironment now from e s
  | CSetFirmwareVersion num f => SetFirmwareVersion num f s
  | CHeartbeat from lat lon data => HandleAntihunterHeartbeat outOfRange now from lat lon data s
  | CSetSensorShortID from i => SetSensorShortID from i s
  | CSetLastMessage from m => SetLastMessage now from m s
  | CHandlePosition from p => HandlePosition now from p s
  | CClearAll => ClearAll s
  | CRemove num => Remove num s
  | CGetAll => (GetAll now s).2
  end.

Inductive event : Type :=
| Call (now : Z) (c : call)
| Job (i : nat) (accepted : bool)
| Delete (accepted : bool).

Definition exec (e : event) (s : Service) : Service :=
  match e with
  | Call now c => invoke now c s
  | Job i accepted => RunJob i accepted s
  | Delete accepted => DeleteRows accepted s
  end.

Fixpoint run (es : list event) (s : Service) : Service :=
  match es with [] => s | e :: es => run es (exec e s) end.
End Database.

(** ** The invariant: keys, addresses and jobs agree *)
Definition addr (j : job) : Z := match j with PersistNode a | PersistPosition a => a end.

Record ok (s : Service) : Prop := {
  ok_nodes : forall num a, nodes s !! num = Some a -> exists n, heap s !! a = Some n /\ Node.NodeNum n = num;
  ok_next : forall a, is_Some (heap s !! a) -> a < next s;
  ok_jobs : forall j, j ∈ jobs s -> is_Some (heap s !! addr j)
}.

Lemma NewService_ok rows positions : ok (NewService rows positions).
Proof.
  split; cbn.
  - intros num a H. by rewrite lookup_empty in H.
  - intros a [n H]. by rewrite lookup_empty in H.
  - intros j H. by apply elem_of_nil in H.
Qed.

(** From [s] to [s'] every node of the map stays, changed as [P] says. *)
Definition edits (P : Z -> Node.t -> Node.t -> Prop) (s s' : Service) : Prop :=
  forall num n, GetByNodeNum num s = Some n -> exists n', GetByNodeNum num s' = Some n' /\ P num n n'.

Definition step (P : Z -> Node.t -> Node.t -> Prop) (s s' : Service) : Prop := ok s' /\ edits P s s'.

Lemma GetByNodeNum_at s num a : nodes s !! num = Some a -> GetByNodeNum num s = heap s !! a.
Proof. unfold GetByNodeNum. by intros ->. Qed.

Lemma GetByNodeNum_num s num n : ok s -> GetByNodeNum num s = Some n -> Node.NodeNum n = num.
Proof.
  intros Hs. unfold GetByNodeNum. destruct (nodes s !! num) as [a|] eqn:E; [|done].
  destruct (ok_nodes _ Hs _ _ E) as (m & Hm & Hn). unfold nodeAt. rewrite Hm. by intros [= <-].
Qed.

Lemma Broadcast_frame e s :
  nodes (Broadcast e s) = nodes s /\ heap (Broadcast e s) = heap s /\ next (Broadcast e s) = next s /\
  jobs (Broadcast e s) = jobs s /\ rows (Broadcast e s) = rows s.
Proof. unfold Broadcast. by destruct (sendable e). Qed.

(** What does not show in maps and jobs does not matter. *)
Lemma ok_ext s s' :
  nodes s' = nodes s -> heap s' = heap s -> next s' = next s -> (forall j, j ∈ jobs s' -> j ∈ jobs s) ->
  ok s -> ok s'.
Proof. intros E1 E2 E3 E4 [H1 H2 H3]. split; rewrite ?E1, ?E2, ?E3; auto. Qed.

Lemma edits_ext P s s1 s2 :
  nodes s2 = nodes s1 -> heap s2 = heap s1 -> edits P s s1 -> edits P s s2.
Proof. intros E1 E2. unfold edits, GetByNodeNum, nodeAt. by rewrite E1, E2. Qed.

Lemma step_Broadcast P e s s1 : step P s s1 -> step P s (Broadcast e s1).
Proof.
  destruct (Broadcast_frame e s1) as (E1 & E2 & E3 & E4 & _). intros [Ho He]. split.
  - eapply ok_ext; [done..|by rewrite E4|done].
  - by eapply edits_ext.
Qed.

Lemma step_go P j s s1 : step P s s1 -> is_Some (heap s1 !! addr j) -> step P s (go j s1).
Proof.
  intros [[H1 H2 H3] He] Hj. split; [|done]. split; cbn; [done|done|].
  intros j' [Hin| ->%list_elem_of_singleton]%elem_of_app; [by apply H3|done].
Qed.

Lemma step_refl (P : Z -> Node.t -> Node.t -> Prop) s : (forall num n, P num n n) -> ok s -> step P s s.
Proof. intros HP Hs. split; [done|]. intros num n H. eauto. Qed.

Lemma step_trans (P : Z -> Node.t -> Node.t -> Prop) s s1 s2 :
  (forall num l m n, P num l m -> P num m n -> P num l n) ->
  step P s s1 -> step P s1 s2 -> step P s s2.
Proof.
  intros HP [_ H1] [H2 H3]. split; [done|]. intros num n Hn.
  destruct (H1 _ _ Hn) as (m & Hm & ?). destruct (H3 _ _ Hm) as (k & ? & ?). eauto.
Qed.

Lemma step_weaken (P Q : Z -> Node.t -> Node.t -> Prop) s s' :
  (forall num m n, P num m n -> Q num m n) -> step P s s' -> step Q s s'.
Proof. intros HPQ [Ho He]. split; [done|]. intros num n Hn. destruct (He _ _ Hn) as (m & ? & ?). eauto. Qed.

Lemma step_store (P : Z -> Node.t -> Node.t -> Prop) a n n' s :
  (forall num m, P num m m) -> ok s -> heap s !! a = Some n -> Node.NodeNum n' = Node.NodeNum n ->
  P (Node.NodeNum n) n n' -> step P s (store a n' s).
Proof.
  intros HP [H1 H2 H3] Ha Hn HPn. split.
  - split; cbn; [|intros b|intros j Hj].
    + intros num b Hb. destruct (decide (b = a)) as [->|Hne].
      * rewrite lookup_insert_eq. exists n'. split; [done|].
        destruct (H1 _ _ Hb) as (m & ? & ?). congruence.
      * rewrite lookup_insert_ne by done. by apply H1.
    + intros [m Hm]. destruct (decide (b = a)) as [->|Hne]; [by eauto|].
      rewrite lookup_insert_ne in Hm by done. by eauto.
    + destruct (decide (addr j = a)) as [->|Hne]; [rewrite lookup_insert_eq; eauto|].
      rewrite lookup_insert_ne by done. by apply H3.
  - intros num m. unfold GetByNodeNum, nodeAt. cbn. destruct (nodes s !! num) as [b|] eqn:E; [|done].
    destruct (decide (b = a)) as [->|Hne].
    + rewrite lookup_insert_eq. intros Hm. assert (m = n) as -> by congruence.
      destruct (H1 _ _ E) as (k & Hk & <-). assert (k = n) as -> by congruence. eauto.
    + rewrite lookup_insert_ne by done. eauto.
Qed.

Lemma step_update (P : Z -> Node.t -> Node.t -> Prop) a n n' s :
  (forall num m, P num m m) -> ok s -> heap s !! a = Some n -> Node.NodeNum n' = Node.NodeNum n ->
  P (Node.NodeNum n) n n' -> step P s (update a n' s).
Proof.
  intros. unfold update. apply step_go.
  - apply step_Broadcast. by apply step_store with n.
  - destruct (Broadcast_frame (NodeUpdate n') (store a n' s)) as (_ & -> & _). cbn. rewrite lookup_insert_eq. eauto.
Qed.

Lemma heap_fresh s : ok s -> heap s !! next s = None.
Proof.
  intros Hs. destruct (heap s !! next s) eqn:E; [|done]. pose proof (ok_next _ Hs (next s) ltac:(eauto)). lia.
Qed.

Lemma alloc_heap num n s b m : ok s -> heap s !! b = Some m -> heap (alloc num n s).2 !! b = Some m.
Proof. intros Hs%heap_fresh Hb. cbn. rewrite lookup_insert_ne by congruence. done. Qed.

Lemma ok_alloc num n s : ok s -> Node.NodeNum n = num -> ok (alloc num n s).2.
Proof.
  intros Hs Hn. pose proof (alloc_heap num n s) as Hkeep. cbn in Hkeep. destruct (Hs) as [H1 H2 H3]. split; cbn.
  - intros num' b. destruct (decide (num' = num)) as [->|Hne].
    + rewrite lookup_insert_eq. intros [= <-]. rewrite lookup_insert_eq. eauto.
    + rewrite lookup_insert_ne by done. intros Hb. destruct (H1 _ _ Hb) as (m & ? & ?). eauto.
  - intros b [m Hm]. destruct (decide (b = next s)) as [->|Hne]; [lia|].
    rewrite lookup_insert_ne in Hm by done. specialize (H2 b ltac:(eauto)). lia.
  - intros j Hj. destruct (H3 j Hj) as [m Hm]. eauto.
Qed.

Lemma step_alloc (P : Z -> Node.t -> Node.t -> Prop) num n s :
  (forall num m, P num m m) -> ok s -> nodes s !! num = None -> Node.NodeNum n = num ->
  step P s (alloc num n s).2.
Proof.
  intros HP Hs Hnone Hn. split; [by apply ok_alloc|].
  intros num' m Hm. exists m. split; [|by apply HP]. unfold GetByNodeNum, nodeAt in *. cbn [alloc snd nodes].
  rewrite lookup_insert_ne by (intros <-; by rewrite Hnone in Hm).
  destruct (nodes s !! num') as [b|] eqn:E; [|done]. by apply alloc_heap.
Qed.

(** [obtain] yields the node's address, whether it existed or not. *)
Lemma obtain_spec num s a s' :
  ok s -> obtain num s = (a, s') ->
  (forall P : Z -> Node.t -> Node.t -> Prop, (forall num m, P num m m) -> step P s s') /\
  nodes s' !! num = Some a /\
  (exists n, heap s' !! a = Some n /\ Node.NodeNum n = num /\
     n = match GetByNodeNum num s with Some m => m | None => Node.fresh num end).
Proof.
  intros Hs. unfold obtain. destruct (nodes s !! num) as [b|] eqn:E.
  - intros [= <- <-]. split; [intros; by apply step_refl|]. split; [done|].
    destruct (ok_nodes _ Hs _ _ E) as (n & Hn & Hnum). exists n. rewrite (GetByNodeNum_at _ _ _ E), Hn. done.
  - intros [= <- <-]. split; [|split].
    + intros P HP. by apply (step_alloc P num (Node.fresh num)).
    + cbn. by rewrite lookup_insert_eq.
    + exists (Node.fresh num). cbn. rewrite lookup_insert_eq. unfold GetByNodeNum. by rewrite E.
Qed.

(** ** Every call keeps it, and how it edits the nodes *)
Section Calls.
Variable P : Z -> Node.t -> Node.t -> Prop.
Hypothesis Prefl : forall num n, P num n n.
Hypothesis Ptrans : forall num l m n, P num l m -> P num m n -> P num l n.

Lemma step_obtain num s k :
  ok s ->
  (forall a s1 n, ok s1 -> heap s1 !! a = Some n -> Node.NodeNum n = num -> step P s1 (k a s1 n)) ->
  step P s (let '(a, s1) := obtain num s in withNode a s1 (k a s1)).
Proof.
  intros Hs Hk. destruct (obtain num s) as [a s1] eqn:E.
  destruct (obtain_spec _ _ _ _ Hs E) as (H1 & _ & n & Hn & Hnum & _).
  apply (step_trans P s s1); [exact Ptrans|by apply H1|]. unfold withNode, nodeAt. rewrite Hn.
  apply Hk; [|done|done]. by destruct (H1 P Prefl).
Qed.

Lemma step_known num s k :
  ok s ->
  (forall a n, nodes s !! num = Some a -> heap s !! a = Some n -> Node.NodeNum n = num -> step P s (k a n)) ->
  step P s (match nodes s !! num with Some a => withNode a s (k a) | None => s end).
Proof.
  intros Hs Hk. destruct (nodes s !! num) as [a|] eqn:E; [|by apply step_refl].
  destruct (ok_nodes _ Hs _ _ E) as (n & Hn & Hnum). unfold withNode, nodeAt. rewrite Hn. by apply Hk.
Qed.

Lemma step_TouchNode now num snr rssi s :
  ok s -> (forall n, P num n (touched now snr rssi n)) -> step P s (TouchNode now num snr rssi s).
Proof.
  intros Hs HP. unfold TouchNode. destruct (nodes s !! num) as [a|] eqn:E.
  - destruct (ok_nodes _ Hs _ _ E) as (n & Hn & Hnum). unfold withNode, nodeAt. rewrite Hn.
    eapply step_store; [done|done|done|done|by rewrite Hnum].
  - set (n := Node.set_IsOnline true _). cbn [alloc].
    pose proof (step_alloc P num n s Prefl Hs E eq_refl) as H1. cbn [alloc snd] in H1.
    pose proof (step_Broadcast P (NodeUpdate n) s _ H1) as H2.
    match type of H2 with step _ _ ?x => set (s1 := x) in * end.
    assert (heap s1 !! next s = Some n) as Hn.
    { unfold s1. destruct (Broadcast_frame (NodeUpdate n) (alloc num n s).2) as (_ & E2 & _).
      cbn [alloc snd] in E2. rewrite E2. cbn. apply lookup_insert_eq. }
    unfold withNode, nodeAt. rewrite Hn. eapply step_trans; [exact Ptrans|exact H2|].
    eapply step_store; [done|apply H2|done|done|apply HP].
Qed.

Lemma step_MarkLocal num s :
  ok s -> (forall n, P num n (markedLocal n)) -> step P s (MarkLocal num s).
Proof.
  intros Hs HP. apply step_known; [done|]. intros a n Ha Hn Hnum. apply step_go.
  - eapply step_store; [done|done|done|done|by rewrite Hnum].
  - cbn. rewrite lookup_insert_eq. eauto.
Qed.

Lemma step_ClassifyNode num t s :
  ok s -> (forall m n, classified t m = Some n -> P num m n) -> step P s (ClassifyNode num t s).
Proof.
  intros Hs HP. apply step_known; [done|]. intros a n Ha Hn Hnum.
  destruct (classified t n) as [n'|] eqn:E; [|by apply step_refl].
  eapply step_update; [done|done|done| |rewrite Hnum; by apply HP].
  unfold classified in E. repeat case_match; simplify_eq. done.
Qed.

Lemma step_UpdateLongName num l s s' :
  ok s -> (forall n, P num n (Node.set_LongName l n)) -> UpdateLongName num l s = Some s' -> step P s s'.
Proof.
  intros Hs HP. unfold UpdateLongName. destruct (nodes s !! num) as [a|] eqn:E; [|done]. intros [= <-].
  destruct (ok_nodes _ Hs _ _ E) as (n & Hn & Hnum). unfold withNode, nodeAt. rewrite Hn.
  eapply step_update; [done|done|done|done|by rewrite Hnum].
Qed.

Lemma step_obtain_update num s f :
  ok s -> (forall n, Node.NodeNum (f n) = Node.NodeNum n) -> (forall n, P num n (f n)) ->
  step P s (let '(a, s1) := obtain num s in withNode a s1 (fun n => update a (f n) s1)).
Proof.
  intros Hs Hf HP. apply (step_obtain num s (fun a s1 n => update a (f n) s1)); [done|].
  intros a s1 n H1 Hn Hnum. eapply step_update; [done|done|done|apply Hf|by rewrite Hnum].
Qed.

Lemma step_SetFirmwareVersion num f s :
  ok s -> (forall n, P num n (Node.set_FirmwareVersion f n)) -> step P s (SetFirmwareVersion num f s).
Proof.
  intros Hs HP. unfold SetFirmwareVersion. destruct (same f ""); [by apply step_refl|].
  apply step_known; [done|]. intros a n Ha Hn Hnum. destruct (same _ f); [by apply step_refl|].
  eapply step_update; [done|done|done|done|by rewrite Hnum].
Qed.

Lemma step_Heartbeat out now num lat lon data s :
  ok s -> (forall n, Node.NodeNum (beaten out now lat lon data n).1 = Node.NodeNum n) ->
  (forall n, P num n (beaten out now lat lon data n).1) ->
  step P s (HandleAntihunterHeartbeat out now num lat lon data s).
Proof.
  intros Hs Hf HP. unfold HandleAntihunterHeartbeat.
  apply (step_obtain num s (fun a s1 n => let '(n', changed) := beaten out now lat lon data n in
    if changed : bool then update a n' s1 else store a n' s1)); [done|].
  intros a s1 n H1 Hn Hnum. specialize (Hf n). specialize (HP n).
  destruct (beaten out now lat lon data n) as [n' []]; cbn in *.
  - eapply step_update; [done|done|done|done|by rewrite Hnum].
  - eapply step_store; [done|done|done|done|by rewrite Hnum].
Qed.

Lemma step_SetSensorShortID num i s :
  ok s -> (forall n, P num n (Node.set_SensorShortID i n)) -> step P s (SetSensorShortID num i s).
Proof.
  intros Hs HP. unfold SetSensorShortID. destruct (same i ""); [by apply step_refl|].
  apply (step_obtain num s (fun a s1 n => if same (Node.SensorShortID n) i then s1
    else update a (Node.set_SensorShortID i n) s1)); [done|].
  intros a s1 n H1 Hn Hnum. destruct (same _ i); [by apply step_refl|].
  eapply step_update; [done|done|done|done|by rewrite Hnum].
Qed.

Lemma step_SetLastMessage now num m s :
  ok s -> (forall n, P num n (heard now (Node.set_LastMessage m n))) -> step P s (SetLastMessage now num m s).
Proof.
  intros Hs HP. unfold SetLastMessage. destruct (same m ""); [by apply step_refl|].
  by apply (step_obtain_update num s (fun n => heard now (Node.set_LastMessage m n))).
Qed.

Lemma step_HandlePosition now num p s :
  ok s -> (forall n, Node.NodeNum (located now p n) = Node.NodeNum n) -> (forall n, P num n (located now p n)) ->
  step P s (HandlePosition now num p s).
Proof.
  intros Hs Hf HP. unfold HandlePosition.
  apply (step_obtain num s (fun a s1 n => go (PersistPosition a) (Broadcast (NodePosition num
    (Node.Latitude (located now p n)) (Node.Longitude (located now p n)) (Node.Altitude (located now p n)))
    (store a (located now p n) s1)))); [done|].
  intros a s1 n H1 Hn Hnum. apply step_go.
  - apply step_Broadcast. eapply step_store; [done|done|done|apply Hf|by rewrite Hnum].
  - match goal with |- is_Some (heap (Broadcast ?e ?x) !! _) => destruct (Broadcast_frame e x) as (_ & -> & _) end.
    cbn. rewrite lookup_insert_eq. eauto.
Qed.
End Calls.

Lemma refreshAt_heap now a h b :
  refreshAt now a h !! b = if decide (b = a) then refresh now <$> h !! b else h !! b.
Proof.
  unfold refreshAt. destruct (decide (b = a)) as [->|Hne]; [apply lookup_alter_eq|by apply lookup_alter_ne].
Qed.

(** Refreshing at a list of addresses. *)
Lemma refreshAll_heap now (l : list (Z * Z)) h b :
  foldr (fun ka h => refreshAt now ka.2 h) h l !! b =
    if decide (b ∈ map snd l) then refresh now <$> h !! b else h !! b.
Proof.
  induction l as [|[k a] l IH]; cbn [foldr map snd].
  - by rewrite decide_False by apply not_elem_of_nil.
  - rewrite refreshAt_heap, IH. destruct (decide (b = a)) as [->|Hne].
    + rewrite (decide_True (P := a ∈ a :: _)) by (by left).
      destruct (decide _); [|done]. by destruct (h !! a).
    + apply decide_ext. rewrite elem_of_cons. naive_solver.
Qed.

(** *** What the assignments leave alone *)
Definition keeps (m n : Node.t) : Prop :=
  Node.NodeNum n = Node.NodeNum m /\ Node.NodeType n = Node.NodeType m.

Lemma keeps_withPosition p n : keeps n (withPosition p n).
Proof. unfold withPosition. by destruct (_ >? _). Qed.

Lemma keeps_beaten out now lat lon data n : keeps n (beaten out now lat lon data n).1.
Proof.
  unfold beaten, beatPosition, beatTemperature, beatBattery. destruct (_ || _);
    (destruct (temperatureC data) as [v|]; [destruct (isZero64 v)|]);
    (destruct (battery data) as [b|]; [destruct (float_lt _ _); [destruct (_ =? _)|]|]); by split.
Qed.

(** [HandleNodeInfo] before the classification. *)
Lemma informed_named now info n :
  exists m, informed now info n = named m /\ keeps n m.
Proof.
  unfold informed. eexists. split; [reflexivity|]. unfold keeps.
  destruct (NodeInfoLite.LastHeard info >? 0); cbn [Node.set_IsOnline Node.set_LastHeard Node.set_SNR
    Node.NodeNum Node.NodeType]; (destruct (NodeInfoLite.Metrics info); cbn [onOption withMetrics
    Node.set_AirUtilTx Node.set_ChannelUtilization Node.set_Voltage Node.set_BatteryLevel Node.NodeNum Node.NodeType]);
    (destruct (NodeInfoLite.Position info) as [p|]; cbn [onOption];
      [destruct (keeps_withPosition p (onOption (NodeInfoLite.User info) withUser n)) as [-> ->]|]);
    by destruct (NodeInfoLite.User info).
Qed.

Lemma named_num n : Node.NodeNum (named n) = Node.NodeNum n.
Proof. unfold named. repeat (destruct (_ : bool)); done. Qed.

Lemma informed_num now info n : Node.NodeNum (informed now info n) = Node.NodeNum n.
Proof. destruct (informed_named now info n) as (m & -> & Hk & _). by rewrite named_num. Qed.

Lemma informed_climbs now info n : climbs n (informed now info n).
Proof.
  destruct (informed_named now info n) as (m & -> & _ & Ht).
  transitivity m; [by apply climbs_same|apply named_climbs].
Qed.

(** *** Steps of the whole service *)
Definition climb (num : Z) (m n : Node.t) : Prop := climbs m n.

Lemma climb_refl num n : climb num n n.
Proof. unfold climb. reflexivity. Qed.
Lemma climb_trans num l m n : climb num l m -> climb num m n -> climb num l n.
Proof. unfold climb. by intros ? ?; transitivity m. Qed.
#[local] Hint Resolve climb_refl climb_trans : core.

(** Calls that take nodes off the map. *)
Definition removes (c : call) : bool := match c with CClearAll | CRemove _ => true | _ => false end.
Definition classifies (c : call) : bool :=
  match c with CClassifyNode _ t => dispatched t | _ => true end.
Definition marks (c : call) : bool := match c with CMarkLocal _ => true | _ => false end.

Section Steps.
Variable outOfRange : spec_float -> Z.
Variable textOK : string -> bool.

(** With any preorder that allows the node functions of call [c]. *)
Definition allows (P : Z -> Node.t -> Node.t -> Prop) (now : Z) (c : call) : Prop :=
  match c with
  | CTouchNode num snr rssi => forall n, P num n (touched now snr rssi n)
  | CMarkLocal num => forall n, P num n (markedLocal n)
  | CClassifyNode num t => forall m n, classified t m = Some n -> P num m n
  | CUpdateLongName num l => forall n, P num n (Node.set_LongName l n)
  | CHandleNodeInfo info => forall n, P (NodeInfoLite.Num info) n (informed now info n)
  | CHandleTelemetry num m => forall n, P num n (measured now m n)
  | CHandleEnvironment num e => forall n, P num n (sensed now e n)
  | CSetFirmwareVersion num f => forall n, P num n (Node.set_FirmwareVersion f n)
  | CHeartbeat num lat lon data => forall n, P num n (beaten outOfRange now lat lon data n).1
  | CSetSensorShortID num i => forall n, P num n (Node.set_SensorShortID i n)
  | CSetLastMessage num m => forall n, P num n (heard now (Node.set_LastMessage m n))
  | CHandlePosition num p => forall n, P num n (located now p n)
  | CGetAll => forall num n, P num n (refresh now n)
  | CClearAll | CRemove _ => False
  end.

Lemma step_GetAll (P : Z -> Node.t -> Node.t -> Prop) now s :
  (forall num n, P num n n) -> ok s -> (forall num n, P num n (refresh now n)) -> step P s (GetAll now s).2.
Proof.
  intros Prefl [H1 H2 H3] HP. cbn [GetAll snd]. split.
  - split; cbn.
    + intros num a Ha. destruct (H1 _ _ Ha) as (n & Hn & <-). rewrite refreshAll_heap, Hn.
      destruct (decide _); cbn; eauto.
    + intros a. rewrite refreshAll_heap. destruct (decide _); [|apply H2]. rewrite fmap_is_Some. apply H2.
    + intros j Hj. rewrite refreshAll_heap. destruct (decide _); [rewrite fmap_is_Some|]; by apply H3.
  - intros num n. unfold GetByNodeNum, nodeAt. cbn. destruct (nodes s !! num) as [a|]; [|done].
    rewrite refreshAll_heap. intros ->. destruct (decide _); cbn; eauto.
Qed.

Lemma step_invoke P now c s :
  (forall num n, P num n n) -> (forall num l m n, P num l m -> P num m n -> P num l n) ->
  ok s -> allows P now c -> step P s (invoke outOfRange now c s).
Proof.
  intros Pr Pt Hs. destruct c; cbn [allows invoke]; intros HP; try done.
  - by apply step_TouchNode.
  - by apply step_MarkLocal.
  - by apply step_ClassifyNode.
  - destruct (UpdateLongName num longName s) eqn:E; [|by apply step_refl]. by eapply step_UpdateLongName.
  - apply (step_obtain_update P Pr Pt _ s (informed now info)); [done|apply informed_num|done].
  - by apply (step_obtain_update P Pr Pt from s (measured now metrics)).
  - by apply (step_obtain_update P Pr Pt from s (sensed now env)).
  - by apply step_SetFirmwareVersion.
  - apply step_Heartbeat; [done..|apply keeps_beaten|done].
  - by apply step_SetSensorShortID.
  - by apply step_SetLastMessage.
  - apply step_HandlePosition; [done..|apply keeps_withPosition|done].
  - by apply step_GetAll.
Qed.

(** Every call but [MarkLocal] and the removals climbs. *)
Lemma allows_climb now c :
  classifies c = true -> marks c = false -> removes c = false -> allows climb now c.
Proof.
  destruct c; cbn; intros Hd Hm Hr; try done; intros; unfold climb; try (by apply climbs_same).
  - by eapply classified_climbs.
  - apply informed_climbs.
  - apply climbs_same, keeps_beaten.
  - apply climbs_same. apply (keeps_withPosition pos n).
Qed.

Lemma allows_any now c : removes c = false -> allows (fun _ _ _ => True) now c.
Proof. by destruct c. Qed.

Lemma ok_Remove num s : ok s -> ok (Remove num s).
Proof.
  intros Hs. unfold Remove. destruct (nodes s !! num) as [a|] eqn:E; [|done].
  destruct (ok_nodes _ Hs _ _ E) as (n & Hn & _). unfold withNode, nodeAt. rewrite Hn.
  match goal with |- ok (Broadcast ?e ?x) => destruct (Broadcast_frame e x) as (E1 & E2 & E3 & E4 & _) end.
  destruct Hs as [H1 H2 H3]. split; rewrite ?E1, ?E2, ?E3, ?E4; cbn; [|done|done].
  intros num' b [_ Hb]%lookup_delete_Some. by apply H1.
Qed.

Lemma ok_invoke now c s : ok s -> ok (invoke outOfRange now c s).
Proof.
  intros Hs. destruct (removes c) eqn:Er.
  - destruct c; try done; cbn [invoke]; [|by apply ok_Remove].
    destruct Hs as [H1 H2 H3]. split; cbn; [|done|done]. intros num a H. by rewrite lookup_empty in H.
  - by apply (step_invoke (fun _ _ _ => True)), allows_any.
Qed.

Lemma runJob_frame accepted j s :
  let s' := runJob textOK accepted j s in
  nodes s' = nodes s /\ heap s' = heap s /\ next s' = next s /\ jobs s' = jobs s.
Proof.
  destruct j; cbn; unfold withNode, persistNode, persistPosition; repeat case_match; done.
Qed.

Lemma RunJob_frame i accepted s :
  let s' := RunJob textOK i accepted s in
  nodes s' = nodes s /\ heap s' = heap s /\ next s' = next s /\ (forall j, j ∈ jobs s' -> j ∈ jobs s).
Proof.
  cbn. unfold RunJob. destruct (jobs s !! i) as [j|]; [|done].
  destruct (runJob_frame accepted j (set_jobs (delete i (jobs s)) s)) as (-> & -> & -> & ->).
  split_and!; try done. cbn. intros j' Hj'. by eapply elem_of_delete.
Qed.

Lemma ok_exec e s : ok s -> ok (exec textOK outOfRange e s).
Proof.
  intros Hs. destruct e as [now c|i a|a]; cbn [exec]; [by apply ok_invoke|..].
  - destruct (RunJob_frame i a s) as (E1 & E2 & E3 & E4). by eapply ok_ext.
  - unfold DeleteRows. destruct a; [|done]. by apply (ok_ext s).
Qed.

Lemma ok_run es s : ok s -> ok (run textOK outOfRange es s).
Proof. revert s. induction es as [|e es IH]; intros s Hs; [done|]. by apply IH, ok_exec. Qed.

Lemma step_event (P : Z -> Node.t -> Node.t -> Prop) e s :
  (forall num n, P num n n) -> (forall num l m n, P num l m -> P num m n -> P num l n) ->
  ok s -> (forall now c, e = Call now c -> allows P now c) -> step P s (exec textOK outOfRange e s).
Proof.
  intros Pr Pt Hs Hc. destruct e as [now c|i a|a]; cbn [exec].
  - by apply step_invoke; [..|eapply Hc].
  - destruct (RunJob_frame i a s) as (E1 & E2 & _). split; [by apply (ok_exec (Job i a))|].
    eapply edits_ext; [done|done|]. by apply step_refl.
  - split; [by apply (ok_exec (Delete a))|]. unfold DeleteRows. destruct a; [|by apply step_refl].
    eapply edits_ext; [| |by apply step_refl]; done.
Qed.

Lemma step_run (P : Z -> Node.t -> Node.t -> Prop) es s :
  (forall num n, P num n n) -> (forall num l m n, P num l m -> P num m n -> P num l n) ->
  ok s -> Forall (fun e => forall now c, e = Call now c -> allows P now c) es ->
  step P s (run textOK outOfRange es s).
Proof.
  intros Pr Pt. revert s. induction es as [|e es IH]; intros s Hs Hf; [by apply step_refl|].
  apply Forall_cons in Hf as [He Hf]. pose proof (step_event P e s Pr Pt Hs He) as H1.
  apply (step_trans P s (exec textOK outOfRange e s)); [done|done|]. cbn [run]. apply IH; [apply H1|done].
Qed.
End Steps.

(** ** Classification *)
Definition harmless (num : Z) (e : event) : bool :=
  match e with
  | Call _ (CMarkLocal k) | Call _ (CRemove k) => negb (k =? num)
  | Call _ CClearAll => false
  | Call _ (CClassifyNode k t) => negb (k =? num) || dispatched t
  | _ => true
  end.

Definition climbsAt (num k : Z) (m n : Node.t) : Prop := k = num -> climbs m n.

Lemma GetByNodeNum_Remove k num s : ok s -> k <> num -> GetByNodeNum num (Remove k s) = GetByNodeNum num s.
Proof.
  intros Hs Hne. unfold Remove. destruct (nodes s !! k) as [a|] eqn:E; [|done].
  destruct (ok_nodes _ Hs _ _ E) as (n & Hn & _). unfold withNode, nodeAt. rewrite Hn.
  match goal with |- GetByNodeNum num (Broadcast ?e ?x) = _ =>
    destruct (Broadcast_frame e x) as (E1 & E2 & _) end.
  unfold GetByNodeNum, nodeAt. rewrite E1, E2. cbn. by rewrite lookup_delete_ne.
Qed.

Lemma allows_weaken out (P Q : Z -> Node.t -> Node.t -> Prop) now c :
  (forall k m n, P k m n -> Q k m n) -> allows out P now c -> allows out Q now c.
Proof. intros HPQ. destruct c; cbn; auto. Qed.

Lemma allows_climbsAt out now num c :
  harmless num (Call now c) = true -> removes c = false -> allows out (climbsAt num) now c.
Proof.
  unfold climbsAt. destruct (marks c) eqn:Em; [by destruct c; cbn in *; try done; lia|].
  destruct (classifies c) eqn:Ec.
  - intros _ Hr. apply (allows_weaken out climb); [by intros k m n Hc _|by apply allows_climb].
  - destruct c; cbn in *; try done. rewrite Ec. intros. lia.
Qed.

Lemma climb_event textOK out num e s n :
  ok s -> GetByNodeNum num s = Some n -> harmless num e = true ->
  exists n', GetByNodeNum num (exec textOK out e s) = Some n' /\ climbs n n'.
Proof.
  intros Hs Hn He.
  assert ((exists now k, e = Call now (CRemove k)) \/ forall now c, e = Call now c -> removes c = false) as [Hr|Hr].
  { destruct e as [now c| |]; [|by right..]. destruct (removes c) eqn:E; [|by right; intros ? ? [= <- <-]].
    destruct c; try done. left. eauto. }
  - destruct Hr as (now & k & ->). cbn in *. exists n. split; [|reflexivity].
    rewrite GetByNodeNum_Remove by (done || lia). done.
  - destruct (step_event out textOK (climbsAt num) e s) as [_ Hd]; [| |done| |].
    + intros k m _. reflexivity.
    + intros k l m o H1 H2 E. transitivity m; auto.
    + intros now c ->. apply allows_climbsAt; [done|by eapply Hr].
    + destruct (Hd _ _ Hn) as (n' & Hn' & HP). exists n'. split; [done|by apply HP].
Qed.

(** C13: whatever the service is told, as long as a node is not removed and not
    marked as the local one, its type never goes down the ladder
    operator - gotailme or aicam - sensor, and a sensor keeps its type. *)
Theorem node_types_climb textOK out es num n s :
  ok s -> GetByNodeNum num s = Some n -> Forall (fun e => harmless num e = true) es ->
  exists n', GetByNodeNum num (run textOK out es s) = Some n' /\
    rank (Node.NodeType n) <= rank (Node.NodeType n') /\
    (sensor (Node.NodeType n) = true -> Node.NodeType n' = Node.NodeType n).
Proof.
  intros Hs Hn Hf. enough (exists n', GetByNodeNum num (run textOK out es s) = Some n' /\ climbs n n') by done.
  revert s n Hs Hn. induction Hf as [|e es He _ IH]; intros s n Hs Hn; [exists n; split; [done|reflexivity]|].
  destruct (climb_event textOK out num e s n Hs Hn He) as (m & Hm & Hc).
  destruct (IH _ m (ok_exec out textOK e s Hs) Hm) as (n' & Hn' & Hc').
  exists n'. split; [done|]. by transitivity m.
Qed.

(** ** Restart *)
Definition emptyRow : Row :=
  mkRow None None None None None None None None None None None None None None None None None None None
    "" "" None false None None.

Lemma merge_empty n : mergeRow (rowOf n) emptyRow = rowOf n.
Proof.
  unfold mergeRow, rowOf, nullStr, nullFloat, null32, nullInt, nullTime, nullTimePtr, coalesce, unlessEmpty, emptyRow. cbn.
  f_equal; repeat case_match; try done; symmetry; by apply same_true.
Qed.

Lemma upsert_lookup num n m :
  upsert num (rowOf n) m !! num = Some (mergeRow (rowOf n) (default emptyRow (m !! num))).
Proof.
  unfold upsert. rewrite lookup_insert_eq. destruct (m !! num); [done|]. cbn. by rewrite merge_empty.
Qed.

(** [Load] makes a node of every row that scans. *)
Definition loadOne (scans : Z -> bool) (now : Z) (s : Service) (kr : Z * Row) : Service :=
  if scans kr.1 then (alloc kr.1 (loadRow now kr.1 kr.2) s).2 else s.

Lemma loadRow_num now num r : Node.NodeNum (loadRow now num r) = num.
Proof. reflexivity. Qed.

Lemma ok_loadOne scans now s kr : ok s -> ok (loadOne scans now s kr).
Proof. intros Hs. unfold loadOne. destruct (scans kr.1); [|done]. by apply ok_alloc. Qed.

Lemma loadAll scans now l s :
  NoDup l.*1 -> ok s ->
  let s' := foldl (loadOne scans now) s l in
  ok s' /\
  (forall num r, (num, r) ∈ l -> scans num = true -> GetByNodeNum num s' = Some (loadRow now num r)) /\
  (forall num, num ∉ l.*1 -> nodes s' !! num = nodes s !! num) /\
  (forall a n, heap s !! a = Some n -> heap s' !! a = Some n).
Proof.
  revert s. induction l as [|[k r] l IH]; intros s Hnd Hs; cbn [foldl fmap list_fmap].
  - split_and!; try done. intros num r H. by apply elem_of_nil in H.
  - apply NoDup_cons in Hnd as [Hk Hnd]. cbn in Hk.
    destruct (IH (loadOne scans now s (k, r)) Hnd) as (I0 & I1 & I2 & I3); [by apply ok_loadOne|].
    remember (loadOne scans now s (k, r)) as s1 eqn:Es1. unfold loadOne in Es1. cbn [fst snd] in Es1.
    split_and!; [done|..].
    + intros num r' [[= -> ->]|Hin]%elem_of_cons Hsc; [|by apply I1]. rewrite Hsc in Es1. subst s1. unfold GetByNodeNum, nodeAt. rewrite (I2 k Hk). cbn [alloc snd nodes].
      rewrite lookup_insert_eq. apply I3. cbn [alloc snd heap]. by rewrite lookup_insert_eq.
    + intros num [Hne Hnin]%not_elem_of_cons. rewrite (I2 num Hnin). subst s1. destruct (scans k); [|done].
      cbn [alloc snd nodes]. by rewrite lookup_insert_ne.
    + intros a n Ha. apply I3. subst s1. destruct (scans k); [by apply alloc_heap|done].
Qed.

Definition loaded (scans : Z -> bool) (now : Z) (s : Service) : Service :=
  foldl (loadOne scans now) s (map_to_list (rows s)).

Lemma Load_true scans now s : Load true scans now s = Some (loaded scans now s).
Proof. reflexivity. Qed.

Lemma Load_spec scans now s s' :
  ok s -> Load true scans now s = Some s' ->
  ok s' /\
  forall num r, rows s !! num = Some r -> scans num = true -> GetByNodeNum num s' = Some (loadRow now num r).
Proof.
  intros Hs [= <-].
  destruct (loadAll scans now (map_to_list (rows s)) s) as (H0 & H1 & _); [apply NoDup_fst_map_to_list|done|].
  split; [exact H0|]. intros num r Hr Hsc. apply H1; [by apply elem_of_map_to_list|done].
Qed.

(** A started job whose node the database takes. *)
Definition storable (textOK : string -> bool) (n : Node.t) : bool := typed (rowOf n) && textsOK textOK (rowOf n).

Lemma RunJob_persist textOK i a n s :
  jobs s !! i = Some (PersistNode a) -> heap s !! a = Some n -> storable textOK n = true ->
  rows (RunJob textOK i true s) = upsert (Node.NodeNum n) (rowOf n) (rows s).
Proof.
  intros Hj Ha Hst. unfold RunJob. rewrite Hj. unfold runJob, withNode, nodeAt. cbn [heap set_jobs].
  rewrite Ha. unfold persistNode. unfold storable in Hst. cbn. by rewrite Hst.
Qed.

Lemma restart_overlays_node textOK s i a n positions now scans s' :
  ok s -> jobs s !! i = Some (PersistNode a) -> heap s !! a = Some n -> storable textOK n = true -> sized n ->
  let num := Node.NodeNum n in
  Load true scans now (NewService (rows (RunJob textOK i true s)) positions) = Some s' -> scans num = true ->
  GetByNodeNum num s' =
    Some (refresh now (overlay n (loadRow now num (default emptyRow (rows s !! num))))).
Proof.
  intros Hs Hj Ha Hst Hsz num Hl Hsc.
  rewrite (proj2 (Load_spec _ _ _ _ (NewService_ok _ _) Hl) num (mergeRow (rowOf n) (default emptyRow (rows s !! num)))).
  - by rewrite loadRow_merge.
  - cbn. rewrite (RunJob_persist textOK i a n s Hj Ha Hst). apply upsert_lookup.
  - done.
Qed.

(** Once a job has stored a node, a restart brings back each of its
    stored fields that is not zero; for a zero one - a battery at 0 %, a
    cleared message - the older value of the row comes back, and what is not
    stored is reset. *)
Theorem restart_overlays textOK s i a n positions now scans s' :
  ok s -> jobs s !! i = Some (PersistNode a) -> heap s !! a = Some n -> storable textOK n = true -> sized n ->
  let num := Node.NodeNum n in
  Load true scans now (NewService (rows (RunJob textOK i true s)) positions) = Some s' -> scans num = true ->
  GetByNodeNum num s' =
    Some (refresh now (overlay n (loadRow now num (default emptyRow (rows s !! num))))).
Proof. apply restart_overlays_node. Qed.

(** Removals do not last. [Remove] leaves the row, so the next [Load]
    brings the node back; and a job started before [ClearAll] that runs after
    its DELETE writes the row again. *)
Theorem removals_do_not_last textOK s num r i a n now scans s' :
  ok s -> rows s !! num = Some r -> Load true scans now (NewService (rows (Remove num s)) []) = Some s' ->
  scans num = true ->
  jobs s !! i = Some (PersistNode a) -> heap s !! a = Some n -> storable textOK n = true ->
  GetByNodeNum num s' = Some (loadRow now num r) /\
  let cleared := DeleteRows true (ClearAll s) in
  rows cleared = ∅ /\ nodes cleared = ∅ /\
  rows (RunJob textOK i true cleared) !! Node.NodeNum n = Some (rowOf n).
Proof.
  intros Hs Hr Hl Hsc Hj Ha Hst. split; [|split; [done|split; [done|]]].
  - apply (proj2 (Load_spec _ _ _ _ (NewService_ok _ _) Hl)); [|done]. cbn. unfold Remove.
    destruct (nodes s !! num) as [b|]; [|done]. unfold withNode. destruct (nodeAt b s) as [m|]; [|done].
    match goal with |- rows (Broadcast ?e ?x) !! _ = _ => destruct (Broadcast_frame e x) as (_ & _ & _ & _ & ->) end.
    done.
  - rewrite (RunJob_persist textOK i a n); [|done..]. unfold upsert. cbn. by rewrite lookup_empty, lookup_insert_eq.
Qed.

(** ** What the database refuses *)
Definition storedRoles : list Z := [0; 1; 2; 3; 4; 5; 6; 8; 9].

Lemma roleName_other role :
  role ∉ [0; 1; 2; 3; 4; 5; 6; 7; 8; 9] -> roleName role = "ROLE_" +:+ itoa role.
Proof.
  intros Hr. unfold roleName. enough (zassoc role roleNames = None) as -> by done. cbn.
  repeat (destruct (_ =? _) eqn:E; [apply Z.eqb_eq in E; subst; exfalso; apply Hr; set_solver|clear E]). done.
Qed.

Lemma roleName_stored role : bool_decide (roleName role ∈ node_role) = bool_decide (role ∈ storedRoles).
Proof.
  destruct (decide (role ∈ [0; 1; 2; 3; 4; 5; 6; 7; 8; 9])) as [Hin|Hout].
  - repeat (apply elem_of_cons in Hin as [-> | Hin]; [by vm_compute|]). by apply elem_of_nil in Hin.
  - rewrite (bool_decide_false (role ∈ storedRoles)) by (unfold storedRoles; set_solver).
    apply bool_decide_false. rewrite roleName_other by done. intros Hin.
    assert (Forall (fun r => HasPrefix r "ROLE_" = false) node_role) as Hf by (repeat constructor).
    rewrite Forall_forall in Hf. specialize (Hf _ Hin). by rewrite HasPrefix_app in Hf.
Qed.

(** The column type [node_role] lacks names the decoder produces: a node
    whose role is 7 (CLIENT_HIDDEN) or above 9, or whose battery level is
    2^31 or more, is not stored, whatever else it reports; the other roles
    are accepted. *)
Theorem refused_nodes textOK n role accepted s :
  Node.Role n = roleName role ->
  (typed (rowOf n) = true <-> (role ∈ storedRoles) /\ Node.BatteryLevel n < 2 ^ 31) /\
  (role ∉ storedRoles \/ 2 ^ 31 <= Node.BatteryLevel n -> persistNode textOK accepted n s = s).
Proof.
  intros Hr. assert (typed (rowOf n) = bool_decide (role ∈ storedRoles) && (Node.BatteryLevel n <? 2 ^ 31)) as Ht.
  { unfold typed, rowOf. cbn [rRole rBatteryLevel]. rewrite Hr. f_equal.
    - rewrite <- roleName_stored. unfold nullStr. destruct (same (roleName role) "") eqn:E; [|done].
      apply same_true in E. exfalso. revert E. unfold roleName. destruct (zassoc role roleNames) eqn:E2; [|done].
      cbn in E2. repeat (destruct (_ =? _); [by injection E2 as <-|]). done.
    - unfold nullInt. destruct (Node.BatteryLevel n =? 0) eqn:E; [|done]. apply Z.eqb_eq in E. by rewrite E. }
  rewrite Ht, andb_true_iff, bool_decide_eq_true, Z.ltb_lt. split; [done|].
  intros Hno. unfold persistNode. rewrite Ht.
  assert (bool_decide (role ∈ storedRoles) && (Node.BatteryLevel n <? 2 ^ 31) = false) as ->.
  { apply andb_false_iff. destruct Hno as [H|H]; [left; by apply bool_decide_false|right; by apply Z.ltb_ge]. }
  by rewrite andb_false_r.
Qed.

(** ** The listing *)
Lemma GetAll_elem now s n :
  ok s -> n ∈ (GetAll now s).1 <-> exists num m, GetByNodeNum num s = Some m /\ n = refresh now m.
Proof.
  intros Hs. cbn [GetAll fst]. rewrite (merge_sort_Permutation byNum). unfold nodesOf. rewrite list_elem_of_omap.
  split.
  - intros ([num a] & Hin & Hn). cbn in *. unfold nodeAt in Hn. cbn in Hn. rewrite refreshAll_heap in Hn.
    rewrite decide_True in Hn by (apply list_elem_of_fmap; eexists (_, _); eauto).
    destruct (heap s !! a) as [m|] eqn:Em; [|done]. injection Hn as <-.
    apply elem_of_map_to_list in Hin. exists num, m. by rewrite (GetByNodeNum_at _ _ _ Hin).
  - intros (num & m & Hm & ->). unfold GetByNodeNum, nodeAt in Hm.
    destruct (nodes s !! num) as [a|] eqn:Ea; [|done]. apply elem_of_map_to_list in Ea as Hin.
    exists (num, a). split; [done|]. cbn. unfold nodeAt. cbn. rewrite refreshAll_heap, Hm.
    by rewrite decide_True by (apply list_elem_of_fmap; eexists (_, _); eauto).
Qed.

(** ** Witnesses *)
Definition noRange (_ : spec_float) : Z := 0.
Definition anyText (_ : string) : bool := true.
Definition emptyService : Service := NewService ∅ [].

(** A sensor that reported itself, then a telemetry packet of it. *)
Definition reported : list event :=
  [Call 1 (CTouchNode 7 0 0); Call 2 (CClassifyNode 7 NodeTypeAntihunter);
   Call 3 (CHandleTelemetry 7 (DeviceMetrics.set_BatteryLevel 80 DeviceMetrics.zero))].
Definition reportedService : Service := run anyText noRange reported emptyService.
Definition reportedNode : Node.t := default (Node.fresh 0) (GetByNodeNum 7 reportedService).

Lemma reportedService_ok : ok reportedService.
Proof. apply ok_run, NewService_ok. Qed.

Definition gotailmeInfo : NodeInfoLite.t :=
  NodeInfoLite.set_User (Some (UserInfo.set_LongName "GoTailMe 1" UserInfo.zero)) (NodeInfoLite.set_Num 7 NodeInfoLite.zero).

Lemma node_types_climb_witness :
  exists n', GetByNodeNum 7 (run anyText noRange
      [Call 4 (CClassifyNode 7 NodeTypeOperator); Call 5 (CHandleNodeInfo gotailmeInfo); Call 6 (CRemove 8)]
      reportedService) = Some n' /\ Node.NodeType n' = NodeTypeAntihunter.
Proof.
  destruct (node_types_climb anyText noRange
      [Call 4 (CClassifyNode 7 NodeTypeOperator); Call 5 (CHandleNodeInfo gotailmeInfo); Call 6 (CRemove 8)]
      7 reportedNode reportedService reportedService_ok) as (n' & Hn' & _ & Hs).
  - vm_compute. reflexivity.
  - repeat constructor.
  - exists n'. split; [exact Hn'|]. rewrite Hs; [vm_compute; reflexivity|vm_compute; reflexivity].
Defined.

Lemma restart_overlays_witness :
  exists s', Load true (fun _ => true) 9 (NewService (rows (RunJob anyText 1 true reportedService)) []) = Some s' /\
    GetByNodeNum 7 s' = Some (refresh 9 (overlay reportedNode (loadRow 9 7 emptyRow))).
Proof.
  eexists. split; [reflexivity|].
  apply (restart_overlays anyText reportedService 1 0 reportedNode [] 9 (fun _ => true) _ reportedService_ok).
  - vm_compute. reflexivity.
  - vm_compute. reflexivity.
  - vm_compute. reflexivity.
  - vm_compute. repeat split; discriminate.
  - reflexivity.
  - reflexivity.
Defined.

Definition storedService : Service := RunJob anyText 0 true reportedService.
Lemma storedService_ok : ok storedService.
Proof. apply (ok_exec noRange anyText (Job 0 true)), reportedService_ok. Qed.

Lemma removals_do_not_last_witness :
  rows (RunJob anyText 0 true (DeleteRows true (ClearAll storedService))) !! 7 = Some (rowOf reportedNode).
Proof.
  destruct (removals_do_not_last anyText storedService 7 (rowOf reportedNode) 0 0 reportedNode 9 (fun _ => true)
    (loaded (fun _ => true) 9 (NewService (rows (Remove 7 storedService)) [])) storedService_ok) as (_ & _ & _ & Hr).
  - vm_compute. reflexivity.
  - apply Load_true.
  - reflexivity.
  - vm_compute. reflexivity.
  - vm_compute. reflexivity.
  - vm_compute. reflexivity.
  - exact Hr.
Defined.

Lemma refused_nodes_witness :
  typed (rowOf (Node.set_Role "CLIENT_HIDDEN" reportedNode)) = true <-> (7 ∈ storedRoles) /\ 80 < 2 ^ 31.
Proof.
  apply (refused_nodes anyText (Node.set_Role "CLIENT_HIDDEN" reportedNode) 7 true reportedService).
  vm_compute. reflexivity.
Defined.
