(* ===== verification/NodeStore.v ===== *)
(** What the table [nodes] knows of the node map: once the started jobs have
    run, every reported fact about a node is in its row. *)
From Stdlib Require Import Floats.SpecFloat.
From S2P Require Import Prelude GoStrings GoFloat GoFloat32 Messages NodeData Nodes.

(** ** Definitions

    The columns that every change of the node schedules to be written.
    [TouchNode], [HandlePosition], [GetAll] and an uneventful heartbeat change
    the others without a job: id, coordinates, SNR, last heard, online. *)
Definition labels (r : Row) :=
  (rLongName r, rShortName r, rHWModel r, rRole r, rBatteryLevel r, rVoltage r, rChannelUtilization r,
   rAirUtilTx r, rTemperatureC r, rTemperatureF r, rTemperatureUpdatedAt r, rLastMessage r,
   (rNodeType r, rSensorShortID r, rFirmwareVersion r, rIsLicensed r)).

(** Writing [n] again would not change them. *)
Definition covers (r : Row) (n : Node.t) : Prop := labels (mergeRow (rowOf n) r) = labels r.
Definition bare (n : Node.t) : Prop := labels (rowOf n) = labels emptyRow.
Definition quiet (m n : Node.t) : Prop := labels (rowOf n) = labels (rowOf m).

Definition full (s : Service) : Prop :=
  forall a n, heap s !! a = Some n -> nodes s !! Node.NodeNum n = Some a.

(** Each node of the map is going to be written, is written, or has nothing
    to write. *)
Definition durable (s : Service) : Prop :=
  forall num a n, nodes s !! num = Some a -> heap s !! a = Some n ->
    PersistNode a ∈ jobs s \/ bare n \/ exists r, rows s !! num = Some r /\ covers r n.

(** The database takes what the jobs give it, and nothing is removed. *)
Fixpoint calm (textOK : string -> bool) (out : spec_float -> Z) (es : list event) (s : Service) : Prop :=
  match es with
  | [] => True
  | e :: es =>
      match e with
      | Call _ c => removes c = false
      | Job i accepted =>
          accepted = true /\
          forall a n, jobs s !! i = Some (PersistNode a) -> heap s !! a = Some n -> storable textOK n = true
      | Delete _ => False
      end /\ calm textOK out es (exec textOK out e s)
  end.

(** ** Rows *)
Lemma coalesce_idem {A} (a b : option A) : coalesce a (coalesce a b) = coalesce a b.
Proof. by destruct a. Qed.
Lemma unlessEmpty_idem a b : unlessEmpty a (unlessEmpty a b) = unlessEmpty a b.
Proof. unfold unlessEmpty. by destruct (same a ""). Qed.

Lemma mergeRow_idem r old : mergeRow r (mergeRow r old) = mergeRow r old.
Proof. unfold mergeRow. cbn. by rewrite !coalesce_idem, !unlessEmpty_idem. Qed.

Lemma covers_merge n old : covers (mergeRow (rowOf n) old) n.
Proof. unfold covers. by rewrite mergeRow_idem. Qed.

Lemma labels_mergeRow r r' old : labels r = labels r' -> labels (mergeRow r old) = labels (mergeRow r' old).
Proof. unfold labels. cbn. by intros [= -> -> -> -> -> -> -> -> -> -> -> -> -> -> -> ->]. Qed.

Lemma covers_quiet r m n : quiet m n -> covers r m -> covers r n.
Proof. unfold quiet, covers. intros Hq Hc. by rewrite (labels_mergeRow _ _ r Hq). Qed.

Lemma bare_quiet m n : quiet m n -> bare m -> bare n.
Proof. unfold quiet, bare. congruence. Qed.

Lemma quiet_refl n : quiet n n.
Proof. done. Qed.
Lemma quiet_trans l m n : quiet l m -> quiet m n -> quiet l n.
Proof. unfold quiet. congruence. Qed.
#[local] Hint Resolve quiet_refl quiet_trans : core.

Lemma quiet_withPosition p n : quiet n (withPosition p n).
Proof. unfold withPosition. by destruct (_ >? _). Qed.

Lemma quiet_unchanged out now lat lon data n n' :
  beaten out now lat lon data n = (n', false) -> quiet n n'.
Proof.
  unfold beaten, beatPosition, beatTemperature, beatBattery. destruct (_ || _);
    (destruct (temperatureC data) as [v|]; [destruct (isZero64 v)|]);
    (destruct (battery data) as [b|]; [destruct (float_lt _ _); [destruct (_ =? _)|]|]); by intros [= <-].
Qed.

(** ** Calls *)
Record dstep (s s' : Service) : Prop := {
  ds_jobs : forall j, j ∈ jobs s -> j ∈ jobs s';
  ds_rows : rows s' = rows s;
  ds_full : full s -> full s';
  ds_nodes : forall num a n', nodes s' !! num = Some a -> heap s' !! a = Some n' ->
    PersistNode a ∈ jobs s' \/ bare n' \/
    exists n, nodes s !! num = Some a /\ heap s !! a = Some n /\ quiet n n'
}.

Lemma dstep_refl s : dstep s s.
Proof. split; eauto 10. Qed.

Lemma dstep_trans s s1 s2 : dstep s s1 -> dstep s1 s2 -> dstep s s2.
Proof.
  intros [J1 R1 F1 N1] [J2 R2 F2 N2]. split; [by auto|congruence|by auto|].
  intros num a n' Ha Hn. destruct (N2 _ _ _ Ha Hn) as [H|[H|(n & Hb & Hm & Hq)]]; [by left|by right; left|].
  destruct (N1 _ _ _ Hb Hm) as [H|[H|(l & Hc & Hl & Hq')]]; [by left; auto|..].
  - right; left. by eapply bare_quiet.
  - right; right. eauto.
Qed.

Lemma durable_dstep s s' : durable s -> dstep s s' -> durable s'.
Proof.
  intros Hd [J R F N] num a n' Ha Hn. rewrite R.
  destruct (N _ _ _ Ha Hn) as [H|[H|(n & Hb & Hm & Hq)]]; [by left|by right; left|].
  destruct (Hd _ _ _ Hb Hm) as [H|[H|(r & Hr & Hc)]]; [by left; auto|right; left|right; right].
  - by eapply bare_quiet.
  - exists r. split; [done|]. by eapply covers_quiet.
Qed.

Lemma dstep_Broadcast e s s1 : dstep s s1 -> dstep s (Broadcast e s1).
Proof.
  destruct (Broadcast_frame e s1) as (E1 & E2 & E3 & E4 & E5). intros [J R F N].
  unfold full in *. split; rewrite ?E1, ?E2, ?E4, ?E5; unfold full; rewrite ?E1, ?E2; done.
Qed.

Lemma dstep_go j s s1 : dstep s s1 -> dstep s (go j s1).
Proof.
  intros [J R F N]. split; cbn; [|done|done|].
  - intros j' Hj. apply elem_of_app. left. by apply J.
  - intros num a n' Ha Hn. destruct (N _ _ _ Ha Hn) as [H|H]; [left; apply elem_of_app; by left|by right].
Qed.

Lemma full_store a n n' s :
  full s -> heap s !! a = Some n -> Node.NodeNum n' = Node.NodeNum n -> full (store a n' s).
Proof.
  intros Hf Ha Hn b m. cbn. destruct (decide (b = a)) as [->|Hne].
  - rewrite lookup_insert_eq. intros [= <-]. rewrite Hn. by apply Hf.
  - rewrite lookup_insert_ne by done. apply Hf.
Qed.

Lemma dstep_store a n n' s :
  heap s !! a = Some n -> Node.NodeNum n' = Node.NodeNum n -> quiet n n' -> dstep s (store a n' s).
Proof.
  intros Ha Hn Hq. split; [done|done|by intros; eapply full_store|]. cbn. intros num b m Hb.
  destruct (decide (b = a)) as [->|Hne].
  - rewrite lookup_insert_eq. intros [= <-]. right; right. eauto.
  - rewrite lookup_insert_ne by done. right; right. eauto.
Qed.

Lemma dstep_written a n n' s s' :
  heap s !! a = Some n -> Node.NodeNum n' = Node.NodeNum n ->
  nodes s' = nodes s -> heap s' = <[a := n']> (heap s) -> rows s' = rows s ->
  jobs s' = jobs s ++ [PersistNode a] -> dstep s s'.
Proof.
  intros Ha Hn E1 E2 E3 E4. split; [|done| |].
  - rewrite E4. intros j Hj. apply elem_of_app. by left.
  - intros Hf. pose proof (full_store a n n' s Hf Ha Hn) as Hf'. unfold full in *. rewrite E1, E2. exact Hf'.
  - rewrite E1, E2, E4. intros num b m Hb. destruct (decide (b = a)) as [->|Hne].
    + intros _. left. apply elem_of_app. right. by apply list_elem_of_singleton.
    + rewrite lookup_insert_ne by done. right; right. eauto.
Qed.

Lemma dstep_update a n n' s :
  heap s !! a = Some n -> Node.NodeNum n' = Node.NodeNum n -> dstep s (update a n' s).
Proof.
  intros Ha Hn. unfold update. destruct (Broadcast_frame (NodeUpdate n') (store a n' s)) as (E1 & E2 & E3 & E4 & E5).
  apply (dstep_written a n n'); [done|done|..]; cbn; by rewrite ?E1, ?E2, ?E4, ?E5.
Qed.

Lemma dstep_alloc num n s :
  ok s -> nodes s !! num = None -> Node.NodeNum n = num -> bare n -> dstep s (alloc num n s).2.
Proof.
  intros [H1 H2 H3] Hnone Hn Hb. split; [done|done|..]; cbn.
  - intros Hf b m. cbn. destruct (decide (b = next s)) as [->|Hne].
    + rewrite lookup_insert_eq. intros [= <-]. rewrite Hn. apply lookup_insert_eq.
    + rewrite lookup_insert_ne by done. intros Hm. rewrite lookup_insert_ne; [by apply Hf|].
      intros E. specialize (Hf _ _ Hm). congruence.
  - intros num' b m Hb' Hm. destruct (decide (b = next s)) as [->|Hne].
    + rewrite lookup_insert_eq in Hm. injection Hm as <-. right; by left.
    + rewrite lookup_insert_ne in Hm by done. right; right.
      destruct (decide (num' = num)) as [->|Hne']; [rewrite lookup_insert_eq in Hb'; congruence|].
      rewrite lookup_insert_ne in Hb' by done. eauto.
Qed.

Lemma dstep_obtain num s k :
  ok s -> (forall a s1 n, heap s1 !! a = Some n -> dstep s1 (k a s1 n)) ->
  dstep s (let '(a, s1) := obtain num s in withNode a s1 (k a s1)).
Proof.
  intros Hs Hk. destruct (obtain num s) as [a s1] eqn:E.
  destruct (obtain_spec _ _ _ _ Hs E) as (_ & _ & n & Hn & _).
  apply (dstep_trans s s1).
  - unfold obtain in E. destruct (nodes s !! num) eqn:En.
    + injection E as <- <-. apply dstep_refl.
    + assert (s1 = (alloc num (Node.fresh num) s).2) as -> by by rewrite E. by apply dstep_alloc.
  - unfold withNode, nodeAt. rewrite Hn. by apply Hk.
Qed.

Lemma dstep_obtain_update num s f :
  ok s -> (forall n, Node.NodeNum (f n) = Node.NodeNum n) ->
  dstep s (let '(a, s1) := obtain num s in withNode a s1 (fun n => update a (f n) s1)).
Proof.
  intros Hs Hf. apply (dstep_obtain num s (fun a s1 n => update a (f n) s1)); [done|].
  intros a s1 n Hn. by eapply dstep_update.
Qed.

Lemma dstep_known num s k :
  (forall a n, heap s !! a = Some n -> dstep s (k a n)) ->
  dstep s (match nodes s !! num with Some a => withNode a s (k a) | None => s end).
Proof.
  intros Hk. destruct (nodes s !! num) as [a|]; [|apply dstep_refl].
  unfold withNode, nodeAt. destruct (heap s !! a) eqn:E; [by apply Hk|apply dstep_refl].
Qed.

Lemma dstep_TouchNode now num snr rssi s : ok s -> dstep s (TouchNode now num snr rssi s).
Proof.
  intros Hs. unfold TouchNode. destruct (nodes s !! num) as [a|] eqn:E.
  - unfold withNode, nodeAt. destruct (heap s !! a) eqn:E2; [by eapply dstep_store|apply dstep_refl].
  - set (n := Node.set_IsOnline true _). cbn [alloc].
    pose proof (dstep_alloc num n s Hs E eq_refl eq_refl) as H1. cbn [alloc snd] in H1.
    apply (dstep_Broadcast (NodeUpdate n)) in H1. eapply dstep_trans; [exact H1|].
    unfold withNode, nodeAt. destruct (_ !! next s) eqn:E2; [by eapply dstep_store|apply dstep_refl].
Qed.

Lemma dstep_GetAll now s : dstep s (GetAll now s).2.
Proof.
  assert (forall a n', heap (GetAll now s).2 !! a = Some n' ->
            exists n, heap s !! a = Some n /\ Node.NodeNum n' = Node.NodeNum n /\ quiet n n') as Hh.
  { intros a n'. cbn. rewrite refreshAll_heap. destruct (decide _); [|by eauto].
    destruct (heap s !! a) as [n|]; [|done]. intros [= <-]. by exists n. }
  split; [done|done| |].
  - intros Hf a n' Ha. destruct (Hh _ _ Ha) as (n & Hn & -> & _). by apply Hf.
  - intros num a n' Hb Ha. destruct (Hh _ _ Ha) as (n & Hn & _ & Hq). right; right. by exists n.
Qed.

Lemma dstep_invoke out now c s : ok s -> removes c = false -> dstep s (invoke out now c s).
Proof.
  intros Hs Hr. destruct c; cbn [invoke]; try done.
  - by apply dstep_TouchNode.
  - apply dstep_known. intros a n Hn. by eapply (dstep_written a n (markedLocal n)).
  - apply dstep_known. intros a n Hn. destruct (classified nodeType n) eqn:E; [|apply dstep_refl].
    eapply dstep_update; [done|]. unfold classified in E. by repeat case_match; simplify_eq.
  - unfold UpdateLongName. destruct (nodes s !! num) as [a|]; [|apply dstep_refl].
    unfold withNode, nodeAt. destruct (heap s !! a) eqn:E; [by eapply dstep_update|apply dstep_refl].
  - apply (dstep_obtain_update _ s (informed now info)); [done|apply informed_num].
  - by apply (dstep_obtain_update from s (measured now metrics)).
  - by apply (dstep_obtain_update from s (sensed now env)).
  - unfold SetFirmwareVersion. destruct (same firmware ""); [apply dstep_refl|]. apply dstep_known.
    intros a n Hn. destruct (same _ _); [apply dstep_refl|by eapply dstep_update].
  - apply (dstep_obtain from s (fun a s1 n => let '(n', changed) := beaten out now lat lon data n in
      if changed : bool then update a n' s1 else store a n' s1)); [done|].
    intros a s1 n Hn. pose proof (keeps_beaten out now lat lon data n) as [Hk _].
    destruct (beaten out now lat lon data n) as [n' []] eqn:E; [by eapply dstep_update|].
    eapply dstep_store; [done|done|by eapply quiet_unchanged].
  - unfold SetSensorShortID. destruct (same shortID ""); [apply dstep_refl|].
    apply (dstep_obtain from s (fun a s1 n => if same (Node.SensorShortID n) shortID then s1
      else update a (Node.set_SensorShortID shortID n) s1)); [done|].
    intros a s1 n Hn. destruct (same _ _); [apply dstep_refl|by eapply dstep_update].
  - unfold SetLastMessage. destruct (same msg ""); [apply dstep_refl|].
    by apply (dstep_obtain_update from s (fun n => heard now (Node.set_LastMessage msg n))).
  - apply (dstep_obtain from s (fun a s1 n => go (PersistPosition a) (Broadcast (NodePosition from
      (Node.Latitude (located now pos n)) (Node.Longitude (located now pos n)) (Node.Altitude (located now pos n)))
      (store a (located now pos n) s1)))); [done|].
    intros a s1 n Hn. apply dstep_go, dstep_Broadcast. eapply dstep_store; [done|apply keeps_withPosition|].
    apply (quiet_trans _ (withPosition pos n)); [apply quiet_withPosition|done].
  - apply dstep_GetAll.
Qed.

(** ** Jobs *)
Lemma durable_job textOK s i :
  ok s -> full s -> durable s ->
  (forall a n, jobs s !! i = Some (PersistNode a) -> heap s !! a = Some n -> storable textOK n = true) ->
  durable (RunJob textOK i true s).
Proof.
  intros Hs Hf Hd Hst. destruct (jobs s !! i) as [j|] eqn:Ej; [|by unfold RunJob; rewrite Ej].
  destruct (RunJob_frame textOK i true s) as (E1 & E2 & _ & _).
  assert (jobs (RunJob textOK i true s) = delete i (jobs s)) as Ejobs.
  { unfold RunJob. rewrite Ej. by destruct (runJob_frame textOK true j (set_jobs (delete i (jobs s)) s)) as (_ & _ & _ & ->). }
  assert (forall num a n, nodes s !! num = Some a -> heap s !! a = Some n -> j <> PersistNode a ->
    PersistNode a ∈ jobs s -> PersistNode a ∈ delete i (jobs s)) as Hother.
  { intros num a n Ha Hn Hne [k Hk]%list_elem_of_lookup.
    apply (elem_of_delete_other (jobs s) i k (PersistNode a)); [done|]. intros ->. congruence. }
  destruct j as [a|a].
  - destruct (ok_jobs _ Hs (PersistNode a)) as [n Hn]; [by eapply list_elem_of_lookup_2|]. cbn in Hn.
    specialize (Hst a n eq_refl Hn). unfold durable. rewrite E1, E2, Ejobs, (RunJob_persist textOK i a n s Ej Hn Hst).
    intros num b m Hb Hm. destruct (decide (b = a)) as [->|Hne].
    + right; right. destruct (ok_nodes _ Hs _ _ Hb) as (m' & Hm' & Hnum). assert (m = n) as -> by congruence.
      assert (m' = n) as -> by congruence. rewrite Hnum, upsert_lookup. eexists. split; [done|apply covers_merge].
    + destruct (Hd _ _ _ Hb Hm) as [H|[H|(r & Hr & Hc)]].
      * left. eapply Hother; [done|done|congruence|done].
      * by right; left.
      * right; right. exists r. split; [|done]. unfold upsert. rewrite lookup_insert_ne; [done|].
        intros <-. apply Hne. rewrite (Hf _ _ Hn) in Hb. congruence.
  - unfold durable. rewrite E1, E2, Ejobs. intros num b m Hb Hm.
    assert (rows (RunJob textOK i true s) = rows s) as ->.
    { unfold RunJob, runJob, withNode, persistPosition. rewrite Ej. repeat case_match; done. }
    destruct (Hd _ _ _ Hb Hm) as [H|H]; [left|by right]. eapply Hother; [done|done|done|done].
Qed.

Lemma calm_run textOK out es s :
  ok s -> full s -> durable s -> calm textOK out es s -> durable (run textOK out es s).
Proof.
  revert s. induction es as [|e es IH]; intros s Hs Hf Hd; cbn [calm run]; [done|]. intros [He Hc].
  apply IH; [by apply ok_exec|..|done]; destruct e as [now c|i b|b]; cbn [exec] in *; try done.
  - by apply (ds_full s), Hf; apply dstep_invoke.
  - destruct (RunJob_frame textOK i b s) as (E1 & E2 & _). unfold full. rewrite E1, E2. exact Hf.
  - eapply durable_dstep; [done|]. by apply dstep_invoke.
  - destruct He as [-> Hst]. by apply durable_job.
Qed.


