(* ===== verification/MeshNodes.v ===== *)
(** The packet dispatcher with the node service as its node handler, as
    [cmd/diginode-cc/main.go] wires them: the calls [HandlePacket] makes on
    its [NodeHandler] are methods of [Nodes.v]. *)
From Stdlib Require Import Floats.SpecFloat.
From S2P Require Import Prelude GoStrings Varint Messages FromRadio MeshPayload Classify Dispatcher GoFloat GoFloat32 NodeData Nodes.

(** ** Definitions *)
Definition nodeCall (a : action) : option call :=
  match a with
  | Dispatcher.TouchNode num snr rssi => Some (CTouchNode num snr rssi)
  | Dispatcher.ClassifyNode num t => Some (CClassifyNode num t)
  | Dispatcher.MarkLocal num => Some (CMarkLocal num)
  | Dispatcher.SetFirmwareVersion num f => Some (CSetFirmwareVersion num f)
  | Dispatcher.HandleNodeInfo info => Some (CHandleNodeInfo info)
  | Dispatcher.SetLastMessage num m => Some (CSetLastMessage num m)
  | Dispatcher.SetSensorShortID num i => Some (CSetSensorShortID num i)
  | Dispatcher.HandlePosition from p => Some (CHandlePosition from p)
  | Dispatcher.HandleTelemetry from m => Some (CHandleTelemetry from m)
  | Dispatcher.HandleEnvironment from e => Some (CHandleEnvironment from e)
  | _ => None
  end.

(** The service after the actions of one packet. *)
Definition serve (out : spec_float -> Z) (now : Z) (acts : list action) (s : Service) : Service :=
  foldl (fun s c => invoke out now c s) s (omap nodeCall acts).

(** One packet through both; [GetLongName] is answered by the service. *)
Definition HandleMesh `{Unicode} (out : spec_float -> Z) (fuel : nat) (w : wiring) (now : Z)
    (pkt : FromRadioPacket.t) (ds : Dispatcher * Service) : outcome (Dispatcher * Service) :=
  let! r := HandlePacket fuel w (fun num => GetLongName num ds.2) now pkt ds.1 in
  Ret (r.1, serve out now r.2 ds.2).

(** [handleListNodes]: the JSON encoder fails as a whole when one node does
    not marshal, and the client gets an empty body. *)
Definition listNodes (now : Z) (s : Service) : option (list Node.t) :=
  let l := (GetAll now s).1 in if forallb marshals l then Some l else None.

(** ** Lemmas *)
Lemma serve_app out now a b s : serve out now (a ++ b) s = serve out now b (serve out now a s).
Proof. unfold serve. by rewrite omap_app, foldl_app. Qed.

Lemma ok_serve out now acts s : ok s -> ok (serve out now acts s).
Proof.
  unfold serve. revert s. induction (omap nodeCall acts) as [|c l IH]; intros s Hs; [done|].
  cbn [foldl]. by apply IH, ok_invoke.
Qed.

Lemma nodeCall_keeps a c : nodeCall a = Some c -> removes c = false.
Proof. by destruct a; intros [= <-]. Qed.

(** A preorder that every non-removing call allows is kept by a packet. *)
Lemma step_serve (P : Z -> Node.t -> Node.t -> Prop) out now acts s :
  (forall num n, P num n n) -> (forall num l m n, P num l m -> P num m n -> P num l n) ->
  (forall c, removes c = false -> allows out P now c) -> ok s -> step P s (serve out now acts s).
Proof.
  intros Pr Pt Pc. unfold serve.
  assert (Forall (fun c => removes c = false) (omap nodeCall acts)) as Hf.
  { apply Forall_forall. intros c. rewrite list_elem_of_omap. intros (a & _ & Ha). by eapply nodeCall_keeps. }
  revert s. induction Hf as [|c l Hc Hf IH]; intros s Hs; [by apply step_refl|]. cbn [foldl].
  apply (step_trans P s (invoke out now c s)); [done| |by apply IH, ok_invoke].
  apply step_invoke; auto.
Qed.

(** *** One node that does not marshal *)
Lemma marshals_refresh now n : marshals (refresh now n) = marshals n.
Proof. done. Qed.

Lemma listNodes_blank now s num n :
  ok s -> GetByNodeNum num s = Some n -> marshals n = false -> listNodes now s = None.
Proof.
  intros Hs Hn Hm. unfold listNodes. destruct (forallb marshals _) eqn:E; [|done].
  rewrite forallb_forall in E. specialize (E (refresh now n)). rewrite marshals_refresh in E.
  rewrite E in Hm; [done|]. apply list_elem_of_In, GetAll_elem; [done|]. eauto.
Qed.

Lemma GetByNodeNum_update a n s num :
  nodes s !! num = Some a -> GetByNodeNum num (update a n s) = Some n.
Proof.
  intros Ha. unfold update, go. unfold GetByNodeNum, nodeAt. cbn [set_jobs nodes heap].
  destruct (Broadcast_frame (NodeUpdate n) (store a n s)) as (-> & -> & _).
  unfold store, set_heap. cbn [nodes heap]. rewrite Ha. apply lookup_insert_eq.
Qed.

Lemma GetByNodeNum_telemetry now num m s :
  ok s -> exists n, GetByNodeNum num (Nodes.HandleTelemetry now num m s) = Some (measured now m n).
Proof.
  intros Hs. unfold Nodes.HandleTelemetry. destruct (obtain num s) as [a s1] eqn:E.
  destruct (obtain_spec _ _ _ _ Hs E) as (_ & Ha & n & Hn & _). exists n. unfold withNode, nodeAt.
  rewrite Hn. by apply GetByNodeNum_update.
Qed.

Lemma measured_voltage now m n : Node.Voltage (measured now m n) = DeviceMetrics.Voltage m.
Proof. reflexivity. Qed.

Lemma nan_not_marshals n : isNaN32 (Node.Voltage n) = true -> marshals n = false.
Proof.
  intros Hn. unfold marshals. cbn [forallb]. unfold isNaN32 in Hn. unfold finite32 at 1.
  apply andb_true_iff in Hn as [-> _]. cbn. by rewrite andb_false_r.
Qed.

(** A telemetry payload of seven bytes: device metrics with only a voltage,
    which is a NaN. *)
Definition nanVoltage : bytes := map byte_of_Z [0x12; 0x05; 0x15; 0x00; 0x00; 0xC0; 0x7F].
Definition nanMetrics : DeviceMetrics.t := DeviceMetrics.set_Voltage 0x7FC00000 DeviceMetrics.zero.

Lemma decode_nanVoltage k : decodeTelemetryPayload (S (S (S k))) nanVoltage = Ret (Some nanMetrics, None).
Proof. vm_compute. reflexivity. Qed.

(** ** One packet blanks the node list *)
Definition meshPkt (mp : MeshPacketData.t) : FromRadioPacket.t :=
  FromRadioPacket.mk FromRadioMeshPacket [] None None (Some mp) None None.

(** A telemetry packet that is not a duplicate ends in [HandleTelemetry]. *)
Lemma HandlePacket_telemetry `{Unicode} k w names now mp d :
  nodeHandler w = true -> MeshPacketData.PortNum mp = PortNumTelemetry ->
  MeshPacketData.Payload mp = nanVoltage -> (isDuplicate (dedup d) mp now).1 = false ->
  exists d' first, HandlePacket (S (S (S k))) w names now (meshPkt mp) d =
    Ret (d', first ++ [Dispatcher.HandleTelemetry (MeshPacketData.From mp) nanMetrics]).
Proof.
  intros Hw Hp Hpl Hdup. unfold HandlePacket, meshPkt. cbn [FromRadioPacket.Type_ FromRadioPacket.MeshPacket].
  unfold handleMeshPacket. destruct (isDuplicate (dedup d) mp now) as [dup m]. cbn in Hdup. subst dup.
  rewrite Hp. change (PortNumTelemetry =? PortNumTextMessage) with false.
  change (PortNumTelemetry =? PortNumPosition) with false. change (PortNumTelemetry =? PortNumTelemetry) with true.
  cbn iota. unfold handleTelemetry. rewrite Hpl, decode_nanVoltage.
  change (zlen nanVoltage >? 0) with true. cbn [obind fst snd]. rewrite Hw. cbn [when app].
  eexists _, _. reflexivity.
Qed.

Lemma overlay_nan n o : isNaN32 (Node.Voltage n) = true -> isNaN32 (Node.Voltage (overlay n o)) = true.
Proof.
  intros Hn. cbn [overlay Node.Voltage]. unfold canonical. rewrite Hn.
  replace (isZero32 (Node.Voltage n)) with false; [by vm_compute|].
  unfold isNaN32, isZero32 in *. destruct (expo32 _ =? 0) eqn:E; [|done].
  apply Z.eqb_eq in E. rewrite E in Hn. done.
Qed.


(** ** The local node *)
Definition myInfoPkt (num : Z) : FromRadioPacket.t :=
  FromRadioPacket.mk FromRadioMyInfo [] (Some (MyNodeInfo.set_MyNodeNum num MyNodeInfo.zero)) None None None None.

Definition staysLocal (num : Z) (m n : Node.t) : Prop := Node.IsLocal m = true -> Node.IsLocal n = true.

Lemma informed_local now info n : Node.IsLocal (informed now info n) = Node.IsLocal n.
Proof.
  unfold informed, named, onOption, withPosition. repeat case_match; reflexivity.
Qed.

Lemma beaten_local out now lat lon data n : Node.IsLocal (beaten out now lat lon data n).1 = Node.IsLocal n.
Proof.
  unfold beaten, beatPosition, beatTemperature, beatBattery. repeat case_match; simplify_eq; reflexivity.
Qed.

Lemma allows_staysLocal out now c : removes c = false -> allows out staysLocal now c.
Proof.
  unfold staysLocal. destruct c; cbn [allows removes]; intros Hr; try done; intros.
  - revert H. unfold classified. repeat case_match; try done. by intros [= <-].
  - by rewrite informed_local.
  - by rewrite beaten_local.
  - unfold located, withPosition. by destruct (_ >? _).
Qed.

Definition local (num : Z) (s : Service) : Prop :=
  exists n, GetByNodeNum num s = Some n /\ Node.IsLocal n = true /\ Node.NodeNum n = num.

Lemma local_step s s' num : ok s -> local num s -> step staysLocal s s' -> local num s'.
Proof.
  intros Hs (n & Hn & Hl & Hnum) [Hs' He]. destruct (He _ _ Hn) as (n' & Hn' & HP).
  exists n'. split; [done|]. split; [by apply HP|by eapply GetByNodeNum_num].
Qed.

Lemma MarkLocal_local num s n : GetByNodeNum num s = Some n -> ok s -> local num (Nodes.MarkLocal num s).
Proof.
  unfold GetByNodeNum, nodeAt. destruct (nodes s !! num) as [a|] eqn:Ea; [|done]. intros Hn Hs.
  assert (Node.NodeNum n = num) as Hnum.
  { destruct (ok_nodes _ Hs _ _ Ea) as (m & Hm & <-). congruence. }
  unfold Nodes.MarkLocal. rewrite Ea. unfold withNode, nodeAt. rewrite Hn.
  exists (markedLocal n). split; [|by split]. unfold GetByNodeNum, nodeAt. cbn [go set_jobs store set_heap nodes heap].
  by rewrite Ea, lookup_insert_eq.
Qed.

Lemma TouchNode_known now num snr rssi s :
  ok s -> exists n, GetByNodeNum num (Nodes.TouchNode now num snr rssi s) = Some n.
Proof.
  intros Hs. unfold Nodes.TouchNode. destruct (nodes s !! num) as [a|] eqn:E.
  - destruct (ok_nodes _ Hs _ _ E) as (n & Hn & _). unfold withNode, nodeAt. rewrite Hn.
    unfold GetByNodeNum, nodeAt. cbn. rewrite E, lookup_insert_eq. eauto.
  - cbn [alloc]. set (n := Node.set_IsOnline true _). unfold withNode, nodeAt.
    match goal with |- context [Broadcast ?e ?x] => destruct (Broadcast_frame e x) as (E1 & E2 & _) end.
    rewrite E2. cbn [heap]. rewrite lookup_insert_eq. unfold GetByNodeNum, nodeAt, store, set_heap. cbn [nodes heap].
    rewrite E1. cbn [nodes]. rewrite !lookup_insert_eq. eauto.
Qed.

(** The MyInfo packet of the radio makes its node the local one. *)
Lemma myInfo_local `{Unicode} out fuel w now num d s :
  ok s -> nodeHandler w = true -> num <> 0 ->
  exists d' s', HandleMesh out fuel w now (myInfoPkt num) (d, s) = Ret (d', s') /\
    localNodeNum d' = num /\ step staysLocal s s' /\ local num s'.
Proof.
  intros Hs Hw Hnum. unfold HandleMesh, HandlePacket, myInfoPkt, handleMyInfo.
  cbn [FromRadioPacket.Type_ FromRadioPacket.MyInfo MyNodeInfo.MyNodeNum MyNodeInfo.set_MyNodeNum fst snd obind].
  apply Z.eqb_neq in Hnum. rewrite Hnum, Hw. cbn [negb andb when].
  eexists _, _. split; [reflexivity|]. split; [done|].
  assert (forall acts, step staysLocal s (serve out now acts s)) as Hstep.
  { intros acts. apply step_serve; unfold staysLocal; auto. intros c Hc. by apply allows_staysLocal. }
  split; [apply Hstep|]. set (fw := reportFirmware _ _). set (time := when (onDeviceTime w) _).
  rewrite serve_app. set (s0 := serve out now time s). assert (ok s0) as Hs0 by by apply ok_serve.
  change (local num (serve out now fw (Nodes.MarkLocal num (Nodes.ClassifyNode num "gotailme"
    (Nodes.TouchNode now num 0 0 s0))))).
  assert (ok (Nodes.TouchNode now num 0 0 s0)) as Hs1 by by apply (ok_invoke out now (CTouchNode num 0 0)).
  destruct (TouchNode_known now num 0 0 s0 Hs0) as [n Hn].
  assert (exists n', GetByNodeNum num (Nodes.ClassifyNode num "gotailme" (Nodes.TouchNode now num 0 0 s0)) = Some n') as [n' Hn'].
  { destruct (step_ClassifyNode (fun _ _ _ => True) ltac:(done) num "gotailme" _ Hs1 ltac:(done)) as [_ He].
    destruct (He _ _ Hn) as (n' & ? & _). eauto. }
  assert (ok (Nodes.ClassifyNode num "gotailme" (Nodes.TouchNode now num 0 0 s0))) as Hs2.
  { by apply (ok_invoke out now (CClassifyNode num "gotailme")). }
  pose proof (MarkLocal_local _ _ _ Hn' Hs2) as Hl.
  eapply local_step; [|exact Hl|]; [by apply (ok_invoke out now (CMarkLocal num))|].
  apply step_serve; unfold staysLocal; auto.
  - intros c Hc. by apply allows_staysLocal.
  - by apply (ok_invoke out now (CMarkLocal num)).
Qed.

Definition keepsNodes (e : event) : bool := match e with Call _ c => negb (removes c) | _ => true end.

Lemma local_run textOK out es num s :
  ok s -> Forall (fun e => keepsNodes e = true) es -> local num s -> local num (run textOK out es s).
Proof.
  intros Hs Hf Hl. apply (local_step s); [done|done|]. apply step_run; unfold staysLocal; auto.
  eapply Forall_impl; [exact Hf|]. intros e He now c ->. cbn in He. apply negb_true_iff in He.
  by apply allows_staysLocal.
Qed.

Lemma GetLocalNodeNum_head num l s : local num s -> GetLocalNodeNum (num :: l) s = num.
Proof. intros (n & Hn & Hl & Hnum). unfold GetLocalNodeNum. cbn. by rewrite Hn, Hl. Qed.

(** The radio's first message makes its node the local one, and it stays
    so whatever happens to the service short of a removal; the flag is never
    cleared, so after a change of the radio both nodes are local and what
    [GetLocalNodeNum] answers depends on the order of a map range. *)
Theorem local_flag_never_cleared `{Unicode} textOK out fuel w now1 now2 a b d s es1 es2 :
  ok s -> nodeHandler w = true -> a <> 0 -> b <> 0 ->
  Forall (fun e => keepsNodes e = true) es1 -> Forall (fun e => keepsNodes e = true) es2 ->
  exists d1 s1, HandleMesh out fuel w now1 (myInfoPkt a) (d, s) = Ret (d1, s1) /\
    (forall l, GetLocalNodeNum (a :: l) (run textOK out es1 s1) = a) /\
    forall d2 s2, HandleMesh out fuel w now2 (myInfoPkt b) (d1, run textOK out es1 s1) = Ret (d2, s2) ->
      localNodeNum d2 = b /\
      forall l, GetLocalNodeNum (a :: l) (run textOK out es2 s2) = a /\
                GetLocalNodeNum (b :: l) (run textOK out es2 s2) = b.
Proof.
  intros Hs Hw Ha Hb Hf1 Hf2. destruct (myInfo_local out fuel w now1 a d s Hs Hw Ha) as (d1 & s1 & E1 & _ & [Hs1 _] & Hl1).
  pose proof (local_run textOK out es1 a s1 Hs1 Hf1 Hl1) as Hl1'. pose proof (ok_run out textOK es1 s1 Hs1) as Hs1'.
  exists d1, s1. split; [exact E1|]. split; [by intros; apply GetLocalNodeNum_head|]. intros d2 s2 E2.
  destruct (myInfo_local out fuel w now2 b d1 _ Hs1' Hw Hb) as (d2' & s2' & E2' & Hd & Hst & Hl2).
  rewrite E2 in E2'. injection E2' as <- <-. split; [exact Hd|].
  pose proof (local_step _ _ a Hs1' Hl1' Hst) as Hla. destruct Hst as [Hs2 _].
  intros l. split; apply GetLocalNodeNum_head; by apply local_run.
Qed.

(** ** Witnesses *)
Definition nanPacket : MeshPacketData.t :=
  MeshPacketData.set_Payload nanVoltage
    (MeshPacketData.set_PortNum PortNumTelemetry (MeshPacketData.set_From 9 MeshPacketData.zero)).


Lemma local_flag_never_cleared_witness :
  exists d1 s1, @HandleMesh asciiUnicode noRange 3 allWired 5 (myInfoPkt 1) (NewDispatcher, emptyService) = Ret (d1, s1) /\
    GetLocalNodeNum [1] s1 = 1.
Proof.
  destruct (@local_flag_never_cleared asciiUnicode anyText noRange 3 allWired 5 6 1 2 NewDispatcher emptyService [] []
    (NewService_ok _ _) eq_refl ltac:(discriminate) ltac:(discriminate) (Forall_nil_2 _) (Forall_nil_2 _))
    as (d1 & s1 & E & Hl & _).
  exists d1, s1. split; [exact E|exact (Hl [])].
Defined.
