(* ===== verification/FleetStore.v ===== *)
(** The tables of fleet security and the statements on them:
    [internal/fleetsec/types.go], [store.go], [recovery_store.go] and the pure
    parts of [keys.go].

    [Tables] holds the rows; every method of [Store] is one statement, or one
    transaction, that takes the verdict [fault] of the database (an error
    text, and then nothing changes) and the database clock [now].  Columns
    that may be NULL are options; what [COALESCE] and [NULLIF] make of them is
    written out.  The constraints of the schema that a statement can violate
    (foreign keys, unique columns, the slot range) are part of it. *)
From stdpp Require Import sorting.
From S2P Require Import Prelude GoStrings.

(** ** Errors

    [fmt.Errorf] wraps: [EWrap pre e post]; [errors.Is] looks through it. *)
Inductive ferr : Type :=
| EMsg (s : string)
| ErrNotFound
| ErrLocalNodeUnknown
| ErrSerialNotReady
| ErrLockoutPrevented
| ErrManagedLockdownPrevented
| ErrInvalidAck
| ErrChannelHashCollision
| EWrap (pre : string) (e : ferr) (post : string).

#[export] Instance ferr_eq_dec : EqDecision ferr.
Proof. solve_decision. Defined.

Fixpoint Is (e target : ferr) : bool :=
  bool_decide (e = target) ||
  match e with EWrap _ e' _ => Is e' target | _ => false end.

(** [err.Error()]. *)
Fixpoint Error (e : ferr) : string :=
  match e with
  | EMsg s => s
  | ErrNotFound => "fleetsec: not found"
  | ErrLocalNodeUnknown =>
      "local Heltec node number not yet known; wait for serial connection to settle"
  | ErrSerialNotReady => "serial connection to Heltec not ready"
  | ErrLockoutPrevented =>
      "operation refused: would remove all known admin pubkeys (use force flag with explicit acknowledgement)"
  | ErrManagedLockdownPrevented =>
      "operation refused: cannot enable is_managed without recent successful verify (use force flag with explicit acknowledgement)"
  | ErrInvalidAck => "operation requires typed acknowledgement"
  | ErrChannelHashCollision => "PSK channel hash collides with an active channel slot"
  | EWrap pre e' post => pre +:+ Error e' +:+ post
  end.

(** A Go pair (value, error) of which one part is used. *)
Abbreviation res A := (A + ferr)%type.

(** ** types.go *)
Inductive IdentityRole : Type :=
| IdentityRolePrimary | IdentityRoleRescue | IdentityRoleOperator | IdentityRoleRevoked.
Inductive IdentitySource : Type :=
| IdentitySourceAutoGenerated | IdentitySourceImported | IdentitySourceRotated.
Inductive VerifyMethod : Type := VerifyMethodLocalUSB | VerifyMethodRemotePKC.
Inductive DriftStatus : Type :=
| DriftStatusUnknown | DriftStatusInPolicy | DriftStatusDrift | DriftStatusUnreachable.
Inductive RotationKind : Type :=
| RotationKindPSK | RotationKindIdentity | RotationKindAdminKeys | RotationKindRecovery.
Inductive TargetStatus : Type :=
| TargetStatusPending | TargetStatusInFlight | TargetStatusAcked | TargetStatusFailed.

(** [PhaseEmpty] is the empty string of targets written without a phase. *)
Inductive RotationPhase : Type :=
| PhaseEmpty
| PhasePending
| PhasePushingB
| PhaseHasNewPSK
| PhasePromotingC
| PhaseOnNewPSK
| PhaseRetired
| PhaseFailedB
| PhaseFailedC.

Inductive PiLocalPhase : Type :=
| PiPhasePending | PiPhaseStagingAdded | PiPhasePhaseDPromoted | PiPhaseRetired.

#[export] Instance IdentityRole_eq_dec : EqDecision IdentityRole.
Proof. solve_decision. Defined.
#[export] Instance VerifyMethod_eq_dec : EqDecision VerifyMethod.
Proof. solve_decision. Defined.
#[export] Instance DriftStatus_eq_dec : EqDecision DriftStatus.
Proof. solve_decision. Defined.
#[export] Instance RotationKind_eq_dec : EqDecision RotationKind.
Proof. solve_decision. Defined.
#[export] Instance TargetStatus_eq_dec : EqDecision TargetStatus.
Proof. solve_decision. Defined.
#[export] Instance RotationPhase_eq_dec : EqDecision RotationPhase.
Proof. solve_decision. Defined.
#[export] Instance PiLocalPhase_eq_dec : EqDecision PiLocalPhase.
Proof. solve_decision. Defined.

Definition statusForPhase (p : RotationPhase) : TargetStatus :=
  match p with
  | PhasePending => TargetStatusPending
  | PhaseOnNewPSK | PhaseRetired => TargetStatusAcked
  | PhaseFailedB | PhaseFailedC => TargetStatusFailed
  | _ => TargetStatusInFlight
  end.

Definition phaseForLegacyStatus (s : TargetStatus) : RotationPhase :=
  match s with
  | TargetStatusPending => PhasePending
  | TargetStatusInFlight => PhasePushingB
  | TargetStatusAcked => PhaseOnNewPSK
  | TargetStatusFailed => PhaseFailedB
  end.

Record IdentityRecord : Type := mkIdentity {
  iID : Z;
  iLabel : string;
  iPublicKey : bytes;
  iFingerprint : string;
  iRole : IdentityRole;
  iSource : IdentitySource;
  iCreatedAt : Z;
  iRevokedAt : option Z;
  iRevokedReason : option string;
  iNotes : option string
}.

(** A row of [nodes], as far as the joins read it. *)
Record NodeRow : Type := mkNode {
  nNodeID : string; nLongName : string; nShortName : string; nSensorShortID : string;
  nLastHeard : option Z; nIsOnline : bool
}.

(** A row of [fleet_node_trust]. *)
Record TrustRow : Type := mkTrust {
  tAdminKeyFPs : list string;
  tIsManaged : bool;
  tLastVerifiedAt : option Z;
  tLastVerifyMethod : option VerifyMethod;
  tLastDriftCheckAt : option Z;
  tDriftStatus : DriftStatus;
  tCurrentPSKFP : option string;
  tPreviousPSKFP : option string;
  tStrandedSince : option Z;
  tRecoveryAttempts : Z;
  tLastRecoveryAt : option Z;
  tLastRecoveryError : option string;
  tNotes : option string
}.

(** The column defaults: a node without a row. *)
Definition noTrust : TrustRow :=
  mkTrust [] false None None None DriftStatusUnknown None None None 0 None None None.

Record NodeTrustRecord : Type := mkRecord {
  NodeNum : Z;
  Node : NodeRow;
  AdminKeyFPs : list string;
  IsManaged : bool;
  LastVerifiedAt : option Z;
  LastVerifyMethod : option VerifyMethod;
  LastDriftCheckAt : option Z;
  RecDriftStatus : DriftStatus;
  CurrentPSKFP : string;
  PreviousPSKFP : string;
  StrandedSince : option Z;
  RecoveryAttempts : Z;
  LastRecoveryAt : option Z;
  LastRecoveryError : string;
  Notes : string
}.

Record RecoveryPSKRecord : Type := mkRecovery {
  rSlot : Z; rFP : string; rPSK : bytes; rPSKHash : Z; rAddedAt : Z; rRotationID : option Z
}.

Definition ChannelRoleDisabled : string := "DISABLED".
Definition ChannelRolePrimary : string := "PRIMARY".
Definition ChannelRoleSecondary : string := "SECONDARY".

(** A row of [fleet_channels]. *)
Record ChannelRow : Type := mkChannel {
  cName : string; cRole : string; cPSKFingerprint : option string; cPSKLength : option Z;
  cLastRotatedAt : option Z; cLastRotatedBy : option string; cLastRotationID : option Z
}.

Record RotationTarget : Type := mkTarget {
  TgtNodeNum : Z; Phase : RotationPhase; Status : TargetStatus; Attempts : Z; LastError : string
}.

Record RotationRecord : Type := mkRotation {
  Kind : RotationKind;
  ChannelIndex : option Z;
  StagingChannelIndex : option Z;
  PiPhase : PiLocalPhase;
  StartedBy : string;
  StartedAt : Z;
  CompletedAt : option Z;
  RetiredAt : option Z;
  Targets : list RotationTarget;
  NewPSKFP : string;
  RotNotes : string;
  new_psk : option bytes
}.

Record FleetPolicy : Type := mkPolicy {
  ExpectedAdminKeyFPs : list string;
  ExpectedIsManaged : bool;
  ExpectedChannels : list (Z * string * string);
  UpdatedAt : Z;
  UpdatedBy : string
}.

Record Tables : Type := mkTables {
  identities : list IdentityRecord;
  nodes : gmap Z NodeRow;
  trust : gmap Z TrustRow;
  channels : gmap Z ChannelRow;
  rotations : gmap Z RotationRecord;
  recovery : gmap Z RecoveryPSKRecord;
  policy : FleetPolicy
}.

Definition set_identities (l : list IdentityRecord) (t : Tables) : Tables :=
  mkTables l (nodes t) (trust t) (channels t) (rotations t) (recovery t) (policy t).
Definition set_trust (m : gmap Z TrustRow) (t : Tables) : Tables :=
  mkTables (identities t) (nodes t) m (channels t) (rotations t) (recovery t) (policy t).
Definition set_channels (m : gmap Z ChannelRow) (t : Tables) : Tables :=
  mkTables (identities t) (nodes t) (trust t) m (rotations t) (recovery t) (policy t).
Definition set_rotations (m : gmap Z RotationRecord) (t : Tables) : Tables :=
  mkTables (identities t) (nodes t) (trust t) (channels t) m (recovery t) (policy t).
Definition set_recovery (m : gmap Z RecoveryPSKRecord) (t : Tables) : Tables :=
  mkTables (identities t) (nodes t) (trust t) (channels t) (rotations t) m (policy t).
Definition set_policy (p : FleetPolicy) (t : Tables) : Tables :=
  mkTables (identities t) (nodes t) (trust t) (channels t) (rotations t) (recovery t) p.

(** ** store.go

    [stmt ctx fault f]: run the statement [f] unless the database fails;
    [ctx] is what the method wraps the failure with. *)
Definition Stmt (A : Type) : Type := Tables -> res A * Tables.

Definition stmt {A} (ctx : string) (fault : option string) (f : Stmt A) : Stmt A :=
  fun t => match fault with
           | Some m => (inr (EWrap ctx (EMsg m) ""), t)
           | None => f t
           end.

Definition violation (ctx constraint : string) : ferr := EWrap ctx (EMsg constraint) "".

(** [NULLIF(s, '')] *)
Definition nonempty (s : string) : option string :=
  if bool_decide (s = "") then None else Some s.

(** [COALESCE(a, b)] *)
Definition coalesce {A} (a b : option A) : option A :=
  match a with Some x => Some x | None => b end.

(** *** Identity registry *)
Definition revoked (r : IdentityRecord) : bool := bool_decide (iRevokedAt r <> None).

(** [ORDER BY (revoked_at IS NOT NULL), created_at DESC] *)
Definition identityOrder (a b : IdentityRecord) : Prop :=
  (revoked a = false /\ revoked b = true) \/
  (revoked a = revoked b /\ iCreatedAt b <= iCreatedAt a).
#[export] Instance identityOrder_dec a b : Decision (identityOrder a b).
Proof. unfold identityOrder. apply _. Defined.

Definition ListIdentities (fault : option string) : Stmt (list IdentityRecord) :=
  stmt "list identities: " fault (fun t => (inl (merge_sort identityOrder (identities t)), t)).

Definition GetIdentityByFingerprint (fault : option string) (fp : string)
    : Stmt IdentityRecord :=
  stmt "get identity by fingerprint: " fault (fun t =>
    (match List.find (fun r => bool_decide (iFingerprint r = fp)) (identities t) with
     | Some r => inl r
     | None => inr ErrNotFound
     end, t)).

Definition clashes (r s : IdentityRecord) : bool :=
  bool_decide (iLabel s = iLabel r) || bool_decide (iPublicKey s = iPublicKey r) ||
  bool_decide (iFingerprint s = iFingerprint r).

(** label, public_key and fingerprint are UNIQUE; [id] is the generated key. *)
Definition InsertIdentity (fault : option string) (id now : Z) (label : string) (pub : bytes)
    (fp : string) (role : IdentityRole) (source : IdentitySource) (notes : string) : Stmt Z :=
  stmt "insert identity: " fault (fun t =>
    let r := mkIdentity id label pub fp role source now None None (nonempty notes) in
    if existsb (clashes r) (identities t) then (inr (violation "insert identity: " "unique"), t)
    else (inl id, set_identities (identities t ++ [r]) t)).

Definition revoke (now : Z) (reason : string) (r : IdentityRecord) : IdentityRecord :=
  mkIdentity (iID r) (iLabel r) (iPublicKey r) (iFingerprint r) IdentityRoleRevoked (iSource r)
    (iCreatedAt r) (Some now) (nonempty reason) (iNotes r).

Definition RevokeIdentity (fault : option string) (now : Z) (fp reason : string) : Stmt unit :=
  stmt "revoke identity: " fault (fun t =>
    let hit r := bool_decide (iFingerprint r = fp) in
    if existsb hit (identities t) then
      (inl tt, set_identities (map (fun r => if hit r then revoke now reason r else r)
                                 (identities t)) t)
    else (inr ErrNotFound, t)).

(** *** Trust roster *)

(** One row of [nodes n LEFT JOIN fleet_node_trust t]. *)
Definition joined (num : Z) (n : NodeRow) (o : option TrustRow) : NodeTrustRecord :=
  let r := default noTrust o in
  mkRecord num n (tAdminKeyFPs r) (tIsManaged r) (tLastVerifiedAt r) (tLastVerifyMethod r)
    (tLastDriftCheckAt r) (tDriftStatus r) (default "" (tCurrentPSKFP r))
    (default "" (tPreviousPSKFP r)) (tStrandedSince r) (tRecoveryAttempts r)
    (tLastRecoveryAt r) (default "" (tLastRecoveryError r)) (default "" (tNotes r)).

(** [ORDER BY n.last_heard DESC NULLS LAST, n.node_num] *)
Definition heardOrder (a b : NodeTrustRecord) : Prop :=
  match nLastHeard (Node a), nLastHeard (Node b) with
  | Some x, Some y => y < x \/ (x = y /\ NodeNum a <= NodeNum b)
  | Some _, None => True
  | None, Some _ => False
  | None, None => NodeNum a <= NodeNum b
  end.
#[export] Instance heardOrder_dec a b : Decision (heardOrder a b).
Proof. unfold heardOrder. destruct (nLastHeard _), (nLastHeard _); apply _. Defined.

Definition ListNodeTrust (fault : option string) : Stmt (list NodeTrustRecord) :=
  stmt "list node trust: " fault (fun t =>
    (inl (merge_sort heardOrder
            ((fun '(num, n) => joined num n (trust t !! num)) <$> map_to_list (nodes t))), t)).

Definition GetNodeTrust (fault : option string) (nodeNum : Z) : Stmt NodeTrustRecord :=
  stmt "get node trust: " fault (fun t =>
    (match nodes t !! nodeNum with
     | Some n => inl (joined nodeNum n (trust t !! nodeNum))
     | None => inr ErrNotFound
     end, t)).

(** [INSERT INTO fleet_node_trust ... ON CONFLICT (node_num) DO UPDATE]: the
    row must belong to a node. *)
Definition upsertTrust (ctx : string) (nodeNum : Z) (ins : TrustRow)
    (upd : TrustRow -> TrustRow) : Stmt unit :=
  fun t =>
    match trust t !! nodeNum with
    | Some r => (inl tt, set_trust (<[nodeNum := upd r]> (trust t)) t)
    | None =>
        match nodes t !! nodeNum with
        | Some _ => (inl tt, set_trust (<[nodeNum := ins]> (trust t)) t)
        | None => (inr (violation ctx "foreign key"), t)
        end
    end.

Definition UpsertNodeTrust (fault : option string) (nodeNum : Z) (fps : list string)
    (managed : bool) (verifiedAt : option Z) (method : option VerifyMethod)
    (driftCheckAt : option Z) (drift : DriftStatus) (notes : string) : Stmt unit :=
  stmt "upsert node trust: " fault
    (upsertTrust "upsert node trust: " nodeNum
      (mkTrust fps managed verifiedAt method driftCheckAt drift None None None 0 None None
         (nonempty notes))
      (fun r => mkTrust fps managed (coalesce verifiedAt (tLastVerifiedAt r))
         (coalesce method (tLastVerifyMethod r)) (coalesce driftCheckAt (tLastDriftCheckAt r))
         drift (tCurrentPSKFP r) (tPreviousPSKFP r) (tStrandedSince r) (tRecoveryAttempts r)
         (tLastRecoveryAt r) (tLastRecoveryError r) (coalesce (nonempty notes) (tNotes r)))).

Definition MarkNodeUnreachable (fault : option string) (nodeNum at_ : Z) : Stmt unit :=
  stmt "mark node unreachable: " fault
    (upsertTrust "mark node unreachable: " nodeNum
      (mkTrust [] false None None (Some at_) DriftStatusUnreachable None None None 0 None None None)
      (fun r => mkTrust (tAdminKeyFPs r) (tIsManaged r) (tLastVerifiedAt r) (tLastVerifyMethod r)
         (Some at_) DriftStatusUnreachable (tCurrentPSKFP r) (tPreviousPSKFP r)
         (tStrandedSince r) (tRecoveryAttempts r) (tLastRecoveryAt r) (tLastRecoveryError r)
         (tNotes r))).

(** [UPDATE fleet_node_trust SET f WHERE node_num = $1] *)
Definition updateTrust (nodeNum : Z) (f : TrustRow -> TrustRow) : Stmt unit :=
  fun t => (inl tt, set_trust (alter f nodeNum (trust t)) t).

Definition MarkTrustVerifiedNow (fault : option string) (now nodeNum : Z) (method : VerifyMethod)
    : Stmt unit :=
  stmt "mark trust verified: " fault
    (updateTrust nodeNum (fun r =>
       mkTrust (tAdminKeyFPs r) (tIsManaged r) (Some now) (Some method) (Some now)
         (tDriftStatus r) (tCurrentPSKFP r) (tPreviousPSKFP r) (tStrandedSince r)
         (tRecoveryAttempts r) (tLastRecoveryAt r) (tLastRecoveryError r) (tNotes r))).

Definition set_currentPSKFP (fp : option string) (r : TrustRow) : TrustRow :=
  mkTrust (tAdminKeyFPs r) (tIsManaged r) (tLastVerifiedAt r) (tLastVerifyMethod r)
    (tLastDriftCheckAt r) (tDriftStatus r) fp (tPreviousPSKFP r) (tStrandedSince r)
    (tRecoveryAttempts r) (tLastRecoveryAt r) (tLastRecoveryError r) (tNotes r).

Definition SetNodeCurrentPSKFP (fault : option string) (nodeNum : Z) (fp : string) : Stmt unit :=
  if bool_decide (fp = "") then fun t => (inl tt, t)
  else stmt "set node current_psk_fp: " fault (updateTrust nodeNum (set_currentPSKFP (Some fp))).

(** [WHERE jsonb_array_length(admin_key_fps) > 0 AND (current_psk_fp IS NULL
    OR current_psk_fp <> $1)] *)
Definition laggard (fp : string) (r : TrustRow) : bool :=
  (0 <? zlen (tAdminKeyFPs r)) && negb (bool_decide (tCurrentPSKFP r = Some fp)).

(** Rows come back in an order the database does not specify; the model takes
    that of the map. *)
Definition AllManagedNodesOnPSK (fault : option string) (fp : string)
    : Stmt (bool * list Z) :=
  stmt "scan laggards: " fault (fun t =>
    let laggards := (filter (fun p => laggard fp p.2) (map_to_list (trust t))).*1 in
    (inl (bool_decide (zlen laggards = 0), laggards), t)).

(** *** Channels *)
Definition channelOrder (a b : Z * ChannelRow) : Prop := a.1 <= b.1.
#[export] Instance channelOrder_dec a b : Decision (channelOrder a b).
Proof. unfold channelOrder. apply _. Defined.

Definition ListChannels (fault : option string) : Stmt (list (Z * ChannelRow)) :=
  stmt "list channels: " fault (fun t =>
    (inl (merge_sort channelOrder (map_to_list (channels t))), t)).

Definition UpsertChannel (fault : option string) (index : Z) (name role fp : string) (len : Z)
    (rotatedAt : option Z) (by_ : string) (rotID : option Z) : Stmt unit :=
  stmt "upsert channel: " fault (fun t =>
    let new := mkChannel name role (nonempty fp) (if len =? 0 then None else Some len)
                 rotatedAt (nonempty by_) rotID in
    let row := match channels t !! index with
               | None => new
               | Some r => mkChannel name role (coalesce (cPSKFingerprint new) (cPSKFingerprint r))
                   (coalesce (cPSKLength new) (cPSKLength r))
                   (coalesce rotatedAt (cLastRotatedAt r))
                   (coalesce (cLastRotatedBy new) (cLastRotatedBy r))
                   (coalesce rotID (cLastRotationID r))
               end in
    (inl tt, set_channels (<[index := row]> (channels t)) t)).

(** *** Rotations *)
Definition InsertRotation (fault : option string) (id now : Z) (kind : RotationKind)
    (channelIndex : option Z) (startedBy : string) (targets : list RotationTarget)
    (fp notes : string) (rawPSK : option bytes) : Stmt Z :=
  stmt "insert rotation: " fault (fun t =>
    (inl id, set_rotations
       (<[id := mkRotation kind channelIndex None PiPhasePending startedBy now None None targets
                  fp notes rawPSK]> (rotations t)) t)).

Definition GetRotationPSK (fault : option string) (id : Z) : Stmt bytes :=
  stmt "get rotation psk: " fault (fun t =>
    (match rotations t !! id with
     | Some r => inl (default [] (new_psk r))
     | None => inr ErrNotFound
     end, t)).

Definition backfill (x : RotationTarget) : RotationTarget :=
  if decide (Phase x = PhaseEmpty)
  then mkTarget (TgtNodeNum x) (phaseForLegacyStatus (Status x)) (Status x) (Attempts x) (LastError x)
  else x.

Definition set_targets (l : list RotationTarget) (r : RotationRecord) : RotationRecord :=
  mkRotation (Kind r) (ChannelIndex r) (StagingChannelIndex r) (PiPhase r) (StartedBy r)
    (StartedAt r) (CompletedAt r) (RetiredAt r) l (NewPSKFP r) (RotNotes r) (new_psk r).

Definition GetRotation (fault : option string) (id : Z) : Stmt RotationRecord :=
  stmt "get rotation: " fault (fun t =>
    (match rotations t !! id with
     | Some r => inl (set_targets (map backfill (Targets r)) r)
     | None => inr ErrNotFound
     end, t)).

(** [UPDATE fleet_rotations SET f WHERE id = $1] *)
Definition updateRotation (id : Z) (f : RotationRecord -> RotationRecord) : Stmt unit :=
  fun t => (inl tt, set_rotations (alter f id (rotations t)) t).

Definition UpdateRotationTargets (fault : option string) (id : Z)
    (targets : list RotationTarget) (completedAt : option Z) : Stmt unit :=
  stmt "update rotation targets: " fault
    (updateRotation id (fun r =>
       mkRotation (Kind r) (ChannelIndex r) (StagingChannelIndex r) (PiPhase r) (StartedBy r)
         (StartedAt r) (coalesce completedAt (CompletedAt r)) (RetiredAt r) targets (NewPSKFP r)
         (RotNotes r) (new_psk r))).

(** The first target of that number, changed. *)
Fixpoint alterTarget (nodeNum : Z) (f : RotationTarget -> RotationTarget)
    (l : list RotationTarget) : option (list RotationTarget) :=
  match l with
  | [] => None
  | x :: l' => if TgtNodeNum x =? nodeNum then Some (f x :: l')
               else cons x <$> alterTarget nodeNum f l'
  end.

Definition set_phase (phase : RotationPhase) (msg : string) (x : RotationTarget) : RotationTarget :=
  mkTarget (TgtNodeNum x) phase (statusForPhase phase) (Attempts x) msg.

Definition bump (x : RotationTarget) : RotationTarget :=
  mkTarget (TgtNodeNum x) (Phase x) (Status x) (Attempts x + 1) (LastError x).

Definition rewriteTarget (fault fault' : option string) (rotID nodeNum : Z)
    (f : RotationTarget -> RotationTarget) : Stmt unit :=
  fun t =>
    match (GetRotation fault rotID t).1 with
    | inr e => (inr e, t)
    | inl rec =>
        match alterTarget nodeNum f (Targets rec) with
        | None => (inr (EMsg ("target node_num " +:+ itoa nodeNum +:+ " not in rotation " +:+
                              itoa rotID)), t)
        | Some l => UpdateRotationTargets fault' rotID l None t
        end
    end.

Definition UpdateTargetPhase (fault fault' : option string) (rotID nodeNum : Z)
    (phase : RotationPhase) (msg : string) : Stmt unit :=
  rewriteTarget fault fault' rotID nodeNum (set_phase phase msg).

Definition IncrementTargetAttempts (fault fault' : option string) (rotID nodeNum : Z) : Stmt unit :=
  rewriteTarget fault fault' rotID nodeNum bump.

Definition UpsertPiLocalPhase (fault : option string) (rotID : Z) (phase : PiLocalPhase)
    : Stmt unit :=
  stmt "upsert pi_local_phase: " fault
    (updateRotation rotID (fun r =>
       mkRotation (Kind r) (ChannelIndex r) (StagingChannelIndex r) phase (StartedBy r)
         (StartedAt r) (CompletedAt r) (RetiredAt r) (Targets r) (NewPSKFP r) (RotNotes r)
         (new_psk r))).

Definition SetStagingChannelIndex (fault : option string) (rotID idx : Z) : Stmt unit :=
  stmt "set staging_channel_index: " fault
    (updateRotation rotID (fun r =>
       mkRotation (Kind r) (ChannelIndex r) (Some idx) (PiPhase r) (StartedBy r)
         (StartedAt r) (CompletedAt r) (RetiredAt r) (Targets r) (NewPSKFP r) (RotNotes r)
         (new_psk r))).

Definition MarkRotationRetired (fault : option string) (now rotID : Z) : Stmt unit :=
  stmt "mark rotation retired: " fault
    (updateRotation rotID (fun r =>
       mkRotation (Kind r) (ChannelIndex r) (StagingChannelIndex r) PiPhaseRetired (StartedBy r)
         (StartedAt r) (CompletedAt r) (Some now) (Targets r) (NewPSKFP r) (RotNotes r)
         (new_psk r))).

Definition ClearRotationPSK (fault : option string) (rotID : Z) : Stmt unit :=
  stmt "clear rotation psk: " fault
    (updateRotation rotID (fun r =>
       mkRotation (Kind r) (ChannelIndex r) (StagingChannelIndex r) (PiPhase r) (StartedBy r)
         (StartedAt r) (CompletedAt r) (RetiredAt r) (Targets r) (NewPSKFP r) (RotNotes r) None)).

(** *** Policy *)
Definition GetPolicy (fault : option string) : Stmt FleetPolicy :=
  stmt "get policy: " fault (fun t => (inl (policy t), t)).

Definition UpdatePolicy (fault : option string) (now : Z) (fps : list string) (managed : bool)
    (chans : list (Z * string * string)) (updatedBy : string) : Stmt unit :=
  stmt "update policy: " fault (fun t =>
    (inl tt, set_policy (mkPolicy fps managed chans now updatedBy) t)).

(** ** recovery_store.go *)
Definition recoverySlots : list Z := [2; 3; 4; 5; 6; 7].

(** [ORDER BY slot]: the schema confines slots to 2..7. *)
Definition recoveryRows (t : Tables) : list RecoveryPSKRecord :=
  omap (fun s => recovery t !! s) recoverySlots.

Definition recoveryByFP (fp : string) (t : Tables) : option RecoveryPSKRecord :=
  List.find (fun r => bool_decide (rFP r = fp)) (recoveryRows t).

Definition freeSlot (t : Tables) : option Z :=
  List.find (fun s => bool_decide (recovery t !! s = None)) recoverySlots.

(** [ORDER BY added_at ASC LIMIT 1]; [choice] picks among equal times. *)
Definition oldestRows (t : Tables) : list RecoveryPSKRecord :=
  List.filter (fun r => forallb (fun r' => rAddedAt r <=? rAddedAt r') (recoveryRows t))
    (recoveryRows t).

Definition evictSlot (choice : nat) (t : Tables) : option Z :=
  rSlot <$> nth_error (oldestRows t) (choice mod length (oldestRows t)).

Definition rotationExists (rotID : option Z) (t : Tables) : bool :=
  match rotID with
  | None => true
  | Some id => bool_decide (rotations t !! id <> None)
  end.

(** One transaction: whatever fails in it rolls it back. *)
Definition AddRecoveryPSK (fault : option string) (choice : nat) (now : Z) (fp : string)
    (psk : bytes) (hash : Z) (rotID : option Z) : Stmt Z :=
  fun t =>
    if zlen psk =? 0 then (inr (EMsg "recovery psk must be non-empty"), t)
    else if bool_decide (fp = "") then (inr (EMsg "recovery fp must be non-empty"), t)
    else stmt "begin tx: " fault (fun t =>
      match recoveryByFP fp t with
      | Some r =>
          if rotationExists rotID t then
            (inl (rSlot r), set_recovery (<[rSlot r :=
               mkRecovery (rSlot r) (rFP r) (rPSK r) (rPSKHash r) now rotID]> (recovery t)) t)
          else (inr (violation "refresh existing recovery psk: " "foreign key"), t)
      | None =>
          match coalesce (freeSlot t) (evictSlot choice t) with
          | None => (inr (EMsg "pick eviction slot"), t)
          | Some slot =>
              if rotationExists rotID t then
                (inl slot, set_recovery (<[slot := mkRecovery slot fp psk hash now rotID]>
                                           (recovery t)) t)
              else (inr (violation "insert recovery psk: " "foreign key"), t)
          end
      end) t.

Definition ListRecoveryPSKs (fault : option string) : Stmt (list RecoveryPSKRecord) :=
  stmt "list recovery psks: " fault (fun t => (inl (recoveryRows t), t)).

Definition GetRecoveryPSKByFP (fault : option string) (fp : string) : Stmt RecoveryPSKRecord :=
  stmt "get recovery psk: " fault (fun t =>
    (match recoveryByFP fp t with Some r => inl r | None => inr ErrNotFound end, t)).

Definition DeleteRecoveryPSKBySlot (fault : option string) (slot : Z) : Stmt unit :=
  stmt "delete recovery psk: " fault (fun t =>
    (inl tt, set_recovery (delete slot (recovery t)) t)).

Definition set_stranded (since : option Z) (prev : option string) (attempts : Z)
    (at_ : option Z) (err : option string) (r : TrustRow) : TrustRow :=
  mkTrust (tAdminKeyFPs r) (tIsManaged r) (tLastVerifiedAt r) (tLastVerifyMethod r)
    (tLastDriftCheckAt r) (tDriftStatus r) (tCurrentPSKFP r) prev since attempts at_ err (tNotes r).

Definition MarkStranded (fault : option string) (now nodeNum : Z) (prevFP : string) : Stmt unit :=
  stmt "mark stranded: " fault
    (upsertTrust "mark stranded: " nodeNum
      (set_stranded (Some now) (Some prevFP) 0 None None noTrust)
      (fun r => set_stranded (coalesce (tStrandedSince r) (Some now)) (Some prevFP) 0
                  (tLastRecoveryAt r) None r)).

Definition ClearStranded (fault : option string) (now nodeNum : Z) : Stmt unit :=
  stmt "clear stranded: " fault
    (updateTrust nodeNum (fun r => set_stranded None (tPreviousPSKFP r) 0 (Some now) None r)).

Definition IncrementRecoveryAttempt (fault : option string) (now nodeNum : Z) (msg : string)
    : Stmt unit :=
  stmt "increment recovery attempt: " fault
    (updateTrust nodeNum (fun r =>
       set_stranded (tStrandedSince r) (tPreviousPSKFP r) (tRecoveryAttempts r + 1) (Some now)
         (nonempty msg) r)).

Definition strandedOrder (a b : NodeTrustRecord) : Prop :=
  default 0 (StrandedSince a) <= default 0 (StrandedSince b).
#[export] Instance strandedOrder_dec a b : Decision (strandedOrder a b).
Proof. unfold strandedOrder. apply _. Defined.

(** [JOIN nodes ... ORDER BY t.stranded_since ASC]; the keys are not decoded. *)
Definition ListStranded (fault : option string) : Stmt (list NodeTrustRecord) :=
  stmt "list stranded: " fault (fun t =>
    let keep p := match p.2, nodes t !! p.1 with
                  | r, Some n => if decide (tStrandedSince r = None) then None
                                 else Some (joined p.1 n
                                   (Some (mkTrust [] (tIsManaged r) (tLastVerifiedAt r)
                                      (tLastVerifyMethod r) (tLastDriftCheckAt r) (tDriftStatus r)
                                      (tCurrentPSKFP r) (tPreviousPSKFP r) (tStrandedSince r)
                                      (tRecoveryAttempts r) (tLastRecoveryAt r)
                                      (tLastRecoveryError r) (tNotes r))))
                  | _, None => None
                  end in
    (inl (merge_sort strandedOrder (omap keep (map_to_list (trust t)))), t)).

Definition references (fp : string) (r : TrustRow) : bool :=
  bool_decide (tPreviousPSKFP r = Some fp) && bool_decide (tStrandedSince r <> None).

Definition CountStrandedReferencingFP (fault : option string) (fp : string) : Stmt Z :=
  stmt "count stranded references: " fault (fun t =>
    (inl (Z.of_nat (size (filter (fun p => references fp p.2) (trust t)))), t)).

Definition gcStale (cutoff : Z) (r : TrustRow) : bool :=
  match tStrandedSince r with Some s => s <? cutoff | None => false end.

(** [threshold] in nanoseconds, [shown] its [String()]. *)
Definition GCStrandedOlderThan (fault : option string) (now threshold : Z) (shown : string)
    : Stmt Z :=
  stmt "gc stranded: " fault (fun t =>
    let cutoff := now - threshold in
    (inl (Z.of_nat (size (filter (fun p => gcStale cutoff p.2) (trust t)))),
     set_trust ((fun r => if gcStale cutoff r
                          then set_stranded None None 0 (tLastRecoveryAt r)
                                 (Some ("gc: stranded > " +:+ shown)) r
                          else r) <$> trust t) t)).

(** The statement inside [Service.CancelStranded] (recovery_hook.go). *)
Definition WipePrevious (fault : option string) (nodeNum : Z) : Stmt unit :=
  stmt "wipe previous_psk_fp: " fault
    (updateTrust nodeNum (fun r =>
       set_stranded (tStrandedSince r) None (tRecoveryAttempts r) (tLastRecoveryAt r)
         (Some "operator: stop trying") r)).

(** ** keys.go *)
Definition X25519KeySize : Z := 32.

Definition allZero (b : bytes) : bool := forallb (fun x => bool_decide (x = x00)) b.

Definition ValidateX25519PublicKey (pub : bytes) : option ferr :=
  if negb (zlen pub =? X25519KeySize) then
    Some (EMsg ("public key must be 32 bytes, got " +:+ itoa (zlen pub)))
  else if allZero pub then Some (EMsg "public key is all zero")
  else None.

Definition ValidateX25519PrivateKey (priv : bytes) : option ferr :=
  if negb (zlen priv =? X25519KeySize) then
    Some (EMsg ("private key must be 32 bytes, got " +:+ itoa (zlen priv)))
  else if allZero priv then Some (EMsg "private key is all zero")
  else None.

Definition validPSKLengths (n : Z) : bool := (n =? 0) || (n =? 16) || (n =? 32).

(** [random] is what [rand.Read] fills the buffer with. *)
Definition RandomPSK (random : nat -> bytes) (size : Z) : res bytes :=
  if negb (validPSKLengths size) then
    inr (EMsg ("invalid PSK size " +:+ itoa size +:+ " (allowed: 0, 16, 32)"))
  else if size =? 0 then inl []
  else inl (random (Z.to_nat size)).

Definition ValidatePSK (psk : bytes) : option ferr :=
  if validPSKLengths (zlen psk) then None
  else Some (EMsg ("invalid PSK length " +:+ itoa (zlen psk) +:+ " (allowed: 0, 16, 32)")).

Definition ChannelHash (name : string) (psk : bytes) : Z :=
  fold_left Z.lxor (map Zb psk) (fold_left Z.lxor (map Zb (bytes_of_string name)) 0).

Definition bytesEqual (a b : bytes) : bool := bool_decide (a = b).

(** ** Statements: the common cases *)
Lemma zlen_zero {A} (l : list A) : zlen l = 0 -> l = [].
Proof. destruct l; [done|]. rewrite zlen_cons. pose proof (zlen_nonneg l). lia. Qed.

Lemma stmt_ok {A} ctx (f : Stmt A) t : stmt ctx None f t = f t.
Proof. done. Qed.

Lemma stmt_fault {A} ctx m (f : Stmt A) t : stmt ctx (Some m) f t = (inr (EWrap ctx (EMsg m) ""), t).
Proof. done. Qed.

Lemma coalesce_None {A} (a b : option A) : coalesce a b = None <-> a = None /\ b = None.
Proof. destruct a; cbn; split; try done; by intros [? ?]. Qed.

(** ** The legacy status is the image of the phase *)
Lemma statusForPhase_legacy s : statusForPhase (phaseForLegacyStatus s) = s.
Proof. by destruct s. Qed.

Definition mirrored (x : RotationTarget) : Prop :=
  Phase x <> PhaseEmpty /\ Status x = statusForPhase (Phase x).

Lemma backfill_mirrored x : Phase x = PhaseEmpty \/ mirrored x -> mirrored (backfill x).
Proof.
  unfold mirrored, backfill. intros [H|H]; case_decide; cbn; try done.
  - rewrite statusForPhase_legacy. by destruct (Status x).
  - tauto.
Qed.

Lemma backfill_id x : Phase x <> PhaseEmpty -> backfill x = x.
Proof. intros H. unfold backfill. by rewrite decide_False. Qed.

Lemma map_backfill_id l : Forall (fun x => Phase x <> PhaseEmpty) l -> map backfill l = l.
Proof. induction 1; cbn; [done|]. rewrite backfill_id by done. congruence. Qed.

Lemma set_phase_mirrored p msg x : p <> PhaseEmpty -> mirrored (set_phase p msg x).
Proof. done. Qed.

(** ** Targets are found by number *)
Lemma alterTarget_nums num f l l' :
  (forall x, TgtNodeNum (f x) = TgtNodeNum x) ->
  alterTarget num f l = Some l' -> map TgtNodeNum l' = map TgtNodeNum l.
Proof.
  intros Hf. revert l'. induction l as [|x l IH]; cbn; intros l' H; [done|].
  destruct (TgtNodeNum x =? num).
  - injection H as <-. cbn. by rewrite Hf.
  - destruct (alterTarget num f l) as [k|]; [|done]. injection H as <-. cbn. by rewrite (IH k).
Qed.

Lemma alterTarget_Some num f l :
  is_Some (alterTarget num f l) <-> num ∈ map TgtNodeNum l.
Proof.
  induction l as [|x l IH]; cbn.
  - split; [by intros [? ?]|by intros ?%elem_of_nil].
  - rewrite elem_of_cons. destruct (Z.eqb_spec (TgtNodeNum x) num).
    + split; [by left|by eexists].
    + rewrite fmap_is_Some, IH. split; [by right|]. intros [?|?]; [congruence|done].
Qed.

Lemma alterTarget_Forall (P : RotationTarget -> Prop) num f l l' :
  Forall P l -> (forall x, P x -> P (f x)) -> alterTarget num f l = Some l' -> Forall P l'.
Proof.
  intros H Hf. revert l'. induction H as [|x l Hx Hl IH]; cbn; intros l' E; [done|].
  destruct (TgtNodeNum x =? num).
  - injection E as <-. constructor; auto.
  - destruct (alterTarget num f l) as [k|]; [|done]. injection E as <-. constructor; auto.
Qed.

(** ** The recovery cache *)
Record cacheOK (t : Tables) : Prop := {
  cache_slot s r : recovery t !! s = Some r -> 2 <= s <= 7 /\ rSlot r = s;
  cache_row s r : recovery t !! s = Some r -> rFP r <> ""%string /\ rPSK r <> [];
  cache_fp s s' r r' : recovery t !! s = Some r -> recovery t !! s' = Some r' ->
    rFP r = rFP r' -> s = s'
}.

Lemma elem_of_recoverySlots s : s ∈ recoverySlots <-> 2 <= s <= 7.
Proof. unfold recoverySlots. rewrite !elem_of_cons, elem_of_nil. lia. Qed.

Lemma elem_of_recoveryRows t r : cacheOK t ->
  r ∈ recoveryRows t <-> recovery t !! rSlot r = Some r.
Proof.
  intros H. unfold recoveryRows. rewrite list_elem_of_omap. split.
  - intros (s & _ & E). by rewrite (proj2 (cache_slot t H s r E)).
  - intros E. exists (rSlot r). split; [|done].
    by apply elem_of_recoverySlots, (cache_slot t H _ r).
Qed.

Lemma recoveryByFP_Some t fp r : cacheOK t ->
  recoveryByFP fp t = Some r <-> recovery t !! rSlot r = Some r /\ rFP r = fp.
Proof.
  intros H. unfold recoveryByFP. split.
  - intros [Hin E]%find_some. apply list_elem_of_In, (elem_of_recoveryRows t r H) in Hin.
    by apply bool_decide_eq_true in E.
  - intros [E Hfp]. destruct (List.find _ _) as [r'|] eqn:F.
    + apply find_some in F as [Hin E'].
      apply list_elem_of_In, (elem_of_recoveryRows t r' H) in Hin.
      apply bool_decide_eq_true in E'.
      assert (rSlot r = rSlot r') as Hs by (eapply (cache_fp t H); [done..|congruence]).
      rewrite Hs in E. congruence.
    + eapply find_none in F; [|by apply list_elem_of_In, (elem_of_recoveryRows t r H)].
      by apply bool_decide_eq_false in F.
Qed.

Lemma recoveryByFP_None t fp : cacheOK t ->
  recoveryByFP fp t = None <-> forall s r, recovery t !! s = Some r -> rFP r <> fp.
Proof.
  intros H. destruct (recoveryByFP fp t) as [r|] eqn:E; split; try done.
  - intros Hn. apply (recoveryByFP_Some t fp r H) in E as [E1 E2]. by apply Hn in E1.
  - intros _ s r Hr Hfp. destruct (cache_slot t H s r Hr) as [_ Hs]. subst s.
    assert (recoveryByFP fp t = Some r) by (by apply recoveryByFP_Some). congruence.
Qed.

Lemma freeSlot_Some t s : freeSlot t = Some s -> 2 <= s <= 7 /\ recovery t !! s = None.
Proof.
  intros [Hin E]%find_some. apply list_elem_of_In, elem_of_recoverySlots in Hin.
  by apply bool_decide_eq_true in E.
Qed.

Lemma freeSlot_None t : freeSlot t = None <-> forall s, 2 <= s <= 7 -> is_Some (recovery t !! s).
Proof.
  unfold freeSlot. split.
  - intros F s Hs. eapply find_none in F; [|by apply list_elem_of_In, elem_of_recoverySlots].
    apply bool_decide_eq_false in F. destruct (recovery t !! s); [by eexists|done].
  - intros Hall. destruct (List.find _ _) as [s|] eqn:F; [|done].
    apply freeSlot_Some in F as [Hs E]. destruct (Hall s Hs). congruence.
Qed.

(** Rows with a least key exist. *)
Lemma min_row (l : list RecoveryPSKRecord) : l <> [] ->
  exists r, r ∈ l /\ forall r', r' ∈ l -> rAddedAt r <= rAddedAt r'.
Proof.
  induction l as [|x l IH]; [done|]. intros _. destruct l as [|y l].
  - exists x. split; [by left|]. intros r' ->%list_elem_of_singleton. lia.
  - destruct IH as (m & Hm & Hmin); [done|].
    destruct (Z.le_ge_cases (rAddedAt x) (rAddedAt m)).
    + exists x. split; [by left|]. intros r' [->|Hr]%elem_of_cons; [lia|].
      specialize (Hmin r' Hr). lia.
    + exists m. split; [by right|]. intros r' [->|Hr]%elem_of_cons; [lia|]. by apply Hmin.
Qed.

Lemma elem_of_oldestRows t r :
  r ∈ oldestRows t <->
  (r ∈ recoveryRows t) /\ forall r', r' ∈ recoveryRows t -> rAddedAt r <= rAddedAt r'.
Proof.
  unfold oldestRows. rewrite list_elem_of_In, filter_In, <- list_elem_of_In, forallb_forall.
  setoid_rewrite <- list_elem_of_In. by setoid_rewrite Z.leb_le.
Qed.

Lemma evictSlot_Some choice t s : cacheOK t -> evictSlot choice t = Some s ->
  exists r, recovery t !! s = Some r /\
    forall s' r', recovery t !! s' = Some r' -> rAddedAt r <= rAddedAt r'.
Proof.
  intros H. unfold evictSlot. intros (r & E & ->)%fmap_Some.
  apply nth_error_In, list_elem_of_In, elem_of_oldestRows in E as [Hin Hmin].
  apply (elem_of_recoveryRows t r H) in Hin. exists r. split; [done|].
  intros s' r' Hr'. apply Hmin, (elem_of_recoveryRows t r' H).
  by rewrite (proj2 (cache_slot t H s' r' Hr')).
Qed.

Lemma evictSlot_full choice t : cacheOK t -> freeSlot t = None -> is_Some (evictSlot choice t).
Proof.
  intros H Hf. unfold evictSlot. apply fmap_is_Some.
  destruct (min_row (recoveryRows t)) as (r & Hr & Hmin).
  - destruct (proj1 (freeSlot_None t) Hf 2) as [r E]; [lia|].
    assert (r ∈ recoveryRows t) as Hin.
    { apply (elem_of_recoveryRows t r H). by rewrite (proj2 (cache_slot t H 2 r E)). }
    intros Hn. rewrite Hn in Hin. by apply elem_of_nil in Hin.
  - assert (r ∈ oldestRows t) as Ho by (by apply elem_of_oldestRows).
    destruct (nth_error _ _) eqn:E; [by eexists|]. apply nth_error_None in E.
    destruct (oldestRows t) as [|x l] eqn:El; [by apply elem_of_nil in Ho|].
    pose proof (Nat.mod_upper_bound choice (length (x :: l)) ltac:(done)). lia.
Qed.

(** *** The cache as a queue of six *)
Definition view (r : RecoveryPSKRecord) : string * Z := (rFP r, rAddedAt r).
Definition older (a b : string * Z) : Prop := a.2 < b.2.

(** What the cache promises: a known fingerprint moves to the back, a new one
    goes to the back and a full queue loses its front. *)
Definition remember (fp : string) (now : Z) (q : list (string * Z)) : list (string * Z) :=
  if decide (fp ∈ q.*1) then filter (fun x => x.1 <> fp) q ++ [(fp, now)]
  else if (length q <? 6)%nat then q ++ [(fp, now)] else tail q ++ [(fp, now)].

Record implements (t : Tables) (q : list (string * Z)) : Prop := {
  impl_ok : cacheOK t;
  impl_rows : view <$> recoveryRows t ≡ₚ q;
  impl_sorted : StronglySorted older q
}.

Lemma omap_update {A B} `{EqDecision A} (f g : A -> option B) (l : list A) s x :
  NoDup l -> s ∈ l -> g s = Some x -> (forall a, a <> s -> g a = f a) ->
  omap g l ++ option_list (f s) ≡ₚ x :: omap f l.
Proof.
  intros Hnd Hin Hs Hne. induction Hnd as [|a l Ha Hnd IH]; [by apply elem_of_nil in Hin|].
  apply elem_of_cons in Hin as [->|Hin].
  - assert (omap g l = omap f l) as E.
    { clear IH Hnd. induction l as [|b l IHl]; cbn; [done|].
      apply not_elem_of_cons in Ha as [Hb Ha]. rewrite (Hne b), IHl by done. done. }
    cbn. rewrite Hs, E. destruct (f a); cbn; [|by rewrite app_nil_r].
    by rewrite Permutation_app_comm.
  - assert (a <> s) by (by intros ->). cbn. rewrite (Hne a) by done.
    specialize (IH Hin). destruct (f a) as [y|]; [|done]. cbn. rewrite IH. apply perm_swap.
Qed.

Lemma length_omap_le {A B} (f : A -> option B) (l : list A) : (length (omap f l) <= length l)%nat.
Proof. induction l as [|a l IH]; cbn; [lia|]. destruct (f a); cbn; lia. Qed.

Lemma NoDup_recoverySlots : NoDup recoverySlots.
Proof. apply (bool_decide_unpack _). vm_compute. reflexivity. Qed.

Lemma recoveryRows_insert s x t : 2 <= s <= 7 ->
  recoveryRows (set_recovery (<[s := x]> (recovery t)) t) ++ option_list (recovery t !! s)
  ≡ₚ x :: recoveryRows t.
Proof.
  intros Hs.
  apply (omap_update (fun s => recovery t !! s) (fun a => <[s := x]> (recovery t) !! a) _ s x).
  - apply NoDup_recoverySlots.
  - by apply elem_of_recoverySlots.
  - by rewrite lookup_insert_eq.
  - intros a Ha. by rewrite lookup_insert_ne.
Qed.

Lemma cacheOK_insert s x t : cacheOK t -> 2 <= s <= 7 -> rSlot x = s -> rFP x <> ""%string ->
  rPSK x <> [] -> (forall s' r, recovery t !! s' = Some r -> rFP r = rFP x -> s' = s) ->
  cacheOK (set_recovery (<[s := x]> (recovery t)) t).
Proof.
  intros H Hs Hx Hf Hp Hu. split; cbn.
  - intros s' r [[<- <-]|[? ?]]%lookup_insert_Some; [done|by apply (cache_slot t H)].
  - intros s' r [[<- <-]|[? ?]]%lookup_insert_Some; [done|by apply (cache_row t H s')].
  - intros s1 s2 r1 r2 [[<- <-]|[? H1]]%lookup_insert_Some [[<- <-]|[? H2]]%lookup_insert_Some Heq;
      [done| | |by eapply (cache_fp t H)].
    + symmetry. by apply (Hu s2 r2).
    + by apply (Hu s1 r1).
Qed.

(** A sorted queue has its oldest entry in front. *)
Lemma oldest_is_front q e : StronglySorted older q -> e ∈ q ->
  (forall e', e' ∈ q -> e.2 <= e'.2) -> exists q', q = e :: q'.
Proof.
  intros Hs Hin Hmin. destruct q as [|h q]; [by apply elem_of_nil in Hin|].
  inversion_clear Hs as [|? ? Hs' Hall]. apply elem_of_cons in Hin as [->|Hin]; [by exists q|].
  rewrite Forall_forall in Hall. specialize (Hall e Hin). specialize (Hmin h ltac:(by left)).
  unfold older in Hall. lia.
Qed.

Lemma sorted_snoc q fp now : StronglySorted older q -> Forall (fun e => e.2 < now) q ->
  StronglySorted older (q ++ [(fp, now)]).
Proof.
  intros Hs Hf. induction Hs as [|e q Hs IH He]; cbn.
  - repeat constructor.
  - inversion_clear Hf. constructor; [by apply IH|].
    apply Forall_app. split; [done|]. by repeat constructor.
Qed.

Lemma sorted_filter P `{forall x, Decision (P x)} q :
  StronglySorted older q -> StronglySorted older (filter P q).
Proof.
  induction 1 as [|e q Hs IH He]; [constructor|].
  rewrite filter_cons. case_decide; [|done]. constructor; [done|].
  rewrite Forall_forall in *. intros x [_ Hx]%list_elem_of_filter. by apply He.
Qed.

Lemma Forall_filter' {A} (Q P : A -> Prop) `{forall x, Decision (P x)} l :
  Forall Q l -> Forall Q (filter P l).
Proof.
  rewrite !Forall_forall. intros HQ x [_ Hx]%list_elem_of_filter. by apply HQ.
Qed.

Section Implements.
Context (t : Tables) (q : list (string * Z)) (H : implements t q).

Lemma impl_elem e : e ∈ q <-> exists s r, recovery t !! s = Some r /\ view r = e.
Proof.
  rewrite <- (impl_rows t q H), list_elem_of_fmap. split.
  - intros (r & -> & Hr). apply (elem_of_recoveryRows t r (impl_ok t q H)) in Hr. eauto.
  - intros (s & r & E & <-). exists r. split; [done|].
    apply (elem_of_recoveryRows t r (impl_ok t q H)).
    by rewrite (proj2 (cache_slot t (impl_ok t q H) s r E)).
Qed.

Lemma impl_fp fp : fp ∈ q.*1 <-> is_Some (recoveryByFP fp t).
Proof.
  rewrite list_elem_of_fmap. split.
  - intros ([f a] & -> & (s & r & E & Ev)%impl_elem). unfold view in Ev. injection Ev as <- <-.
    exists r. apply (recoveryByFP_Some t _ _ (impl_ok t q H)).
    by rewrite (proj2 (cache_slot t (impl_ok t q H) s r E)).
  - intros [r [E <-]%(recoveryByFP_Some t _ _ (impl_ok t q H))].
    exists (view r). split; [done|]. apply impl_elem. by exists (rSlot r), r.
Qed.

Lemma impl_length : length q = length (recoveryRows t).
Proof. rewrite <- (impl_rows t q H). apply length_map. Qed.

Lemma impl_nodup : NoDup q.*1.
Proof.
  assert (q.*1 ≡ₚ rFP <$> recoveryRows t) as E.
  { rewrite <- (impl_rows t q H), <- list_fmap_compose. done. }
  rewrite E. pose proof (impl_ok t q H) as Hok.
  assert (forall l, NoDup l -> NoDup (rFP <$> omap (fun s => recovery t !! s) l)) as Hl.
  { induction 1 as [|s l Hs Hnd IH]; [constructor|]. cbn.
    destruct (recovery t !! s) as [r|] eqn:Er; [|done]. cbn. constructor; [|done].
    intros (r' & Hf & (s' & Hs' & Er')%list_elem_of_omap)%list_elem_of_fmap.
    assert (s = s') as -> by (by eapply (cache_fp t Hok)). done. }
  apply Hl, NoDup_recoverySlots.
Qed.

Lemma impl_full : freeSlot t = None -> length q = 6%nat.
Proof.
  rewrite freeSlot_None, impl_length. intros Hall. unfold recoveryRows, recoverySlots. cbn.
  destruct (Hall 2 ltac:(lia)) as [? ->], (Hall 3 ltac:(lia)) as [? ->],
    (Hall 4 ltac:(lia)) as [? ->], (Hall 5 ltac:(lia)) as [? ->],
    (Hall 6 ltac:(lia)) as [? ->], (Hall 7 ltac:(lia)) as [? ->]. done.
Qed.

Lemma impl_free s : freeSlot t = Some s -> (length q < 6)%nat.
Proof.
  intros [Hs E]%freeSlot_Some.
  pose proof (recoveryRows_insert s (mkRecovery s "" [] 0 0 None) t Hs) as Hp.
  rewrite E in Hp. apply Permutation_length in Hp. cbn [option_list] in Hp.
  rewrite app_nil_r in Hp. cbn [length] in Hp.
  rewrite impl_length.
  assert (length (recoveryRows (set_recovery (<[s := mkRecovery s "" [] 0 0 None]> (recovery t)) t))
          <= 6)%nat; [|lia].
  apply (length_omap_le _ recoverySlots).
Qed.
End Implements.

Lemma implements_push t q s x :
  implements t q -> 2 <= s <= 7 -> rSlot x = s -> rFP x <> ""%string -> rPSK x <> [] ->
  (forall s' r, recovery t !! s' = Some r -> rFP r = rFP x -> s' = s) ->
  forall q', q ≡ₚ option_list (view <$> recovery t !! s) ++ q' ->
  StronglySorted older (q' ++ [view x]) ->
  implements (set_recovery (<[s := x]> (recovery t)) t) (q' ++ [view x]).
Proof.
  intros H Hs Hx Hf Hp Hu q' Hq Hsort. split; [by apply cacheOK_insert; [apply H|..]| |done].
  pose proof (recoveryRows_insert s x t Hs) as Hr. apply (fmap_Permutation view) in Hr.
  rewrite fmap_app, fmap_cons, (impl_rows t q H), Hq in Hr.
  rewrite (Permutation_app_comm q' _). cbn.
  destruct (recovery t !! s) as [r|]; cbn in Hr.
  - rewrite Permutation_app_comm in Hr. cbn in Hr.
    rewrite (perm_swap (view r) (view x)) in Hr. by apply Permutation_cons_inv in Hr.
  - by rewrite app_nil_r in Hr.
Qed.

Lemma filter_other (q : list (string * Z)) e : NoDup q.*1 -> e ∈ q ->
  q ≡ₚ e :: filter (fun x => x.1 <> e.1) q.
Proof.
  induction q as [|a q IH]; intros Hnd Hin; [by apply elem_of_nil in Hin|].
  apply NoDup_cons in Hnd as [Ha Hnd].
  rewrite filter_cons. apply elem_of_cons in Hin as [<-|Hin].
  - rewrite decide_False by (by intros []). constructor.
    clear - Ha. induction q as [|b q IHq]; [done|]. apply not_elem_of_cons in Ha as [H1 H2].
    rewrite filter_cons, decide_True by done. by rewrite <- IHq.
  - rewrite decide_True.
    + rewrite (IH Hnd Hin) at 1. apply perm_swap.
    + intros Heq. apply Ha. rewrite Heq. apply list_elem_of_fmap. by exists e.
Qed.

Lemma implements_refresh t q r now rotID : implements t q -> Forall (fun e => e.2 < now) q ->
  recovery t !! rSlot r = Some r ->
  implements (set_recovery (<[rSlot r := mkRecovery (rSlot r) (rFP r) (rPSK r) (rPSKHash r) now
                                          rotID]> (recovery t)) t)
    (filter (fun x => x.1 <> rFP r) q ++ [(rFP r, now)]).
Proof.
  intros H Hnow Er. pose proof (impl_ok t q H) as Hok.
  apply (implements_push t q (rSlot r)
           (mkRecovery (rSlot r) (rFP r) (rPSK r) (rPSKHash r) now rotID));
    [done|by apply (cache_slot t Hok _ r)|done|by apply (cache_row t Hok _ _ Er)..| | |].
  - intros s' r' Hr' Hf. by eapply (cache_fp t Hok).
  - rewrite Er. apply (filter_other q (view r)); [by apply (impl_nodup t)|].
    apply (impl_elem t q H). eauto.
  - apply sorted_snoc; [apply sorted_filter, H|]. by apply Forall_filter'.
Qed.

Lemma implements_new t q choice fp now s (x : RecoveryPSKRecord) :
  implements t q -> Forall (fun e => e.2 < now) q -> recoveryByFP fp t = None ->
  coalesce (freeSlot t) (evictSlot choice t) = Some s ->
  rSlot x = s -> view x = (fp, now) -> fp <> ""%string -> rPSK x <> [] ->
  2 <= s <= 7 /\
  implements (set_recovery (<[s := x]> (recovery t)) t)
    (if (length q <? 6)%nat then q ++ [(fp, now)] else tail q ++ [(fp, now)]).
Proof.
  intros H Hnow Er Es Hx Hv Hfp Hp. pose proof (impl_ok t q H) as Hok.
  assert (rFP x = fp) as Hf by (by unfold view in Hv; injection Hv).
  assert (forall s' r, recovery t !! s' = Some r -> rFP r = rFP x -> s' = s) as Hno.
  { intros s' r Hr. rewrite Hf. intros Hr'.
    by destruct (proj1 (recoveryByFP_None t fp Hok) Er s' r). }
  rewrite <- Hv. destruct (freeSlot t) as [s'|] eqn:Ef; cbn [coalesce] in Es.
  - injection Es as ->. rewrite (proj2 (Nat.ltb_lt _ _)) by (by eapply impl_free).
    apply freeSlot_Some in Ef as [Hs Es]. split; [done|].
    apply (implements_push t q s); [done..|by rewrite Hf|done|done|by rewrite Es|].
    rewrite Hv. by apply sorted_snoc; [apply H|].
  - rewrite (impl_full t q H Ef). cbn [Nat.ltb Nat.leb].
    destruct (evictSlot_Some choice t s Hok Es) as (old & Eo & Hmin).
    pose proof (proj1 (cache_slot t Hok s old Eo)) as Hs. split; [done|].
    destruct (oldest_is_front q (view old)) as [q' ->]; [apply H| | |].
    { apply (impl_elem t q H). eauto. }
    { intros e' (s' & r' & Hr' & <-)%(impl_elem t q H). by apply (Hmin s'). }
    cbn [tail]. apply (implements_push t (view old :: q') s);
      [done..|by rewrite Hf|done|done|by rewrite Eo|].
    rewrite Hv. pose proof (impl_sorted _ _ H) as Hst.
    inversion_clear Hst. inversion_clear Hnow. by apply sorted_snoc.
Qed.

(** ** Properties *)

(** C22: The recovery cache is a queue of at most six PSKs.  If the table holds
    the queue [q], whose entries are older than [now], then [AddRecoveryPSK]
    either fails and changes nothing or makes the table hold [remember fp now q]:
    a fingerprint that was there moves to the back, a new one joins the back,
    and only when all six slots are taken the oldest entry goes.  It returns
    the slot, within 2..7, that now holds the fingerprint, and it fails only
    for an empty PSK or fingerprint, a missing rotation or a database error. *)
Theorem recovery_cache_is_fifo fault choice now fp psk hash rotID t q
    (H : implements t q) (Hnow : Forall (fun e => e.2 < now) q) :
  match AddRecoveryPSK fault choice now fp psk hash rotID t with
  | (inl slot, t') =>
      implements t' (remember fp now q) /\ 2 <= slot <= 7 /\
      rFP <$> recovery t' !! slot = Some fp /\ trust t' = trust t /\ rotations t' = rotations t
  | (inr _, t') =>
      t' = t /\ (psk = [] \/ fp = ""%string \/ rotationExists rotID t = false \/ fault <> None)
  end.
Proof.
  pose proof (impl_ok t q H) as Hok. unfold AddRecoveryPSK.
  destruct (Z.eqb_spec (zlen psk) 0) as [Ep|Ep]; [by apply zlen_zero in Ep; auto|].
  destruct (bool_decide_reflect (fp = ""%string)) as [->|Hfp]; [auto|].
  destruct fault as [m|]; cbn [stmt]; [auto 6|].
  unfold remember. destruct (recoveryByFP fp t) as [r|] eqn:Er.
  - destruct (rotationExists rotID t); [|auto 6].
    rewrite decide_True by (apply (impl_fp t q H); by eexists).
    apply (recoveryByFP_Some t fp r Hok) in Er as [Er <-].
    split; [by apply implements_refresh|]. split; [by apply (cache_slot t Hok _ r)|].
    split; [|done]. cbn. by rewrite lookup_insert_eq.
  - rewrite decide_False.
    2:{ intros Hin%(impl_fp t q H). rewrite Er in Hin. by destruct Hin. }
    destruct (coalesce (freeSlot t) (evictSlot choice t)) as [s|] eqn:Es.
    + destruct (rotationExists rotID t); [|auto 6].
      destruct (implements_new t q choice fp now s (mkRecovery s fp psk hash now rotID))
        as [Hs Hi]; try done.
      { cbn. by intros ->. }
      split; [done|]. split; [done|]. split; [|done]. cbn. by rewrite lookup_insert_eq.
    + apply coalesce_None in Es as [Ef Es]. destruct (evictSlot_full choice t Hok Ef). congruence.
Qed.

Definition emptyTables : Tables :=
  mkTables [] ∅ ∅ ∅ ∅ ∅ (mkPolicy [] false [] 0 "").

Lemma implements_empty : implements emptyTables [].
Proof.
  split; [|reflexivity|apply SSorted_nil].
  split; cbn; intros *; by rewrite lookup_empty.
Qed.

(** Seven PSKs go in; the first is gone and the seventh is in its slot. *)
Definition sevenPSKs : Tables :=
  fold_left (fun t k => (AddRecoveryPSK None 0 k ("fp" +:+ itoa k) [byte_of_Z k] k None t).2)
    [1; 2; 3; 4; 5; 6; 7] emptyTables.

Example sevenPSKs_rows :
  (fun r => (rSlot r, rFP r)) <$> recoveryRows sevenPSKs =
  [(2, "fp7"); (3, "fp2"); (4, "fp3"); (5, "fp4"); (6, "fp5"); (7, "fp6")]%string.
Proof. vm_compute. reflexivity. Qed.

Lemma recovery_cache_is_fifo_witness :
  exists t', AddRecoveryPSK None 0 5 "ab" [x01] 1 None emptyTables = (inl 2, t') /\
    implements t' [("ab"%string, 5)].
Proof.
  pose proof (recovery_cache_is_fifo None 0 5 "ab" [x01] 1 None emptyTables [] implements_empty
    (Forall_nil_2 _)) as H.
  eexists. split; [vm_compute; reflexivity|]. apply H.
Defined.

(** *** Channel hashes *)
Lemma fold_lxor l a : fold_left Z.lxor l a = Z.lxor a (fold_left Z.lxor l 0).
Proof.
  revert a. induction l as [|x l IH]; intros a; cbn; [by rewrite Z.lxor_0_r|].
  rewrite (IH (Z.lxor a x)), (IH (Z.lxor 0 x)), Z.lxor_0_l. apply Z.lxor_assoc.
Qed.

Lemma ChannelHash_app name a b :
  ChannelHash name (a ++ b) = Z.lxor (ChannelHash name a) (ChannelHash "" b).
Proof.
  unfold ChannelHash. rewrite map_app, fold_left_app, fold_lxor. done.
Qed.

Lemma ChannelHash_nil : ChannelHash "" [] = 0.
Proof. reflexivity. Qed.

Lemma lxor_byte a b : 0 <= a < 256 -> 0 <= b < 256 -> 0 <= Z.lxor a b < 256.
Proof.
  intros Ha Hb. assert (Z.lxor a b = Z.lxor a b mod 2 ^ 8) as ->.
  - symmetry. apply Z.bits_inj'. intros n Hn. destruct (Z.lt_ge_cases n 8).
    + by rewrite Z.mod_pow2_bits_low by lia.
    + rewrite Z.mod_pow2_bits_high by lia. symmetry. rewrite Z.lxor_spec.
      rewrite <- (Z.mod_small a (2 ^ 8)), <- (Z.mod_small b (2 ^ 8)) by lia.
      by rewrite !Z.mod_pow2_bits_high by lia.
  - apply (Z.mod_pos_bound _ 256). lia.
Qed.

Lemma fold_lxor_byte l a : 0 <= a < 256 -> Forall (fun x => 0 <= x < 256) l ->
  0 <= fold_left Z.lxor l a < 256.
Proof.
  intros Ha Hl. revert a Ha. induction Hl as [|x l Hx Hl IH]; intros a Ha; cbn; [done|].
  by apply IH, lxor_byte.
Qed.

Lemma Forall_Zb l : Forall (fun x => 0 <= x < 256) (map Zb l).
Proof. apply Forall_map, Forall_forall. intros b _. apply Zb_range. Qed.

Lemma ChannelHash_range name psk : 0 <= ChannelHash name psk < 256.
Proof. apply fold_lxor_byte; [apply fold_lxor_byte; [lia|]|]; apply Forall_Zb. Qed.

(** [byte(int16(h))], through the SMALLINT column, gives the hash back. *)
Lemma ChannelHash_uint8 name psk : uint8 (ChannelHash name psk) = ChannelHash name psk.
Proof. unfold uint8. by rewrite Z.mod_small by apply ChannelHash_range. Qed.

(** The channel hash of a PSK is one byte, it does not depend on the order
    of the bytes, and a PSK that repeats itself hashes like the empty PSK, so
    that its channel cannot be told from one without encryption. *)
Theorem channel_hash_weak name psk psk' :
  0 <= ChannelHash name psk < 256 /\
  (psk ≡ₚ psk' -> ChannelHash name psk = ChannelHash name psk') /\
  ChannelHash name (psk ++ psk) = ChannelHash name [].
Proof.
  split; [apply ChannelHash_range|]. split.
  - intros Hp. unfold ChannelHash. generalize (fold_left Z.lxor (map Zb (bytes_of_string name)) 0).
    induction Hp as [|x l l' _ IH|x y l|l l' l'' _ IH1 _ IH2]; intros a; cbn; [done|apply IH| |].
    + f_equal. rewrite !Z.lxor_assoc. f_equal. apply Z.lxor_comm.
    + by rewrite IH1, IH2.
  - rewrite ChannelHash_app. unfold ChannelHash. rewrite fold_lxor.
    rewrite Z.lxor_assoc. change (fold_left Z.lxor (map Zb (bytes_of_string "")) 0) with 0.
    by rewrite Z.lxor_nilpotent, Z.lxor_0_r.
Qed.

Lemma channel_hash_weak_witness :
  ChannelHash "" [x01; x02] = ChannelHash "" [x02; x01].
Proof.
  apply (channel_hash_weak "" [x01; x02] [x02; x01]). apply perm_swap.
Defined.

(** *** The retirement gate *)
Lemma zlen_pos {A} (l : list A) : 0 < zlen l <-> l <> [].
Proof.
  pose proof (zlen_nonneg l). split; [by intros Hl ->|].
  intros Hl. assert (zlen l <> 0); [|lia]. by intros ?%zlen_zero.
Qed.

(** [AllManagedNodesOnPSK] lists exactly the nodes that have an admin key
    and are not recorded on the PSK; its verdict is that there are none. *)
Theorem gate_lists_laggards fp t :
  exists b l, AllManagedNodesOnPSK None fp t = (inl (b, l), t) /\
    (forall num, num ∈ l <-> exists r, trust t !! num = Some r /\ tAdminKeyFPs r <> [] /\
                                       tCurrentPSKFP r <> Some fp) /\
    (b = true <-> forall num r, trust t !! num = Some r -> tAdminKeyFPs r <> [] ->
                                tCurrentPSKFP r = Some fp).
Proof.
  eexists _, _. split; [done|].
  set (l := (filter _ _).*1).
  assert (forall num, num ∈ l <-> exists r, trust t !! num = Some r /\ tAdminKeyFPs r <> [] /\
    tCurrentPSKFP r <> Some fp) as Hl.
  { intros num. unfold l. rewrite list_elem_of_fmap.
    assert (forall r, laggard fp r <-> tAdminKeyFPs r <> [] /\ tCurrentPSKFP r <> Some fp) as Hr.
    { intros r. unfold laggard. rewrite andb_True, negb_True, bool_decide_spec.
      rewrite <- (zlen_pos (tAdminKeyFPs r)), <- Z.ltb_lt. destruct (0 <? _); cbn; intuition done. }
    split.
    - intros ([n r] & -> & [Hlag Hin]%list_elem_of_filter). apply elem_of_map_to_list in Hin.
      apply Hr in Hlag. exists r. by split.
    - intros (r & Hin & Hlag). exists (num, r). split; [done|].
      apply list_elem_of_filter. split; [by apply Hr|]. by apply elem_of_map_to_list. }
  split; [done|]. rewrite bool_decide_eq_true. split.
  - intros Hz%zlen_zero num r Hr Hk. destruct (decide (tCurrentPSKFP r = Some fp)); [done|].
    assert (num ∈ l) as Hin by (apply Hl; eauto). rewrite Hz in Hin. by apply elem_of_nil in Hin.
  - intros Hall. destruct l as [|num l'] eqn:El; [done|].
    destruct (proj1 (Hl num) ltac:(by left)) as (r & Hr & Hk & Hne). by apply Hall in Hr.
Qed.
