(* ===== verification/FleetService.v ===== *)
(** The fleet security service: [internal/fleetsec/service.go], [messages.go]
    and [internal/serial/admin_packet.go].

    A method of [Service] is a computation [M A] on the [World]: the tables,
    the job queue, the session passkeys, the packets handed to the radio and
    the clock.  Everything the service does not decide is in the class [Env]:
    which statements fail, what the radio answers (a function of all that was
    sent before), how long things take.  Methods run one at a time; the
    per-node mutexes ([adminLock]) therefore do not appear. *)
From S2P Require Import Prelude GoStrings FleetStore.
From S2P Require Jobs Tracker.

(** ** messages.go: admin messages

    Generated protobuf structs, with the fields the service uses. *)
Record ChannelSettings : Type := mkSettings { csName : string; csPsk : bytes }.

Definition Channel_DISABLED : Z := 0.
Definition Channel_PRIMARY : Z := 1.
Definition Channel_SECONDARY : Z := 2.

Record Channel : Type := mkCh { chIndex : Z; chRole : Z; chSettings : option ChannelSettings }.

Record SecurityConfig : Type := mkSec {
  PublicKey : bytes; PrivateKey : bytes; AdminKey : list bytes;
  SecIsManaged : bool; AdminChannelEnabled : bool
}.

Definition SECURITY_CONFIG : Z := 7.

(** [PayloadVariant]; a [get_config_response] may hold no config, or one
    that is not the security config. *)
Inductive PayloadVariant : Type :=
| NoVariant
| GetChannelRequest (v : Z)
| GetOwnerRequest
| GetConfigRequest (configType : Z)
| GetModuleConfigRequest
| GetCannedMessageModuleMessagesRequest
| GetDeviceMetadataRequest
| GetRingtoneRequest
| GetDeviceConnectionStatusRequest
| GetNodeRemoteHardwarePinsRequest
| GetUiConfigRequest
| SetChannel (c : Channel)
| SetConfig (sec : SecurityConfig)
| BeginEditSettings
| CommitEditSettings
| GetChannelResponse (c : Channel)
| GetConfigResponse (sec : option SecurityConfig)
| OtherVariant.

Record AdminMessage : Type := mkAdmin { variant : PayloadVariant; SessionPasskey : bytes }.

Definition plain (v : PayloadVariant) : AdminMessage := mkAdmin v [].

Definition AdminGetChannel (idx : Z) : AdminMessage := plain (GetChannelRequest (uint32 (idx + 1))).

Definition AdminSetChannel (idx : Z) (name : string) (role : Z) (psk : bytes) : AdminMessage :=
  plain (SetChannel (mkCh idx role (Some (mkSettings name psk)))).

Definition AdminGetConfig (configType : Z) : AdminMessage := plain (GetConfigRequest configType).

(** [None] is nil: leave unchanged. *)
Record SecurityConfigUpdate : Type := mkUpdate {
  uPublicKey : option bytes; uPrivateKey : option bytes; uAdminKeys : option (list bytes);
  uIsManaged : option bool; uAdminChannelEnabled : option bool
}.

Definition AdminSetSecurity (u : SecurityConfigUpdate) : AdminMessage :=
  plain (SetConfig (mkSec (default [] (uPublicKey u)) (default [] (uPrivateKey u))
    (default [] (uAdminKeys u)) (default false (uIsManaged u))
    (default false (uAdminChannelEnabled u)))).

Definition AdminBeginEditSettings : AdminMessage := plain BeginEditSettings.
Definition AdminCommitEditSettings : AdminMessage := plain CommitEditSettings.

Definition adminMessageExpectsReply (msg : AdminMessage) : bool :=
  match variant msg with
  | GetChannelRequest _ | GetOwnerRequest | GetConfigRequest _ | GetModuleConfigRequest
  | GetCannedMessageModuleMessagesRequest | GetDeviceMetadataRequest | GetRingtoneRequest
  | GetDeviceConnectionStatusRequest | GetNodeRemoteHardwarePinsRequest | GetUiConfigRequest => true
  | _ => false
  end.

Definition with_passkey (pk : bytes) (msg : AdminMessage) : AdminMessage := mkAdmin (variant msg) pk.

Definition extractSecurityConfig (reply : option AdminMessage) : res SecurityConfig :=
  match reply with
  | None => inr (EMsg "nil admin reply")
  | Some m => match variant m with
              | GetConfigResponse (Some sec) => inl sec
              | GetConfigResponse None => inr (EMsg "config missing security sub-message")
              | _ => inr (EMsg "admin reply missing get_config_response")
              end
  end.

Definition extractChannel (reply : option AdminMessage) : res Channel :=
  match reply with
  | None => inr (EMsg "nil admin reply")
  | Some m => match variant m with
              | GetChannelResponse c => inl c
              | _ => inr (EMsg "admin reply missing get_channel_response")
              end
  end.

(** [ch.GetSettings().GetPsk()], nil-safe as at every use. *)
Definition channelPSK (c : Channel) : bytes :=
  match chSettings c with Some s => csPsk s | None => [] end.

(** The values of [Routing.Error] the service knows. *)
Inductive Routing_Error : Type :=
| Routing_NONE | Routing_NO_ROUTE | Routing_GOT_NAK | Routing_TIMEOUT | Routing_NO_INTERFACE
| Routing_MAX_RETRANSMIT | Routing_NO_CHANNEL | Routing_TOO_LARGE | Routing_NO_RESPONSE
| Routing_DUTY_CYCLE_LIMIT | Routing_BAD_REQUEST | Routing_NOT_AUTHORIZED | Routing_PKI_FAILED
| Routing_PKI_UNKNOWN_PUBKEY | Routing_ADMIN_BAD_SESSION_KEY
| Routing_ADMIN_PUBLIC_KEY_UNAUTHORIZED | Routing_RATE_LIMIT_EXCEEDED
| Routing_PKI_SEND_FAIL_PUBLIC_KEY | Routing_other (v : Z).

#[export] Instance Routing_Error_eq_dec : EqDecision Routing_Error.
Proof. solve_decision. Defined.

Definition routingErrorMessage (reason : Routing_Error) : string :=
  match reason with
  | Routing_NONE => "ok"
  | Routing_NO_ROUTE => "no mesh route to target -- node may be offline or out of range"
  | Routing_GOT_NAK => "intermediate hop NAK'd the packet"
  | Routing_TIMEOUT => "mesh hop timed out -- node may be off-air"
  | Routing_NO_INTERFACE => "no radio interface available for delivery"
  | Routing_MAX_RETRANSMIT => "max retries exhausted -- target not responding on the mesh"
  | Routing_NO_CHANNEL => "target has no matching admin channel -- check that CC's pubkey is in its security.admin_key list and the PRIMARY PSK matches"
  | Routing_TOO_LARGE => "admin packet exceeds the radio MTU after encoding"
  | Routing_NO_RESPONSE => "target received the request but did not reply (service unavailable or bad channel permissions)"
  | Routing_DUTY_CYCLE_LIMIT => "duty-cycle regulator blocked send -- retry shortly"
  | Routing_BAD_REQUEST => "target rejected the admin request as malformed"
  | Routing_NOT_AUTHORIZED => "target rejected as not authorized -- packet must arrive on the bound admin channel"
  | Routing_PKI_FAILED => "local PKC encryption failed -- no usable pubkey for target"
  | Routing_PKI_UNKNOWN_PUBKEY => "target lacks our pubkey -- let NodeInfo broadcast on the PRIMARY channel before retrying"
  | Routing_ADMIN_BAD_SESSION_KEY => "session passkey stale or expired -- the cached key was dropped, retry the verify"
  | Routing_ADMIN_PUBLIC_KEY_UNAUTHORIZED => "CC's admin pubkey is not in target's security.admin_key list"
  | Routing_RATE_LIMIT_EXCEEDED => "airtime rate limit exceeded -- retry shortly"
  | Routing_PKI_SEND_FAIL_PUBLIC_KEY => "no PKC pubkey for target known locally -- wait for NodeInfo or rerun manufacture"
  | Routing_other _ => "unrecognised mesh routing error"
  end.

(** ** The environment *)

(** The generated codec, as far as the tracker uses it. *)
Class FleetWire : Type := {
  unmarshalRoutingError : bytes -> option Routing_Error;
  unmarshalAdminMessage : bytes -> option AdminMessage;
  Routing_Error_String : Routing_Error -> string
}.

#[export] Instance fleetPB `{FleetWire} : Tracker.MeshPB := {|
  Tracker.Routing := Routing_Error;
  Tracker.AdminMessage := AdminMessage;
  Tracker.errorReasonNone := fun r => bool_decide (r = Routing_NONE);
  Tracker.unmarshalRouting := unmarshalRoutingError;
  Tracker.unmarshalAdmin := unmarshalAdminMessage
|}.

(** A packet handed to [SendToRadio]: its destination, whether it is PKC
    encrypted, the admin message.  [sAwait] is the transaction kind, absent for
    fire-and-forget frames. *)
Record Sent : Type := mkSent {
  sTo : Z; sPKC : bool; sAwait : option string; sMsg : AdminMessage
}.

(** What the service does not decide.  Functions of a number are indexed by
    the steps taken so far, functions of a list by everything sent so far,
    newest first. *)
Class Env `{FleetWire} : Type := {
  dbFault : nat -> option string;
  serialWired : bool;                          (** [s.serial != nil] *)
  jobsWired : bool;                            (** [s.jobs != nil] *)
  beginFault : nat -> option string;           (** an error of [tracker.Begin] *)
  serialFault : list Sent -> option string;    (** an error of [SendToRadio] *)
  radio : list Sent -> option Tracker.Reply;   (** the reply; absent if the channel was closed *)
  ctxErr : nat -> option string;               (** [ctx.Done()] at a wait *)
  lag : nat -> N;                              (** time beyond what a wait asks for *)
  choice : nat -> nat;                         (** a database's pick among equals *)
  random : nat -> nat -> bytes;                (** [rand.Read] *)
  LocalNodeNum : Z;
  Fingerprint : bytes -> string;               (** SHA-256 *)
  X25519Base : bytes -> bytes                  (** scalar multiplication *)
}.

Record World : Type := mkWorld {
  tables : Tables;
  queue : list Jobs.Job;
  passkeys : gmap Z bytes;
  sentLog : list Sent;
  hook : option (gmap Z string);   (** [recoveryHook] with its [hashFP] *)
  cooldown : gmap Z Z;
  auditLog : list (string * string);
  now : Z;
  ticks : nat;
  nextID : Z
}.

Definition set_tables (t : Tables) (w : World) : World :=
  mkWorld t (queue w) (passkeys w) (sentLog w) (hook w) (cooldown w) (auditLog w) (now w)
    (ticks w) (nextID w).
Definition set_queue (q : list Jobs.Job) (w : World) : World :=
  mkWorld (tables w) q (passkeys w) (sentLog w) (hook w) (cooldown w) (auditLog w) (now w)
    (ticks w) (nextID w).
Definition set_passkeys (m : gmap Z bytes) (w : World) : World :=
  mkWorld (tables w) (queue w) m (sentLog w) (hook w) (cooldown w) (auditLog w) (now w)
    (ticks w) (nextID w).
Definition set_sentLog (l : list Sent) (w : World) : World :=
  mkWorld (tables w) (queue w) (passkeys w) l (hook w) (cooldown w) (auditLog w) (now w)
    (ticks w) (nextID w).
Definition set_hook (h : option (gmap Z string)) (w : World) : World :=
  mkWorld (tables w) (queue w) (passkeys w) (sentLog w) h (cooldown w) (auditLog w) (now w)
    (ticks w) (nextID w).
Definition set_cooldown (m : gmap Z Z) (w : World) : World :=
  mkWorld (tables w) (queue w) (passkeys w) (sentLog w) (hook w) m (auditLog w) (now w)
    (ticks w) (nextID w).
Definition set_auditLog (l : list (string * string)) (w : World) : World :=
  mkWorld (tables w) (queue w) (passkeys w) (sentLog w) (hook w) (cooldown w) l (now w)
    (ticks w) (nextID w).
Definition set_nextID (i : Z) (w : World) : World :=
  mkWorld (tables w) (queue w) (passkeys w) (sentLog w) (hook w) (cooldown w) (auditLog w)
    (now w) (ticks w) i.

(** One step that takes at least [d] nanoseconds. *)
Definition tick `{Env} (d : Z) (w : World) : World :=
  mkWorld (tables w) (queue w) (passkeys w) (sentLog w) (hook w) (cooldown w) (auditLog w)
    (now w + d + Z.of_N (lag (ticks w))) (S (ticks w)) (nextID w).

(** ** The monad *)
Definition M (A : Type) : Type := World -> A * World.

Definition ret {A} (a : A) : M A := fun w => (a, w).
Definition bind {A B} (m : M A) (k : A -> M B) : M B := fun w => let '(a, w') := m w in k a w'.

(** [if err != nil { return err }] *)
Definition try {A B} (m : M (res A)) (k : A -> M (res B)) : M (res B) :=
  bind m (fun r => match r with inl a => k a | inr e => ret (inr e) end).

(** [fmt.Errorf("pre%w", err)] *)
Definition wrap {A} (pre : string) (m : M (res A)) : M (res A) :=
  bind m (fun r => ret (match r with inl a => inl a | inr e => inr (EWrap pre e "") end)).

Declare Scope fleet_scope.
Delimit Scope fleet_scope with fleet.
Notation "'do' x '<-' m ';' k" := (bind m (fun x => k))
  (at level 10, x pattern, m at level 100, k at level 200) : fleet_scope.
Notation "'do?' x '<-' m ';' k" := (try m (fun x => k))
  (at level 10, x pattern, m at level 100, k at level 200) : fleet_scope.
#[global] Open Scope fleet_scope.

Definition fail {A} (e : ferr) : M (res A) := ret (inr e).
Definition ok {A} (a : A) : M (res A) := ret (inl a).
Definition getWorld : M World := fun w => (w, w).
Definition modify (f : World -> World) : M unit := fun w => (tt, f w).

(** A loop over a list, whose body may stop it with an error. *)
Fixpoint forEach {A} (l : list A) (body : A -> M (res unit)) : M (res unit) :=
  match l with
  | [] => ok tt
  | x :: l' => do? _ <- body x; forEach l' body
  end.

Section Service.
Context `{E : Env}.

(** One statement. *)
Definition call {A} (f : option string -> Z -> Stmt A) : M (res A) := fun w =>
  let '(r, t) := f (dbFault (ticks w)) (now w) (tables w) in
  (r, tick 0 (set_tables t w)).

(** A method of two statements. *)
Definition call2 {A} (f : option string -> option string -> Stmt A) : M (res A) := fun w =>
  let '(r, t) := f (dbFault (ticks w)) (dbFault (S (ticks w))) (tables w) in
  (r, tick 0 (tick 0 (set_tables t w))).

Definition jobErr {A} (r : A + Jobs.jobError) : res A :=
  match r with
  | inl a => inl a
  | inr Jobs.ErrNotFound => inr (EMsg "jobs: not found")
  | inr _ => inr (EMsg "jobs: database")
  end.

Definition dbOK : M bool := fun w => (bool_decide (dbFault (ticks w) = None), tick 0 w).

Definition freshID : M Z := fun w => (nextID w, set_nextID (nextID w + 1) w).

Definition enqueue (o : Jobs.EnqueueOpts) : M (res Z) :=
  do id <- freshID;
  do okay <- dbOK;
  fun w => let '(q, r) := Jobs.Enqueue okay id (now w) o (queue w) in (jobErr r, set_queue q w).

Definition hasPendingFor (kind : string) (target : Z) : M (res bool) :=
  do okay <- dbOK; fun w => (jobErr (Jobs.HasPendingFor okay kind target (queue w)), w).

Definition listByRotation (rotID : Z) : M (res (list Jobs.Job)) :=
  do okay <- dbOK; fun w => (jobErr (Jobs.ListByRotation okay rotID (queue w)), w).

(** [select { case <-ctx.Done(): return ctx.Err(); case <-time.After(d): }] *)
Definition sleep (d : Z) : M (res unit) := fun w =>
  (match ctxErr (ticks w) with Some m => inr (EMsg m) | None => inl tt end, tick d w).

(** ** service.go *)
Definition seconds (n : Z) : Z := n * 1000000000.
Definition BroadcastAddr : Z := 0xFFFFFFFF.

Definition cacheSessionPasskey (nodeNum : Z) (pk : bytes) (w : World) : World :=
  if (nodeNum =? 0) || (zlen pk =? 0) then w
  else set_passkeys (<[nodeNum := pk]> (passkeys w)) w.

Definition getSessionPasskey (nodeNum : Z) (w : World) : bytes :=
  default [] (passkeys w !! nodeNum).

Definition invalidateSessionPasskey (nodeNum : Z) (w : World) : World :=
  set_passkeys (delete nodeNum (passkeys w)) w.

(** admin_packet.go: the packets are identified with what they carry; the
    only failures are those of the guards. *)
Definition BuildAdminPacketPKC (remoteNodeNum : Z) (msg : AdminMessage) : res AdminMessage :=
  if (remoteNodeNum =? 0) || (remoteNodeNum =? BroadcastAddr) then
    inr (EMsg ("remote admin requires a unicast destination, got " +:+ itoa remoteNodeNum))
  else inl msg.

Definition replyErrText (e : option Tracker.replyErr) : string :=
  match e with
  | Some Tracker.ErrTransactionTimeout => "transaction timeout"
  | Some Tracker.ErrParentContext => "context canceled"
  | Some Tracker.ErrUnmarshal => "unmarshal"
  | None => "%!w(<nil>)"
  end.

(** The switch of [send] on the reply. *)
Definition handleReply (kind : string) (expectedFrom : Z) (r : Tracker.Reply)
    : M (res (option AdminMessage)) := fun w =>
  match Tracker.Kind r with
  | Tracker.ReplyTimeout | Tracker.ReplyCancelled =>
      (inr (EWrap (kind +:+ ": ") (EMsg (replyErrText (Tracker.Err r))) ""), w)
  | Tracker.ReplyAdminMsg =>
      (inl (Tracker.rAdmin r),
       match Tracker.rAdmin r with
       | Some m => if (0 <? zlen (SessionPasskey m)) && negb (expectedFrom =? 0)
                   then cacheSessionPasskey expectedFrom (SessionPasskey m) w else w
       | None => w
       end)
  | Tracker.ReplyRoutingAck =>
      if Tracker.Successful r then (inl None, w)
      else
        let reason := default Routing_NONE (Tracker.rRouting r) in
        (inr (EMsg (kind +:+ ": " +:+ routingErrorMessage reason +:+ " (" +:+
                    Routing_Error_String reason +:+ ")")),
         if bool_decide (reason = Routing_ADMIN_BAD_SESSION_KEY) && negb (expectedFrom =? 0)
         then invalidateSessionPasskey expectedFrom w else w)
  end.

(** [SendToRadio]: whether it worked. *)
Definition transmit (s : Sent) : M (res unit) := fun w =>
  match serialFault (s :: sentLog w) with
  | Some m => (inr (EMsg m), tick 0 w)
  | None => (inl tt, tick 0 (set_sentLog (s :: sentLog w) w))
  end.

(** The reply channel: the answer to everything sent so far. *)
Definition awaitReply : M (option Tracker.Reply) := fun w => (radio (sentLog w), tick 0 w).

(** [expectedFrom] is also the destination of the packet. *)
Definition send (s : Sent) (kind : string) (expectedFrom : Z) : M (res (option AdminMessage)) :=
  if negb serialWired then fail ErrSerialNotReady
  else
    do w <- getWorld;
    match beginFault (ticks w) with
    | Some m => fail (EWrap "begin transaction: " (EMsg m) "")
    | None =>
        do? _ <- wrap "send to radio: " (transmit s);
        do reply <- awaitReply;
        match reply with
        | None => fail (EMsg "reply channel closed without delivery")
        | Some r => handleReply kind expectedFrom r
        end
    end.

Definition runLocalAdmin (msg : AdminMessage) (kind : string) : M (res (option AdminMessage)) :=
  if LocalNodeNum =? 0 then fail ErrLocalNodeUnknown
  else send (mkSent LocalNodeNum false (Some kind) msg) kind LocalNodeNum.

(** [msg.SessionPasskey = pk] when one is cached. *)
Definition authenticate (remote : Z) (msg : AdminMessage) (w : World) : AdminMessage :=
  let pk := getSessionPasskey remote w in
  if 0 <? zlen pk then with_passkey pk msg else msg.

(** The timeouts differ only in how long the reply may take. *)
Definition runRemoteAdmin (remote : Z) (msg : AdminMessage) (kind : string)
    : M (res (option AdminMessage)) :=
  if remote =? 0 then fail (EMsg "remote node number must be non-zero")
  else
    do w <- getWorld;
    match BuildAdminPacketPKC remote (authenticate remote msg w) with
    | inr e => fail (EWrap "build remote admin packet: " e "")
    | inl frame => send (mkSent remote true (Some kind) frame) kind remote
    end.

Definition fireAndForgetRemoteAdmin (remote : Z) (msg : AdminMessage) : M (res unit) :=
  if negb serialWired then fail ErrSerialNotReady
  else if remote =? 0 then fail (EMsg "remote node number must be non-zero")
  else
    do w <- getWorld;
    match BuildAdminPacketPKC remote (authenticate remote msg w) with
    | inr e => fail (EWrap "build remote admin packet: " e "")
    | inl frame => transmit (mkSent remote true None frame)
    end.

(** Local or remote, as [GetTrust], [SetAdminKeys] and [SetIsManaged] decide. *)
Definition isLocal (nodeNum : Z) : bool := negb (LocalNodeNum =? 0) && (nodeNum =? LocalNodeNum).

Definition runAdmin (nodeNum : Z) (msg : AdminMessage) (localKind remoteKind : string)
    : M (res (option AdminMessage)) :=
  if isLocal nodeNum then runLocalAdmin msg localKind else runRemoteAdmin nodeNum msg remoteKind.

Definition auditFleet (action resourceID : string) : M unit :=
  modify (fun w => set_auditLog (auditLog w ++ [("fleetsec." +:+ action, resourceID)]) w).
End Service.

(** What [auditFleet] does to the details it logs. *)
Definition isSecretKey (k : string) : bool :=
  bool_decide (k ∈ ["psk"; "psk_b64"; "private_key"; "priv_b64"; "privkey"; "secret"]%string).

Definition redactSecrets {V} (redacted : V) (m : gmap string V) : gmap string V :=
  map_imap (fun k v => Some (if isSecretKey k then redacted else v)) m.

(** ** Reasoning: running a method step by step *)
Lemma bind_eval {A B} (m : M A) (k : A -> M B) w : bind m k w = k (m w).1 (m w).2.
Proof. unfold bind. by destruct (m w). Qed.

Lemma try_eval {A B} (m : M (res A)) (k : A -> M (res B)) w :
  try m k w = match m w with (inl a, w') => k a w' | (inr e, w') => (inr e, w') end.
Proof. unfold try, bind. by destruct (m w) as [[a|e] w']. Qed.

Lemma wrap_eval {A} pre (m : M (res A)) w :
  wrap pre m w = match m w with
                 | (inl a, w') => (inl a, w')
                 | (inr e, w') => (inr (EWrap pre e ""), w')
                 end.
Proof. unfold wrap, bind. by destruct (m w) as [[a|e] w']. Qed.

(** ** Reasoning: weakest preconditions

    [wp m Q w]: run from [w], [m] ends with a result and a world in [Q]. *)
Definition wp {A} (m : M A) (Q : A -> World -> Prop) (w : World) : Prop := Q (m w).1 (m w).2.

Lemma wp_ret {A} (a : A) Q w : Q a w -> wp (ret a) Q w.
Proof. done. Qed.

Lemma wp_bind {A B} (m : M A) (k : A -> M B) Q w :
  wp m (fun a => wp (k a) Q) w -> wp (bind m k) Q w.
Proof. unfold wp, bind. by destruct (m w). Qed.

Lemma wp_try {A B} (m : M (res A)) (k : A -> M (res B)) Q w :
  wp m (fun r w' => match r with inl a => wp (k a) Q w' | inr e => Q (inr e) w' end) w ->
  wp (try m k) Q w.
Proof. unfold try. intros H. apply wp_bind. revert H. unfold wp. by destruct (m w) as [[a|e] w']. Qed.

Lemma wp_mono {A} (m : M A) (P Q : A -> World -> Prop) w :
  wp m P w -> (forall a w', P a w' -> Q a w') -> wp m Q w.
Proof. unfold wp. auto. Qed.

Lemma wp_wrap {A} pre (m : M (res A)) Q w :
  wp m (fun r w' => match r with inl a => Q (inl a) w' | inr e => Q (inr (EWrap pre e "")) w' end) w ->
  wp (wrap pre m) Q w.
Proof. unfold wrap. intros H. apply wp_bind. revert H. unfold wp. by destruct (m w) as [[a|e] w']. Qed.

(** ** Reasoning: what a method may change

    [R] relates the world before and after; a preorder is kept by
    sequencing, so that a method keeps it when its steps do. *)
Definition keeps {A} (R : relation World) (m : M A) : Prop := forall w, R w (m w).2.

Create HintDb keeps.

Section Keeps.
Context (R : relation World) `{!PreOrder R}.

Lemma keeps_ret {A} (a : A) : keeps R (ret a).
Proof. intros w. reflexivity. Qed.

Lemma keeps_bind {A B} (m : M A) (k : A -> M B) :
  keeps R m -> (forall a, keeps R (k a)) -> keeps R (bind m k).
Proof.
  intros Hm Hk w. unfold bind. specialize (Hm w). destruct (m w) as [a w'].
  etrans; [exact Hm|]. apply Hk.
Qed.

Lemma keeps_try {A B} (m : M (res A)) (k : A -> M (res B)) :
  keeps R m -> (forall a, keeps R (k a)) -> keeps R (try m k).
Proof. intros Hm Hk. apply keeps_bind; [done|]. intros [a|e]; [apply Hk|apply keeps_ret]. Qed.

Lemma keeps_wrap {A} pre (m : M (res A)) : keeps R m -> keeps R (wrap pre m).
Proof. intros Hm. apply keeps_bind; [done|]. intros [a|e]; apply keeps_ret. Qed.

Lemma keeps_forEach {A} (l : list A) body : (forall x, x ∈ l -> keeps R (body x)) ->
  keeps R (forEach l body).
Proof.
  induction l as [|x l IH]; intros H; cbn; [apply keeps_ret|].
  apply keeps_try; [apply H; by left|]. intros _. apply IH. intros y Hy. apply H. by right.
Qed.

Lemma keeps_getWorld : keeps R getWorld.
Proof. intros w. reflexivity. Qed.
End Keeps.

#[export] Hint Resolve keeps_ret keeps_getWorld : keeps.

(** Take a method apart. *)
Ltac keeps_step :=
  match goal with
  | |- keeps _ (bind _ _) => apply keeps_bind; [apply _| |intros ?]
  | |- keeps _ (try _ _) => apply keeps_try; [apply _| |intros ?]
  | |- keeps _ (wrap _ _) => apply keeps_wrap; [apply _|]
  | |- keeps _ (ret _) => apply keeps_ret; apply _
  | |- keeps _ (fail _) => apply keeps_ret; apply _
  | |- keeps _ (ok _) => apply keeps_ret; apply _
  | |- keeps _ getWorld => apply keeps_getWorld; apply _
  | |- keeps _ (forEach _ _) => apply keeps_forEach; [apply _|intros ? ?]
  | |- keeps _ (match ?x with _ => _ end) => destruct x
  | |- keeps _ (if ?x then _ else _) => destruct x
  end.
Ltac keeps := repeat (keeps_step || solve [eauto with keeps]).

(** Preorders: a projection is unchanged; the log of packets only grows. *)
Definition same {A} (f : World -> A) : relation World := fun w w' => f w' = f w.
#[export] Instance same_preorder {A} (f : World -> A) : PreOrder (same f).
Proof. split; [done|]. unfold same. intros x y z H1 H2. congruence. Qed.

Definition logGrows : relation World := fun w w' => exists l, sentLog w' = l ++ sentLog w.
#[export] Instance logGrows_preorder : PreOrder logGrows.
Proof.
  split; [by exists []|]. intros x y z [l Hl] [k Hk]. exists (k ++ l).
  by rewrite Hk, Hl, app_assoc.
Qed.

(** Everything but the radio: the parts of the world that no exchange with a
    node can change. *)
Definition radioOnly : relation World := fun w w' =>
  tables w' = tables w /\ queue w' = queue w /\ hook w' = hook w /\ cooldown w' = cooldown w /\
  auditLog w' = auditLog w /\ nextID w' = nextID w /\ logGrows w w' /\ now w <= now w'.
#[export] Instance radioOnly_preorder : PreOrder radioOnly.
Proof.
  split.
  - intros w. unfold radioOnly. repeat split; try reflexivity; lia.
  - intros x y z (? & ? & ? & ? & ? & ? & G1 & ?) (? & ? & ? & ? & ? & ? & G2 & ?).
    repeat split; try congruence; [by etrans|lia].
Qed.

(** Everything but the tables. *)
Definition tablesOnly : relation World := fun w w' =>
  queue w' = queue w /\ hook w' = hook w /\ cooldown w' = cooldown w /\ sentLog w' = sentLog w /\
  passkeys w' = passkeys w /\ now w <= now w'.
#[export] Instance tablesOnly_preorder : PreOrder tablesOnly.
Proof.
  split.
  - intros w. unfold tablesOnly. repeat split; try reflexivity; lia.
  - intros x y z (? & ? & ? & ? & ? & ?) (? & ? & ? & ? & ? & ?). repeat split; try congruence; lia.
Qed.

Section Frames.
Context `{E : Env}.

Lemma tick_radioOnly d w : 0 <= d -> radioOnly w (tick d w).
Proof. intros Hd. repeat split; try done; [by exists []|]. cbn. lia. Qed.

Lemma call_tablesOnly {A} (f : option string -> Z -> Stmt A) : keeps tablesOnly (call f).
Proof. intros w. unfold call. destruct (f _ _ _). repeat split; cbn; lia. Qed.

Lemma call2_tablesOnly {A} (f : option string -> option string -> Stmt A) :
  keeps tablesOnly (call2 f).
Proof. intros w. unfold call2. destruct (f _ _ _). repeat split; cbn; lia. Qed.

Lemma transmit_radioOnly s : keeps radioOnly (transmit s).
Proof.
  intros w. unfold transmit. destruct (serialFault _); cbn [snd].
  - by apply tick_radioOnly.
  - repeat split; try done; [by exists [s]|]. cbn. lia.
Qed.

Lemma awaitReply_radioOnly : keeps radioOnly awaitReply.
Proof. intros w. by apply tick_radioOnly. Qed.

Lemma set_passkeys_radioOnly m w : radioOnly w (set_passkeys m w).
Proof. repeat split; try done. by exists []. Qed.

Lemma handleReply_radioOnly kind from r : keeps radioOnly (handleReply kind from r).
Proof.
  intros w. unfold handleReply, cacheSessionPasskey, invalidateSessionPasskey.
  repeat case_match; cbn; try reflexivity; apply set_passkeys_radioOnly.
Qed.
#[local] Hint Resolve transmit_radioOnly awaitReply_radioOnly handleReply_radioOnly : keeps.

Lemma send_radioOnly s kind from : keeps radioOnly (send s kind from).
Proof. unfold send. keeps. Qed.
#[local] Hint Resolve send_radioOnly : keeps.

Lemma runLocalAdmin_radioOnly msg kind : keeps radioOnly (runLocalAdmin msg kind).
Proof. unfold runLocalAdmin. keeps. Qed.

Lemma runRemoteAdmin_radioOnly remote msg kind : keeps radioOnly (runRemoteAdmin remote msg kind).
Proof. unfold runRemoteAdmin. keeps. Qed.

Lemma fireAndForget_radioOnly remote msg : keeps radioOnly (fireAndForgetRemoteAdmin remote msg).
Proof. unfold fireAndForgetRemoteAdmin. keeps. Qed.
#[local] Hint Resolve runLocalAdmin_radioOnly runRemoteAdmin_radioOnly : keeps.

Lemma runAdmin_radioOnly num msg lk rk : keeps radioOnly (runAdmin num msg lk rk).
Proof. unfold runAdmin. keeps. Qed.

Lemma sleep_radioOnly d : 0 <= d -> keeps radioOnly (sleep d).
Proof. intros Hd w. by apply tick_radioOnly. Qed.
End Frames.

#[export] Hint Resolve transmit_radioOnly awaitReply_radioOnly handleReply_radioOnly send_radioOnly
  runLocalAdmin_radioOnly runRemoteAdmin_radioOnly fireAndForget_radioOnly runAdmin_radioOnly
  sleep_radioOnly call_tablesOnly call2_tablesOnly : keeps.

(** *** The packets a method hands to the radio *)
Definition emits (P : Sent -> Prop) : relation World := fun w w' =>
  exists l, sentLog w' = l ++ sentLog w /\ Forall P l.
#[export] Instance emits_preorder P : PreOrder (emits P).
Proof.
  split; [by exists []|]. intros x y z (l & Hl & HP) (k & Hk & HQ). exists (k ++ l).
  split; [by rewrite Hk, Hl, app_assoc|]. by apply Forall_app.
Qed.

Lemma emits_same P w w' : sentLog w' = sentLog w -> emits P w w'.
Proof. intros H. by exists []. Qed.

Lemma emits_none P w w' : (forall s, ~ P s) -> emits P w w' -> sentLog w' = sentLog w.
Proof.
  intros HP (l & Hl & H). destruct H as [|s l Hs _]; [done|]. by destruct (HP s).
Qed.

Lemma emits_mono (P Q : Sent -> Prop) w w' :
  (forall s, P s -> Q s) -> emits P w w' -> emits Q w w'.
Proof. intros HPQ (l & Hl & HP). exists l. split; [done|]. by eapply Forall_impl. Qed.

(** Every packet of an exchange carries the message it is for, with the
    passkey cached for its destination if it is remote. *)
Definition carries (num : Z) (v : PayloadVariant) (s : Sent) : Prop :=
  sTo s = num /\ variant (sMsg s) = v.

Section Emits.
Context `{E : Env}.

Lemma transmit_emits P s : P s -> keeps (emits P) (transmit s).
Proof.
  intros HP w. unfold transmit. destruct (serialFault _); [by apply emits_same|].
  exists [s]. split; [done|]. by constructor.
Qed.

Lemma handleReply_emits P kind from r : keeps (emits P) (handleReply kind from r).
Proof.
  intros w. apply emits_same.
  unfold handleReply, cacheSessionPasskey, invalidateSessionPasskey. by repeat case_match.
Qed.

Lemma awaitReply_emits P : keeps (emits P) awaitReply.
Proof. intros w. by apply emits_same. Qed.

Lemma call_emits P {A} (f : option string -> Z -> Stmt A) : keeps (emits P) (call f).
Proof. intros w. apply emits_same. unfold call. by destruct (f _ _ _). Qed.

Lemma call2_emits P {A} (f : option string -> option string -> Stmt A) : keeps (emits P) (call2 f).
Proof. intros w. apply emits_same. unfold call2. by destruct (f _ _ _). Qed.

Lemma sleep_emits P d : keeps (emits P) (sleep d).
Proof. intros w. by apply emits_same. Qed.

Lemma modify_emits P f : (forall w, sentLog (f w) = sentLog w) -> keeps (emits P) (modify f).
Proof. intros Hf w. apply emits_same, Hf. Qed.

Lemma auditFleet_emits P action rid : keeps (emits P) (auditFleet action rid).
Proof. by apply modify_emits. Qed.

Lemma freshID_emits P : keeps (emits P) freshID.
Proof. intros w. by apply emits_same. Qed.

Lemma enqueue_emits P o : keeps (emits P) (enqueue o).
Proof.
  intros w. apply emits_same. unfold enqueue, bind, freshID, dbOK, Jobs.Enqueue. cbn.
  by case_bool_decide.
Qed.

Lemma hasPendingFor_emits P kind target : keeps (emits P) (hasPendingFor kind target).
Proof. intros w. by apply emits_same. Qed.

Lemma listByRotation_emits P rotID : keeps (emits P) (listByRotation rotID).
Proof. intros w. by apply emits_same. Qed.
#[local] Hint Resolve handleReply_emits awaitReply_emits : keeps.

Lemma send_emits P s kind from : P s -> keeps (emits P) (send s kind from).
Proof. intros HP. unfold send. keeps. by apply transmit_emits. Qed.

Lemma authenticate_variant remote msg w : variant (authenticate remote msg w) = variant msg.
Proof. unfold authenticate. by case_match. Qed.

Lemma BuildAdminPacketPKC_inl remote msg frame :
  BuildAdminPacketPKC remote msg = inl frame -> frame = msg /\ remote <> 0 /\ remote <> BroadcastAddr.
Proof.
  unfold BuildAdminPacketPKC. destruct (Z.eqb_spec remote 0), (Z.eqb_spec remote BroadcastAddr);
    cbn; try done. by intros [= <-].
Qed.

Lemma runLocalAdmin_emits (P : Sent -> Prop) msg kind :
  (forall s, carries LocalNodeNum (variant msg) s -> P s) -> keeps (emits P) (runLocalAdmin msg kind).
Proof. intros HP. unfold runLocalAdmin. keeps. apply send_emits. by apply HP. Qed.

Lemma runRemoteAdmin_emits (P : Sent -> Prop) remote msg kind :
  (forall s, carries remote (variant msg) s -> P s) -> keeps (emits P) (runRemoteAdmin remote msg kind).
Proof.
  intros HP. unfold runRemoteAdmin. case_match; [keeps|]. apply keeps_bind; [apply _|keeps|].
  intros w. destruct (BuildAdminPacketPKC _ _) as [f|] eqn:Eb; [|keeps].
  apply BuildAdminPacketPKC_inl in Eb as (-> & _). apply send_emits, HP.
  split; [done|]. apply authenticate_variant.
Qed.

Lemma fireAndForget_emits (P : Sent -> Prop) remote msg :
  (forall s, carries remote (variant msg) s -> P s) ->
  keeps (emits P) (fireAndForgetRemoteAdmin remote msg).
Proof.
  intros HP. unfold fireAndForgetRemoteAdmin. case_match; [keeps|]. case_match; [keeps|].
  apply keeps_bind; [apply _|keeps|].
  intros w. destruct (BuildAdminPacketPKC _ _) as [f|] eqn:Eb; [|keeps].
  apply BuildAdminPacketPKC_inl in Eb as (-> & _). apply transmit_emits, HP.
  split; [done|]. apply authenticate_variant.
Qed.

Lemma runAdmin_emits (P : Sent -> Prop) num msg lk rk :
  (forall s, carries num (variant msg) s -> P s) -> keeps (emits P) (runAdmin num msg lk rk).
Proof.
  intros HP. unfold runAdmin, isLocal. destruct (negb _ && _) eqn:El.
  - apply andb_true_iff in El as [_ El%Z.eqb_eq]. subst num. by apply runLocalAdmin_emits.
  - by apply runRemoteAdmin_emits.
Qed.
End Emits.

#[export] Hint Resolve call_emits call2_emits sleep_emits auditFleet_emits freshID_emits
  enqueue_emits hasPendingFor_emits listByRotation_emits : keeps.
#[export] Hint Resolve runLocalAdmin_emits runRemoteAdmin_emits fireAndForget_emits runAdmin_emits : keeps.

(** *** The packets a method hands to the radio, in order

    [sends num vs]: exactly the messages [vs], in that order, PKC encrypted,
    to the node [num]. *)
Definition sends (num : Z) (vs : list PayloadVariant) : relation World := fun w w' =>
  exists l, sentLog w' = rev l ++ sentLog w /\
            map (fun s => variant (sMsg s)) l = vs /\
            Forall (fun s => sTo s = num /\ sPKC s = true) l.

Lemma sends_nil num w w' : sentLog w' = sentLog w -> sends num [] w w'.
Proof. intros H. by exists []. Qed.

Lemma sends_one num w w' s : sentLog w' = s :: sentLog w -> sTo s = num -> sPKC s = true ->
  sends num [variant (sMsg s)] w w'.
Proof. intros H H1 H2. exists [s]. split; [done|]. split; [done|]. by repeat constructor. Qed.

Lemma sends_app num vs vs' w w' w'' :
  sends num vs w w' -> sends num vs' w' w'' -> sends num (vs ++ vs') w w''.
Proof.
  intros (l & H1 & H2 & H3) (l' & H1' & H2' & H3'). exists (l ++ l').
  split; [by rewrite H1', H1, rev_app_distr, app_assoc|].
  split; [by rewrite map_app, H2, H2'|]. by apply Forall_app.
Qed.

Section Sends.
Context `{E : Env}.

Lemma transmit_log s w :
  (exists m, (transmit s w).1 = inr m /\ sentLog (transmit s w).2 = sentLog w) \/
  ((transmit s w).1 = inl tt /\ sentLog (transmit s w).2 = s :: sentLog w).
Proof. unfold transmit. destruct (serialFault _); cbn; [left; by eexists|by right]. Qed.

Lemma handleReply_log kind from r w : sentLog (handleReply kind from r w).2 = sentLog w.
Proof.
  unfold handleReply, cacheSessionPasskey, invalidateSessionPasskey. by repeat case_match.
Qed.

(** The packet is sent or it is not; an answer was the radio's to it. *)
Lemma send_log s kind from w :
  (exists e, (send s kind from w).1 = inr e /\ sentLog (send s kind from w).2 = sentLog w) \/
  (sentLog (send s kind from w).2 = s :: sentLog w /\
   forall a, (send s kind from w).1 = inl (Some a) ->
     exists r, radio (s :: sentLog w) = Some r /\ Tracker.Kind r = Tracker.ReplyAdminMsg /\
               Tracker.rAdmin r = Some a).
Proof.
  unfold send. destruct serialWired; cbn [negb]; [|left; by eexists].
  rewrite bind_eval. cbn [getWorld fst snd]. destruct (beginFault _); [left; by eexists|].
  rewrite try_eval, wrap_eval. pose proof (transmit_log s w) as Ht.
  destruct (transmit s w) as [[[]|e] w1]; cbn [fst snd] in Ht;
    destruct Ht as [(m & Hm & Hl)|[Hm Hl]]; try discriminate; [|left; by eexists].
  right. rewrite bind_eval. unfold awaitReply. cbn [fst snd]. rewrite Hl.
  destruct (radio _) as [r|]; [|by split].
  rewrite handleReply_log. cbn [tick sentLog]. split; [done|]. intros a Ha. exists r.
  split; [done|]. unfold handleReply in Ha. destruct (Tracker.Kind r) eqn:Ek; try done.
  - by destruct (Tracker.Successful r).
  - split; [done|]. cbn in Ha. by injection Ha.
Qed.

Lemma runRemoteAdmin_log remote msg kind w :
  (exists e, (runRemoteAdmin remote msg kind w).1 = inr e /\
             sentLog (runRemoteAdmin remote msg kind w).2 = sentLog w) \/
  (sends remote [variant msg] w (runRemoteAdmin remote msg kind w).2 /\
   forall a, (runRemoteAdmin remote msg kind w).1 = inl (Some a) ->
     exists r, radio (sentLog (runRemoteAdmin remote msg kind w).2) = Some r /\
               Tracker.Kind r = Tracker.ReplyAdminMsg /\ Tracker.rAdmin r = Some a).
Proof.
  unfold runRemoteAdmin. destruct (remote =? 0); [left; by eexists|].
  rewrite bind_eval. cbn [getWorld fst snd].
  destruct (BuildAdminPacketPKC _ _) as [f|e] eqn:Eb; [|left; by eexists].
  apply BuildAdminPacketPKC_inl in Eb as (-> & _).
  set (p := mkSent _ _ _ _).
  destruct (send_log p kind remote w) as [He|[Hl Hr]]; [by left|]. right. rewrite Hl. split; [|done].
  rewrite <- (authenticate_variant remote msg w). by apply (sends_one remote w _ p).
Qed.

Lemma fireAndForget_log remote msg w :
  (exists e, (fireAndForgetRemoteAdmin remote msg w).1 = inr e /\
             sends remote [] w (fireAndForgetRemoteAdmin remote msg w).2) \/
  ((fireAndForgetRemoteAdmin remote msg w).1 = inl tt /\
   sends remote [variant msg] w (fireAndForgetRemoteAdmin remote msg w).2).
Proof.
  unfold fireAndForgetRemoteAdmin. destruct serialWired; cbn [negb];
    [|left; eexists; split; [done|by apply sends_nil]].
  destruct (remote =? 0); [left; eexists; split; [done|by apply sends_nil]|].
  rewrite bind_eval. cbn [getWorld fst snd].
  destruct (BuildAdminPacketPKC _ _) as [f|e] eqn:Eb;
    [|left; eexists; split; [done|by apply sends_nil]].
  apply BuildAdminPacketPKC_inl in Eb as (-> & _).
  set (p := mkSent _ _ _ _).
  destruct (transmit_log p w) as [(m & Hm & Hl)|[Hm Hl]]; [left|right].
  - eexists. split; [done|]. by apply sends_nil.
  - split; [done|]. rewrite <- (authenticate_variant remote msg w). by apply (sends_one remote w _ p).
Qed.
End Sends.

(** *** Statements, one at a time *)
Section Calls.
Context `{E : Env}.

Lemma wp_call {A} (f : option string -> Z -> Stmt A) (Q : res A -> World -> Prop) w :
  (let rt := f (dbFault (ticks w)) (now w) (tables w) in Q rt.1 (tick 0 (set_tables rt.2 w))) ->
  wp (call f) Q w.
Proof. unfold wp, call. by destruct (f _ _ _). Qed.

Lemma wp_getWorld (Q : World -> World -> Prop) w : Q w w -> wp getWorld Q w.
Proof. done. Qed.

(** Reading the tables: the world is as before, but for the clock. *)
Definition unread (w w' : World) : Prop :=
  exists d k, w' = mkWorld (tables w) (queue w) (passkeys w) (sentLog w) (hook w) (cooldown w)
                     (auditLog w) (now w + Z.of_N d) (k + ticks w) (nextID w).

#[export] Instance unread_preorder : PreOrder unread.
Proof.
  split.
  - intros w. exists 0%N, 0%nat. cbn. rewrite Z.add_0_r. by destruct w.
  - intros x y z (d & k & ->) (d' & k' & ->). exists (d + d')%N, (k' + k)%nat. cbn.
    f_equal; lia.
Qed.

Lemma unread_tick w : unread w (tick 0 w).
Proof. exists (lag (ticks w)), 1%nat. unfold tick. f_equal; lia. Qed.

Lemma call_reads {A} (f : option string -> Z -> Stmt A) :
  (forall fl n t, (f fl n t).2 = t) -> keeps unread (call f).
Proof.
  intros Hf w. unfold call. specialize (Hf (dbFault (ticks w)) (now w) (tables w)).
  destruct (f _ _ _) as [r t]. cbn in *. subst t. apply (unread_tick w).
Qed.

Lemma stmt_reads {A} ctx fl (f : Stmt A) t : (f t).2 = t -> (stmt ctx fl f t).2 = t.
Proof. by destruct fl. Qed.
End Calls.

(** A database that answers. *)
Definition reliableDB `{Env} : Prop := forall n, dbFault n = None.

Lemma call_eval `{E : Env} {A} (f : option string -> Z -> Stmt A) w : reliableDB ->
  call f w = ((f None (now w) (tables w)).1, tick 0 (set_tables (f None (now w) (tables w)).2 w)).
Proof. intros Hdb. unfold call. rewrite (Hdb (ticks w)). by destruct (f _ _ _). Qed.

(** A statement that only reads. *)
Lemma call_read `{E : Env} {A} (f : option string -> Z -> Stmt A) w : reliableDB ->
  (f None (now w) (tables w)).2 = tables w ->
  call f w = ((f None (now w) (tables w)).1, tick 0 w).
Proof. intros Hdb Hf. rewrite call_eval by done. rewrite Hf. by destruct w. Qed.

Lemma call2_eval `{E : Env} {A} (f : option string -> option string -> Stmt A) w : reliableDB ->
  call2 f w = ((f None None (tables w)).1, tick 0 (tick 0 (set_tables (f None None (tables w)).2 w))).
Proof. intros Hdb. unfold call2. rewrite !Hdb. by destruct (f _ _ _). Qed.

(** The row [Jobs.Enqueue] adds. *)
Definition newJob (id at_ : Z) (o : Jobs.EnqueueOpts) : Jobs.Job :=
  Jobs.mkJob id (Jobs.oKind o) (Jobs.oRotationID o) (Jobs.oTargetNodeNum o) Jobs.StateQueued 0
    None (Jobs.oPayload o) at_ None None None.

Lemma enqueue_eval `{E : Env} o w : reliableDB ->
  enqueue o w =
  (inl (nextID w),
   let w1 := tick 0 (set_nextID (nextID w + 1) w) in
   set_queue (queue w ++ [newJob (nextID w) (now w1) o]) w1).
Proof.
  intros Hdb. unfold enqueue. rewrite bind_eval. unfold freshID. cbn [fst snd].
  rewrite bind_eval. unfold dbOK. rewrite Hdb. cbn [fst snd]. rewrite bool_decide_true by done.
  reflexivity.
Qed.

Lemma hasPendingFor_eval `{E : Env} kind target w : reliableDB ->
  hasPendingFor kind target w =
  (inl (0 <? zlen (List.filter (Jobs.pendingFor kind target) (queue w))), tick 0 w).
Proof.
  intros Hdb. unfold hasPendingFor. rewrite bind_eval. unfold dbOK. rewrite Hdb. cbn [fst snd].
  by rewrite bool_decide_true.
Qed.

Lemma listByRotation_eval `{E : Env} rotID w : reliableDB ->
  listByRotation rotID w = (jobErr (Jobs.ListByRotation true rotID (queue w)), tick 0 w).
Proof.
  intros Hdb. unfold listByRotation. rewrite bind_eval. unfold dbOK. rewrite Hdb. cbn [fst snd].
  by rewrite bool_decide_true.
Qed.

(** ** A concrete environment, for examples

    No statement fails, node 1 is attached, waits take exactly as long as
    asked, a fingerprint is the key itself after a hash sign; only the radio
    varies. *)
#[export] Instance exampleWire : FleetWire := {|
  unmarshalRoutingError := fun _ => None;
  unmarshalAdminMessage := fun _ => None;
  Routing_Error_String := fun _ => "reason"
|}.

Definition exampleEnv (answers : list Sent -> option Tracker.Reply) : Env := {|
  dbFault := fun _ => None;
  serialWired := true;
  jobsWired := true;
  beginFault := fun _ => None;
  serialFault := fun _ => None;
  radio := answers;
  ctxErr := fun _ => None;
  lag := fun _ => 0%N;
  choice := fun _ => 0%nat;
  random := fun _ n => repeat x01 n;
  LocalNodeNum := 1;
  Fingerprint := fun b => "#" +:+ string_of_bytes b;
  X25519Base := fun b => b
|}.

Definition ackReply : Tracker.Reply :=
  Tracker.mkReply Tracker.ReplyRoutingAck 0 (Some Routing_NONE) None None.
Definition timeoutReply : Tracker.Reply :=
  Tracker.mkReply Tracker.ReplyTimeout 0 None None (Some Tracker.ErrTransactionTimeout).
Definition adminReply (v : PayloadVariant) (pk : bytes) : Tracker.Reply :=
  Tracker.mkReply Tracker.ReplyAdminMsg 0 None (Some (mkAdmin v pk)) None.

(** Nothing but the tables. *)
Definition startWorld (t : Tables) : World := mkWorld t [] ∅ [] (Some ∅) ∅ [] 0 0 100.

(** ** Properties *)

(** The packets of a remote exchange, newest first, and what it does to the
    passkeys. *)
Definition remotePacket `{Env} (remote : Z) (msg : AdminMessage) (kind : string) (w : World) : Sent :=
  mkSent remote true (Some kind) (authenticate remote msg w).

(** Session passkeys.  A remote exchange sends at most one packet: PKC
    encrypted, to that node, carrying the message with the passkey cached for
    the node.  Afterwards the passkeys of other nodes are as before, and that
    of the node is the one of its admin reply if it sent one, is forgotten
    after a refusal for a bad session key, and is unchanged otherwise. *)
Theorem session_passkeys `{E : Env} remote msg kind w :
  let p := remotePacket remote msg kind w in
  let w' := (runRemoteAdmin remote msg kind w).2 in
  (sentLog w' = sentLog w \/ (sentLog w' = p :: sentLog w /\ remote <> 0 /\ remote <> BroadcastAddr)) /\
  (forall num, num <> remote -> passkeys w' !! num = passkeys w !! num) /\
  (passkeys w' !! remote = passkeys w !! remote \/
   exists r, radio (p :: sentLog w) = Some r /\
     match Tracker.Kind r with
     | Tracker.ReplyAdminMsg => exists m, Tracker.rAdmin r = Some m /\
         SessionPasskey m <> [] /\ passkeys w' !! remote = Some (SessionPasskey m)
     | Tracker.ReplyRoutingAck =>
         Tracker.rRouting r = Some Routing_ADMIN_BAD_SESSION_KEY /\ passkeys w' !! remote = None
     | _ => False
     end).
Proof.
  cbn zeta. unfold runRemoteAdmin. destruct (Z.eqb_spec remote 0) as [|Hr]; [cbn; auto|].
  rewrite bind_eval. cbn [getWorld fst snd].
  destruct (BuildAdminPacketPKC _ _) as [f|e] eqn:Eb; [|cbn; auto].
  apply BuildAdminPacketPKC_inl in Eb as (-> & _ & Hbc).
  unfold send. destruct serialWired; [|cbn; auto]. cbn [negb]. rewrite bind_eval. cbn [getWorld fst snd].
  destruct (beginFault _); [cbn; auto|]. rewrite try_eval, wrap_eval. unfold transmit.
  destruct (serialFault _); [cbn; auto|]. rewrite bind_eval. unfold awaitReply.
  cbn [fst snd tick sentLog set_sentLog]. fold (remotePacket remote msg kind w).
  destruct (radio _) as [r|] eqn:Er; [|cbn; auto].
  unfold handleReply, cacheSessionPasskey, invalidateSessionPasskey.
  destruct (Tracker.Kind r) eqn:Ek; [|destruct (Tracker.rAdmin r) as [m|] eqn:Ea|cbn; auto..].
  - destruct (Tracker.Successful r) eqn:Es; [cbn; auto|].
    destruct (bool_decide_reflect (default Routing_NONE (Tracker.rRouting r) =
      Routing_ADMIN_BAD_SESSION_KEY)) as [Hbad|]; [|cbn; auto].
    rewrite (proj2 (Z.eqb_neq remote 0) Hr). cbn.
    split; [auto|]. split; [by intros num Hn; rewrite lookup_delete_ne|].
    right. exists r. rewrite Ek, lookup_delete_eq. split; [done|]. split; [|done].
    by destruct (Tracker.rRouting r) as [x|]; cbn in Hbad; [subst x|].
  - destruct (0 <? zlen (SessionPasskey m)) eqn:Ez; [|cbn; auto].
    rewrite (proj2 (Z.eqb_neq remote 0) Hr). apply Z.ltb_lt in Ez. cbn [negb andb orb].
    rewrite (proj2 (Z.eqb_neq (zlen (SessionPasskey m)) 0)) by lia. cbn.
    split; [auto|]. split; [by intros num Hn; rewrite lookup_insert_ne|].
    right. exists r. rewrite Ek, lookup_insert_eq. split; [done|]. exists m.
    split; [done|]. split; [|done]. by apply zlen_pos.
  - cbn. auto.
Qed.
