(* ===== verification/FleetTrust.v ===== *)
(** Identities and the trust roster: [internal/fleetsec/identity.go] and
    [trust.go], with the lookups of [service.go] they share.

    The operator's two dangerous edits, replacing the admin keys of a node
    and locking it down, are guarded; the properties say which packets can
    leave for the radio under which conditions. *)
From stdpp Require Import sorting.
From S2P Require Import Prelude GoStrings FleetStore FleetService.

Section Trust.
Context `{E : Env}.

(** ** service.go: lookups *)
Definition knownRole (r : IdentityRecord) : bool := negb (bool_decide (iRole r = IdentityRoleRevoked)).

Definition pickKnownFingerprints (keyFPs : list string) : M (res (list string)) :=
  do? idents <- call (fun fault _ => ListIdentities fault);
  let known := iFingerprint <$> List.filter knownRole idents in
  ok (filter (fun fp => fp ∈ known) keyFPs).

Definition fingerprintsFromAdminKeys (keys : list bytes) : list string := map Fingerprint keys.

Fixpoint pubkeysForFingerprints (fps : list string) : M (res (list bytes)) :=
  match fps with
  | [] => ok []
  | fp :: fps' =>
      do? rec <- wrap ("fingerprint " +:+ fp +:+ ": ")
                   (call (fun fault _ => GetIdentityByFingerprint fault fp));
      do? out <- pubkeysForFingerprints fps';
      ok (iPublicKey rec :: out)
  end.

(** ** identity.go *)
Record Identity : Type := mkIdent {
  idPublicKey : bytes; idFingerprint : string; idLabel : string; idRole : IdentityRole;
  idSource : IdentitySource
}.

Definition GetIdentity : M (res Identity) :=
  do? reply <- wrap "read local security: "
                 (runLocalAdmin (AdminGetConfig SECURITY_CONFIG) "local-get-security");
  do? sec <- ret (extractSecurityConfig reply);
  let pub := PublicKey sec in
  match ValidateX25519PublicKey pub with
  | Some e => fail (EWrap "local Heltec pubkey: " e "")
  | None =>
      let fp := Fingerprint pub in
      do r <- call (fun fault _ => GetIdentityByFingerprint fault fp);
      match r with
      | inl rec => ok (mkIdent pub fp (iLabel rec) (iRole rec) (iSource rec))
      | inr e =>
          if Is e ErrNotFound then
            let label := "local-heltec-" +:+ String.substring 0 5 fp in
            do id <- freshID;
            do? _ <- wrap "auto-register local pubkey: "
                       (call (fun fault now => InsertIdentity fault id now label pub fp
                                IdentityRolePrimary IdentitySourceAutoGenerated ""));
            do _ <- auditFleet "auto_register_local" fp;
            ok (mkIdent pub fp label IdentityRolePrimary IdentitySourceAutoGenerated)
          else fail e
      end
  end.

Definition DerivePubkey (priv : bytes) : res bytes :=
  match ValidateX25519PrivateKey priv with
  | Some e => inr e
  | None => inl (X25519Base priv)
  end.

(** The checks [ImportIdentity] and [StartRecovery] share. *)
Definition checkKeypair (privCtx pubCtx deriveCtx mismatch : string) (priv pub : bytes)
    : option ferr :=
  match ValidateX25519PrivateKey priv with
  | Some e => Some (EWrap privCtx e "")
  | None =>
      match ValidateX25519PublicKey pub with
      | Some e => Some (EWrap pubCtx e "")
      | None =>
          match DerivePubkey priv with
          | inr e => Some (EWrap deriveCtx e "")
          | inl derived => if bytesEqual derived pub then None else Some (EMsg mismatch)
          end
      end
  end.

Definition ImportIdentity (label : string) (priv pub : bytes) : M (res Z) :=
  match checkKeypair "priv: " "pub: " "derive pubkey for verification: "
          "supplied private key does not match supplied public key" priv pub with
  | Some e => fail e
  | None =>
      let msg := AdminSetSecurity (mkUpdate (Some pub) (Some priv) None None None) in
      do? _ <- wrap "push to local Heltec: " (runLocalAdmin msg "local-set-security-import");
      do id <- freshID;
      do? id <- wrap "register identity: "
                  (call (fun fault now => InsertIdentity fault id now label pub (Fingerprint pub)
                           IdentityRolePrimary IdentitySourceImported ""));
      do _ <- auditFleet "import_identity" (Fingerprint pub);
      ok id
  end.

Definition RegisterIdentity (label : string) (pub : bytes) (role : IdentityRole) : M (res Z) :=
  match ValidateX25519PublicKey pub with
  | Some e => fail e
  | None =>
      if bool_decide (role = IdentityRoleRevoked) then
        fail (EMsg ("invalid role " +:+ quoted "revoked" +:+ " for new identity"))
      else
        do id <- freshID;
        do? id <- wrap "register identity: "
                    (call (fun fault now => InsertIdentity fault id now label pub (Fingerprint pub)
                             role IdentitySourceImported ""));
        do _ <- auditFleet "register_identity" (Fingerprint pub);
        ok id
  end.

Definition RevokeIdentity (fp reason : string) : M (res unit) :=
  do? _ <- call (fun fault now => FleetStore.RevokeIdentity fault now fp reason);
  do _ <- auditFleet "revoke_identity" fp;
  ok tt.

(** ** trust.go *)

Definition computeDriftStatus (n : NodeTrustRecord) (p : option FleetPolicy) : DriftStatus :=
  if bool_decide (RecDriftStatus n = DriftStatusUnreachable) then DriftStatusUnreachable
  else match LastVerifiedAt n with
       | None => DriftStatusUnknown
       | Some _ =>
           match p with
           | None => DriftStatusInPolicy
           | Some p =>
               if negb (Bool.eqb (ExpectedIsManaged p) (IsManaged n)) then DriftStatusDrift
               else if forallb (fun want => bool_decide (want ∈ AdminKeyFPs n))
                         (ExpectedAdminKeyFPs p)
                    then DriftStatusInPolicy else DriftStatusDrift
           end
       end.

Definition set_drift (d : DriftStatus) (n : NodeTrustRecord) : NodeTrustRecord :=
  mkRecord (NodeNum n) (Node n) (AdminKeyFPs n) (IsManaged n) (LastVerifiedAt n)
    (LastVerifyMethod n) (LastDriftCheckAt n) d (CurrentPSKFP n) (PreviousPSKFP n)
    (StrandedSince n) (RecoveryAttempts n) (LastRecoveryAt n) (LastRecoveryError n) (Notes n).

Definition ListTrust : M (res (list NodeTrustRecord)) :=
  do? rows <- call (fun fault _ => ListNodeTrust fault);
  do? policy <- call (fun fault _ => GetPolicy fault);
  ok (map (fun n => set_drift (computeDriftStatus n (Some policy)) n) rows).

Definition noNode : NodeRow := mkNode "" "" "" "" None false.

(** The record read off the radio; the drift status, empty in the code, is
    not yet known. *)
Definition readRecord (nodeNum : Z) (sec : SecurityConfig) (at_ : Z) (method : VerifyMethod)
    : NodeTrustRecord :=
  mkRecord nodeNum noNode (fingerprintsFromAdminKeys (AdminKey sec)) (SecIsManaged sec) (Some at_)
    (Some method) (Some at_) DriftStatusUnknown "" "" None 0 None "" "".

Definition methodFor (nodeNum : Z) : VerifyMethod :=
  if isLocal nodeNum then VerifyMethodLocalUSB else VerifyMethodRemotePKC.

Definition upsertRecord (rec : NodeTrustRecord) : M (res unit) :=
  call (fun fault _ => UpsertNodeTrust fault (NodeNum rec) (AdminKeyFPs rec) (IsManaged rec)
          (LastVerifiedAt rec) (LastVerifyMethod rec) (LastDriftCheckAt rec) (RecDriftStatus rec)
          (Notes rec)).

Definition localPrimaryPSKFP : M string :=
  do r <- call (fun fault _ => ListChannels fault);
  ret (match r with
       | inr _ => ""%string
       | inl chs => match List.find (fun c => c.1 =? 0) chs with
                    | Some c => default ""%string (cPSKFingerprint c.2)
                    | None => ""%string
                    end
       end).

Definition getSecurity (nodeNum : Z) : M (res (option AdminMessage)) :=
  runAdmin nodeNum (AdminGetConfig SECURITY_CONFIG) "local-get-security" "remote-get-security".

Definition GetTrust (nodeNum : Z) : M (res NodeTrustRecord) :=
  if nodeNum =? 0 then fail (EMsg "node number must be non-zero")
  else
    do r <- getSecurity nodeNum;
    match r with
    | inr e =>
        do _ <- call (fun fault now => MarkNodeUnreachable fault nodeNum now);
        fail (EWrap ("get_config from " +:+ hexx nodeNum +:+ ": ") e "")
    | inl reply =>
        do? sec <- ret (extractSecurityConfig reply);
        do w <- getWorld;
        do? policy <- call (fun fault _ => GetPolicy fault);
        let rec := readRecord nodeNum sec (now w) (methodFor nodeNum) in
        do? _ <- wrap "upsert trust: "
                   (upsertRecord (set_drift (computeDriftStatus rec (Some policy)) rec));
        do piFP <- localPrimaryPSKFP;
        do _ <- (if bool_decide (piFP = ""%string) then ok tt
                 else call (fun fault _ => SetNodeCurrentPSKFP fault nodeNum piFP));
        call (fun fault _ => GetNodeTrust fault nodeNum)
    end.

Definition getTrustLocked (nodeNum : Z) : M (res NodeTrustRecord) :=
  do? reply <- getSecurity nodeNum;
  do? sec <- ret (extractSecurityConfig reply);
  do w <- getWorld;
  do policy <- call (fun fault _ => GetPolicy fault);
  let rec := readRecord nodeNum sec (now w) (methodFor nodeNum) in
  let rec := match policy with
             | inl p => set_drift (computeDriftStatus rec (Some p)) rec
             | inr _ => set_drift DriftStatusUnknown rec
             end in
  do? _ <- upsertRecord rec;
  ok rec.

Record VerifyResult : Type := mkVerify {
  vOK : bool; vMethod : option VerifyMethod; vAdminKeyFPs : list string; vIsManaged : bool;
  vErr : string
}.

Definition VerifyTrust (nodeNum : Z) : M VerifyResult :=
  do got <- GetTrust nodeNum;
  do _ <- auditFleet "verify_trust" (itoa nodeNum);
  ret (match got with
       | inr e => mkVerify false None [] false (Error e)
       | inl n => mkVerify true (LastVerifyMethod n) (AdminKeyFPs n) (IsManaged n) ""
       end).

Definition SetAdminKeys (nodeNum : Z) (keyFPs : list string) (force : bool) (ack : string)
    : M (res unit) :=
  if nodeNum =? 0 then fail (EMsg "node number must be non-zero")
  else if 3 <? zlen keyFPs then fail (EMsg "admin_key list cannot exceed 3 entries")
  else
    do? known <- wrap "look up identity registry: " (pickKnownFingerprints keyFPs);
    if bool_decide (known = []) && negb force then fail ErrLockoutPrevented
    else if bool_decide (known = []) && negb (bool_decide (ack = "LOCKOUT"%string))
    then fail ErrInvalidAck
    else
      do? pubs <- pubkeysForFingerprints keyFPs;
      let msg := AdminSetSecurity (mkUpdate None None (Some pubs) None None) in
      do? _ <- wrap "push admin_key list: "
                 (runAdmin nodeNum msg "local-set-admin-keys" "remote-set-admin-keys");
      do r <- getTrustLocked nodeNum;
      match r with
      | inr _ => do _ <- auditFleet "set_admin_keys_partial" (itoa nodeNum); ok tt
      | inl _ => do _ <- auditFleet "set_admin_keys" (itoa nodeNum); ok tt
      end.

Definition hours24 : Z := 24 * 3600 * 1000000000.

(** Verified more than 24 hours ago, or never. *)
Definition notRecent (now : Z) (n : NodeTrustRecord) : bool :=
  match LastVerifiedAt n with None => true | Some v => hours24 <? now - v end.

Definition lockdownGuard (nodeNum : Z) (force : bool) (ack : string) : M (res unit) :=
  do r <- call (fun fault _ => GetNodeTrust fault nodeNum);
  do w <- getWorld;
  let forced := if force && negb (bool_decide (ack = "LOCKDOWN"%string))
                then fail ErrInvalidAck else ok tt in
  match r with
  | inr e => if Is e ErrNotFound then (if force then forced else fail ErrManagedLockdownPrevented)
             else fail e
  | inl n => if notRecent (now w) n && negb force then fail ErrManagedLockdownPrevented
             else forced
  end.

Definition SetIsManaged (nodeNum : Z) (value force : bool) (ack : string) : M (res unit) :=
  if nodeNum =? 0 then fail (EMsg "node number must be non-zero")
  else
    do? _ <- (if value then lockdownGuard nodeNum force ack else ok tt);
    let msg := AdminSetSecurity (mkUpdate None None None (Some value) None) in
    do? _ <- wrap ("push is_managed=" +:+ (if value then "true" else "false") +:+ ": ")
               (runAdmin nodeNum msg "local-set-is-managed" "remote-set-is-managed");
    do _ <- auditFleet "set_is_managed" (itoa nodeNum);
    ok tt.
End Trust.

(** ** Lemmas *)
Section Lemmas.
Context `{E : Env}.

(** [fp] belongs to a registered identity with that public key. *)
Definition registered (t : Tables) (fp : string) (pub : bytes) : Prop :=
  exists r, r ∈ identities t /\ iFingerprint r = fp /\ iPublicKey r = pub.

(** [fp] belongs to an identity that is not revoked. *)
Definition trusted (t : Tables) (fp : string) : Prop :=
  exists r, r ∈ identities t /\ iFingerprint r = fp /\ iRole r <> IdentityRoleRevoked.

Lemma unread_tables w w' : unread w w' -> tables w' = tables w.
Proof. by intros (d & k & ->). Qed.
Lemma unread_log w w' : unread w w' -> sentLog w' = sentLog w.
Proof. by intros (d & k & ->). Qed.
Lemma unread_passkeys w w' : unread w w' -> passkeys w' = passkeys w.
Proof. by intros (d & k & ->). Qed.
Lemma unread_emits P w w' w'' : unread w w' -> emits P w' w'' -> emits P w w''.
Proof. intros H1 H2. etrans; [|exact H2]. by apply emits_same, unread_log. Qed.

Lemma pickKnown_unread fps : keeps unread (pickKnownFingerprints fps).
Proof.
  unfold pickKnownFingerprints. keeps. apply call_reads. intros. by apply stmt_reads.
Qed.

Lemma pickKnown_spec fps w l w' : pickKnownFingerprints fps w = (inl l, w') ->
  l = [] <-> forall fp, fp ∈ fps -> ~ trusted (tables w) fp.
Proof.
  unfold pickKnownFingerprints, try, bind, call, ListIdentities.
  destruct (dbFault (ticks w)) as [m|]; cbn; intros [= <- <-].
  assert (forall fp, fp ∈ (iFingerprint <$> List.filter knownRole
    (merge_sort identityOrder (identities (tables w)))) <-> trusted (tables w) fp) as Hk.
  { intros fp. unfold trusted. rewrite list_elem_of_fmap. split.
    - intros (r & -> & Hr). apply list_elem_of_In, filter_In in Hr as [Hr Hrole].
      apply list_elem_of_In in Hr. rewrite merge_sort_Permutation in Hr. exists r.
      split; [done|]. split; [done|]. unfold knownRole in Hrole.
      by apply negb_true_iff, bool_decide_eq_false in Hrole.
    - intros (r & Hr & <- & Hrole). exists r. split; [done|].
      apply list_elem_of_In, filter_In. split.
      + apply list_elem_of_In. by rewrite merge_sort_Permutation.
      + unfold knownRole. by apply negb_true_iff, bool_decide_eq_false. }
  split.
  - intros Hn fp Hin Ht. apply Hk in Ht. exact (filter_nil_not_elem_of _ _ fp Hn Ht Hin).
  - intros Hall. destruct (filter _ fps) as [|fp l] eqn:Ef; [done|].
    assert (fp ∈ filter (fun fp => fp ∈ iFingerprint <$> List.filter knownRole
      (merge_sort identityOrder (identities (tables w)))) fps) as Hin by (rewrite Ef; by left).
    apply list_elem_of_filter in Hin as [H1 H2]. apply Hk in H1. by apply Hall in H2.
Qed.

Lemma pubkeys_unread fps : keeps unread (pubkeysForFingerprints fps).
Proof.
  induction fps as [|fp fps IH]; cbn; keeps. apply call_reads. intros. by apply stmt_reads.
Qed.

Lemma pubkeys_spec fps w l w' : pubkeysForFingerprints fps w = (inl l, w') ->
  Forall2 (registered (tables w)) fps l.
Proof.
  revert w l w'. induction fps as [|fp fps IH]; intros w l w'.
  - cbn. intros [= <- <-]. constructor.
  - cbn. unfold try, wrap, bind, call, GetIdentityByFingerprint.
    destruct (dbFault (ticks w)) as [m|]; cbn; [done|].
    destruct (List.find _ _) as [r|] eqn:Ef; cbn; [|done].
    destruct (pubkeysForFingerprints fps _) as [[l'|e] w1] eqn:Er; cbn; [|done].
    intros [= <- <-]. apply IH in Er. constructor; [|done].
    apply find_some in Ef as [Hin Hfp]. exists r. apply bool_decide_eq_true in Hfp.
    split; [by apply list_elem_of_In|done].
Qed.

(** What [SetAdminKeys] may send: reads, and the key list itself once it is
    authorised and every key of it is registered. *)
Definition keysAllowed (w : World) (num : Z) (fps : list string) (force : bool) (ack : string)
    (s : Sent) : Prop :=
  sTo s = num /\ num <> 0 /\ zlen fps <= 3 /\
  ((exists fp, fp ∈ fps /\ trusted (tables w) fp) \/ (force = true /\ ack = "LOCKOUT"%string)) /\
  exists pubs, Forall2 (registered (tables w)) fps pubs /\
    (variant (sMsg s) = SetConfig (mkSec [] [] pubs false false) \/
     variant (sMsg s) = GetConfigRequest SECURITY_CONFIG).

Lemma getSecurity_emits (P : Sent -> Prop) num :
  (forall s, carries num (GetConfigRequest SECURITY_CONFIG) s -> P s) ->
  keeps (emits P) (getSecurity num).
Proof. intros HP. by apply runAdmin_emits. Qed.

Lemma getTrustLocked_emits (P : Sent -> Prop) num :
  (forall s, carries num (GetConfigRequest SECURITY_CONFIG) s -> P s) ->
  keeps (emits P) (getTrustLocked num).
Proof. intros HP. unfold getTrustLocked, upsertRecord. keeps. Qed.

Lemma existsb_trusted (fps : list string) t : (forall fp, fp ∈ fps -> ~ trusted t fp) \/
  exists fp, fp ∈ fps /\ trusted t fp.
Proof.
  induction fps as [|fp fps IH]; [left; by intros ? ?%elem_of_nil|].
  assert (Decision (trusted t fp)) as [Hd|Hd].
  { unfold trusted. destruct (decide (Exists (fun r => iFingerprint r = fp /\
      iRole r <> IdentityRoleRevoked) (identities t))) as [Hx|Hx]; [left|right].
    - apply Exists_exists in Hx as (r & ? & ? & ?). eauto.
    - intros (r & ? & ? & ?). apply Hx, Exists_exists. eauto. }
  - right. exists fp. split; [by left|done].
  - destruct IH as [IH|(f & Hf & Ht)].
    + left. intros f [->|Hf]%elem_of_cons; [done|by apply IH].
    + right. exists f. split; [by right|done].
Qed.
End Lemmas.

(** ** Properties *)

(** C33: the lockout guard.  Whatever the radio and the database do, every
    packet that [SetAdminKeys] sends goes to the node asked for, and only if
    the list has at most three entries, all registered, one of them of an
    identity that is not revoked, unless the operator forced it with the word
    LOCKOUT; a pushed list holds the public keys of the entries in their order
    and touches nothing else. *)
Theorem set_admin_keys_guarded `{E : Env} num fps force ack w :
  emits (keysAllowed w num fps force ack) w (SetAdminKeys num fps force ack w).2.
Proof.
  unfold SetAdminKeys. destruct (Z.eqb_spec num 0) as [|Hnum]; [by apply emits_same|].
  destruct (Z.ltb_spec 3 (zlen fps)) as [|Hlen]; [by apply emits_same|].
  rewrite try_eval, wrap_eval.
  pose proof (pickKnown_unread fps w) as Hu1.
  destruct (pickKnownFingerprints fps w) as [[known|e] w1] eqn:Ek; cbn [snd] in Hu1 |- *;
    [|by apply emits_same, unread_log].
  apply pickKnown_spec in Ek. eapply unread_emits; [done|].
  destruct (bool_decide (known = []) && negb force) eqn:E1; [by apply emits_same|].
  destruct (bool_decide (known = []) && negb (bool_decide (ack = "LOCKOUT"%string))) eqn:E2;
    [by apply emits_same|].
  assert ((exists fp, fp ∈ fps /\ trusted (tables w) fp) \/
          (force = true /\ ack = "LOCKOUT"%string)) as Hauth.
  { destruct (existsb_trusted fps (tables w)) as [Hn|Hy]; [right|by left].
    apply Ek in Hn. rewrite Hn in E1, E2. rewrite bool_decide_true in E1, E2 by done.
    cbn in E1, E2. apply negb_false_iff in E1, E2. by apply bool_decide_eq_true in E2. }
  rewrite try_eval.
  pose proof (pubkeys_unread fps w1) as Hu2.
  destruct (pubkeysForFingerprints fps w1) as [[pubs|e] w2] eqn:Ep; cbn [snd] in Hu2 |- *;
    [|by apply emits_same, unread_log].
  apply pubkeys_spec in Ep. rewrite (unread_tables w w1 Hu1) in Ep.
  eapply unread_emits; [done|].
  assert (forall s v, carries num v s -> v = SetConfig (mkSec [] [] pubs false false) \/
    v = GetConfigRequest SECURITY_CONFIG -> keysAllowed w num fps force ack s) as HP.
  { intros s v [H1 H2] Hv. split; [done|]. split; [done|]. split; [done|]. split; [done|].
    exists pubs. by rewrite H2. }
  match goal with |- emits ?P _ (?m _).2 => assert (keeps (emits P) m) as Hm; [|apply Hm] end.
  keeps. apply getTrustLocked_emits. intros s Hs. apply (HP s _ Hs). by right.
Qed.

(** Witness run: a list with one trusted and one revoked key goes out in one
    packet. *)
Definition keyTables : Tables :=
  mkTables [mkIdentity 1 "a" [x01] "#A" IdentityRoleOperator IdentitySourceImported 0 None None None;
            mkIdentity 2 "b" [x02] "#B" IdentityRoleRevoked IdentitySourceImported 0 (Some 1) None None]
    {[7 := mkNode "!7" "" "" "" None true]} ∅ ∅ ∅ ∅ (mkPolicy [] false [] 0 "").

Example set_admin_keys_runs :
  (fun s => (sTo s, variant (sMsg s))) <$>
    sentLog (SetAdminKeys (E := exampleEnv (fun _ => Some ackReply)) 7 ["#A"; "#B"] false ""
               (startWorld keyTables)).2 =
  [(7, GetConfigRequest 7); (7, SetConfig (mkSec [] [] [[x01]; [x02]] false false))]%string.
Proof. vm_compute. reflexivity. Qed.

Example set_admin_keys_refuses :
  (SetAdminKeys (E := exampleEnv (fun _ => Some ackReply)) 7 ["#B"] false "" (startWorld keyTables)).1 =
  inr ErrLockoutPrevented.
Proof. vm_compute. reflexivity. Qed.

(** *** Lockdown *)
Definition verifiedRecently (w : World) (num at_ : Z) : Prop :=
  is_Some (nodes (tables w) !! num) /\
  exists r v, trust (tables w) !! num = Some r /\ tLastVerifiedAt r = Some v /\ at_ - v <= hours24.

Section Lockdown.
Context `{E : Env}.

Lemma lockdownGuard_unread num force ack : keeps unread (lockdownGuard num force ack).
Proof.
  unfold lockdownGuard. keeps. apply call_reads. intros. by apply stmt_reads.
Qed.

Lemma lockdownGuard_ok num force ack w w' : lockdownGuard num force ack w = (inl tt, w') ->
  (verifiedRecently w num (now w') /\ (force = true -> ack = "LOCKDOWN"%string)) \/
  (force = true /\ ack = "LOCKDOWN"%string).
Proof.
  unfold lockdownGuard. rewrite bind_eval. unfold call, GetNodeTrust.
  destruct (dbFault (ticks w)) as [m|]; cbn; [done|].
  destruct (nodes (tables w) !! num) as [n|] eqn:En; cbn.
  - unfold notRecent, joined. cbn [LastVerifiedAt].
    destruct force; cbn [andb negb]; rewrite ?andb_false_r, ?andb_true_r.
    + case_bool_decide; cbn; [by intros _; right|done].
    + destruct (tLastVerifiedAt (default noTrust (trust (tables w) !! num))) as [v|] eqn:Ev;
        [|done].
      destruct (Z.ltb_spec hours24 (now w + 0 + Z.of_N (lag (ticks w)) - v)); [done|].
      cbn. intros [= <-]. left. split; [|done]. split; [by rewrite En|].
      destruct (trust (tables w) !! num) as [r|] eqn:Et; cbn in Ev; [|done].
      exists r, v. cbn. auto.
  - rewrite bool_decide_true by done. cbn [orb].
    destruct force; [|done]. case_bool_decide; cbn; [by intros _; right|done].
Qed.
End Lockdown.

(** The lockdown guard.  [SetIsManaged] sends nothing but the flag to the
    node asked for.  A packet that switches lockdown on leaves only if a trust
    row of a known node records a successful verification of the last 24
    hours, or the operator forced it with the word LOCKDOWN; with force the
    word is needed in every case. *)
Theorem set_is_managed_guarded `{E : Env} num value force ack w :
  emits (fun s =>
    sTo s = num /\ num <> 0 /\ variant (sMsg s) = SetConfig (mkSec [] [] [] value false) /\
    (value = true ->
      (exists at_, now w <= at_ /\ verifiedRecently w num at_) \/
      (force = true /\ ack = "LOCKDOWN"%string)) /\
    (value = true -> force = true -> ack = "LOCKDOWN"%string)) w
    (SetIsManaged num value force ack w).2.
Proof.
  unfold SetIsManaged. destruct (Z.eqb_spec num 0) as [|Hnum]; [by apply emits_same|].
  rewrite try_eval.
  match goal with |- emits ?P _ _ => set (Q := P) end.
  set (guard := if value then lockdownGuard num force ack else ok tt).
  assert (keeps unread guard) as Hu.
  { unfold guard. destruct value; [apply lockdownGuard_unread|keeps]. }
  specialize (Hu w). destruct (guard w) as [[[]|e] w1] eqn:Eg; cbn [snd] in Hu |- *;
    [|by apply emits_same, unread_log].
  assert (forall s, carries num (SetConfig (mkSec [] [] [] value false)) s -> Q s) as HQ.
  { intros s [Hto Hv]. unfold Q. split; [done|]. split; [done|]. split; [done|].
    destruct value; [|done]. unfold guard in Eg.
    apply lockdownGuard_ok in Eg as [[Hrec Hf]|[-> ->]]; [|auto].
    split; intros _; [|done]. left. exists (now w1). split; [|done].
    destruct Hu as (d & k & ->). cbn. lia. }
  eapply unread_emits; [done|].
  match goal with |- emits ?P _ (?m _).2 => assert (keeps (emits P) m) as Hm; [|apply Hm] end.
  keeps.
Qed.

(** A recently verified node is locked down with one packet. *)
Definition verifiedTables : Tables :=
  mkTables [] {[7 := mkNode "!7" "" "" "" None true]}
    {[7 := mkTrust ["#A"] false (Some 0) None None DriftStatusInPolicy None None None 0 None None None]}
    ∅ ∅ ∅ (mkPolicy [] false [] 0 "").

Example lockdown_runs :
  (fun s => variant (sMsg s)) <$>
    sentLog (SetIsManaged (E := exampleEnv (fun _ => Some ackReply)) 7 true false ""
               (startWorld verifiedTables)).2 =
  [SetConfig (mkSec [] [] [] true false)].
Proof. vm_compute. reflexivity. Qed.

(** Lifting a lockdown says nothing.  The message [SetIsManaged] builds to
    clear the flag, and the one [SetAdminKeys] builds for an empty list, are
    the message of an update that changes nothing: the struct has no way to
    say false or empty apart from leaving the field alone. *)
Theorem clearing_updates_are_void managed keys :
  let upd ks m := AdminSetSecurity (mkUpdate None None ks m None) in
  (upd None (Some managed) = upd None None <-> managed = false) /\
  (upd (Some keys) None = upd None None <-> keys = []).
Proof.
  cbn. unfold AdminSetSecurity, plain. cbn.
  split; split; try (by intros ->); intros Heq; injection Heq; auto.
Qed.

(** *** Drift *)

(** The drift pill.  A node whose last round trip failed is unreachable
    and one that was never verified unknown, whatever the policy; any other is
    in policy exactly when its lockdown flag is the expected one and it has
    every expected admin key, extra keys being allowed. *)
Theorem drift_status_spec n p :
  match computeDriftStatus n (Some p) with
  | DriftStatusUnreachable => RecDriftStatus n = DriftStatusUnreachable
  | DriftStatusUnknown => RecDriftStatus n <> DriftStatusUnreachable /\ LastVerifiedAt n = None
  | DriftStatusInPolicy =>
      RecDriftStatus n <> DriftStatusUnreachable /\ LastVerifiedAt n <> None /\
      ExpectedIsManaged p = IsManaged n /\ ExpectedAdminKeyFPs p ⊆ AdminKeyFPs n
  | DriftStatusDrift =>
      RecDriftStatus n <> DriftStatusUnreachable /\ LastVerifiedAt n <> None /\
      (ExpectedIsManaged p <> IsManaged n \/ ~ ExpectedAdminKeyFPs p ⊆ AdminKeyFPs n)
  end.
Proof.
  unfold computeDriftStatus.
  destruct (bool_decide_reflect (RecDriftStatus n = DriftStatusUnreachable)) as [|Hu]; [done|].
  destruct (LastVerifiedAt n) as [v|]; [|done].
  destruct (Bool.eqb (ExpectedIsManaged p) (IsManaged n)) eqn:Em; cbn [negb].
  - apply eqb_prop in Em. destruct (forallb _ _) eqn:Ef.
    + rewrite forallb_forall in Ef. repeat split; try done. intros fp Hin%list_elem_of_In.
      by apply Ef, bool_decide_eq_true in Hin.
    + repeat split; try done. right. intros Hsub. apply not_true_iff_false in Ef.
      apply Ef, forallb_forall. intros fp Hin%list_elem_of_In. apply bool_decide_eq_true. by apply Hsub.
  - repeat split; try done. left. by apply eqb_false_iff.
Qed.

(** *** Verification *)
Section Verification.
Context `{E : Env} (Hdb : reliableDB).

(** The fingerprint [localPrimaryPSKFP] reads. *)
Definition primaryFP (t : Tables) : string :=
  match channels t !! 0 with Some c => default ""%string (cPSKFingerprint c) | None => ""%string end.

Lemma find_key {A} (l : list (Z * A)) k : NoDup l.*1 ->
  snd <$> List.find (fun c => c.1 =? k) l = (list_to_map l : gmap Z A) !! k.
Proof.
  induction l as [|[i a] l IH]; cbn; intros Hnd; [done|].
  apply NoDup_cons in Hnd as [_ Hnd]. destruct (Z.eqb_spec i k) as [->|Hne].
  - by rewrite lookup_insert_eq.
  - rewrite lookup_insert_ne by done. by apply IH.
Qed.

Lemma find_channel t k :
  snd <$> List.find (fun c => c.1 =? k) (merge_sort channelOrder (map_to_list (channels t))) =
  channels t !! k.
Proof.
  rewrite find_key.
  - rewrite <- (list_to_map_to_list (channels t)) at 2. f_equal.
    apply list_to_map_proper; [|by rewrite merge_sort_Permutation].
    rewrite merge_sort_Permutation. apply NoDup_fst_map_to_list.
  - rewrite merge_sort_Permutation. apply NoDup_fst_map_to_list.
Qed.

Lemma localPrimaryPSKFP_eval w :
  localPrimaryPSKFP w = (primaryFP (tables w), tick 0 w).
Proof.
  unfold localPrimaryPSKFP. rewrite bind_eval, call_eval by done. unfold ListChannels, ret, primaryFP.
  cbn [stmt fst snd]. rewrite <- find_channel.
  destruct (List.find _ _) as [[i c]|]; cbn; by destruct w.
Qed.

(** The row after a successful reading. *)
Definition verifiedRow (old : option TrustRow) (rec : NodeTrustRecord) (fp : string) : TrustRow :=
  let r := default noTrust old in
  mkTrust (AdminKeyFPs rec) (IsManaged rec) (LastVerifiedAt rec) (LastVerifyMethod rec)
    (LastDriftCheckAt rec) (RecDriftStatus rec)
    (if bool_decide (fp = ""%string) then tCurrentPSKFP r else Some fp)
    (tPreviousPSKFP r) (tStrandedSince r) (tRecoveryAttempts r) (tLastRecoveryAt r)
    (tLastRecoveryError r) (tNotes r).

Definition unreachableRow (old : option TrustRow) (at_ : Z) : TrustRow :=
  let r := default noTrust old in
  mkTrust (tAdminKeyFPs r) (tIsManaged r) (tLastVerifiedAt r) (tLastVerifyMethod r) (Some at_)
    DriftStatusUnreachable (tCurrentPSKFP r) (tPreviousPSKFP r) (tStrandedSince r)
    (tRecoveryAttempts r) (tLastRecoveryAt r) (tLastRecoveryError r) (tNotes r).

Lemma MarkNodeUnreachable_eval num at_ t : is_Some (nodes t !! num) ->
  MarkNodeUnreachable None num at_ t =
  (inl tt, set_trust (<[num := unreachableRow (trust t !! num) at_]> (trust t)) t).
Proof.
  intros [n Hn]. unfold MarkNodeUnreachable, upsertTrust. cbn [stmt].
  destruct (trust t !! num); [done|]. by rewrite Hn.
Qed.

Lemma upsertRecord_eval rec w : is_Some (nodes (tables w) !! NodeNum rec) ->
  LastVerifiedAt rec <> None -> LastVerifyMethod rec <> None -> LastDriftCheckAt rec <> None ->
  Notes rec = ""%string ->
  upsertRecord rec w = (inl tt, tick 0 (set_tables (set_trust
    (<[NodeNum rec := verifiedRow (trust (tables w) !! NodeNum rec) rec ""]> (trust (tables w)))
    (tables w)) w)).
Proof.
  intros [n Hn] H1 H2 H3 H4. unfold upsertRecord. rewrite call_eval by done.
  unfold UpsertNodeTrust, upsertTrust. cbn [stmt]. rewrite H4.
  destruct (LastVerifiedAt rec) eqn:E1, (LastVerifyMethod rec) eqn:E2, (LastDriftCheckAt rec) eqn:E3;
    try done.
  unfold verifiedRow. rewrite E1, E2, E3.
  destruct (trust (tables w) !! NodeNum rec); [done|]. by rewrite Hn.
Qed.
End Verification.

(** What a verification records.  When the exchange with a known node
    fails, only its drift status and the time of the check change.  When it
    succeeds, the keys, the lockdown flag and the drift status are those of the
    reply, and the PSK the node is recorded on becomes the fingerprint of
    channel 0 in [fleet_channels], if there is one: it is not read off the
    node, nor off the local radio.  No other row changes. *)
Theorem get_trust_outcomes `{E : Env} num node w (Hdb : reliableDB) (Hnum : num <> 0)
    (Hnode : nodes (tables w) !! num = Some node) :
  let '(r1, w1) := getSecurity num w in
  let '(r, w') := GetTrust num w in
  match r1 with
  | inr e =>
      (exists pre, r = inr (EWrap pre e "")) /\
      tables w' = set_trust (<[num := unreachableRow (trust (tables w) !! num) (now w1)]>
                               (trust (tables w))) (tables w)
  | inl reply =>
      match extractSecurityConfig reply with
      | inr e => r = inr e /\ tables w' = tables w
      | inl sec =>
          let rec := readRecord num sec (now w1) (methodFor num) in
          let row := verifiedRow (trust (tables w) !! num)
                       (set_drift (computeDriftStatus rec (Some (policy (tables w)))) rec)
                       (primaryFP (tables w)) in
          r = inl (joined num node (Some row)) /\
          tables w' = set_trust (<[num := row]> (trust (tables w))) (tables w)
      end
  end.
Proof.
  unfold GetTrust. rewrite (proj2 (Z.eqb_neq num 0) Hnum), bind_eval.
  pose proof (runAdmin_radioOnly num (AdminGetConfig SECURITY_CONFIG) "local-get-security"
    "remote-get-security" w) as Hf. fold (getSecurity num) in Hf.
  destruct (getSecurity num w) as [[reply|e] w1]; destruct Hf as (Ht & _); cbn [fst snd] in Ht |- *.
  - rewrite try_eval. cbn [ret]. destruct (extractSecurityConfig reply) as [sec|e]; [|by rewrite Ht].
    rewrite bind_eval. cbn [getWorld fst snd]. rewrite try_eval, call_eval by done.
    unfold GetPolicy. cbn [stmt fst snd]. rewrite try_eval, wrap_eval, upsertRecord_eval;
      [|done|cbn; rewrite Ht; by eexists|done..].
    rewrite bind_eval, localPrimaryPSKFP_eval by done. cbn [fst snd].
    rewrite bind_eval.
    set (t1 := tables _). assert (primaryFP t1 = primaryFP (tables w)) as Hp by (unfold t1; cbn; by rewrite Ht).
    rewrite Hp. unfold t1. clear t1 Hp. unfold verifiedRow.
    rewrite (bool_decide_true (""%string = ""%string)) by done.
    case_bool_decide as Hfp; cbn [ok ret fst snd]; rewrite !call_eval by done; cbn; rewrite Ht.
    + rewrite Hnode, lookup_insert_eq. by destruct (tables w).
    + unfold SetNodeCurrentPSKFP. rewrite bool_decide_false by done. cbn.
      rewrite Hnode, lookup_alter_eq, lookup_insert_eq. cbn. split; [done|].
      unfold set_trust. cbn. f_equal. apply map_eq. intros k.
      destruct (decide (k = num)) as [->|Hk].
      * by rewrite lookup_alter_eq, !lookup_insert_eq.
      * by rewrite lookup_alter_ne, !lookup_insert_ne.
  - rewrite bind_eval, call_eval by done. rewrite MarkNodeUnreachable_eval by (rewrite Ht; by eexists).
    cbn. rewrite Ht. split; [by eexists|done].
Qed.

(** The staged PSK is already in channel row 0; node 7 answers a reading. *)
Definition stagedTables : Tables :=
  mkTables [] {[7 := mkNode "!7" "" "" "" None true]}
    {[7 := mkTrust ["#A"] false (Some 0) None None DriftStatusInPolicy (Some "#OLD") None None 0
             None None None]}
    {[0 := mkChannel "" "" (Some "#NEW") (Some 16) None None None]} ∅ ∅ (mkPolicy [] false [] 0 "").

Definition readingEnv : Env :=
  exampleEnv (fun _ => Some (adminReply (GetConfigResponse (Some (mkSec [] [] [[x41]] false false))) [])).

Lemma get_trust_outcomes_witness :
  exists w1 w' n, getSecurity (E := readingEnv) 7 (startWorld stagedTables) = (inl n, w1) /\
    tables w' = set_trust {[7 := mkTrust ["#A"] false (Some 0) (Some VerifyMethodRemotePKC) (Some 0)
       DriftStatusInPolicy (Some "#NEW") None None 0 None None None]} stagedTables /\
    (GetTrust (E := readingEnv) 7 (startWorld stagedTables)).2 = w'.
Proof.
  eexists _, _, _. split; [vm_compute; reflexivity|]. split; [|reflexivity].
  pose proof (get_trust_outcomes (E := readingEnv) 7 (mkNode "!7" "" "" "" None true)
    (startWorld stagedTables) (fun _ => eq_refl) ltac:(done) eq_refl) as H.
  destruct (getSecurity _ _) as [[[m|]|e] w1] eqn:Es; vm_compute in Es; try discriminate.
  injection Es as <- <-. destruct (GetTrust _ _) as [r w'] eqn:Eg. cbn [snd].
  destruct H as [_ ->]. vm_compute. reflexivity.
Defined.
