(* ===== verification/FleetRotation.v ===== *)
(** PSK rotation: [internal/fleetsec/channels.go], [psk_collision.go] and the
    job handlers of [job_handlers.go].

    A rotation stages the new PSK on the local radio (phase A), migrates each
    remote in one firmware transaction (phase B) and, once the operator
    retires the old PSK, promotes the local radio (phase C).  Nodes left behind
    are marked stranded and recovered by [recover_stranded] jobs.  The
    notices for the web clients are left out: they have no effect on the state.
    The job queue is the one of Jobs.v. *)
From S2P Require Import Prelude GoStrings FleetStore FleetService.
From S2P Require Jobs.

(** ** Payloads

    Job payloads are marshalled, stored as JSONB and unmarshalled by the
    worker. *)
Record PhaseBPayload : Type := mkB { bStagingIdx : Z; bOldSlot : Z; bTargetNodeNum : Z }.
Record PhaseCPayload : Type := mkC { pStagingIdx : Z }.
Record RecoverStrandedPayload : Type := mkR { rNodeNum : Z; rPrevPSKFP : string; rSource : string }.

Class Payloads : Type := {
  marshalB : PhaseBPayload -> string;
  unmarshalB : string -> option PhaseBPayload;
  marshalC : PhaseCPayload -> string;
  unmarshalC : string -> option PhaseCPayload;
  marshalR : RecoverStrandedPayload -> string;
  unmarshalR : string -> option RecoverStrandedPayload;
  unmarshal_marshalB p : unmarshalB (marshalB p) = Some p;
  unmarshal_marshalC p : unmarshalC (marshalC p) = Some p;
  unmarshal_marshalR p : unmarshalR (marshalR p) = Some p
}.

(** ** channels.go: timing *)
Definition commitVerifyInitialWait : Z := seconds 12.
Definition commitVerifyDeadline : Z := seconds 60.
Definition commitVerifyBackoff : Z := seconds 8.

Definition roleString (role : Z) : string :=
  if role =? Channel_DISABLED then ChannelRoleDisabled
  else if role =? Channel_PRIMARY then ChannelRolePrimary
  else if role =? Channel_SECONDARY then ChannelRoleSecondary
  else itoa role.

Section Rotation.
Context `{E : Env} `{PL : Payloads}.

(** ** channels.go: slots *)
Definition readLocalChannel (idx : Z) : M (res Channel) :=
  do? reply <- runLocalAdmin (AdminGetChannel idx) "local-read-channel";
  ret (extractChannel reply).

Definition readRemoteChannel (nodeNum idx : Z) : M (res Channel) :=
  do? reply <- runRemoteAdmin nodeNum (AdminGetChannel idx) "remote-read-channel";
  ret (extractChannel reply).

Definition slots : list Z := [0; 1; 2; 3; 4; 5; 6; 7].

Definition probeSlot (idx : Z) : M (res Channel) :=
  do? reply <- runLocalAdmin (AdminGetChannel idx) "local-probe-channel";
  ret (extractChannel reply).

Definition noteSlot (idx : Z) (r : res Channel) (acc : list Z * Z) : list Z * Z :=
  match r with
  | inr _ => acc
  | inl ch => if chRole ch =? Channel_PRIMARY then (acc.1, idx)
              else if chRole ch =? Channel_DISABLED then (acc.1 ++ [idx], acc.2)
              else acc
  end.

Fixpoint probeLoop (idxs : list Z) (acc : list Z * Z) : M (list Z * Z) :=
  match idxs with
  | [] => ret acc
  | idx :: idxs' => do r <- probeSlot idx; probeLoop idxs' (noteSlot idx r acc)
  end.

Definition probeSlotsLocal : M (res (list Z * Z)) :=
  do acc <- probeLoop slots ([], -1);
  if acc.2 <? 0 then fail (EMsg "no PRIMARY channel found on local Heltec") else ok acc.

Definition applyLocalStagingChannel (stagingIdx : Z) (newPSK : bytes) : M (res unit) :=
  do? _ <- wrap "apply staging channel locally: "
             (runLocalAdmin (AdminSetChannel stagingIdx "" Channel_SECONDARY newPSK)
                "local-stage-secondary");
  ok tt.

(** ** channels.go: migration *)

(** The verdict of one probe of the staging slot: nil or [lastProbeErr]. *)
Definition probeVerdict (newPSK : bytes) (r : res (option AdminMessage)) : option ferr :=
  match r with
  | inr e => Some e
  | inl reply =>
      match extractChannel reply with
      | inr e => Some e
      | inl ch =>
          if chRole ch =? Channel_PRIMARY then
            if bool_decide (Fingerprint (channelPSK ch) = Fingerprint newPSK) then None
            else Some (EMsg ("staging slot is PRIMARY but PSK fp mismatch (got " +:+
                   Fingerprint (channelPSK ch) +:+ ", want " +:+ Fingerprint newPSK +:+ ")"))
          else Some (EMsg ("staging slot role is " +:+ roleString (chRole ch) +:+
                           ", expected PRIMARY"))
      end
  end.

(** The loop until [verifyDeadline]; [None] when the fuel runs out. *)
Fixpoint verifyLoop (fuel : nat) (nodeNum stagingIdx : Z) (newPSK : bytes) (verifyDeadline : Z)
    (lastProbeErr : option ferr) : M (option (res unit)) :=
  match fuel with
  | O => ret None
  | S fuel' =>
      do w <- getWorld;
      if now w <? verifyDeadline then
        do r <- runRemoteAdmin nodeNum (AdminGetChannel stagingIdx) "remote-commit-verify";
        match probeVerdict newPSK r with
        | None => ret (Some (inl tt))
        | Some e =>
            do s <- sleep commitVerifyBackoff;
            match s with
            | inr e' => ret (Some (inr e'))
            | inl _ => verifyLoop fuel' nodeNum stagingIdx newPSK verifyDeadline (Some e)
            end
        end
      else ret (Some (inr (EWrap "commit verify: "
             (default (EMsg "verify deadline reached with no successful probe") lastProbeErr) "")))
  end.

(** A wait of 8 seconds per turn: the ninth test is past the 60 seconds. *)
Definition verifyFuel : nat := 9.

(** Not an error of the code; it does not occur. *)
Definition outOfFuel : ferr := EWrap "" (EMsg "out of fuel") "".

Definition migrateRemoteAtomic (nodeNum stagingIdx oldSlot : Z) (newPSK : bytes) : M (res unit) :=
  do? _ <- wrap "session establish: "
             (runRemoteAdmin nodeNum (AdminGetChannel 0) "remote-establish-session");
  do? _ <- wrap "queue begin edit: " (fireAndForgetRemoteAdmin nodeNum AdminBeginEditSettings);
  do? _ <- wrap "queue set primary: " (fireAndForgetRemoteAdmin nodeNum
             (AdminSetChannel stagingIdx "" Channel_PRIMARY newPSK));
  do? _ <- wrap "queue disable old: " (fireAndForgetRemoteAdmin nodeNum
             (AdminSetChannel oldSlot "" Channel_DISABLED []));
  do? _ <- wrap "queue commit edit: " (fireAndForgetRemoteAdmin nodeNum AdminCommitEditSettings);
  do? _ <- sleep commitVerifyInitialWait;
  do w <- getWorld;
  do r <- verifyLoop verifyFuel nodeNum stagingIdx newPSK (now w + commitVerifyDeadline) None;
  match r with Some r => ret r | None => fail outOfFuel end.

Definition migratePiAtomicWithRecovery (stagingIdx oldSlot : Z) (newPSK : bytes)
    (recoverySlot : Z) (recoveryPSK : bytes) : M (res unit) :=
  do? _ <- wrap "begin edit: " (runLocalAdmin AdminBeginEditSettings "local-begin-edit");
  do? _ <- wrap "set primary: " (runLocalAdmin
             (AdminSetChannel stagingIdx "" Channel_PRIMARY newPSK) "local-set-primary");
  do? _ <- wrap "disable old: " (runLocalAdmin
             (AdminSetChannel oldSlot "" Channel_DISABLED []) "local-disable-old");
  do? _ <- (if (0 <=? recoverySlot) && (0 <? zlen recoveryPSK) then
              do? _ <- wrap "set recovery: " (runLocalAdmin
                (AdminSetChannel recoverySlot "" Channel_SECONDARY recoveryPSK)
                "local-set-recovery");
              ok tt
            else ok tt);
  do? _ <- wrap "commit edit: " (runLocalAdmin AdminCommitEditSettings "local-commit-edit");
  ok tt.

Definition migratePiAtomic (stagingIdx oldSlot : Z) (newPSK : bytes) : M (res unit) :=
  migratePiAtomicWithRecovery stagingIdx oldSlot newPSK (-1) [].

(** [persistAndBroadcast]: the snapshot [current] replaces all targets. *)
Definition persistTargets (rotID : Z) (current : list RotationTarget) (done_ : bool) : M unit :=
  do w <- getWorld;
  do _ <- call (fun fault _ => UpdateRotationTargets fault rotID current
                                 (if done_ then Some (now w) else None));
  ret tt.

(** [t] points into [current]; the changed [current] is returned. *)
Definition transitionTarget (rotID : Z) (current : list RotationTarget) (nodeNum : Z)
    (phase : RotationPhase) (msg : string) : M (list RotationTarget) :=
  let current := default current (alterTarget nodeNum (set_phase phase msg) current) in
  do _ <- call2 (fun fault fault' => UpdateTargetPhase fault fault' rotID nodeNum phase msg);
  do _ <- persistTargets rotID current false;
  ret current.

(** ** psk_collision.go *)
Definition slotCollides (candHash idx : Z) : M (res unit) :=
  do r <- readLocalChannel idx;
  match r with
  | inr _ => ok tt
  | inl ch =>
      if zlen (channelPSK ch) =? 0 then ok tt
      else if ChannelHash "" (channelPSK ch) =? candHash then
        fail (EWrap "" ErrChannelHashCollision (" (slot " +:+ itoa idx +:+ " active PSK)"))
      else ok tt
  end.

Definition CheckPSKHashCollision (candidate : bytes) : M (res unit) :=
  if zlen candidate =? 0 then ok tt
  else
    let candHash := ChannelHash "" candidate in
    do? _ <- forEach [0; 1] (slotCollides candHash);
    do recs <- call (fun fault _ => ListRecoveryPSKs fault);
    match recs with
    | inr _ => ok tt
    | inl recs =>
        match List.find (fun r => uint8 (rPSKHash r) =? candHash) recs with
        | Some r => fail (EWrap "" ErrChannelHashCollision
                            (" (recovery slot " +:+ itoa (rSlot r) +:+ ")"))
        | None => ok tt
        end
    end.

Fixpoint generateLoop (attempts : nat) (maxAttempts size : Z) (lastErr : ferr) : M (res bytes) :=
  match attempts with
  | O => fail (EWrap ("could not generate non-colliding PSK in " +:+ itoa maxAttempts +:+
                      " attempts: ") lastErr "")
  | S attempts' =>
      do w <- getWorld;
      do? psk <- ret (RandomPSK (random (ticks w)) size);
      do r <- CheckPSKHashCollision psk;
      match r with
      | inl _ => ok psk
      | inr e => generateLoop attempts' maxAttempts size e
      end
  end.

Definition GenerateRandomPSKAvoidCollision (size maxAttempts : Z) : M (res bytes) :=
  let maxAttempts := if maxAttempts <=? 0 then 8 else maxAttempts in
  generateLoop (Z.to_nat maxAttempts) maxAttempts size (EMsg "").

(** ** channels.go: RotatePSK *)
Definition pendingTarget (num : Z) : RotationTarget :=
  mkTarget num PhasePending TargetStatusPending 0 "".

(** Distinct non-zero numbers, in order. *)
Fixpoint distinct (seen : list Z) (targets : list Z) : list Z :=
  match targets with
  | [] => []
  | t :: targets' =>
      if (t =? 0) || bool_decide (t ∈ seen) then distinct seen targets'
      else t :: distinct (t :: seen) targets'
  end.

(** The local node comes last, unless the caller listed it. *)
Definition rotationTargets (targets : list Z) : list RotationTarget :=
  let remote := distinct [] targets in
  map pendingTarget
    (remote ++ if negb (LocalNodeNum =? 0) && negb (bool_decide (LocalNodeNum ∈ remote))
               then [LocalNodeNum] else []).

Definition notWired : ferr :=
  EMsg "fleet-security jobs queue not wired (svc.SetJobsStore not called)".

Definition phaseAOpts (rotID : Z) : Jobs.EnqueueOpts :=
  Jobs.mkOpts Jobs.KindRotatePhaseA (Some rotID) None "{}".

(** The rotation id, absent for the empty string, and the error. *)
Definition RotatePSK (userID : string) (channelIndex : Z) (newPSK : bytes) (targets : list Z)
    (ack notes : string) : M (option Z * option ferr) :=
  let failed e := ret (None, Some e) in
  if negb (bool_decide (ack = "ROTATE"%string)) then
    failed (EWrap ("PSK rotation requires Ack=" +:+ quoted "ROTATE" +:+ ": ") ErrInvalidAck "")
  else match ValidatePSK newPSK with
  | Some e => failed e
  | None =>
      if channelIndex <? 0 then failed (EMsg "channelIndex must be >= 0")
      else
        do c <- CheckPSKHashCollision newPSK;
        match c with
        | inr e => failed e
        | inl _ =>
            let rotTargets := rotationTargets targets in
            if bool_decide (rotTargets = []) then failed (EMsg "no valid targets")
            else
              do id <- freshID;
              do r <- call (fun fault now => InsertRotation fault id now RotationKindPSK
                        (Some channelIndex) userID rotTargets (Fingerprint newPSK) notes
                        (Some newPSK));
              match r with
              | inr e => failed (EWrap "create rotation: " e "")
              | inl rotID =>
                  do _ <- auditFleet "rotate_psk_start" (itoa channelIndex);
                  if negb jobsWired then failed notWired
                  else
                    do j <- enqueue (phaseAOpts rotID);
                    ret (Some rotID, match j with
                                     | inl _ => None
                                     | inr e => Some (EWrap "enqueue phase A: " e "")
                                     end)
              end
        end
  end.

(** ** channels.go: RetireOldPSK *)
Record RetireOldPSKResult : Type := mkRetire {
  OK : bool; Laggards : list Z; OldChannelIndex : Z; RetireFP : string
}.

Definition phaseCPending (j : Jobs.Job) : bool :=
  bool_decide (Jobs.Kind j = Jobs.KindRotatePhaseC) && (Jobs.queued j || Jobs.inProgress j).

Definition piPhaseString (p : PiLocalPhase) : string :=
  match p with
  | PiPhasePending => "pending"
  | PiPhaseStagingAdded => "staging_added"
  | PiPhasePhaseDPromoted => "phase_d_promoted"
  | PiPhaseRetired => "retired"
  end.

(** The checks before the gate: the staging slot. *)
Definition retireReady (rotID : Z) (rec : RotationRecord) : res Z :=
  if negb (bool_decide (Kind rec = RotationKindPSK)) then
    inr (EMsg ("rotation " +:+ itoa rotID +:+ " is not a PSK rotation"))
  else if bool_decide (RetiredAt rec <> None) || bool_decide (PiPhase rec = PiPhaseRetired) then
    inr (EMsg "rotation already retired")
  else if negb (bool_decide (PiPhase rec = PiPhaseStagingAdded)) &&
          negb (bool_decide (PiPhase rec = PiPhasePhaseDPromoted)) then
    inr (EMsg ("rotation not ready to retire (pi_local_phase=" +:+ piPhaseString (PiPhase rec) +:+
               ", want staging_added or phase_d_promoted)"))
  else match ChannelIndex rec with
       | None => inr (EMsg "rotation has no channel_index")
       | Some _ =>
           match StagingChannelIndex rec with
           | None => inr (EMsg "rotation has no staging_channel_index (rotation may pre-date the atomic worker)")
           | Some stagingIdx => inl stagingIdx
           end
       end.

Definition RetireOldPSK (rotID : Z) : M (res RetireOldPSKResult) :=
  do? rec <- call (fun fault _ => GetRotation fault rotID);
  do? stagingIdx <- ret (retireReady rotID rec);
  let fp := NewPSKFP rec in
  do? gate <- call (fun fault _ => AllManagedNodesOnPSK fault fp);
  if negb gate.1 then
    do _ <- auditFleet "rotate_psk_retire_blocked" (itoa stagingIdx);
    ok (mkRetire false gate.2 stagingIdx fp)
  else if negb jobsWired then fail notWired
  else
    do existing <- listByRotation rotID;
    if match existing with inl js => existsb phaseCPending js | inr _ => false end then
      ok (mkRetire true [] stagingIdx fp)
    else
      do? _ <- wrap "enqueue phase C: " (enqueue (Jobs.mkOpts Jobs.KindRotatePhaseC (Some rotID)
                 None (marshalC (mkC stagingIdx))));
      do _ <- auditFleet "rotate_psk_retire" (itoa stagingIdx);
      ok (mkRetire true [] stagingIdx fp).

(** ** channels.go: RetryRotation *)
Definition clearTo (phase : RotationPhase) (x : RotationTarget) : RotationTarget := set_phase phase "" x.

(** The switch on the phase: the target and whether it is eligible. *)
Definition resumeTarget (x : RotationTarget) : RotationTarget * bool :=
  match Phase x with
  | PhaseFailedB | PhasePushingB => (clearTo PhasePending x, true)
  | PhaseFailedC | PhasePromotingC => (clearTo PhaseHasNewPSK x, true)
  | PhasePending => (x, true)
  | PhaseOnNewPSK | PhaseRetired => (x, false)
  | PhaseHasNewPSK => (x, true)
  | PhaseEmpty => (x, false)
  end.

Definition resumeWanted (want : list Z) (x : RotationTarget) : RotationTarget * bool :=
  if bool_decide (TgtNodeNum x ∈ want) then resumeTarget x else (x, false).

Definition retryPSK (rotID : Z) (newPSK : bytes) : M (res bytes) :=
  if zlen newPSK =? 0 then
    do? stored <- wrap "fetch stored psk: " (call (fun fault _ => GetRotationPSK fault rotID));
    if zlen stored =? 0 then
      fail (EMsg "no PSK supplied and none stored for this rotation (already fully acked, or pre-dates migration 000026)")
    else ok stored
  else ok newPSK.

Definition RetryRotation (rotID : Z) (newPSK : bytes) (targetNodeNums : list Z) : M (res unit) :=
  do? rec <- call (fun fault _ => GetRotation fault rotID);
  do? psk <- retryPSK rotID newPSK;
  match ValidatePSK psk with
  | Some e => fail e
  | None =>
      if negb (bool_decide (Fingerprint psk = NewPSKFP rec)) then
        fail (EMsg "supplied PSK does not match this rotation's recorded fingerprint")
      else match ChannelIndex rec with
      | None => fail (EMsg "rotation has no channel index (not a PSK rotation?)")
      | Some channelIndex =>
          let resumed := map (resumeWanted targetNodeNums) (Targets rec) in
          if negb (existsb snd resumed) then
            fail (EMsg "no eligible targets matched the retry list (already done or unknown node-num)")
          else
            do? _ <- wrap "persist retry target reset: "
                       (call (fun fault _ => UpdateRotationTargets fault rotID (resumed.*1) None));
            if negb jobsWired then fail notWired
            else
              do? _ <- wrap "enqueue phase A retry: " (enqueue (phaseAOpts rotID));
              do _ <- auditFleet "rotate_psk_retry" (itoa channelIndex);
              ok tt
      end
  end.
End Rotation.

(** ** Lemmas: the migration of a remote *)
Section Migration.
Context `{E : Env}.

(** The radio answered the last packet with a PRIMARY channel that has the
    fingerprint of the PSK. *)
Definition confirmed (psk : bytes) (w : World) : Prop :=
  exists r m ch, radio (sentLog w) = Some r /\ Tracker.Kind r = Tracker.ReplyAdminMsg /\
    Tracker.rAdmin r = Some m /\ variant m = GetChannelResponse ch /\
    chRole ch = Channel_PRIMARY /\ Fingerprint (channelPSK ch) = Fingerprint psk.

Lemma probeVerdict_ok psk r : probeVerdict psk r = None ->
  exists m ch, r = inl (Some m) /\ variant m = GetChannelResponse ch /\
    chRole ch = Channel_PRIMARY /\ Fingerprint (channelPSK ch) = Fingerprint psk.
Proof.
  unfold probeVerdict, extractChannel. destruct r as [[m|]|e]; [|done..].
  destruct (variant m) as [| | | | | | | | | | | | | | |ch| |] eqn:Ev; try done.
  destruct (Z.eqb_spec (chRole ch) Channel_PRIMARY); [|done].
  case_bool_decide; [|done]. intros _. by exists m, ch.
Qed.

Lemma sends_app1 num v n w w' w'' :
  sends num [v] w w' -> sends num (repeat v n) w' w'' -> sends num (repeat v (S n)) w w''.
Proof. intros H1 H2. exact (sends_app num [v] (repeat v n) w w' w'' H1 H2). Qed.

(** The loop sends nothing but probes, at most one per turn; it ends with nil
    only on a confirmation. *)
Lemma verifyLoop_sends fuel num st psk deadline last w :
  let probe := GetChannelRequest (uint32 (st + 1)) in
  let r := verifyLoop fuel num st psk deadline last w in
  exists n, (n <= fuel)%nat /\ sends num (repeat probe n) w r.2 /\
    (r.1 = Some (inl tt) -> confirmed psk r.2).
Proof.
  cbn zeta. revert last w. induction fuel as [|fuel IH]; intros last w.
  { exists 0%nat. split; [lia|]. split; [by apply sends_nil|done]. }
  cbn [verifyLoop]. rewrite bind_eval. cbn [getWorld fst snd].
  destruct (now w <? deadline); [|exists 0%nat; split; [lia|]; split; [by apply sends_nil|done]].
  rewrite bind_eval.
  pose proof (runRemoteAdmin_log num (AdminGetChannel st) "remote-commit-verify" w) as Hr.
  destruct (runRemoteAdmin _ _ _ w) as [r w1]. cbn [fst snd] in Hr |- *.
  destruct (probeVerdict psk r) as [e|] eqn:Ev.
  - rewrite bind_eval. destruct (sleep commitVerifyBackoff w1) as [s w2] eqn:Es.
    assert (sentLog w2 = sentLog w1) as Hs by (by injection Es as _ <-). cbn [fst snd].
    assert (exists n, (n <= 1)%nat /\ sends num (repeat (GetChannelRequest (uint32 (st + 1))) n) w w2)
      as (n1 & Hn1 & Hs1).
    { destruct Hr as [(e' & _ & Hl)|[Hl _]].
      - exists 0%nat. split; [lia|]. apply sends_nil. congruence.
      - exists 1%nat. split; [lia|]. apply (sends_app num [_] [] w w1 w2); [done|].
        by apply sends_nil. }
    destruct s as [[]|e'].
    + destruct (IH (Some e) w2) as (n & Hn & Hs2 & Hc). exists (n1 + n)%nat. split; [lia|].
      split; [|done]. rewrite repeat_app. by eapply sends_app.
    + exists n1. split; [lia|]. by split.
  - apply probeVerdict_ok in Ev as (m & ch & -> & Hv & Hrole & Hfp).
    destruct Hr as [(e & ? & _)|[Hl Ha]]; [done|].
    exists 1%nat. split; [lia|]. split; [done|]. intros _.
    destruct (Ha m eq_refl) as (a & Hra & Hk & Had). by exists a, m, ch.
Qed.

(** Every turn takes the back-off, so that the deadline passes within the
    fuel. *)
Lemma verifyLoop_terminates fuel num st psk deadline last w :
  deadline - now w <= (Z.of_nat fuel - 1) * commitVerifyBackoff -> (0 < fuel)%nat ->
  (verifyLoop fuel num st psk deadline last w).1 <> None.
Proof.
  revert last w. induction fuel as [|fuel IH]; intros last w Hd Hf; [lia|].
  cbn [verifyLoop]. rewrite bind_eval. cbn [getWorld fst snd].
  destruct (Z.ltb_spec (now w) deadline) as [Hlt|]; [|done].
  rewrite bind_eval.
  pose proof (runRemoteAdmin_radioOnly num (AdminGetChannel st) "remote-commit-verify" w) as Hn.
  destruct Hn as (_ & _ & _ & _ & _ & _ & _ & Hn).
  destruct (runRemoteAdmin _ _ _ w) as [r w1]. cbn [fst snd] in Hn |- *.
  destruct (probeVerdict psk r) as [e|]; [|done].
  rewrite bind_eval. unfold sleep. cbn [fst snd].
  destruct (ctxErr (ticks w1)) as [m|]; [done|].
  destruct fuel; [cbn in Hd; lia|].
  apply IH; cbn [tick now]; unfold commitVerifyBackoff, seconds in *; lia.
Qed.

Lemma verifyLoop_not_fuel fuel num st psk deadline last w :
  (verifyLoop fuel num st psk deadline last w).1 <> Some (inr outOfFuel).
Proof.
  revert last w. induction fuel as [|fuel IH]; intros last w; [done|].
  cbn [verifyLoop]. rewrite bind_eval. cbn [getWorld fst snd].
  destruct (now w <? deadline); [|done]. rewrite bind_eval.
  destruct (probeVerdict _ _); [|done]. rewrite bind_eval. unfold sleep. cbn [fst snd].
  destruct (ctxErr _); [done|]. apply IH.
Qed.

Definition migrationPlan (st old : Z) (psk : bytes) : list PayloadVariant :=
  [GetChannelRequest (uint32 (0 + 1)); BeginEditSettings;
   SetChannel (mkCh st Channel_PRIMARY (Some (mkSettings "" psk)));
   SetChannel (mkCh old Channel_DISABLED (Some (mkSettings "" [])));
   CommitEditSettings].


(** One fire-and-forget frame of the plan: without it the plan stops here. *)
Lemma plan_step num vs w0 w pre msg (k : unit -> M (res unit)) (Q : res unit -> World -> Prop) :
  sends num vs w0 w ->
  (forall e w', sends num vs w0 w' -> Q (inr (EWrap pre e "")) w') ->
  (forall w', sends num (vs ++ [variant msg]) w0 w' -> wp (k tt) Q w') ->
  wp (try (wrap pre (fireAndForgetRemoteAdmin num msg)) k) Q w.
Proof.
  intros Hs Hfail Hk. apply wp_try, wp_wrap. unfold wp.
  pose proof (fireAndForget_log num msg w) as Hl.
  destruct (fireAndForgetRemoteAdmin num msg w) as [[[]|e] w1]; cbn [fst snd] in Hl |- *;
    destruct Hl as [(e' & He & Hn)|[He Hn]]; try discriminate.
  - apply Hk. by eapply sends_app.
  - apply Hfail. rewrite <- (app_nil_r vs). by eapply sends_app.
Qed.

(** What is said of a migration from [w0] that ends with [r] in [w']. *)
Definition migrated num st old psk w0 (r : res unit) (w' : World) : Prop :=
  (exists k n, sends num (take k (migrationPlan st old psk) ++
                          repeat (GetChannelRequest (uint32 (st + 1))) n) w0 w' /\
     (n <= 9)%nat /\ ((0 < n)%nat \/ r = inl tt -> (5 <= k)%nat)) /\
  r <> inr outOfFuel /\
  (r = inl tt -> confirmed psk w').

Lemma migrated_failed num st old psk w0 k e w' :
  sends num (take k (migrationPlan st old psk)) w0 w' -> e <> outOfFuel ->
  migrated num st old psk w0 (inr e) w'.
Proof.
  intros Hs He. split; [|split; [congruence|done]]. exists k, 0%nat. rewrite app_nil_r.
  split; [done|]. split; [lia|]. intros [?|?]; [lia|done].
Qed.

(** The part after the commit. *)
Lemma migrated_verify num st old psk w0 w : sends num (migrationPlan st old psk) w0 w ->
  wp (do? _ <- sleep commitVerifyInitialWait;
      do w <- getWorld;
      do r <- verifyLoop verifyFuel num st psk (now w + commitVerifyDeadline) None;
      match r with Some r => ret r | None => fail outOfFuel end)
    (migrated num st old psk w0) w.
Proof.
  intros Hs. apply wp_try. unfold wp at 1, sleep. cbn [fst snd].
  set (w1 := tick commitVerifyInitialWait w).
  assert (sends num (migrationPlan st old psk) w0 w1) as Hs1.
  { destruct Hs as (l & Hl & Hv & Hf). by exists l. }
  destruct (ctxErr (ticks w)); [by apply (migrated_failed _ _ _ _ _ 5)|].
  apply wp_bind, wp_getWorld, wp_bind. unfold wp.
  destruct (verifyLoop_sends verifyFuel num st psk (now w1 + commitVerifyDeadline) None w1)
    as (n & Hn & Hvs & Hc).
  pose proof (verifyLoop_terminates verifyFuel num st psk (now w1 + commitVerifyDeadline) None w1
    ltac:(unfold verifyFuel, commitVerifyBackoff, commitVerifyDeadline, seconds; lia)
    ltac:(unfold verifyFuel; lia)) as Ht.
  pose proof (verifyLoop_not_fuel verifyFuel num st psk (now w1 + commitVerifyDeadline) None w1) as He.
  destruct (verifyLoop _ _ _ _ _ _ _) as [[r|] w2]; cbn [fst snd ret] in *; [|done].
  split; [exists 5%nat, n|split].
  - split; [by eapply sends_app|]. split; [done|lia].
  - intros ->. by apply He.
  - intros Hr. apply Hc. by f_equal.
Qed.
End Migration.

(** ** Properties *)

(** The migration of a remote is one transaction.  The messages it hands
    to the radio, all PKC encrypted and to that node, are a beginning of: read
    channel 0, begin, set the staging slot PRIMARY with the new PSK, disable
    and wipe the old slot, commit; and only after all five, at most nine reads
    of the staging slot.  In particular nothing is read between begin and
    commit.  It ends, and it reports success only if the radio answered the
    last read with a PRIMARY channel of the new fingerprint. *)
Theorem migrate_remote_transaction `{E : Env} num st old psk w :
  let '(r, w') := migrateRemoteAtomic num st old psk w in
  (exists k n, sends num (take k (migrationPlan st old psk) ++
                          repeat (GetChannelRequest (uint32 (st + 1))) n) w w' /\
     (n <= 9)%nat /\ ((0 < n)%nat \/ r = inl tt -> (5 <= k)%nat)) /\
  r <> inr outOfFuel /\
  (r = inl tt -> confirmed psk w').
Proof.
  enough (wp (migrateRemoteAtomic num st old psk) (migrated num st old psk w) w) as Hw.
  { unfold wp in Hw. destruct (migrateRemoteAtomic num st old psk w). exact Hw. }
  unfold migrateRemoteAtomic. apply wp_try, wp_wrap. unfold wp at 1.
  pose proof (runRemoteAdmin_log num (AdminGetChannel 0) "remote-establish-session" w) as Hl.
  destruct (runRemoteAdmin _ _ _ w) as [[a|e] w1]; cbn [fst snd] in Hl |- *.
  - destruct Hl as [(e' & He & _)|[Hs _]]; [done|].
    let next k := (eapply plan_step; [exact Hs|
      intros ? ? Hf; by apply (migrated_failed _ _ _ _ _ k)|clear Hs; intros ? Hs; cbn [app] in Hs]) in
    next 1%nat; next 2%nat; next 3%nat; next 4%nat.
    by apply migrated_verify.
  - destruct Hl as [(e' & _ & Hs)|[Hs _]].
    + apply (migrated_failed _ _ _ _ _ 0); [by apply sends_nil|done].
    + by apply (migrated_failed _ _ _ _ _ 1).
Qed.

(** ** Collisions and the start of a rotation *)
Section Start.
Context `{E : Env} `{PL : Payloads}.

Lemma readLocalChannel_radioOnly idx : keeps radioOnly (readLocalChannel idx).
Proof. unfold readLocalChannel. keeps. Qed.

Lemma probeSlot_radioOnly idx : keeps radioOnly (probeSlot idx).
Proof. unfold probeSlot. keeps. Qed.
#[local] Hint Resolve readLocalChannel_radioOnly probeSlot_radioOnly : keeps.

Lemma probeSlotsLocal_radioOnly : keeps radioOnly probeSlotsLocal.
Proof.
  unfold probeSlotsLocal. apply keeps_bind; [apply _| |intros a; keeps].
  generalize (([], -1) : list Z * Z). induction slots as [|i l IH]; intros acc; cbn [probeLoop]; keeps.
Qed.

Lemma slotCollides_radioOnly h idx : keeps radioOnly (slotCollides h idx).
Proof. unfold slotCollides. keeps. Qed.
#[local] Hint Resolve slotCollides_radioOnly : keeps.

Lemma CheckPSKHashCollision_keeps cand :
  keeps (fun w w' => tables w' = tables w /\ queue w' = queue w /\ nextID w' = nextID w /\
                     auditLog w' = auditLog w /\ now w <= now w')
    (CheckPSKHashCollision cand).
Proof.
  assert (PreOrder (fun w w' : World => tables w' = tables w /\ queue w' = queue w /\
    nextID w' = nextID w /\ auditLog w' = auditLog w /\ now w <= now w')) as HR.
  { split; [intros ?; repeat split; lia|].
    intros x y z (? & ? & ? & ? & ?) (? & ? & ? & ? & ?). repeat split; try congruence; lia. }
  unfold CheckPSKHashCollision. keeps.
  - intros w. destruct (slotCollides_radioOnly (ChannelHash "" cand) x w)
      as (? & ? & ? & ? & ? & ? & ? & ?). cbv beta. by repeat split.
  - intros w. unfold call, ListRecoveryPSKs, stmt. destruct (dbFault (ticks w)); cbn;
      repeat split; lia.
Qed.

(** The channel a slot reads as, if it can be read, has no PSK or one of
    another hash. *)
Definition noClash (cand : bytes) (r : res Channel) : Prop :=
  match r with
  | inr _ => True
  | inl ch => channelPSK ch = [] \/ ChannelHash "" (channelPSK ch) <> ChannelHash "" cand
  end.

Lemma slotCollides_spec cand idx w :
  let r := readLocalChannel idx w in
  (slotCollides (ChannelHash "" cand) idx w).2 = r.2 /\
  ((slotCollides (ChannelHash "" cand) idx w).1 = inl tt <-> noClash cand r.1).
Proof.
  cbn zeta. unfold slotCollides. rewrite bind_eval.
  destruct (readLocalChannel idx w) as [[ch|e] w1]; cbn [fst snd]; [|done].
  destruct (Z.eqb_spec (zlen (channelPSK ch)) 0) as [Hz|Hz].
  - apply zlen_zero in Hz. cbn. split; [done|]. split; [by left|done].
  - assert (channelPSK ch <> []) by (intros Hn; by rewrite Hn in Hz).
    destruct (Z.eqb_spec (ChannelHash "" (channelPSK ch)) (ChannelHash "" cand)) as [Hh|Hh]; cbn.
    + split; [done|]. split; [done|]. by intros [?|?].
    + split; [done|]. split; [by right|done].
Qed.

Lemma distinct_spec seen l :
  NoDup (distinct seen l) /\
  forall x, x ∈ distinct seen l <-> (x ∈ l) /\ x <> 0 /\ (x ∉ seen).
Proof.
  revert seen. induction l as [|t l IH]; intros seen; cbn.
  - split; [constructor|]. intros x. split; [by intros ?%elem_of_nil|by intros [?%elem_of_nil _]].
  - destruct (Z.eqb_spec t 0) as [->|Ht]; cbn [orb].
    { destruct (IH seen) as [H1 H2]. split; [done|]. intros x. rewrite H2, elem_of_cons.
      split; [intuition|]. intros ([->|?] & ? & ?); [done|auto]. }
    case_bool_decide as Hs.
    { destruct (IH seen) as [H1 H2]. split; [done|]. intros x. rewrite H2, elem_of_cons.
      split; [intuition|]. intros ([->|?] & ? & ?); [done|auto]. }
    destruct (IH (t :: seen)) as [H1 H2]. split.
    + constructor; [|done]. intros (_ & _ & Hn)%H2. apply Hn. by left.
    + intros x. rewrite !elem_of_cons, H2, !elem_of_cons.
      destruct (decide (x = t)) as [->|]; [tauto|]. tauto.
Qed.
End Start.

(** Who is rotated.  The targets are pending, distinct and never node 0;
    they are the requested nodes and the local one, which comes last unless it
    was requested explicitly. *)
Theorem rotation_targets_spec `{E : Env} targets :
  let l := rotationTargets targets in
  Forall (fun x => Phase x = PhasePending /\ mirrored x /\ Attempts x = 0) l /\
  NoDup (map TgtNodeNum l) /\
  (forall num, num ∈ map TgtNodeNum l <->
     num <> 0 /\ ((num ∈ targets) \/ num = LocalNodeNum)) /\
  (LocalNodeNum <> 0 -> (LocalNodeNum ∉ targets) ->
     exists l', map TgtNodeNum l = l' ++ [LocalNodeNum]).
Proof.
  cbn zeta. unfold rotationTargets. set (remote := distinct [] targets).
  destruct (distinct_spec [] targets) as [Hnd Hin]. fold remote in Hnd, Hin.
  assert (forall num, num ∈ remote <-> (num ∈ targets) /\ num <> 0) as Hrem.
  { intros num. rewrite Hin. split; [tauto|]. intros [? ?]. split; [done|]. split; [done|].
    apply not_elem_of_nil. }
  set (extra := if negb (LocalNodeNum =? 0) && negb (bool_decide (LocalNodeNum ∈ remote))
                then [LocalNodeNum] else []).
  assert (forall num, num ∈ extra <-> num = LocalNodeNum /\ LocalNodeNum <> 0 /\ (num ∉ remote)) as Hex.
  { intros num. unfold extra. destruct (Z.eqb_spec LocalNodeNum 0) as [Hz|Hz]; cbn [negb andb].
    - rewrite elem_of_nil. tauto.
    - case_bool_decide as Hl; cbn [negb]; [rewrite elem_of_nil|rewrite list_elem_of_singleton].
      + split; [done|]. by intros (-> & _ & ?).
      + split; [by intros ->|tauto]. }
  assert (map TgtNodeNum (map pendingTarget (remote ++ extra)) = remote ++ extra) as Hmap.
  { rewrite map_map. cbn. apply map_id. }
  rewrite Hmap. split; [|split; [|split]].
  - apply Forall_map, Forall_forall. done.
  - apply NoDup_app. split; [done|]. split.
    + intros x Hx (-> & _ & Hn)%Hex. done.
    + unfold extra. case_match; [apply NoDup_singleton|constructor].
  - intros num. rewrite elem_of_app, Hrem, Hex, Hrem. destruct (decide (num = LocalNodeNum)) as [->|].
    + destruct (decide (LocalNodeNum = 0)), (decide (LocalNodeNum ∈ targets)); tauto.
    + tauto.
  - intros Hz Hn. exists remote. f_equal. unfold extra.
    rewrite (proj2 (Z.eqb_neq _ _) Hz), bool_decide_false; [done|]. by intros [? _]%Hrem.
Qed.

Lemma rotation_targets_spec_witness :
  exists l', map TgtNodeNum (rotationTargets (E := exampleEnv (fun _ => None)) [7; 0; 7; 9]) =
    l' ++ [1].
Proof.
  apply (rotation_targets_spec (E := exampleEnv (fun _ => None)) [7; 0; 7; 9]).
  - done.
  - apply (bool_decide_unpack _). vm_compute. reflexivity.
Defined.

(** Collisions.  A candidate passes the check exactly if it is empty, or
    no row of the recovery cache has its hash and neither of the slots 0 and 1,
    as far as the radio lets them be read, holds a PSK of that hash. *)
Theorem collision_check_spec `{E : Env} cand w (Hdb : reliableDB) :
  let r0 := readLocalChannel 0 w in
  let r1 := readLocalChannel 1 r0.2 in
  (CheckPSKHashCollision cand w).1 = inl tt <->
  cand = [] \/
  (noClash cand r0.1 /\ noClash cand r1.1 /\
   forall r, r ∈ recoveryRows (tables w) -> uint8 (rPSKHash r) <> ChannelHash "" cand).
Proof.
  cbn zeta. unfold CheckPSKHashCollision.
  destruct (Z.eqb_spec (zlen cand) 0) as [Hz|Hz]; [apply zlen_zero in Hz; cbn; tauto|].
  assert (cand <> []) as Hne by (by intros ->).
  rewrite try_eval. cbn [forEach]. rewrite try_eval.
  destruct (slotCollides_spec cand 0 w) as [Hw0 H0].
  destruct (slotCollides_radioOnly (ChannelHash "" cand) 0 w) as (Ht0 & _).
  destruct (slotCollides (ChannelHash "" cand) 0 w) as [[[]|e] w0]; cbn [fst snd] in *; subst w0.
  2:{ split; [done|]. intros [?|(Hc & _)]; [done|]. by apply H0 in Hc. }
  rewrite try_eval.
  destruct (slotCollides_spec cand 1 (readLocalChannel 0 w).2) as [Hw1 H1].
  destruct (slotCollides_radioOnly (ChannelHash "" cand) 1 (readLocalChannel 0 w).2) as (Ht1 & _).
  destruct (slotCollides (ChannelHash "" cand) 1 _) as [[[]|e] w1]; cbn [fst snd] in *; subst w1.
  2:{ split; [done|]. intros [?|(_ & Hc & _)]; [done|]. by apply H1 in Hc. }
  cbn [ok ret]. rewrite bind_eval, call_eval by done. unfold ListRecoveryPSKs. cbn [stmt fst snd].
  rewrite Ht1, Ht0. destruct (List.find _ _) as [r|] eqn:Ef; cbn.
  - split; [done|]. intros [?|(_ & _ & Hall)]; [done|].
    apply find_some in Ef as [Hin Heq%Z.eqb_eq]. by apply list_elem_of_In, Hall in Hin.
  - split; [|done]. intros _. right. split; [by apply H0|]. split; [by apply H1|].
    intros r Hin%list_elem_of_In. by apply (find_none _ _ Ef), Z.eqb_neq in Hin.
Qed.

(** An empty candidate passes although a cached PSK hashes to 0 too. *)
Definition zeroHashTables : Tables :=
  set_recovery {[2 := mkRecovery 2 "#A" [x05; x05] 0 0 None]} emptyTables.

Lemma collision_check_spec_witness :
  ChannelHash "" [x05; x05] = ChannelHash "" [] /\
  (CheckPSKHashCollision (E := exampleEnv (fun _ => None)) [] (startWorld zeroHashTables)).1 = inl tt.
Proof.
  split; [reflexivity|].
  apply (collision_check_spec (E := exampleEnv (fun _ => None))); [done|by left].
Defined.

(** Starting a rotation.  With a database that answers, [RotatePSK]
    either reports an error and leaves tables and queue alone, or the operator
    typed ROTATE, the PSK has 16, 32 or no bytes and passed the collision check,
    and there is now one more rotation, under the returned id, with every
    target pending, the PSK and its fingerprint, and one more job, its phase A. *)
Theorem rotate_psk_outcomes `{E : Env} `{PL : Payloads} userID ci psk targets ack notes w
    (Hdb : reliableDB) (Hj : jobsWired = true) :
  let '((id, err), w') := RotatePSK userID ci psk targets ack notes w in
  match id with
  | None => err <> None /\ tables w' = tables w /\ queue w' = queue w
  | Some rotID =>
      err = None /\ rotID = nextID w /\ ack = "ROTATE"%string /\
      (zlen psk = 0 \/ zlen psk = 16 \/ zlen psk = 32) /\ 0 <= ci /\
      (CheckPSKHashCollision psk w).1 = inl tt /\ rotationTargets targets <> [] /\
      (exists at_, now w <= at_ /\
        tables w' = set_rotations (<[rotID := mkRotation RotationKindPSK (Some ci) None
                      PiPhasePending userID at_ None None (rotationTargets targets)
                      (Fingerprint psk) notes (Some psk)]> (rotations (tables w))) (tables w)) /\
      (exists jid at_, queue w' = queue w ++ [newJob jid at_ (phaseAOpts rotID)])
  end.
Proof.
  unfold RotatePSK. case_bool_decide as Hack; cbn [negb]; [|by cbn].
  unfold ValidatePSK, validPSKLengths. destruct ((_ || _) || _) eqn:Hlen; [|by cbn].
  rewrite !orb_true_iff, !Z.eqb_eq in Hlen.
  destruct (Z.ltb_spec ci 0) as [|Hci]; [by cbn|].
  rewrite bind_eval. destruct (CheckPSKHashCollision_keeps psk w) as (Ht & Hq & Hid & _ & Hnow).
  destruct (CheckPSKHashCollision psk w) as [[[]|e] w1]; cbn [fst snd] in *; [|by cbn].
  case_bool_decide as Hl; [by cbn|].
  rewrite bind_eval. unfold freshID. cbn [fst snd]. rewrite bind_eval, call_eval by done.
  unfold InsertRotation. cbn [stmt fst snd].
  rewrite bind_eval. unfold auditFleet, modify. cbn [fst snd].
  rewrite Hj. cbn [negb]. rewrite bind_eval, enqueue_eval by done. cbn.
  repeat split; try done; [tauto| |].
  - exists (now w1). split; [done|]. by rewrite Ht, Hid.
  - rewrite Hq. eauto.
Qed.

(** ** Retirement *)
Section Retire.
Context `{E : Env} `{PL : Payloads}.

(** The jobs of phase C that are not finished, for a rotation. *)
Definition phaseCJobs (rotID : Z) (q : list Jobs.Job) : list Jobs.Job :=
  List.filter (fun j => bool_decide (Jobs.RotationID j = Some rotID) && phaseCPending j) q.

Lemma existsb_insert_desc f j l :
  existsb f (Jobs.insert_desc j l) = f j || existsb f l.
Proof.
  induction l as [|k l IH]; cbn; [done|]. destruct (_ <=? _); cbn; [done|].
  rewrite IH. by destruct (f j), (f k).
Qed.

Lemma existsb_listByRotation f rotID q :
  existsb f (fold_right Jobs.insert_desc []
    (List.filter (fun j => bool_decide (Jobs.RotationID j = Some rotID)) q)) =
  existsb (fun j => bool_decide (Jobs.RotationID j = Some rotID) && f j) q.
Proof.
  induction q as [|j q IH]; cbn; [done|]. case_bool_decide; cbn; [|done].
  by rewrite existsb_insert_desc, IH.
Qed.

Lemma existsb_filter {A} (f : A -> bool) l : existsb f l = true <-> List.filter f l <> [].
Proof.
  induction l as [|x l IH]; cbn; [done|]. destruct (f x); cbn; [done|]. exact IH.
Qed.

Lemma phaseCJobs_pending rotID q :
  match jobErr (Jobs.ListByRotation true rotID q) with
  | inl js => existsb phaseCPending js | inr _ => false
  end = true <-> phaseCJobs rotID q <> [].
Proof.
  cbn. rewrite existsb_listByRotation. apply existsb_filter.
Qed.

Lemma retireReady_ok rotID rec l st : retireReady rotID (set_targets l rec) = inl st ->
  Kind rec = RotationKindPSK /\ RetiredAt rec = None /\
  (PiPhase rec = PiPhaseStagingAdded \/ PiPhase rec = PiPhasePhaseDPromoted) /\
  StagingChannelIndex rec = Some st.
Proof.
  unfold retireReady. cbn.
  destruct (bool_decide_reflect (Kind rec = RotationKindPSK)); cbn; [|done].
  destruct (RetiredAt rec); [done|]. rewrite (bool_decide_false (@None Z <> None)) by (intros Hn; by apply Hn). cbn.
  destruct (PiPhase rec); cbn; try done;
    destruct (ChannelIndex rec), (StagingChannelIndex rec); try done; intros [= ->]; auto 6.
Qed.

Lemma laggards_none (m : gmap Z TrustRow) fp (l : list Z) :
  (forall num, num ∈ l <-> exists r, m !! num = Some r /\ tAdminKeyFPs r <> [] /\
                                     tCurrentPSKFP r <> Some fp) ->
  (forall num r, m !! num = Some r -> tAdminKeyFPs r <> [] -> tCurrentPSKFP r = Some fp) <-> l = [].
Proof.
  intros Hl. split.
  - intros Hall. destruct l as [|n l]; [done|].
    destruct (proj1 (Hl n) ltac:(by left)) as (r & Hr & Hk & Hne). by apply Hall in Hr.
  - intros -> num r Hr Hk. destruct (decide (tCurrentPSKFP r = Some fp)); [done|].
    assert (num ∈ ([] : list Z)) as Hin by (apply Hl; eauto). by apply elem_of_nil in Hin.
Qed.
End Retire.


(** ** Concrete payloads, for examples: the digits of an encoding *)
Fixpoint bitString (p : positive) : string :=
  match p with
  | xH => EmptyString
  | xO p => String (Ascii.ascii_of_nat 48) (bitString p)
  | xI p => String (Ascii.ascii_of_nat 49) (bitString p)
  end.

Fixpoint parseBits (s : string) : positive :=
  match s with
  | EmptyString => xH
  | String c s => if code c =? 49 then xI (parseBits s) else xO (parseBits s)
  end.

Lemma parse_bitString p : parseBits (bitString p) = p.
Proof. induction p as [p IH|p IH|]; cbn [bitString parseBits]; [by rewrite IH..|done]. Qed.

Definition marshalBits {A} `{Countable A} (a : A) : string := bitString (encode a).
Definition unmarshalBits {A} `{Countable A} (s : string) : option A := decode (parseBits s).

Lemma unmarshalBits_spec {A} `{Countable A} (a : A) : unmarshalBits (marshalBits a) = Some a.
Proof. unfold unmarshalBits, marshalBits. by rewrite parse_bitString, decode_encode. Qed.

Definition toB (x : Z * Z * Z) : PhaseBPayload := mkB x.1.1 x.1.2 x.2.
Definition toR (x : Z * string * string) : RecoverStrandedPayload := mkR x.1.1 x.1.2 x.2.

#[export] Instance examplePayloads : Payloads.
Proof.
  refine {|
    marshalB := fun p => marshalBits (bStagingIdx p, bOldSlot p, bTargetNodeNum p);
    unmarshalB := fun s => toB <$> unmarshalBits s;
    marshalC := fun p => marshalBits (pStagingIdx p);
    unmarshalC := fun s => mkC <$> unmarshalBits s;
    marshalR := fun p => marshalBits (rNodeNum p, rPrevPSKFP p, rSource p);
    unmarshalR := fun s => toR <$> unmarshalBits s
  |}; intros p; rewrite unmarshalBits_spec; by destruct p.
Defined.

(** A staged rotation 3 to the PSK "NN..": node 7 is recorded on it. *)
Definition newPSK16 : bytes := repeat x4e 16.
Definition oldPSK16 : bytes := repeat x4f 16.
Definition fpOf (b : bytes) : string := "#" +:+ string_of_bytes b.

Definition stagedRotation (phase : RotationPhase) : RotationRecord :=
  mkRotation RotationKindPSK (Some 0) (Some 1) PiPhaseStagingAdded "op" 0 None None
    [mkTarget 7 phase (statusForPhase phase) 0 ""; pendingTarget 1] (fpOf newPSK16) ""
    (Some newPSK16).

Definition rotationTables (phase : RotationPhase) (recorded : bytes) : Tables :=
  mkTables [] {[7 := mkNode "!7" "" "" "" None true; 1 := mkNode "!1" "" "" "" None true]}
    {[7 := mkTrust ["#A"] false (Some 0) None None DriftStatusInPolicy (Some (fpOf recorded))
             None None 0 None None None]}
    {[0 := mkChannel "" "" (Some (fpOf newPSK16)) (Some 16) None None None]}
    {[3 := stagedRotation phase]} ∅ (mkPolicy [] false [] 0 "").


(** The gate names a node that is not recorded on the new PSK. *)
Example retire_gate_refuses :
  (RetireOldPSK (E := exampleEnv (fun _ => None)) 3
     (startWorld (rotationTables PhasePending oldPSK16))).1 =
  inl (mkRetire false [7] 1 (fpOf newPSK16)).
Proof. vm_compute. reflexivity. Qed.

Lemma rotate_psk_outcomes_witness :
  exists w', RotatePSK (E := exampleEnv (fun _ => None)) "op" 0 newPSK16 [7] "ROTATE" ""
      (startWorld emptyTables) = ((Some 100, None), w') /\
    exists jid at_, queue w' = [newJob jid at_ (phaseAOpts 100)].
Proof.
  pose proof (rotate_psk_outcomes (E := exampleEnv (fun _ => None)) "op" 0 newPSK16 [7] "ROTATE" ""
    (startWorld emptyTables) (fun _ => eq_refl) eq_refl) as H.
  destruct (RotatePSK _ _ _ _ _ _ _) as [[id err] w'] eqn:Er. exists w'.
  assert ((id, err) = (Some 100, None)) as Hid.
  { rewrite <- (f_equal fst Er : _ = (id, err)). vm_compute. reflexivity. }
  injection Hid as -> ->. split; [done|]. apply H.
Defined.

(** ** Retry *)

(** The states a worker picks a target up from. *)
Definition resting (p : RotationPhase) : Prop :=
  p = PhasePending \/ p = PhaseHasNewPSK \/ p = PhaseOnNewPSK \/ p = PhaseRetired.

Lemma resumeTarget_resting x : Phase x <> PhaseEmpty -> resting (Phase (resumeTarget x).1).
Proof.
  intros He. unfold resting, resumeTarget. destruct (Phase x) eqn:Ex; cbn; rewrite ?Ex; try done; auto 6.
Qed.

Lemma resumeWanted_spec want x : mirrored x ->
  let x' := (resumeWanted want x).1 in
  mirrored x' /\ TgtNodeNum x' = TgtNodeNum x /\ Attempts x' = Attempts x /\
  ((TgtNodeNum x ∈ want) -> resting (Phase x')) /\
  ((TgtNodeNum x ∉ want) \/ resting (Phase x) -> x' = x).
Proof.
  intros Hm. cbn zeta. unfold resumeWanted. case_bool_decide as Hin.
  - split_and!.
    + unfold resumeTarget. destruct (Phase x) eqn:Ex; cbn; try done; apply set_phase_mirrored; done.
    + unfold resumeTarget. by destruct (Phase x).
    + unfold resumeTarget. by destruct (Phase x).
    + intros _. apply resumeTarget_resting, Hm.
    + unfold resumeTarget. intros [?|[Hp|[Hp|[Hp|Hp]]]]; [done|..]; by rewrite Hp.
  - by split_and!.
Qed.

Lemma retryPSK_unread `{E : Env} rotID psk : keeps unread (retryPSK rotID psk).
Proof. unfold retryPSK. keeps. apply call_reads. intros. by apply stmt_reads. Qed.

(** Retry.  With a database that answers, an accepted retry sets each
    requested target back to the state a worker resumes from, leaves done
    targets, targets that were not requested and all attempt counts alone,
    keeps status and phase in step, and queues one phase A; the PSK it works
    with has the recorded fingerprint.  A refused retry changes nothing.
    Whether the rotation was retired, or overtaken by a later one, plays no
    part. *)
Theorem retry_outcomes `{E : Env} `{PL : Payloads} rotID psk want w rec (Hdb : reliableDB)
    (Hj : jobsWired = true) (Hr : rotations (tables w) !! rotID = Some rec)
    (Hm : Forall mirrored (Targets rec)) :
  let '(r, w') := RetryRotation rotID psk want w in
  match r with
  | inr e => tables w' = tables w /\ queue w' = queue w
  | inl _ =>
      (exists x, x ∈ Targets rec /\ (TgtNodeNum x ∈ want) /\ Phase x <> PhaseOnNewPSK /\
                 Phase x <> PhaseRetired) /\
      (exists l, tables w' = set_rotations (<[rotID := set_targets l rec]> (rotations (tables w)))
                               (tables w) /\
         Forall2 (fun x x' => mirrored x' /\ TgtNodeNum x' = TgtNodeNum x /\
                    Attempts x' = Attempts x /\ ((TgtNodeNum x ∈ want) -> resting (Phase x')) /\
                    ((TgtNodeNum x ∉ want) \/ resting (Phase x) -> x' = x)) (Targets rec) l) /\
      (exists jid at_, queue w' = queue w ++ [newJob jid at_ (phaseAOpts rotID)])
  end.
Proof.
  unfold RetryRotation. rewrite try_eval, call_read by done. unfold GetRotation at 1. cbn [stmt fst].
  rewrite Hr. cbn [fst].
  rewrite map_backfill_id by (eapply Forall_impl; [exact Hm|by intros ? [? _]]).
  assert (unread w (retryPSK rotID psk (tick 0 w)).2) as Hu.
  { etrans; [apply unread_tick|]. apply retryPSK_unread. }
  rewrite try_eval. destruct (retryPSK rotID psk (tick 0 w)) as [[k|e] w1]; cbn [snd] in Hu.
  2:{ destruct Hu as (? & ? & ->). done. }
  assert (tables w1 = tables w /\ queue w1 = queue w) as [Ht Hq] by (by destruct Hu as (? & ? & ->)).
  destruct (ValidatePSK k); [done|]. case_bool_decide; cbn [negb]; [|done].
  cbn [set_targets ChannelIndex Targets]. destruct (ChannelIndex rec); [|done].
  destruct (existsb snd (map (resumeWanted want) (Targets rec))) eqn:Ee; cbn [negb]; [|done].
  rewrite try_eval, wrap_eval, call_eval by done. unfold UpdateRotationTargets, updateRotation.
  cbn [stmt fst snd]. rewrite Hj. cbn [negb].
  rewrite try_eval, wrap_eval, enqueue_eval, bind_eval by done. cbn. split_and!.
  - apply existsb_exists in Ee as (y & (x & <- & Hx)%in_map_iff & Hy).
    apply list_elem_of_In in Hx. exists x. unfold resumeWanted in Hy. case_bool_decide; [|done].
    split_and!; try done; intros Hp; unfold resumeTarget in Hy; by rewrite Hp in Hy.
  - exists ((map (resumeWanted want) (Targets rec)).*1). rewrite Ht. split.
    + unfold set_rotations. f_equal. apply map_eq. intros i. destruct (decide (i = rotID)) as [->|].
      * by rewrite lookup_alter_eq, lookup_insert_eq, Hr.
      * by rewrite lookup_alter_ne, lookup_insert_ne.
    + clear - Hm. induction Hm as [|x l Hx Hl IH]; cbn; constructor; [|done].
      by apply resumeWanted_spec.
  - rewrite Hq. by eexists _, _.
Qed.

Lemma retry_outcomes_witness :
  exists w' : World, RetryRotation (E := exampleEnv (fun _ => None)) 3 [] [7]
      (startWorld (rotationTables PhaseFailedB oldPSK16)) = (inl tt, w') /\
    exists jid at_, queue w' = [newJob jid at_ (phaseAOpts 3)].
Proof.
  pose proof (retry_outcomes (E := exampleEnv (fun _ => None)) 3 [] [7]
    (startWorld (rotationTables PhaseFailedB oldPSK16)) (stagedRotation PhaseFailedB)
    (fun _ => eq_refl) eq_refl eq_refl ltac:(by repeat (constructor || split))) as H.
  destruct (RetryRotation _ _ _ _) as [r w'] eqn:Er. exists w'.
  assert (r = inl tt) as ->.
  { rewrite <- (f_equal fst Er : _ = r). vm_compute. reflexivity. }
  split; [done|]. apply H.
Defined.
