(* ===== verification/FleetJobs.v ===== *)
(** The job handlers of fleet security, [internal/fleetsec/job_handlers.go],
    and the dispatcher hook that enqueues recoveries,
    [internal/fleetsec/recovery_hook.go].

    The worker loop of Jobs.v runs a handler as a function from a job to an
    error; here that function also changes the [World]. *)
From S2P Require Import Prelude GoStrings FleetStore FleetService FleetRotation.
From S2P Require Jobs.

Section Handlers.
Context `{E : Env} `{PL : Payloads}.

(** ** recovery_hook.go: the hash table *)

(** Later slots overwrite earlier ones. *)
Definition hashTable (recs : list RecoveryPSKRecord) : gmap Z string :=
  fold_left (fun m r => <[uint8 (rPSKHash r) := rFP r]> m) recs ∅.

Definition RebuildHashTable : M (res unit) :=
  do? recs <- call (fun fault _ => ListRecoveryPSKs fault);
  do _ <- modify (set_hook (Some (hashTable recs)));
  ok tt.

Definition rebuildRecoveryHook : M unit :=
  do w <- getWorld;
  match hook w with
  | None => ret tt
  | Some _ => do _ <- RebuildHashTable; ret tt
  end.

(** ** Phase A *)
Definition doneTarget (x : RotationTarget) : bool :=
  bool_decide (Phase x = PhaseOnNewPSK) || bool_decide (Phase x = PhaseRetired).

(** The staging slot: pinned, or the canonical slot that is not PRIMARY. *)
Definition pickStaging (rotID primarySlot : Z) (pinned : option Z) : M (res Z) :=
  match pinned with
  | Some s => ok s
  | None =>
      if (primarySlot =? 0) || (primarySlot =? 1) then
        let stagingIdx := 1 - primarySlot in
        do _ <- call (fun fault _ => SetStagingChannelIndex fault rotID stagingIdx);
        ok stagingIdx
      else fail (EMsg ("Pi PRIMARY at non-canonical slot " +:+ itoa primarySlot +:+
                       " (expected 0 or 1); run reset_node first"))
  end.

Definition stagePi (rotID stagingIdx : Z) (psk : bytes) (piPhase : PiLocalPhase) : M (res unit) :=
  if bool_decide (piPhase = PiPhasePending) then
    do? _ <- wrap "phase A staging: " (applyLocalStagingChannel stagingIdx psk);
    do _ <- call (fun fault _ => UpsertPiLocalPhase fault rotID PiPhaseStagingAdded);
    ok tt
  else ok tt.

Definition phaseBOpts (rotID stagingIdx primarySlot num : Z) : Jobs.EnqueueOpts :=
  Jobs.mkOpts Jobs.KindRotatePhaseB (Some rotID) (Some num)
    (marshalB (mkB stagingIdx primarySlot num)).

(** The body of the loop over the targets; a failing debounce check reads as
    not pending. *)
Definition enqueuePhaseB (rotID stagingIdx primarySlot : Z) (t : RotationTarget) : M (res unit) :=
  let num := TgtNodeNum t in
  if num =? LocalNodeNum then ok tt
  else if doneTarget t then ok tt
  else
    do pending <- hasPendingFor Jobs.KindRotatePhaseB num;
    if match pending with inl b => b | inr _ => false end then ok tt
    else
      do? _ <- wrap ("enqueue phase B for !" +:+ hex08x num +:+ ": ")
                 (enqueue (phaseBOpts rotID stagingIdx primarySlot num));
      ok tt.

(** The rotation, with its stored PSK, as both handlers fetch them. *)
Definition storedPSK (rotID : Z) (missing : string) : M (res bytes) :=
  do? psk <- wrap "fetch rotation psk: " (call (fun fault _ => GetRotationPSK fault rotID));
  if zlen psk =? 0 then fail (EMsg missing) else ok psk.

Definition fetchRotation (rotID : Z) : M (res RotationRecord) :=
  wrap "fetch rotation: " (call (fun fault _ => GetRotation fault rotID)).

Definition phaseA_Run (job : Jobs.Job) : M (res unit) :=
  match Jobs.RotationID job with
  | None => fail (EMsg "phase A job missing rotation_id")
  | Some rotID =>
      do? rec <- fetchRotation rotID;
      do? psk <- storedPSK rotID "rotation has no stored PSK (already cleared?)";
      do? probe <- wrap "probe Pi slots: " probeSlotsLocal;
      let primarySlot := probe.2 in
      do? stagingIdx <- pickStaging rotID primarySlot (StagingChannelIndex rec);
      do? _ <- stagePi rotID stagingIdx psk (PiPhase rec);
      do w <- getWorld;
      do _ <- call (fun fault _ => UpsertChannel fault (default 0 (ChannelIndex rec)) "" ""
                 (Fingerprint psk) (zlen psk) (Some (now w)) (StartedBy rec) (Some rotID));
      forEach (Targets rec) (enqueuePhaseB rotID stagingIdx primarySlot)
  end.

(** ** Phase B *)
Definition remotesDone (current : list RotationTarget) : bool :=
  forallb (fun x => (TgtNodeNum x =? LocalNodeNum) || doneTarget x) current.

Definition findTarget (num : Z) (current : list RotationTarget) : option RotationTarget :=
  List.find (fun x => TgtNodeNum x =? num) current.

(** After a successful migration. *)
Definition recordMigrated (rotID num : Z) (pskFP : string) (current : list RotationTarget)
    : M (res unit) :=
  do current <- transitionTarget rotID current num PhaseOnNewPSK "";
  do _ <- call (fun fault now => MarkTrustVerifiedNow fault now num VerifyMethodRemotePKC);
  do _ <- call (fun fault _ => SetNodeCurrentPSKFP fault num pskFP);
  do _ <- (if remotesDone current then persistTargets rotID current true else ret tt);
  ok tt.

Definition phaseB_Run (job : Jobs.Job) : M (res unit) :=
  match Jobs.RotationID job with
  | None => fail (EMsg "phase B job missing rotation_id")
  | Some rotID =>
      match unmarshalB (Jobs.Payload job) with
      | None => fail (EMsg "decode phase B payload")
      | Some p =>
          let num := bTargetNodeNum p in
          if num =? 0 then fail (EMsg "phase B targetNodeNum must be non-zero")
          else
            do? psk <- storedPSK rotID "rotation has no stored PSK";
            do? rec <- fetchRotation rotID;
            match findTarget num (Targets rec) with
            | None => fail (EMsg ("target " +:+ hexx num +:+ " not found in rotation row"))
            | Some t =>
                if doneTarget t then ok tt
                else
                  do _ <- call2 (fun fault fault' => IncrementTargetAttempts fault fault' rotID num);
                  do current <- transitionTarget rotID (Targets rec) num PhasePushingB "";
                  do r <- migrateRemoteAtomic num (bStagingIdx p) (bOldSlot p) psk;
                  match r with
                  | inr e =>
                      do _ <- transitionTarget rotID current num PhaseFailedB (Error e);
                      fail (EWrap "phase B atomic migrate: " e "")
                  | inl _ => recordMigrated rotID num (Fingerprint psk) current
                  end
            end
      end
  end.

(** ** Phase C *)

(** The first PRIMARY slot whose PSK is not the new one, and that PSK;
    slots that cannot be read are passed over. *)
Fixpoint findOldSlot (idxs : list Z) (newPSKFP : string) : M (option (Z * bytes)) :=
  match idxs with
  | [] => ret None
  | idx :: idxs' =>
      do r <- readLocalChannel idx;
      match r with
      | inl ch =>
          if (chRole ch =? Channel_PRIMARY) &&
             negb (bool_decide (Fingerprint (channelPSK ch) = newPSKFP))
          then ret (Some (idx, channelPSK ch))
          else findOldSlot idxs' newPSKFP
      | inr _ => findOldSlot idxs' newPSKFP
      end
  end.

(** The slot pre-allocated in the recovery cache, or -1. *)
Definition allocateRecovery (rotID : Z) (oldPSK : bytes) : M Z :=
  if zlen oldPSK =? 0 then ret (-1)
  else
    do w <- getWorld;
    do r <- call (fun fault now => AddRecoveryPSK fault (choice (ticks w)) now (Fingerprint oldPSK)
                    oldPSK (ChannelHash "" oldPSK) (Some rotID));
    ret (match r with inl slot => slot | inr _ => -1 end).

Definition markLaggard (oldPSKFP : string) (t : RotationTarget) : M (res unit) :=
  if TgtNodeNum t =? LocalNodeNum then ok tt
  else if doneTarget t then ok tt
  else do _ <- call (fun fault now => MarkStranded fault now (TgtNodeNum t) oldPSKFP); ok tt.

Definition localDone (current : list RotationTarget) : list RotationTarget :=
  default current (alterTarget LocalNodeNum (set_phase PhaseOnNewPSK "") current).

(** The bookkeeping after the promotion of the local radio. *)
Definition finishC (rotID : Z) (oldPSK : bytes) (rec : RotationRecord) : M (res unit) :=
  let current := localDone (Targets rec) in
  do _ <- persistTargets rotID current true;
  do _ <- call (fun fault now => MarkTrustVerifiedNow fault now LocalNodeNum VerifyMethodLocalUSB);
  do? _ <- wrap "mark retired: " (call (fun fault now => MarkRotationRetired fault now rotID));
  do _ <- forEach current (markLaggard (Fingerprint oldPSK));
  do _ <- call (fun fault _ => ClearRotationPSK fault rotID);
  do _ <- rebuildRecoveryHook;
  ok tt.

Definition phaseC_Run (job : Jobs.Job) : M (res unit) :=
  match Jobs.RotationID job with
  | None => fail (EMsg "phase C job missing rotation_id")
  | Some rotID =>
      match unmarshalC (Jobs.Payload job) with
      | None => fail (EMsg "decode phase C payload")
      | Some p =>
          do? rec <- fetchRotation rotID;
          if bool_decide (RetiredAt rec <> None) || bool_decide (PiPhase rec = PiPhaseRetired)
          then ok tt
          else
            do old <- findOldSlot slots (NewPSKFP rec);
            match old with
            | None => call (fun fault now => MarkRotationRetired fault now rotID)
            | Some (oldSlot, oldPSK) =>
                do? psk <- storedPSK rotID
                             "rotation has no stored PSK; cannot promote Pi without it";
                do recoverySlot <- allocateRecovery rotID oldPSK;
                do? _ <- wrap "Pi atomic migrate: "
                           (migratePiAtomicWithRecovery (pStagingIdx p) oldSlot psk recoverySlot
                              oldPSK);
                finishC rotID oldPSK rec
            end
      end
  end.

(** ** recover_stranded *)

(** Up to [attempts] probes a minute apart; the inner error is a failed
    probe, the outer one a cancelled context. *)
Fixpoint probeRetry (attempts : nat) : M (res (res (list Z * Z))) :=
  do r <- probeSlotsLocal;
  match r, attempts with
  | inl p, _ => ok (inl p)
  | inr e, S (S _ as attempts') =>
      do? _ <- sleep (seconds 60); probeRetry attempts'
  | inr e, _ => ok (inr e)
  end.

Definition probeAttempts : nat := 5.

(** Record a failed attempt on the node's row and fail. *)
Definition giveUp (num : Z) (note : string) (e : ferr) : M (res unit) :=
  do _ <- call (fun fault now => IncrementRecoveryAttempt fault now num note);
  fail e.

Definition recoverTo (p : RecoverStrandedPayload) (primarySlot : Z) (newPSK : bytes)
    : M (res unit) :=
  let num := rNodeNum p in
  if bool_decide (Fingerprint newPSK = rPrevPSKFP p) then
    do _ <- call (fun fault now => ClearStranded fault now num); ok tt
  else
    let stagingIdx := if primarySlot =? 1 then 0 else 1 in
    do r <- migrateRemoteAtomic num stagingIdx primarySlot newPSK;
    match r with
    | inr e => giveUp num (Error e) (EWrap "recover-stranded migrate: " e "")
    | inl _ =>
        do _ <- call (fun fault now => MarkTrustVerifiedNow fault now num VerifyMethodRemotePKC);
        do _ <- call (fun fault _ => SetNodeCurrentPSKFP fault num (Fingerprint newPSK));
        do _ <- call (fun fault now => ClearStranded fault now num);
        ok tt
    end.

Definition recoverStranded_Run (job : Jobs.Job) : M (res unit) :=
  match unmarshalR (Jobs.Payload job) with
  | None => fail (EMsg "decode recover-stranded payload")
  | Some p =>
      let num := rNodeNum p in
      if num =? 0 then fail (EMsg "recover-stranded payload missing nodeNum")
      else if bool_decide (rPrevPSKFP p = ""%string) then
        fail (EMsg "recover-stranded payload missing prevPskFp")
      else
        do rec <- call (fun fault _ => GetRecoveryPSKByFP fault (rPrevPSKFP p));
        match rec with
        | inr _ => giveUp num "prev psk evicted from recovery cache; manual USB recovery required"
                     (EMsg ("recovery psk for fp=" +:+ rPrevPSKFP p +:+ " not in cache (evicted)"))
        | inl _ =>
            do? probe <- probeRetry probeAttempts;
            match probe with
            | inr perr => giveUp num ("probe Pi after retries: " +:+ Error perr)
                            (EWrap "probe Pi slots after 5 attempts: " perr "")
            | inl (_, primarySlot) =>
                if (primarySlot <? 0) || (1 <? primarySlot) then
                  let m := "Pi PRIMARY at non-canonical slot " +:+ itoa primarySlot in
                  giveUp num m (EMsg m)
                else
                  do ch <- readLocalChannel primarySlot;
                  match ch with
                  | inr perr => giveUp num ("read Pi PRIMARY: " +:+ Error perr)
                                  (EWrap ("read Pi PRIMARY slot " +:+ itoa primarySlot +:+ ": ")
                                     perr "")
                  | inl ch =>
                      if zlen (channelPSK ch) =? 0 then
                        giveUp num "Pi PRIMARY has no PSK material"
                          (EMsg "Pi PRIMARY has no PSK material; cannot recover")
                      else recoverTo p primarySlot (channelPSK ch)
                  end
            end
        end
  end.

(** The handlers [RegisterJobHandlers] registers. *)
Definition handlers (kind : string) : option (Jobs.Job -> M (res unit)) :=
  if bool_decide (kind = Jobs.KindRotatePhaseA) then Some phaseA_Run
  else if bool_decide (kind = Jobs.KindRotatePhaseB) then Some phaseB_Run
  else if bool_decide (kind = Jobs.KindRotatePhaseC) then Some phaseC_Run
  else if bool_decide (kind = Jobs.KindRecoverStrand) then Some recoverStranded_Run
  else None.

(** ** recovery_hook.go: packets and operators *)
Definition recoverOpts (num : Z) (fp source : string) : Jobs.EnqueueOpts :=
  Jobs.mkOpts Jobs.KindRecoverStrand None (Some num) (marshalR (mkR num fp source)).

Definition cooling (from : Z) (w : World) : bool :=
  match cooldown w !! from with Some last => now w - last <? seconds 30 | None => false end.

(** [GetNodeTrust], [HasPendingFor] and [Enqueue] for a sender that passed the
    filters. *)
Definition observeStranded (from : Z) (fp : string) : M (option Z) :=
  do trust <- call (fun fault _ => GetNodeTrust fault from);
  match trust with
  | inr _ => ret None
  | inl n =>
      match StrandedSince n with
      | None => ret None
      | Some _ =>
          let fp := if negb (bool_decide (PreviousPSKFP n = ""%string)) &&
                       negb (bool_decide (PreviousPSKFP n = fp)) then PreviousPSKFP n else fp in
          do pending <- hasPendingFor Jobs.KindRecoverStrand from;
          match pending with
          | inr _ | inl true => ret None
          | inl false =>
              do r <- enqueue (recoverOpts from fp "dispatcher");
              ret (match r with inl id => Some id | inr _ => None end)
          end
      end
  end.

(** The id of the job that was enqueued, if any. *)
Definition ObserveInboundPacket (from channelHash : Z) : M (option Z) :=
  do w <- getWorld;
  if negb jobsWired then ret None
  else match hook w with
  | None => ret None
  | Some hashFP =>
      match hashFP !! channelHash with
      | None => ret None
      | Some fp =>
          if cooling from w then ret None
          else
            do _ <- modify (fun w => set_cooldown (<[from := now w]> (cooldown w)) w);
            observeStranded from fp
      end
  end.

Definition ForceRecoverStranded (num : Z) : M (res Z) :=
  if negb jobsWired then fail (EMsg "fleet-security jobs queue not wired")
  else
    do? n <- call (fun fault _ => GetNodeTrust fault num);
    match StrandedSince n with
    | None => fail (EMsg ("node " +:+ itoa num +:+ " is not flagged stranded"))
    | Some _ =>
        if bool_decide (PreviousPSKFP n = ""%string) then
          fail (EMsg ("node " +:+ itoa num +:+ " has no previous_psk_fp; cannot pick recovery slot"))
        else
          do? pending <- hasPendingFor Jobs.KindRecoverStrand num;
          if (pending : bool) then
            fail (EMsg ("recover_stranded job already pending for node " +:+ itoa num))
          else
            do? id <- enqueue (recoverOpts num (PreviousPSKFP n) "manual");
            do _ <- auditFleet "force_recover_stranded" (itoa num);
            ok id
    end.

Definition CancelStranded (num : Z) : M (res unit) :=
  do? _ <- call (fun fault now => ClearStranded fault now num);
  do? _ <- call (fun fault _ => WipePrevious fault num);
  do _ <- auditFleet "cancel_stranded" (itoa num);
  ok tt.
End Handlers.

(** ** Lemmas: phase A *)
Section PhaseA.
Context `{E : Env} `{PL : Payloads} (Hdb : reliableDB).

Definition isPending (kind : string) (num : Z) (q : list Jobs.Job) : bool :=
  existsb (Jobs.pendingFor kind num) q.

Lemma isPending_count kind num q :
  (0 <? zlen (List.filter (Jobs.pendingFor kind num) q)) = isPending kind num q.
Proof.
  unfold isPending. induction q as [|j q IH]; cbn; [done|].
  destruct (Jobs.pendingFor kind num j); cbn; [|done].
  rewrite zlen_cons. pose proof (zlen_nonneg (List.filter (Jobs.pendingFor kind num) q)).
  apply Z.ltb_lt. lia.
Qed.

(** The targets phase A queues a job for. *)
Definition needsB (q : list Jobs.Job) (t : RotationTarget) : bool :=
  negb (TgtNodeNum t =? LocalNodeNum) && negb (doneTarget t) &&
  negb (isPending Jobs.KindRotatePhaseB (TgtNodeNum t) q).

(** A job of phase B as phase A queues it. *)
Definition isPhaseB (rotID st old : Z) (t : RotationTarget) (j : Jobs.Job) : Prop :=
  exists id at_, j = newJob id at_ (phaseBOpts rotID st old (TgtNodeNum t)).

Lemma isPhaseB_pending rotID st old t j num : isPhaseB rotID st old t j ->
  Jobs.pendingFor Jobs.KindRotatePhaseB num j = bool_decide (TgtNodeNum t = num).
Proof.
  intros (id & at_ & ->). unfold Jobs.pendingFor, Jobs.queued. cbn.
  rewrite bool_decide_true by done. rewrite andb_true_r.
  case_bool_decide as H1; case_bool_decide as H2; try done; congruence.
Qed.

Definition queueOnly (w w' : World) : Prop :=
  tables w' = tables w /\ sentLog w' = sentLog w /\ passkeys w' = passkeys w /\ hook w' = hook w /\
  cooldown w' = cooldown w /\ now w <= now w'.

Lemma enqueuePhaseB_eval rotID st old t w :
  exists w', enqueuePhaseB rotID st old t w = (inl tt, w') /\ queueOnly w w' /\
    if needsB (queue w) t then exists j, queue w' = queue w ++ [j] /\ isPhaseB rotID st old t j
    else queue w' = queue w.
Proof.
  unfold enqueuePhaseB, needsB. destruct (TgtNodeNum t =? LocalNodeNum); cbn [negb andb].
  { exists w. split; [done|]. split; [|done]. split_and!; done || lia. }
  destruct (doneTarget t); cbn [negb andb].
  { exists w. split; [done|]. split; [|done]. split_and!; done || lia. }
  rewrite bind_eval, hasPendingFor_eval, isPending_count by done. cbn [fst snd].
  destruct (isPending _ _ _); cbn [negb].
  { eexists. split; [done|]. split; [|done]. split_and!; try done. cbn. lia. }
  rewrite try_eval, wrap_eval, enqueue_eval by done. eexists. split; [done|].
  split; [split_and!; try done; cbn; lia|]. eexists. split; [done|]. by eexists _, _.
Qed.

Lemma isPending_snoc kind num q j :
  isPending kind num (q ++ [j]) = isPending kind num q || Jobs.pendingFor kind num j.
Proof. unfold isPending. rewrite existsb_app. cbn. by rewrite orb_false_r. Qed.

(** The loop: one job per target in need, in order. *)
Lemma enqueueAll rotID st old l w : NoDup (map TgtNodeNum l) ->
  exists w' js, forEach l (enqueuePhaseB rotID st old) w = (inl tt, w') /\ queueOnly w w' /\
    queue w' = queue w ++ js /\
    Forall2 (isPhaseB rotID st old) (List.filter (needsB (queue w)) l) js.
Proof.
  revert w. induction l as [|t l IH]; intros w Hnd.
  { exists w, []. split; [done|]. split; [split_and!; done || lia|]. rewrite app_nil_r. by constructor. }
  cbn in Hnd. apply NoDup_cons in Hnd as [Ht Hnd].
  destruct (enqueuePhaseB_eval rotID st old t w) as (w1 & Hev & Ho1 & Hq1).
  destruct (IH w1 Hnd) as (w' & js & Hf & Ho2 & Hq2 & Hjs).
  assert (queueOnly w w') as Ho.
  { destruct Ho1 as (? & ? & ? & ? & ? & ?), Ho2 as (? & ? & ? & ? & ? & ?).
    split_and!; try congruence; lia. }
  assert (List.filter (needsB (queue w1)) l = List.filter (needsB (queue w)) l) as Hsame.
  { destruct (needsB (queue w) t); [|by rewrite Hq1]. destruct Hq1 as (j & -> & Hj).
    apply List.filter_ext_in. intros x Hx. unfold needsB. rewrite isPending_snoc.
    rewrite (isPhaseB_pending _ _ _ _ _ _ Hj), bool_decide_false; [by rewrite orb_false_r|].
    intros Heq. apply Ht. rewrite Heq. by apply list_elem_of_In, in_map. }
  rewrite Hsame in Hjs. cbn [forEach List.filter]. rewrite try_eval, Hev, Hf.
  destruct (needsB (queue w) t).
  - destruct Hq1 as (j & Hq1 & Hj). exists w', (j :: js). split; [done|]. split; [done|].
    rewrite Hq2, Hq1, <- app_assoc. split; [done|]. by constructor.
  - exists w', js. split; [done|]. split; [done|]. by rewrite Hq2, Hq1.
Qed.

(** The staging slot phase A works with. *)
Definition stagingOf (rec : RotationRecord) (primary : Z) : Z :=
  default (1 - primary) (StagingChannelIndex rec).

Definition stagedAs (st : Z) (rec : RotationRecord) : RotationRecord :=
  mkRotation (Kind rec) (ChannelIndex rec) (Some st)
    (if bool_decide (PiPhase rec = PiPhasePending) then PiPhaseStagingAdded else PiPhase rec)
    (StartedBy rec) (StartedAt rec) (CompletedAt rec) (RetiredAt rec) (Targets rec) (NewPSKFP rec)
    (RotNotes rec) (new_psk rec).
End PhaseA.

Section PhaseARun.
Context `{E : Env} `{PL : Payloads} (Hdb : reliableDB).

(** What the rotation's row holds when phase A reads it. *)
Record fetched (rotID : Z) (rec : RotationRecord) (w : World) : Prop := {
  fetched_row : rotations (tables w) !! rotID = Some rec;
  fetched_phases : Forall (fun x => Phase x <> PhaseEmpty) (Targets rec)
}.

Lemma fetchRotation_eval rotID rec w : fetched rotID rec w ->
  fetchRotation rotID w = (inl rec, tick 0 w).
Proof.
  intros [Hr Hp]. unfold fetchRotation. rewrite wrap_eval.
  assert (GetRotation None rotID (tables w) = (inl rec, tables w)) as Hg.
  { unfold GetRotation. cbn [stmt]. rewrite Hr. rewrite map_backfill_id by done. by destruct rec. }
  rewrite call_read by (try done; by rewrite Hg). by rewrite Hg.
Qed.

Lemma storedPSK_eval rotID missing rec w : rotations (tables w) !! rotID = Some rec ->
  storedPSK rotID missing w =
  (if zlen (default [] (new_psk rec)) =? 0 then inr (EMsg missing)
   else inl (default [] (new_psk rec)), tick 0 w).
Proof.
  intros Hr. unfold storedPSK. rewrite try_eval, wrap_eval.
  assert (GetRotationPSK None rotID (tables w) = (inl (default [] (new_psk rec)), tables w)) as Hg.
  { unfold GetRotationPSK. cbn [stmt]. by rewrite Hr. }
  rewrite call_read by (try done; by rewrite Hg). rewrite Hg. cbn [fst]. by destruct (_ =? 0).
Qed.

Lemma fetched_tables rotID rec w w' : tables w' = tables w -> fetched rotID rec w -> fetched rotID rec w'.
Proof. intros Ht [Hr Hp]. split; [by rewrite Ht|done]. Qed.

Definition pinStaging (st : Z) (rec : RotationRecord) : RotationRecord :=
  mkRotation (Kind rec) (ChannelIndex rec) (Some st) (PiPhase rec) (StartedBy rec) (StartedAt rec)
    (CompletedAt rec) (RetiredAt rec) (Targets rec) (NewPSKFP rec) (RotNotes rec) (new_psk rec).

Lemma alter_row (m : gmap Z RotationRecord) k r f :
  m !! k = Some r -> alter f k m = <[k := f r]> m.
Proof.
  intros Hk. apply map_eq. intros i. destruct (decide (i = k)) as [->|].
  - by rewrite lookup_alter_eq, lookup_insert_eq, Hk.
  - by rewrite lookup_alter_ne, lookup_insert_ne.
Qed.

(** The world as before, with another row for the rotation. *)
Definition rowChanged (rotID : Z) (rec' : RotationRecord) (w w' : World) : Prop :=
  tables w' = set_rotations (<[rotID := rec']> (rotations (tables w))) (tables w) /\
  queue w' = queue w.

Lemma pickStaging_eval rotID primary rec w : rotations (tables w) !! rotID = Some rec ->
  (exists e, pickStaging rotID primary (StagingChannelIndex rec) w = (inr e, w)) \/
  (exists w', pickStaging rotID primary (StagingChannelIndex rec) w =
     (inl (stagingOf rec primary), w') /\
     (StagingChannelIndex rec = None -> primary = 0 \/ primary = 1) /\
     rowChanged rotID (pinStaging (stagingOf rec primary) rec) w w').
Proof.
  intros Hr. unfold pickStaging, stagingOf. destruct (StagingChannelIndex rec) as [s|] eqn:Es.
  - right. exists w. split; [done|]. split; [done|]. split; [|done].
    change (default (1 - primary) (Some s)) with s.
    assert (pinStaging s rec = rec) as -> by (unfold pinStaging; rewrite <- Es; by destruct rec).
    rewrite insert_id by done. by destruct (tables w).
  - destruct ((primary =? 0) || (primary =? 1)) eqn:Ep; [|left; by eexists].
    right. rewrite bind_eval, call_eval by done. eexists. split; [done|]. split.
    + intros _. apply orb_true_iff in Ep. lia.
    + split; [|done]. cbn. unfold updateRotation. cbn. f_equal. by rewrite (alter_row _ _ rec).
Qed.

Lemma applyLocal_tables st psk w :
  radioOnly w (applyLocalStagingChannel st psk w).2.
Proof. apply (ltac:(unfold applyLocalStagingChannel; keeps) : keeps radioOnly (applyLocalStagingChannel st psk)). Qed.

Lemma stagePi_eval rotID st psk rec w : rotations (tables w) !! rotID = Some (pinStaging st rec) ->
  (exists e w', stagePi rotID st psk (PiPhase rec) w = (inr e, w') /\ queue w' = queue w) \/
  (exists w', stagePi rotID st psk (PiPhase rec) w = (inl tt, w') /\
     rowChanged rotID (stagedAs st rec) w w').
Proof.
  intros Hr. unfold stagePi, stagedAs. case_bool_decide as Hp.
  - rewrite try_eval, wrap_eval. destruct (applyLocal_tables st psk w) as (Ht & Hq & _).
    destruct (applyLocalStagingChannel st psk w) as [[[]|e] w1]; cbn [snd] in *;
      [right|left; by eexists _, _].
    rewrite bind_eval, call_eval by done. eexists. split; [done|]. split; [|done].
    cbn. rewrite Ht. f_equal. by rewrite (alter_row _ _ _ _ Hr).
  - right. exists w. split; [done|]. split; [|done]. fold (pinStaging st rec).
    rewrite insert_id by done. by destruct (tables w).
Qed.
End PhaseARun.

(** ** Properties *)

(** C32: phase A.  With a database that answers, a successful phase A has a
    stored PSK and found the PRIMARY slot of the local radio; the staging slot
    is the pinned one or else the other of the slots 0 and 1.  It records the
    slot and the staged state, gives the channel row the new fingerprint (and
    an empty name and role), changes no target and no trust row, and queues,
    in order, one phase B for every remote target that is not done and has none
    pending.  A failed one queues nothing. *)
Theorem phase_a_outcomes `{E : Env} `{PL : Payloads} job rotID rec w (Hdb : reliableDB)
    (Hid : Jobs.RotationID job = Some rotID) (Hf : fetched rotID rec w)
    (Hnd : NoDup (map TgtNodeNum (Targets rec))) :
  let '(r, w') := phaseA_Run job w in
  match r with
  | inr _ => queue w' = queue w
  | inl _ =>
      exists psk w0 w1 empties primary row js,
        new_psk rec = Some psk /\ psk <> [] /\
        probeSlotsLocal w0 = (inl (empties, primary), w1) /\ sentLog w0 = sentLog w /\
        let st := stagingOf rec primary in
        (StagingChannelIndex rec = None -> primary = 0 \/ primary = 1) /\
        rotations (tables w') = <[rotID := stagedAs st rec]> (rotations (tables w)) /\
        trust (tables w') = trust (tables w) /\
        channels (tables w') = <[default 0 (ChannelIndex rec) := row]> (channels (tables w)) /\
        cName row = ""%string /\ cRole row = ""%string /\
        (Fingerprint psk <> ""%string -> cPSKFingerprint row = Some (Fingerprint psk)) /\
        queue w' = queue w ++ js /\
        Forall2 (isPhaseB rotID st primary) (List.filter (needsB (queue w)) (Targets rec)) js
  end.
Proof.
  unfold phaseA_Run. rewrite Hid, try_eval, (fetchRotation_eval Hdb rotID rec w Hf).
  rewrite try_eval, (storedPSK_eval Hdb _ _ rec) by apply Hf.
  destruct (Z.eqb_spec (zlen (default [] (new_psk rec))) 0) as [|Hz]; [done|].
  assert (exists psk, new_psk rec = Some psk /\ psk <> []) as (psk & Hpsk & Hne).
  { destruct (new_psk rec) as [k|]; [|done]. exists k. split; [done|]. by intros ->. }
  rewrite Hpsk. change (default [] (Some psk)) with psk. set (w0 := tick 0 (tick 0 w)).
  rewrite try_eval, wrap_eval.
  destruct (probeSlotsLocal_radioOnly w0) as (Ht1 & Hq1 & _).
  change (tables w0) with (tables w) in Ht1. change (queue w0) with (queue w) in Hq1.
  destruct (probeSlotsLocal w0) as [[[empties primary]|e] w1] eqn:Ep; cbn [snd] in Ht1, Hq1;
    [|by rewrite Hq1].
  assert (rotations (tables w1) !! rotID = Some rec) as Hr1 by (rewrite Ht1; apply Hf).
  rewrite try_eval. cbn [snd].
  destruct (pickStaging_eval Hdb rotID primary rec w1 Hr1) as [[e ->]|(w2 & -> & Hpr & Ht2 & Hq2)];
    [by rewrite Hq1|].
  set (st := stagingOf rec primary) in *.
  assert (rotations (tables w2) !! rotID = Some (pinStaging st rec)) as Hr2.
  { rewrite Ht2. cbn. by rewrite lookup_insert_eq. }
  rewrite try_eval.
  destruct (stagePi_eval Hdb rotID st psk rec w2 Hr2) as [(e & w3 & -> & Hq3)|(w3 & -> & Ht3 & Hq3)];
    [by rewrite Hq3, Hq2, Hq1|].
  rewrite bind_eval. cbn [getWorld fst snd]. rewrite bind_eval, call_eval by done.
  cbn [fst snd].
  match goal with |- context [forEach _ _ ?x] => set (w4 := x) end.
  destruct (enqueueAll Hdb rotID st primary (Targets rec) w4 Hnd) as (w' & js & -> & Ho & Hq & Hjs).
  destruct Ho as (Hto & _).
  assert (queue w4 = queue w) as Hq4 by (unfold w4; cbn; congruence).
  rewrite Hq4 in Hq, Hjs. exists psk, w0, w1, empties, primary.
  eexists _, js. split_and!; try done.
  - rewrite Hto. cbn. rewrite Ht3. cbn. rewrite Ht2. cbn. by rewrite insert_insert_eq, Ht1.
  - rewrite Hto. cbn. rewrite Ht3. cbn. rewrite Ht2. cbn. by rewrite Ht1.
  - rewrite Hto. cbn. rewrite Ht3. cbn. rewrite Ht2. cbn. by rewrite Ht1.
  - cbn. by destruct (channels (tables w) !! default 0 (ChannelIndex rec)).
  - cbn. by destruct (channels (tables w) !! default 0 (ChannelIndex rec)).
  - intros Hfp. unfold nonempty. rewrite bool_decide_false by done.
    by destruct (channels (tables w) !! default 0 (ChannelIndex rec)).
Qed.

(** A radio that answers channel reads from its slots and acknowledges the
    rest. *)
Definition slotsRadio (f : Z -> Channel) (l : list Sent) : option Tracker.Reply :=
  match l with
  | s :: _ => match variant (sMsg s) with
              | GetChannelRequest v => Some (adminReply (GetChannelResponse (f (v - 1))) [x09])
              | _ => Some ackReply
              end
  | [] => None
  end.

Definition slot (role : Z) (psk : bytes) (idx : Z) : Channel := mkCh idx role (Some (mkSettings "" psk)).

(** The old PSK is PRIMARY in slot 0, the rest is disabled. *)
Definition freshSlots (idx : Z) : Channel :=
  if idx =? 0 then slot Channel_PRIMARY oldPSK16 0 else slot Channel_DISABLED [] idx.

Definition pendingRotation : RotationRecord :=
  mkRotation RotationKindPSK (Some 0) None PiPhasePending "op" 0 None None
    [pendingTarget 7; pendingTarget 1] (fpOf newPSK16) "" (Some newPSK16).

Definition pendingTables : Tables :=
  set_rotations {[3 := pendingRotation]} (rotationTables PhasePending oldPSK16).

Definition phaseAJob : Jobs.Job := newJob 50 0 (phaseAOpts 3).

Lemma phase_a_outcomes_witness :
  exists w' : World, phaseA_Run (E := exampleEnv (slotsRadio freshSlots)) phaseAJob
      (startWorld pendingTables) = (inl tt, w') /\
    exists js, queue w' = js /\
      Forall2 (isPhaseB 3 1 0) [pendingTarget 7] js.
Proof.
  pose proof (phase_a_outcomes (E := exampleEnv (slotsRadio freshSlots)) phaseAJob 3 pendingRotation
    (startWorld pendingTables) (fun _ => eq_refl) eq_refl
    ltac:(split; [reflexivity|by repeat (constructor || split)])
    ltac:(apply (bool_decide_unpack _); vm_compute; reflexivity)) as H.
  destruct (phaseA_Run _ _) as [r w'] eqn:Er. exists w'.
  assert (r = inl tt) as -> by (rewrite <- (f_equal fst Er : _ = r); vm_compute; reflexivity).
  split; [done|]. destruct H as (psk & w0 & w1 & em & pr & row & js & Hpsk & _ & Hp & _ & _ & Hrot & _ & _ &
    _ & _ & _ & Hq & Hjs).
  assert (rotations (tables w') !! 3 = Some (stagedAs 1 pendingRotation)) as Hs.
  { rewrite <- (f_equal snd Er : _ = w'). vm_compute. reflexivity. }
  rewrite Hrot, lookup_insert_eq in Hs. injection Hs as Hs. cbn in Hs.
  assert (pr = 0) as -> by (unfold stagingOf in Hs; cbn in Hs; lia).
  exists js. split; [done|]. exact Hjs.
Defined.

(** *** Staging and old slot *)

(** What the last message on slot [s] of a transaction makes of it. *)
Definition finalSetting (s : Z) (plan : list PayloadVariant) : option Channel :=
  fold_left (fun acc v => match v with
                          | SetChannel c => if chIndex c =? s then Some c else acc
                          | _ => acc
                          end) plan None.

(** The staging slot must not be the local PRIMARY slot.  With the slots
    phase A hands to phase B, the transaction of phase B leaves the staging
    slot of the remote PRIMARY with the new PSK exactly if the rotation has no
    staging slot pinned, or one that is not the PRIMARY slot of the local
    radio.  A pinned slot that has become PRIMARY, because a later rotation was
    completed meanwhile, is promoted and then disabled and wiped. *)
Theorem staging_slot_survives `{E : Env} rotID primary pinned w st w' psk
    (Hpick : pickStaging rotID primary pinned w = (inl st, w')) :
  (finalSetting st (migrationPlan st primary psk) = Some (slot Channel_PRIMARY psk st) <->
   pinned <> Some primary) /\
  (pinned = Some primary ->
   finalSetting st (migrationPlan st primary psk) = Some (slot Channel_DISABLED [] st)).
Proof.
  assert (st = primary <-> pinned = Some primary) as Hst.
  { unfold pickStaging in Hpick. destruct pinned as [s|].
    - injection Hpick as -> _. split; [by intros ->|by intros [= ->]].
    - destruct ((primary =? 0) || (primary =? 1)) eqn:Ep; [|done].
      rewrite bind_eval in Hpick. injection Hpick as <- _. split; [|done].
      apply orb_true_iff in Ep. rewrite !Z.eqb_eq in Ep. lia. }
  unfold finalSetting, migrationPlan, slot. cbn. rewrite Z.eqb_refl.
  destruct (Z.eqb_spec primary st) as [->|Hne].
  - rewrite (proj1 Hst eq_refl). split; [|done]. split; [|done]. intros Hc. by injection Hc.
  - split; [split; [intros _ Hp|done]|intros Hp]; apply Hst in Hp; congruence.
Qed.

(** Rotation 3 is staged in slot 1, which a later rotation has since made
    PRIMARY: the retried migration of node 7 disables the slot it promoted. *)
Definition overtakenSlots (idx : Z) : Channel :=
  if idx =? 1 then slot Channel_PRIMARY [x01] 1 else slot Channel_DISABLED [] idx.

Lemma staging_slot_survives_witness :
  finalSetting 1 (migrationPlan 1 1 newPSK16) = Some (slot Channel_DISABLED [] 1).
Proof.
  apply (staging_slot_survives (E := exampleEnv (slotsRadio overtakenSlots)) 3 1 (Some 1)
           (startWorld emptyTables) 1 (startWorld emptyTables) newPSK16); reflexivity.
Defined.

Definition overtakenRun : World :=
  let E := exampleEnv (slotsRadio overtakenSlots) in
  let w := (RetryRotation (E := E) 3 [] [7] (startWorld (rotationTables PhaseFailedB oldPSK16))).2 in
  let w := (phaseA_Run (E := E) phaseAJob w).2 in
  match List.find (fun j => bool_decide (Jobs.Kind j = Jobs.KindRotatePhaseB)) (queue w) with
  | Some j => (phaseB_Run (E := E) j w).2
  | None => w
  end.

Example overtakenRun_disables :
  finalSetting 1 (map (fun s => variant (sMsg s))
    (rev (List.filter (fun s => sTo s =? 7) (sentLog overtakenRun)))) =
  Some (slot Channel_DISABLED [] 1).
Proof. vm_compute. reflexivity. Qed.
