(* ===== verification/FleetPhases.v ===== *)
(** What the handlers of phases B and C of [internal/fleetsec/job_handlers.go]
    do to the rotation's row, the trust roster, the recovery cache and the job
    queue.  The handlers themselves are in FleetJobs.v. *)
From S2P Require Import Prelude GoStrings FleetStore FleetService FleetRotation FleetJobs.
From S2P Require Jobs.

(** ** A row of a table, replaced *)
Definition rowTables (rotID : Z) (rec : RotationRecord) (t : Tables) : Tables :=
  set_rotations (<[rotID := rec]> (rotations t)) t.

Lemma rowTables_same rotID rec t : rotations t !! rotID = Some rec -> rowTables rotID rec t = t.
Proof. intros Hr. unfold rowTables. rewrite insert_id by done. by destruct t. Qed.

Lemma rowTables_twice rotID rec rec' t :
  rowTables rotID rec (rowTables rotID rec' t) = rowTables rotID rec t.
Proof. unfold rowTables. cbn. by rewrite insert_insert_eq. Qed.

Lemma updateRotation_row rotID f r t : rotations t !! rotID = Some r ->
  updateRotation rotID f t = (inl tt, rowTables rotID (f r) t).
Proof. intros Hr. unfold updateRotation, rowTables. by rewrite (alter_row _ _ r). Qed.

(** [UpdateTargetPhase] and [IncrementTargetAttempts] change the targets of the
    row and nothing else. *)
Lemma rewriteTarget_row rotID num f r t : rotations t !! rotID = Some r ->
  exists l, (rewriteTarget None None rotID num f t).2 = rowTables rotID (set_targets l r) t.
Proof.
  intros Hr. unfold rewriteTarget, GetRotation. cbn [stmt]. rewrite Hr. cbn [fst].
  destruct (alterTarget _ _ _) as [l|].
  - exists l. unfold UpdateRotationTargets. cbn [stmt]. by rewrite (updateRotation_row _ _ r).
  - exists (Targets r). cbn [snd]. symmetry. apply rowTables_same. rewrite Hr. by destruct r.
Qed.

(** ** Targets *)
Definition retarget (num : Z) (ph : RotationPhase) (msg : string) (l : list RotationTarget)
    : list RotationTarget := default l (alterTarget num (set_phase ph msg) l).

Lemma retarget_twice num ph msg ph' msg' l :
  retarget num ph msg (retarget num ph' msg' l) = retarget num ph msg l.
Proof.
  unfold retarget. assert (forall x, TgtNodeNum (set_phase ph' msg' x) = TgtNodeNum x) as Hn by done.
  induction l as [|x l IH]; cbn; [done|]. destruct (Z.eqb_spec (TgtNodeNum x) num) as [Hx|Hx]; cbn.
  - by rewrite (proj2 (Z.eqb_eq _ _) Hx).
  - destruct (alterTarget num (set_phase ph' msg') l) as [l1|] eqn:E1; cbn in *;
      rewrite (proj2 (Z.eqb_neq _ _) Hx).
    + destruct (alterTarget num (set_phase ph msg) l1) as [l2|] eqn:E2,
        (alterTarget num (set_phase ph msg) l) as [l3|] eqn:E3; cbn in *; try congruence.
    + by destruct (alterTarget num (set_phase ph msg) l).
Qed.

(** The attempts of a target survive no transition to another count. *)
Lemma retarget_attempts num ph msg l : map Attempts (retarget num ph msg l) = map Attempts l.
Proof.
  unfold retarget. induction l as [|x l IH]; cbn; [done|]. destruct (_ =? _); cbn; [done|].
  destruct (alterTarget _ _ l) as [l1|]; cbn in *; congruence.
Qed.

Section Steps.
Context `{E : Env} `{PL : Payloads}.

Lemma verifyLoop_radioOnly fuel num st psk deadline last :
  keeps radioOnly (verifyLoop fuel num st psk deadline last).
Proof.
  revert last. induction fuel as [|fuel IH]; intros last; cbn [verifyLoop]; keeps.
  - apply sleep_radioOnly. unfold commitVerifyBackoff, seconds. lia.
Qed.
#[local] Hint Resolve verifyLoop_radioOnly : keeps.

Lemma migrateRemote_radioOnly num st old psk : keeps radioOnly (migrateRemoteAtomic num st old psk).
Proof.
  unfold migrateRemoteAtomic. keeps. apply sleep_radioOnly.
  unfold commitVerifyInitialWait, seconds. lia.
Qed.

Lemma migratePi_radioOnly st old psk slot rpsk :
  keeps radioOnly (migratePiAtomicWithRecovery st old psk slot rpsk).
Proof. unfold migratePiAtomicWithRecovery. keeps. Qed.

Lemma findOldSlot_radioOnly idxs fp : keeps radioOnly (findOldSlot idxs fp).
Proof.
  induction idxs as [|i l IH]; cbn [findOldSlot]; keeps. apply readLocalChannel_radioOnly.
Qed.

Context (Hdb : reliableDB).

Lemma transition_eval rotID r cur num ph msg w : rotations (tables w) !! rotID = Some r ->
  exists w', transitionTarget rotID cur num ph msg w = (retarget num ph msg cur, w') /\
    tables w' = rowTables rotID (set_targets (retarget num ph msg cur) r) (tables w) /\
    tablesOnly w w'.
Proof.
  intros Hr. unfold transitionTarget, persistTargets.
  fold (retarget num ph msg cur). rewrite bind_eval, call2_eval by done. cbn [fst snd].
  unfold UpdateTargetPhase.
  destruct (rewriteTarget_row rotID num (set_phase ph msg) r (tables w) Hr) as (l & ->).
  rewrite bind_eval, bind_eval. cbn [getWorld fst snd]. rewrite bind_eval, call_eval by done.
  cbn [fst snd ret]. eexists. split; [done|].
  unfold UpdateRotationTargets. cbn [stmt tables tick set_tables].
  rewrite (updateRotation_row _ _ (set_targets l r)) by (cbn; by rewrite lookup_insert_eq).
  cbn [snd]. split; [apply rowTables_twice|]. split_and!; try done. cbn. lia.
Qed.

Lemma persist_done rotID r cur w : rotations (tables w) !! rotID = Some r ->
  exists w', persistTargets rotID cur true w = (tt, w') /\ tablesOnly w w' /\
    tables w' = rowTables rotID
      (mkRotation (Kind r) (ChannelIndex r) (StagingChannelIndex r) (PiPhase r) (StartedBy r)
         (StartedAt r) (Some (now w)) (RetiredAt r) cur (NewPSKFP r) (RotNotes r) (new_psk r))
      (tables w).
Proof.
  intros Hr. unfold persistTargets. rewrite bind_eval. cbn [getWorld fst snd].
  rewrite bind_eval, call_eval by done. eexists. split; [done|].
  split; [split_and!; try done; cbn; lia|].
  unfold UpdateRotationTargets. cbn [stmt]. by rewrite (updateRotation_row _ _ r).
Qed.

Lemma radioOnly_tables w w' : radioOnly w w' -> tables w' = tables w /\ queue w' = queue w.
Proof. by intros (? & ? & _). Qed.
End Steps.

(** The stored PSK is missing, or it is one with bytes. *)
Lemma storedPSK_cases `{E : Env} `{PL : Payloads} (Hdb : reliableDB) rotID missing rec w :
  rotations (tables w) !! rotID = Some rec ->
  storedPSK rotID missing w = (inr (EMsg missing), tick 0 w) \/
  exists psk, new_psk rec = Some psk /\ psk <> [] /\ storedPSK rotID missing w = (inl psk, tick 0 w).
Proof.
  intros Hr. rewrite (storedPSK_eval Hdb _ _ rec) by done.
  destruct (Z.eqb_spec (zlen (default [] (new_psk rec))) 0) as [|Hz]; [by left|right].
  destruct (new_psk rec) as [psk|]; [|done]. exists psk. split; [done|]. split; [by intros ->|done].
Qed.

(** ** Phase B *)

(** The row at the end: the targets, and when it completed. *)
Definition settled (l : list RotationTarget) (completed : option Z) (r : RotationRecord)
    : RotationRecord :=
  mkRotation (Kind r) (ChannelIndex r) (StagingChannelIndex r) (PiPhase r) (StartedBy r)
    (StartedAt r) completed (RetiredAt r) l (NewPSKFP r) (RotNotes r) (new_psk r).

Definition stamped (at_ : Z) (fp : string) (r : TrustRow) : TrustRow :=
  mkTrust (tAdminKeyFPs r) (tIsManaged r) (Some at_) (Some VerifyMethodRemotePKC) (Some at_)
    (tDriftStatus r) (if bool_decide (fp = ""%string) then tCurrentPSKFP r else Some fp)
    (tPreviousPSKFP r) (tStrandedSince r) (tRecoveryAttempts r) (tLastRecoveryAt r)
    (tLastRecoveryError r) (tNotes r).

Section PhaseB.
Context `{E : Env} `{PL : Payloads} (Hdb : reliableDB).

Lemma alter_compose {A} (f g : A -> A) k (m : gmap Z A) :
  alter f k (alter g k m) = alter (fun x => f (g x)) k m.
Proof.
  apply map_eq. intros i. destruct (decide (i = k)) as [->|].
  - rewrite !lookup_alter_eq. by destruct (m !! k).
  - by rewrite !lookup_alter_ne.
Qed.

Lemma set_trust_same t : set_trust (trust t) t = t.
Proof. by destruct t. Qed.

(** [MarkTrustVerifiedNow] and [SetNodeCurrentPSKFP], one after the other. *)
Lemma stamp_eval {A} num fp (k : M A) w :
  exists w', (do _ <- call (fun fault now => MarkTrustVerifiedNow fault now num VerifyMethodRemotePKC);
              do _ <- call (fun fault _ => SetNodeCurrentPSKFP fault num fp);
              k) w = k w' /\ tablesOnly w w' /\
    tables w' = set_trust (alter (stamped (now w) fp) num (trust (tables w))) (tables w).
Proof.
  rewrite bind_eval, call_eval by done. cbn [fst snd]. rewrite bind_eval, call_eval by done.
  cbn [fst snd]. eexists. split; [done|]. split; [split_and!; try done; cbn; lia|].
  unfold SetNodeCurrentPSKFP, stamped. case_bool_decide as Hfp; cbn.
  - unfold set_trust. f_equal.
  - unfold set_trust. cbn. f_equal. by rewrite alter_compose.
Qed.

Lemma recordMigrated_eval rotID num fp cur r w : rotations (tables w) !! rotID = Some r ->
  let l := retarget num PhaseOnNewPSK "" cur in
  exists w' verified completed, recordMigrated rotID num fp cur w = (inl tt, w') /\
    tables w' = set_trust (alter (stamped verified fp) num (trust (tables w)))
      (rowTables rotID (settled l (if remotesDone l then Some completed else CompletedAt r) r)
         (tables w)) /\
    now w <= verified <= completed /\ tablesOnly w w'.
Proof.
  intros Hr l. unfold recordMigrated. rewrite bind_eval.
  destruct (transition_eval Hdb rotID r cur num PhaseOnNewPSK "" w Hr) as (w1 & -> & Ht1 & Ho1).
  cbn [fst snd]. fold l in Ht1 |- *.
  match goal with |- context [bind (call _) (fun _ => bind _ (fun _ => ?K))] =>
    destruct (stamp_eval num fp K w1) as (w2 & -> & Ho2 & Ht2) end.
  assert (rotations (tables w2) !! rotID = Some (set_targets l r)) as Hr2.
  { rewrite Ht2, Ht1. cbn. by rewrite lookup_insert_eq. }
  rewrite bind_eval. destruct (remotesDone l).
  - destruct (persist_done Hdb rotID _ l w2 Hr2) as (w3 & -> & Ho3 & Ht3). cbn [fst snd].
    exists w3, (now w1), (now w2). split; [done|]. split_and!.
    + rewrite Ht3, Ht2, Ht1. unfold rowTables, settled, set_targets, set_trust, set_rotations. cbn.
      by rewrite insert_insert_eq.
    + by destruct Ho1 as (_ & _ & _ & _ & _ & ?).
    + by destruct Ho2 as (_ & _ & _ & _ & _ & ?).
    + etrans; [exact Ho1|]. by etrans.
  - exists w2, (now w1), (now w1). split; [done|]. split_and!.
    + rewrite Ht2, Ht1. reflexivity.
    + by destruct Ho1 as (_ & _ & _ & _ & _ & ?).
    + lia.
    + by etrans.
Qed.
End PhaseB.

(** Phase B.  With a database that answers, phase B of a known target
    never touches the job queue.  A target that is done is left alone and
    nothing is sent.  Otherwise the handler migrates the node and ends as the
    migration does.  If that failed, the target is failed with its error and
    nothing else in the tables is changed.  If it succeeded, the target is on
    the new PSK, the node's trust row is stamped as verified with the
    fingerprint of the PSK, and the rotation is completed exactly if no other
    remote target is left.  The attempts recorded for the targets are those of
    before: the increment does not survive. *)
Theorem phase_b_outcomes `{E : Env} `{PL : Payloads} job rotID p rec t psk w (Hdb : reliableDB)
    (Hid : Jobs.RotationID job = Some rotID) (Hp : unmarshalB (Jobs.Payload job) = Some p)
    (Hf : fetched rotID rec w) (Hpsk : new_psk rec = Some psk) (Hne : psk <> [])
    (Hnum : bTargetNodeNum p <> 0) (Ht : findTarget (bTargetNodeNum p) (Targets rec) = Some t) :
  let num := bTargetNodeNum p in
  let '(r, w') := phaseB_Run job w in
  queue w' = queue w /\
  (exists rec', rotations (tables w') !! rotID = Some rec' /\
     map Attempts (Targets rec') = map Attempts (Targets rec)) /\
  if doneTarget t then r = inl tt /\ tables w' = tables w /\ sentLog w' = sentLog w
  else exists w1 w2 mr,
    sentLog w1 = sentLog w /\
    migrateRemoteAtomic num (bStagingIdx p) (bOldSlot p) psk w1 = (mr, w2) /\
    sentLog w' = sentLog w2 /\
    match mr with
    | inr e =>
        r = inr (EWrap "phase B atomic migrate: " e "") /\
        tables w' = rowTables rotID
          (settled (retarget num PhaseFailedB (Error e) (Targets rec)) (CompletedAt rec) rec)
          (tables w)
    | inl _ =>
        let l := retarget num PhaseOnNewPSK "" (Targets rec) in
        r = inl tt /\ exists verified completed, now w <= verified <= completed /\
        tables w' = set_trust (alter (stamped verified (Fingerprint psk)) num (trust (tables w)))
          (rowTables rotID
             (settled l (if remotesDone l then Some completed else CompletedAt rec) rec) (tables w))
    end.
Proof.
  cbn zeta. unfold phaseB_Run. rewrite Hid, Hp, (proj2 (Z.eqb_neq _ _) Hnum).
  pose proof (fetched_row _ _ _ Hf) as Hr.
  rewrite try_eval, (storedPSK_eval Hdb _ _ rec) by done. rewrite Hpsk.
  change (default [] (Some psk)) with psk.
  destruct (Z.eqb_spec (zlen psk) 0) as [Hz%zlen_zero|_]; [done|].
  rewrite try_eval, (fetchRotation_eval Hdb rotID rec (tick 0 w))
    by (by apply (fetched_tables _ _ w)).
  rewrite Ht. set (w0 := tick 0 (tick 0 w)). destruct (doneTarget t).
  { cbn. split; [done|]. split; [|done]. by exists rec. }
  rewrite bind_eval, call2_eval by done. cbn [fst snd]. unfold IncrementTargetAttempts.
  destruct (rewriteTarget_row rotID (bTargetNodeNum p) bump rec (tables w0) Hr) as (l0 & ->).
  match goal with |- context [bind (transitionTarget _ _ _ _ _) _ ?x] => set (wa := x) end.
  rewrite bind_eval.
  assert (rotations (tables wa) !! rotID = Some (set_targets l0 rec)) as Hra.
  { cbn. by rewrite lookup_insert_eq. }
  destruct (transition_eval Hdb rotID _ (Targets rec) (bTargetNodeNum p) PhasePushingB "" wa Hra)
    as (w1 & -> & Ht1 & Hq1 & _ & _ & Hs1 & _ & Hn1).
  cbn [fst snd]. change (tables wa) with (rowTables rotID (set_targets l0 rec) (tables w)) in Ht1.
  rewrite rowTables_twice in Ht1.
  set (cur := retarget (bTargetNodeNum p) PhasePushingB "" (Targets rec)) in *.
  change (set_targets cur (set_targets l0 rec)) with (set_targets cur rec) in Ht1.
  rewrite bind_eval. pose proof (migrateRemote_radioOnly (bTargetNodeNum p) (bStagingIdx p)
    (bOldSlot p) psk w1) as Hm.
  destruct (migrateRemoteAtomic _ _ _ _ w1) as [mr w2] eqn:Em. cbn [fst snd] in Hm |- *.
  destruct Hm as (Ht2 & Hq2 & _ & _ & _ & _ & _ & Hn2). rewrite Ht1 in Ht2.
  assert (rotations (tables w2) !! rotID = Some (set_targets cur rec)) as Hr2.
  { rewrite Ht2. cbn. by rewrite lookup_insert_eq. }
  destruct mr as [[]|e].
  - destruct (recordMigrated_eval Hdb rotID (bTargetNodeNum p) (Fingerprint psk) cur _ w2 Hr2)
      as (w3 & verified & completed & -> & Ht3 & Hn3 & Hq3 & _ & _ & Hs3 & _).
    unfold cur in Ht3. rewrite retarget_twice, Ht2, rowTables_twice in Ht3.
    split; [cbn in Hq1; congruence|]. split.
    { eexists. rewrite Ht3. cbn. rewrite lookup_insert_eq. split; [done|]. apply retarget_attempts. }
    exists w1, w2, (inl tt). split; [done|]. split; [done|]. split; [done|]. split; [done|].
    exists verified, completed. split; [cbn in Hn1; lia|]. exact Ht3.
  - rewrite bind_eval.
    destruct (transition_eval Hdb rotID _ cur (bTargetNodeNum p) PhaseFailedB (Error e) w2 Hr2)
      as (w3 & -> & Ht3 & Hq3 & _ & _ & Hs3 & _).
    cbn [fst snd fail ret]. unfold cur in Ht3. rewrite retarget_twice, Ht2, rowTables_twice in Ht3.
    split; [cbn in Hq1; congruence|]. split.
    { eexists. rewrite Ht3. cbn. rewrite lookup_insert_eq. split; [done|]. apply retarget_attempts. }
    exists w1, w2, (inr e). by split_and!.
Qed.

(** Payloads a witness can compute with are those of FleetRotation.v; the node
    acknowledges everything and reads back as migrated. *)
Definition migratedRadio (l : list Sent) : option Tracker.Reply :=
  slotsRadio (fun idx => slot Channel_PRIMARY newPSK16 idx) l.

Definition phaseBJob : Jobs.Job := newJob 51 0 (phaseBOpts 3 1 0 7).

Lemma phase_b_outcomes_witness :
  exists w', phaseB_Run (E := exampleEnv migratedRadio) phaseBJob (startWorld pendingTables) =
      (inl tt, w') /\
    exists rec', rotations (tables w') !! 3 = Some rec' /\ map Attempts (Targets rec') = [0; 0].
Proof.
  pose proof (phase_b_outcomes (E := exampleEnv migratedRadio) phaseBJob 3 (mkB 1 0 7)
    pendingRotation (pendingTarget 7) newPSK16 (startWorld pendingTables) (fun _ => eq_refl) eq_refl
    eq_refl ltac:(split; [reflexivity|by repeat (constructor || split)]) eq_refl
    ltac:(discriminate) ltac:(discriminate) eq_refl) as Hb.
  cbv zeta in Hb. destruct (phaseB_Run _ _) as [r w'] eqn:Er. exists w'.
  assert (r = inl tt) as -> by (rewrite <- (f_equal fst Er : _ = r); vm_compute; reflexivity).
  split; [done|]. exact (proj1 (proj2 Hb)).
Defined.

(** ** Phase C *)

(** The remote targets that are not on the new PSK. *)
Definition behind `{Env} (t : RotationTarget) : bool :=
  negb (TgtNodeNum t =? LocalNodeNum) && negb (doneTarget t).

Definition leftBehind `{Env} (l : list RotationTarget) : list Z :=
  map TgtNodeNum (List.filter behind l).

(** A trust row flagged stranded with the fingerprint of the PSK it is on. *)
Definition strandedOn (fp : string) (r : TrustRow) : Prop :=
  tStrandedSince r <> None /\ tPreviousPSKFP r = Some fp /\ tRecoveryAttempts r = 0.

(** A row of the roster can be written. *)
Definition known (num : Z) (t : Tables) : Prop :=
  is_Some (trust t !! num) \/ is_Some (nodes t !! num).

Definition retiredRow (at_ : Z) (r : RotationRecord) : RotationRecord :=
  mkRotation (Kind r) (ChannelIndex r) (StagingChannelIndex r) PiPhaseRetired (StartedBy r)
    (StartedAt r) (CompletedAt r) (Some at_) (Targets r) (NewPSKFP r) (RotNotes r) (new_psk r).

(** The row after a promotion: completed, retired, its PSK wiped. *)
Definition promotedRow `{Env} (completed at_ : Z) (r : RotationRecord) : RotationRecord :=
  mkRotation (Kind r) (ChannelIndex r) (StagingChannelIndex r) PiPhaseRetired (StartedBy r)
    (StartedAt r) (Some completed) (Some at_) (localDone (Targets r)) (NewPSKFP r) (RotNotes r) None.

Lemma leftBehind_localDone `{Env} l : leftBehind (localDone l) = leftBehind l.
Proof.
  unfold leftBehind, localDone. f_equal. induction l as [|x l IH]; cbn; [done|].
  destruct (Z.eqb_spec (TgtNodeNum x) LocalNodeNum) as [Hx|Hx]; cbn.
  - unfold behind. cbn. by rewrite (proj2 (Z.eqb_eq _ _) Hx).
  - destruct (alterTarget _ _ l) as [k|]; cbn in *; [by rewrite IH|done].
Qed.

Lemma upsertTrust_eval ctx num ins upd t :
  (known num t /\ exists r, upsertTrust ctx num ins upd t =
     (inl tt, set_trust (<[num := r]> (trust t)) t) /\
     r = match trust t !! num with Some r0 => upd r0 | None => ins end) \/
  (~ known num t /\ (upsertTrust ctx num ins upd t).2 = t).
Proof.
  unfold upsertTrust, known. destruct (trust t !! num) as [r|].
  { left. split; [left; by eexists|]. by eexists. }
  destruct (nodes t !! num) as [n|].
  - left. split; [right; by eexists|]. by eexists.
  - right. split; [|done]. by intros [[? ?]|[? ?]].
Qed.

Section PhaseC.
Context `{E : Env} `{PL : Payloads} (Hdb : reliableDB).

Lemma markLaggard_eval fp t w :
  exists w' tr, markLaggard fp t w = (inl tt, w') /\ tables w' = set_trust tr (tables w) /\
    tablesOnly w w' /\
    (behind t = true -> known (TgtNodeNum t) (tables w) ->
       exists r, tr !! TgtNodeNum t = Some r /\ strandedOn fp r) /\
    (forall num, (behind t = false \/ ~ known num (tables w) \/ num <> TgtNodeNum t) ->
       tr !! num = trust (tables w) !! num).
Proof.
  unfold markLaggard, behind. destruct (TgtNodeNum t =? LocalNodeNum); cbn [negb andb].
  { exists w, (trust (tables w)). rewrite set_trust_same. split; [done|]. split; [done|].
    split; [reflexivity|done]. }
  destruct (doneTarget t); cbn [negb].
  { exists w, (trust (tables w)). rewrite set_trust_same. split; [done|]. split; [done|].
    split; [reflexivity|done]. }
  rewrite bind_eval, call_eval by done. cbn [fst snd ok ret].
  unfold MarkStranded. cbn [stmt].
  edestruct (upsertTrust_eval "mark stranded: " (TgtNodeNum t)) as [(Hk & r & -> & Hr)|(Hk & ->)].
  - eexists _, (<[TgtNodeNum t := r]> (trust (tables w))). split; [done|]. split; [done|].
    split; [split_and!; try done; cbn; lia|]. split.
    + intros _ _. exists r. rewrite lookup_insert_eq. split; [done|]. subst r.
      destruct (trust (tables w) !! _) as [r0|]; cbn; [|done].
      unfold strandedOn. cbn. by destruct (tStrandedSince r0).
    + intros num [?|[Hn|Hn]]; [done| |by rewrite lookup_insert_ne].
      destruct (decide (num = TgtNodeNum t)) as [->|]; [done|]. by rewrite lookup_insert_ne.
  - eexists _, (trust (tables w)). rewrite set_trust_same. split; [done|]. split; [done|].
    split; [split_and!; try done; cbn; lia|]. split; [done|]. done.
Qed.

Lemma strandAll fp l w :
  exists w' tr, forEach l (markLaggard fp) w = (inl tt, w') /\ tables w' = set_trust tr (tables w) /\
    tablesOnly w w' /\
    (forall num, (num ∈ leftBehind l) -> known num (tables w) ->
       exists r, tr !! num = Some r /\ strandedOn fp r) /\
    (forall num, (num ∉ leftBehind l) \/ ~ known num (tables w) ->
       tr !! num = trust (tables w) !! num).
Proof.
  revert w. induction l as [|t l IH]; intros w.
  { exists w, (trust (tables w)). rewrite set_trust_same. split; [done|]. split; [done|].
    split; [reflexivity|]. split; [|done]. by intros num ?%elem_of_nil. }
  cbn [forEach]. rewrite try_eval.
  destruct (markLaggard_eval fp t w) as (w1 & tr1 & -> & Ht1 & Ho1 & Hs1 & Hn1).
  destruct (IH w1) as (w' & tr & -> & Ht & Ho & Hs & Hn). rewrite Ht1 in Ht, Hs, Hn.
  assert (forall num, known num (tables w) -> known num (set_trust tr1 (tables w))) as Hmono.
  { intros num Hk. unfold known in *. cbn. destruct Hk as [Hk|Hk]; [|by right]. left.
    destruct (behind t) eqn:Eb, (decide (num = TgtNodeNum t)) as [->|Hne];
      try (rewrite Hn1; by auto).
    destruct (Hs1 eq_refl (or_introl Hk)) as (r & -> & _). by eexists. }
  assert (forall num, ~ known num (tables w) -> ~ known num (set_trust tr1 (tables w))) as Hanti.
  { intros num Hk [Hc|Hc]; [|apply Hk; by right]. cbn in Hc. rewrite Hn1 in Hc by auto.
    apply Hk. by left. }
  exists w', tr. split; [done|]. split; [by rewrite Ht|]. split; [by etrans|].
  unfold leftBehind. cbn [List.filter]. split.
  - intros num Hin Hk. destruct (decide (num ∈ leftBehind l)) as [Hl|Hl]; [by apply Hs; auto|].
    destruct (behind t) eqn:Eb; [|done]. cbn in Hin. apply elem_of_cons in Hin as [->|?]; [|done].
    rewrite Hn by auto. cbn. by apply Hs1.
  - intros num Hor. rewrite Hn.
    + cbn. apply Hn1. destruct (behind t); [|by left]. cbn in Hor. rewrite elem_of_cons in Hor.
      destruct (decide (num = TgtNodeNum t)); [|auto]. destruct Hor as [Hor|?]; [|auto].
      destruct Hor. by left.
    + destruct Hor as [Hor|Hor]; [left|right; by apply Hanti]. intros Hl. apply Hor.
      destruct (behind t); [cbn; by right|done].
Qed.

(** The cached rows of a fingerprint have that hash. *)
Definition hashedAs (fp : string) (hash : Z) (t : Tables) : Prop :=
  forall s r, recovery t !! s = Some r -> rFP r = fp -> rPSKHash r = hash.

Lemma cacheOK_ext t t' : recovery t' = recovery t -> cacheOK t -> cacheOK t'.
Proof. intros Hr [H1 H2 H3]. split; rewrite Hr; done. Qed.

(** A PSK with a fingerprint always gets a slot of the cache. *)
Lemma AddRecoveryPSK_ok choice now fp psk hash rotID t :
  cacheOK t -> psk <> [] -> fp <> ""%string -> rotationExists rotID t = true ->
  exists slot m row, AddRecoveryPSK None choice now fp psk hash rotID t = (inl slot, set_recovery m t) /\
    cacheOK (set_recovery m t) /\ 2 <= slot <= 7 /\ m !! slot = Some row /\ rFP row = fp /\
    (hashedAs fp hash t -> rPSKHash row = hash).
Proof.
  intros Hc Hp Hf Hx. unfold AddRecoveryPSK.
  destruct (Z.eqb_spec (zlen psk) 0) as [Hz%zlen_zero|_]; [done|].
  rewrite bool_decide_false by done. cbn [stmt]. rewrite Hx.
  destruct (recoveryByFP fp t) as [r|] eqn:Er.
  - apply (recoveryByFP_Some t fp r Hc) in Er as [Hr Hfp].
    eexists (rSlot r), _, _. split; [done|]. rewrite lookup_insert_eq. cbn.
    destruct (cache_slot t Hc _ _ Hr) as [Hb _]. destruct (cache_row t Hc _ _ Hr) as [Hr1 Hr2].
    split_and!; try done; try lia.
    + apply cacheOK_insert; try done. intros s' r' Hr' Heq. by eapply (cache_fp t Hc).
    + intros Hall. exact (Hall _ _ Hr Hfp).
  - assert (exists slot, coalesce (freeSlot t) (evictSlot choice t) = Some slot /\ 2 <= slot <= 7)
      as (slot & -> & Hb).
    { destruct (freeSlot t) as [s|] eqn:Es.
      - exists s. split; [done|]. by apply freeSlot_Some in Es as [? _].
      - destruct (evictSlot_full choice t Hc Es) as [s Hs]. exists s. split; [done|].
        destruct (evictSlot_Some choice t s Hc Hs) as (r & Hr & _).
        by apply (cache_slot t Hc) in Hr as [? _]. }
    eexists slot, _, _. split; [done|]. rewrite lookup_insert_eq. split_and!; try done; try lia.
    apply cacheOK_insert; try done. intros s' r' Hr' Heq.
    by destruct (proj1 (recoveryByFP_None t fp Hc) Er s' r' Hr').
Qed.

(** What the pre-allocation leaves behind: other tables are as before. *)
Lemma allocate_eval rotID rec psk w : rotations (tables w) !! rotID = Some rec -> cacheOK (tables w) ->
  exists slot w' m, allocateRecovery rotID psk w = (slot, w') /\ tablesOnly w w' /\
    tables w' = set_recovery m (tables w) /\ cacheOK (set_recovery m (tables w)) /\
    (psk <> [] -> Fingerprint psk <> ""%string ->
       2 <= slot <= 7 /\ exists row, m !! slot = Some row /\ rFP row = Fingerprint psk /\
         (hashedAs (Fingerprint psk) (ChannelHash "" psk) (tables w) ->
          rPSKHash row = ChannelHash "" psk)).
Proof.
  intros Hr Hc. unfold allocateRecovery.
  assert (set_recovery (recovery (tables w)) (tables w) = tables w) as Hsame by by destruct (tables w).
  destruct (Z.eqb_spec (zlen psk) 0) as [Hz%zlen_zero|Hz].
  { exists (-1), w, (recovery (tables w)). rewrite Hsame. split; [done|].
    split; [reflexivity|]. by split_and!. }
  assert (psk <> []) as Hp by by intros ->.
  rewrite bind_eval. cbn [getWorld fst snd]. rewrite bind_eval, call_eval by done. cbn [fst snd].
  destruct (decide (Fingerprint psk = ""%string)) as [Hf|Hf].
  - unfold AddRecoveryPSK. rewrite (proj2 (Z.eqb_neq _ _) Hz), bool_decide_true by done.
    cbn [fst snd ret]. eexists (-1), _, (recovery (tables w)). rewrite Hsame.
    split; [done|]. split; [split_and!; try done; cbn; lia|]. by destruct w.
  - destruct (AddRecoveryPSK_ok (choice (ticks w)) (now w) (Fingerprint psk) psk (ChannelHash "" psk)
      (Some rotID) (tables w) Hc Hp Hf) as (slot & m & row & -> & Hc' & Hb & Hm & Hrow & Hhash).
    { cbn. by rewrite Hr, bool_decide_true. }
    cbn [fst snd ret]. exists slot, (tick 0 (set_tables (set_recovery m (tables w)) w)), m.
    split; [done|]. split; [split_and!; try done; cbn; lia|]. split; [done|]. split; [done|].
    intros _ _. split; [done|]. by exists row.
Qed.

Lemma rebuild_eval w :
  exists w', rebuildRecoveryHook w = (tt, w') /\ tables w' = tables w /\ queue w' = queue w /\
    sentLog w' = sentLog w /\
    hook w' = match hook w with Some _ => Some (hashTable (recoveryRows (tables w))) | None => None end.
Proof.
  unfold rebuildRecoveryHook. rewrite bind_eval. cbn [getWorld fst snd].
  destruct (hook w) as [h|] eqn:Eh; [|by exists w; rewrite Eh].
  rewrite bind_eval. unfold RebuildHashTable. rewrite try_eval, call_eval by done.
  unfold ListRecoveryPSKs. cbn [stmt fst snd]. rewrite bind_eval. cbn [modify fst snd ok ret].
  eexists. split; [done|]. by destruct w as [[]].
Qed.
End PhaseC.

(** What a promotion leaves in the tables and in the hook, from [w] to [w']. *)
Record promoted `{E : Env} (rotID : Z) (rec : RotationRecord) (oldPSK : bytes) (w w' : World) : Prop := {
  promoted_row : exists c at_, now w <= c <= at_ /\
    rotations (tables w') = <[rotID := promotedRow c at_ rec]> (rotations (tables w));
  promoted_stranded num : num <> LocalNodeNum -> (num ∈ leftBehind (Targets rec)) ->
    known num (tables w) ->
    exists r, trust (tables w') !! num = Some r /\ strandedOn (Fingerprint oldPSK) r;
  promoted_others num : num <> LocalNodeNum -> (num ∉ leftBehind (Targets rec)) ->
    trust (tables w') !! num = trust (tables w) !! num;
  promoted_nodes : nodes (tables w') = nodes (tables w);
  promoted_cacheOK : cacheOK (tables w');
  promoted_cached : oldPSK <> [] -> Fingerprint oldPSK <> ""%string ->
    exists row, recoveryByFP (Fingerprint oldPSK) (tables w') = Some row /\
      (hashedAs (Fingerprint oldPSK) (ChannelHash "" oldPSK) (tables w) ->
       rPSKHash row = ChannelHash "" oldPSK);
  promoted_hook : hook w' = match hook w with
                            | Some _ => Some (hashTable (recoveryRows (tables w')))
                            | None => None
                            end
}.

Section PhaseCRun.
Context `{E : Env} `{PL : Payloads} (Hdb : reliableDB).

Lemma finishC_eval rotID oldPSK rec w : rotations (tables w) !! rotID = Some rec ->
  exists w' tr c at_, finishC rotID oldPSK rec w = (inl tt, w') /\
    tables w' = set_trust tr (rowTables rotID (promotedRow c at_ rec) (tables w)) /\
    now w <= c <= at_ /\ queue w' = queue w /\ sentLog w' = sentLog w /\
    hook w' = match hook w with
              | Some _ => Some (hashTable (recoveryRows (tables w)))
              | None => None
              end /\
    (forall num, num <> LocalNodeNum -> (num ∈ leftBehind (Targets rec)) -> known num (tables w) ->
       exists r, tr !! num = Some r /\ strandedOn (Fingerprint oldPSK) r) /\
    (forall num, num <> LocalNodeNum -> (num ∉ leftBehind (Targets rec)) ->
       tr !! num = trust (tables w) !! num).
Proof.
  intros Hr. unfold finishC. cbn zeta. rewrite bind_eval.
  destruct (persist_done Hdb rotID rec (localDone (Targets rec)) w Hr)
    as (w1 & -> & (Hq1 & Hh1 & _ & Hs1 & _ & Hn1) & Ht1). cbn [fst snd].
  rewrite bind_eval, call_eval by done. cbn [fst snd].
  match goal with |- context [try (wrap _ (call _)) _ ?x] => set (w2 := x) end.
  assert (tables w2 = set_trust (alter (fun r => mkTrust (tAdminKeyFPs r) (tIsManaged r) (Some (now w1))
    (Some VerifyMethodLocalUSB) (Some (now w1)) (tDriftStatus r) (tCurrentPSKFP r) (tPreviousPSKFP r)
    (tStrandedSince r) (tRecoveryAttempts r) (tLastRecoveryAt r) (tLastRecoveryError r) (tNotes r))
    LocalNodeNum (trust (tables w))) (tables w1)) as Ht2 by (cbn; by rewrite Ht1).
  assert (now w1 <= now w2) as Hn2 by (cbn; lia).
  rewrite try_eval, wrap_eval, call_eval by done. unfold MarkRotationRetired. cbn [stmt].
  erewrite (updateRotation_row rotID _ _ (tables w2))
    by (rewrite Ht2, Ht1; cbn; by rewrite lookup_insert_eq).
  cbn [fst snd]. match goal with |- context [bind (forEach _ _) _ ?x] => set (w3 := x) end.
  rewrite bind_eval.
  destruct (strandAll Hdb (Fingerprint oldPSK) (localDone (Targets rec)) w3)
    as (w4 & tr & -> & Ht4 & (Hq4 & Hh4 & _ & Hs4 & _ & Hn4) & Hin & Hout).
  cbn [fst snd]. rewrite leftBehind_localDone in Hin, Hout.
  rewrite bind_eval, call_eval by done. unfold ClearRotationPSK. cbn [stmt].
  erewrite (updateRotation_row rotID _ _ (tables w4))
    by (rewrite Ht4; cbn; by rewrite lookup_insert_eq).
  cbn [fst snd]. rewrite bind_eval.
  match goal with |- context [rebuildRecoveryHook ?x] => destruct (rebuild_eval Hdb x)
    as (w5 & -> & Ht5 & Hq5 & Hs5 & Hh5) end.
  cbn [fst snd ok ret]. cbn in Ht5, Hq5, Hs5, Hh5. exists w5, tr, (now w), (now w2).
  split; [done|]. split.
  { rewrite Ht5, Ht4. unfold w3. cbn [tables tick set_tables]. rewrite Ht2, Ht1.
    unfold rowTables, promotedRow, set_trust, set_rotations. cbn. by rewrite !insert_insert_eq. }
  split; [lia|]. split; [by rewrite Hq5, Hq4|]. split; [by rewrite Hs5, Hs4|]. split.
  { rewrite Hh5, Hh4. change (hook w3) with (hook w1). rewrite Hh1.
    destruct (hook w); [|done]. do 2 f_equal. rewrite Ht4. unfold w3. cbn [tables tick set_tables].
    by rewrite Ht2, Ht1. }
  assert (forall num, num <> LocalNodeNum -> trust (tables w3) !! num = trust (tables w) !! num) as Hsame.
  { intros num Hl. unfold w3. cbn [tables tick set_tables]. rewrite Ht2. cbn.
    by rewrite lookup_alter_ne. }
  split.
  - intros num Hl Hnum Hk. apply Hin; [done|]. destruct Hk as [Hk|Hk]; [left|right].
    + by rewrite Hsame.
    + unfold w3. cbn [tables tick set_tables]. by rewrite Ht2, Ht1.
  - intros num Hl Hnum. rewrite Hout by (by left). by apply Hsame.
Qed.
End PhaseCRun.

(** The pre-allocation and the bookkeeping make a promotion. *)
Lemma finished_promoted `{E : Env} rotID rec oldPSK slot w m tr c at_ w' :
  cacheOK (set_recovery m (tables w)) ->
  (oldPSK <> [] -> Fingerprint oldPSK <> ""%string ->
     2 <= slot <= 7 /\ exists row, m !! slot = Some row /\ rFP row = Fingerprint oldPSK /\
       (hashedAs (Fingerprint oldPSK) (ChannelHash "" oldPSK) (tables w) ->
        rPSKHash row = ChannelHash "" oldPSK)) ->
  tables w' = set_trust tr (rowTables rotID (promotedRow c at_ rec) (set_recovery m (tables w))) ->
  now w <= c <= at_ ->
  hook w' = match hook w with
            | Some _ => Some (hashTable (recoveryRows (set_recovery m (tables w))))
            | None => None
            end ->
  (forall num, num <> LocalNodeNum -> (num ∈ leftBehind (Targets rec)) -> known num (tables w) ->
     exists r, tr !! num = Some r /\ strandedOn (Fingerprint oldPSK) r) ->
  (forall num, num <> LocalNodeNum -> (num ∉ leftBehind (Targets rec)) ->
     tr !! num = trust (tables w) !! num) ->
  promoted rotID rec oldPSK w w'.
Proof.
  intros Hok Hcache Ht Hn Hh Hin Hout. split; rewrite Ht.
  - exists c, at_. by split.
  - exact Hin.
  - exact Hout.
  - done.
  - by apply (cacheOK_ext (set_recovery m (tables w))).
  - intros Ho Hfp. destruct (Hcache Ho Hfp) as (Hb & row & Hrow & Hrfp & Hhash).
    exists row. split; [|done]. apply (recoveryByFP_Some (set_recovery m (tables w))); [done|].
    by destruct (cache_slot _ Hok slot row Hrow) as [_ ->].
  - rewrite Hh. by destruct (hook w).
Qed.

(** C6: phase C.  With a database that answers, phase C leaves the job queue
    alone, and a rotation that is retired already.  It looks for the old PRIMARY slot
    on the local radio.  If none is found (also when no slot can be read) it
    marks the rotation retired and does nothing else: its PSK is kept.  If one
    is found and the handler fails, rotations, trust roster and hook are as
    before.  If it succeeds, the local radio was promoted with the stored PSK in
    one transaction, and: the rotation is completed, retired and its PSK wiped;
    every remote target not on the new PSK that the roster can hold is stranded
    with the fingerprint of the old PSK, the other remote rows are as before; the
    old PSK is in the recovery cache; the packet hook knows the cache. *)
Theorem phase_c_outcomes `{E : Env} `{PL : Payloads} job rotID p rec w (Hdb : reliableDB)
    (Hid : Jobs.RotationID job = Some rotID) (Hp : unmarshalC (Jobs.Payload job) = Some p)
    (Hf : fetched rotID rec w) (Hc : cacheOK (tables w)) :
  let '(r, w') := phaseC_Run job w in
  queue w' = queue w /\
  if bool_decide (RetiredAt rec <> None) || bool_decide (PiPhase rec = PiPhaseRetired) then
    r = inl tt /\ tables w' = tables w /\ sentLog w' = sentLog w
  else exists w1 w2 old,
    sentLog w1 = sentLog w /\ findOldSlot slots (NewPSKFP rec) w1 = (old, w2) /\
    match old with
    | None =>
        r = inl tt /\ sentLog w' = sentLog w2 /\
        exists at_, now w <= at_ /\ tables w' = rowTables rotID (retiredRow at_ rec) (tables w)
    | Some (oldSlot, oldPSK) =>
        match r with
        | inr _ => rotations (tables w') = rotations (tables w) /\
                   trust (tables w') = trust (tables w) /\ hook w' = hook w
        | inl _ => promoted rotID rec oldPSK w w' /\
            exists psk slot w3 w4, new_psk rec = Some psk /\ psk <> [] /\ sentLog w3 = sentLog w2 /\
              migratePiAtomicWithRecovery (pStagingIdx p) oldSlot psk slot oldPSK w3 = (inl tt, w4) /\
              sentLog w' = sentLog w4
        end
    end.
Proof.
  unfold phaseC_Run. rewrite Hid, Hp, try_eval, (fetchRotation_eval Hdb rotID rec w Hf).
  destruct (_ || _); [by cbn|]. rewrite bind_eval. set (w1 := tick 0 w).
  assert (now w <= now w1) as Hn1 by (cbn; lia).
  destruct (findOldSlot_radioOnly slots (NewPSKFP rec) w1) as (Ht2 & Hq2 & Hh2 & _ & _ & _ & _ & Hn2).
  change (tables w1) with (tables w) in Ht2. change (queue w1) with (queue w) in Hq2.
  change (hook w1) with (hook w) in Hh2.
  destruct (findOldSlot slots (NewPSKFP rec) w1) as [old w2] eqn:Eo. cbn [fst snd] in *.
  pose proof (fetched_row _ _ _ Hf) as Hr. rewrite <- Ht2 in Hr.
  destruct old as [[oldSlot oldPSK]|].
  2:{ rewrite call_eval by done. unfold MarkRotationRetired. cbn [stmt].
      erewrite (updateRotation_row rotID _ _ (tables w2)) by done. split; [done|].
      exists w1, w2, None. split; [done|]. split; [done|]. split; [done|]. split; [done|].
      exists (now w2). split; [lia|]. cbn. by rewrite Ht2. }
  rewrite try_eval.
  destruct (storedPSK_cases Hdb rotID "rotation has no stored PSK; cannot promote Pi without it"
    rec w2 Hr) as [->|(psk & Hpsk & Hne & ->)].
  { split; [done|]. exists w1, w2, (Some (oldSlot, oldPSK)). cbn. by rewrite Ht2. }
  rewrite bind_eval.
  destruct (allocate_eval Hdb rotID rec oldPSK (tick 0 w2)) as
    (slot & w3 & m & -> & (Hq3 & Hh3 & _ & Hs3 & _ & Hn3) & Ht3 & Hok3 & Hcache);
    [done|cbn; by rewrite Ht2|]. cbn [fst snd]. cbn in Hn3.
  change (tables (tick 0 w2)) with (tables w2) in Ht3. rewrite Ht2 in Ht3.
  change (queue (tick 0 w2)) with (queue w2) in Hq3. change (hook (tick 0 w2)) with (hook w2) in Hh3.
  rewrite try_eval, wrap_eval.
  destruct (migratePi_radioOnly (pStagingIdx p) oldSlot psk slot oldPSK w3)
    as (Ht4 & Hq4 & Hh4 & _ & _ & _ & _ & Hn4).
  destruct (migratePiAtomicWithRecovery _ _ _ _ _ w3) as [[[]|e] w4] eqn:Em; cbn [snd] in *.
  2:{ split; [congruence|]. exists w1, w2, (Some (oldSlot, oldPSK)). split; [done|].
      split; [done|]. rewrite Ht4, Ht3. split; [done|]. split; [done|congruence]. }
  rewrite Ht3 in Ht4.
  assert (rotations (tables w4) !! rotID = Some rec) as Hr4.
  { rewrite Ht4. cbn. by rewrite <- Ht2. }
  destruct (finishC_eval Hdb rotID oldPSK rec w4 Hr4)
    as (w5 & tr & c & at_ & -> & Ht5 & Hn5 & Hq5 & Hs5 & Hh5 & Hin & Hout).
  rewrite Ht4 in Ht5, Hin, Hout, Hh5.
  split; [congruence|]. exists w1, w2, (Some (oldSlot, oldPSK)). split; [done|]. split; [done|].
  split; [|by exists psk, slot, w3, w4; split_and!].
  cbn in Hok3, Hcache. rewrite Ht2 in Hok3, Hcache.
  apply (finished_promoted rotID rec oldPSK slot w m tr c at_ w5 Hok3 Hcache Ht5 ltac:(lia)
           ltac:(by rewrite Hh5, Hh4, Hh3, Hh2) Hin Hout).
Qed.

Definition phaseCJob : Jobs.Job :=
  newJob 52 0 (Jobs.mkOpts Jobs.KindRotatePhaseC (Some 3) None (marshalC (mkC 1))).

(** Node 7 failed phase B and the operator retires the old PSK anyway. *)
Definition retiredEarly : Tables := rotationTables PhaseFailedB oldPSK16.

Lemma phase_c_outcomes_witness :
  exists w' r, phaseC_Run (E := exampleEnv (slotsRadio freshSlots)) phaseCJob (startWorld retiredEarly) =
      (inl tt, w') /\
    trust (tables w') !! 7 = Some r /\ strandedOn (fpOf oldPSK16) r.
Proof.
  pose proof (phase_c_outcomes (E := exampleEnv (slotsRadio freshSlots)) phaseCJob 3 (mkC 1)
    (stagedRotation PhaseFailedB) (startWorld retiredEarly) (fun _ => eq_refl) eq_refl eq_refl
    ltac:(split; [reflexivity|by repeat (constructor || split)])
    ltac:(split; intros *; intros Hs; done)) as Hc.
  destruct (phaseC_Run _ _) as [r w'] eqn:Er. exists w'.
  assert (r = inl tt) as -> by (rewrite <- (f_equal fst Er : _ = r); vm_compute; reflexivity).
  destruct Hc as (_ & w1 & w2 & old & Hs & Ho & Hc).
  assert (map (fun x => x.2) (option_list old) = [oldPSK16]) as Hold.
  { rewrite <- (f_equal fst Ho : _ = old). vm_compute. reflexivity. }
  destruct old as [[s k]|]; [|done]. injection Hold as ->. destruct Hc as (Hc & _).
  destruct (promoted_stranded _ _ _ _ _ Hc 7) as (r & Hr & Hon);
    [done|vm_compute; by left|left; by eexists|]. exists r.
  split; [reflexivity|]. split; [exact Hr|exact Hon].
Defined.
