(* ===== verification/FleetHook.v ===== *)
(** How a stranded node comes back: the packet hook and the operator's button
    of [internal/fleetsec/recovery_hook.go], the recovery handler of
    [job_handlers.go], and their composition with phase C.  The definitions are
    in FleetJobs.v. *)
From S2P Require Import Prelude GoStrings FleetStore FleetService FleetRotation FleetJobs FleetPhases.
From S2P Require Jobs.

(** ** The hash table *)
Lemma hashTable_app l r : hashTable (l ++ [r]) = <[uint8 (rPSKHash r) := rFP r]> (hashTable l).
Proof. unfold hashTable. by rewrite fold_left_app. Qed.

Lemma hashTable_Some l h : is_Some (hashTable l !! h) <-> exists r, (r ∈ l) /\ uint8 (rPSKHash r) = h.
Proof.
  induction l as [|r l IH] using rev_ind.
  - split; [by intros [? ?]|by intros (r & ?%elem_of_nil & _)].
  - rewrite hashTable_app. destruct (decide (uint8 (rPSKHash r) = h)) as [<-|Hh].
    + rewrite lookup_insert_eq. split; [|by eexists]. intros _. exists r.
      split; [|done]. apply elem_of_app. right. by apply list_elem_of_singleton.
    + rewrite lookup_insert_ne by done. rewrite IH. split; intros (r' & Hr' & Heq); exists r'.
      * split; [|done]. apply elem_of_app. by left.
      * apply elem_of_app in Hr' as [?|Hr'%list_elem_of_singleton]; [done|]. congruence.
Qed.

Lemma hashTable_elem l h fp : hashTable l !! h = Some fp ->
  exists r, (r ∈ l) /\ uint8 (rPSKHash r) = h /\ rFP r = fp.
Proof.
  induction l as [|r l IH] using rev_ind; [done|]. rewrite hashTable_app.
  intros [[Hh Hfp]|[_ Hl]]%lookup_insert_Some.
  - exists r. split; [|done]. apply elem_of_app. right. by apply list_elem_of_singleton.
  - destruct (IH Hl) as (r' & Hr' & ?). exists r'. split; [|done]. apply elem_of_app. by left.
Qed.

(** ** The hook *)
Section Hook.
Context `{E : Env} `{PL : Payloads}.

(** The fingerprint a job carries: the recorded one if there is one. *)
Definition recoveryFP (n : NodeTrustRecord) (fp : string) : string :=
  if bool_decide (PreviousPSKFP n = ""%string) then fp else PreviousPSKFP n.

Lemma recoveryFP_spec n fp :
  (if negb (bool_decide (PreviousPSKFP n = ""%string)) && negb (bool_decide (PreviousPSKFP n = fp))
   then PreviousPSKFP n else fp) = recoveryFP n fp.
Proof. unfold recoveryFP. by repeat case_bool_decide; cbn; congruence. Qed.

(** What makes the hook enqueue a recovery, and with which fingerprint. *)
Definition due (from h : Z) (w : World) (fp : string) : Prop :=
  exists m fp0 n, hook w = Some m /\ m !! h = Some fp0 /\ cooling from w = false /\
    (GetNodeTrust None from (tables w)).1 = inl n /\ StrandedSince n <> None /\
    isPending Jobs.KindRecoverStrand from (queue w) = false /\ fp = recoveryFP n fp0.

Definition passesFilter (from h : Z) (w : World) : bool :=
  jobsWired && match hook w with Some m => bool_decide (is_Some (m !! h)) | None => false end &&
  negb (cooling from w).

(** Jobs at rest or running, per node. *)
Definition atMostOne (kind : string) (q : list Jobs.Job) : Prop :=
  forall num, (length (List.filter (Jobs.pendingFor kind num) q) <= 1)%nat.

Lemma isPending_false kind num q :
  isPending kind num q = false <-> List.filter (Jobs.pendingFor kind num) q = [].
Proof.
  unfold isPending. induction q as [|j q IH]; cbn; [done|].
  destruct (Jobs.pendingFor kind num j); cbn; [done|exact IH].
Qed.

Lemma pendingFor_new id at_ kind rid num pl num' :
  Jobs.pendingFor kind num' (newJob id at_ (Jobs.mkOpts kind rid (Some num) pl)) =
  bool_decide (num = num').
Proof.
  unfold Jobs.pendingFor, Jobs.queued. cbn. rewrite (bool_decide_true (kind = kind)) by done.
  rewrite (bool_decide_true (Jobs.StateQueued = Jobs.StateQueued)) by done. cbn.
  rewrite andb_true_r. apply bool_decide_ext. split; [by intros [= ->]|by intros ->].
Qed.

Lemma atMostOne_snoc kind rid num pl id at_ q :
  isPending kind num q = false -> atMostOne kind q ->
  atMostOne kind (q ++ [newJob id at_ (Jobs.mkOpts kind rid (Some num) pl)]).
Proof.
  intros Hp Hq num'. rewrite List.filter_app. cbn [List.filter]. rewrite pendingFor_new.
  case_bool_decide as Hn.
  - subst num'. apply isPending_false in Hp. by rewrite Hp.
  - rewrite app_nil_r. apply Hq.
Qed.

(** An enqueue that may fail, after a check that found nothing pending. *)
Lemma enqueue_queue o w :
  queue (enqueue o w).2 = queue w \/
  exists id at_, queue (enqueue o w).2 = queue w ++ [newJob id at_ o].
Proof.
  unfold enqueue. rewrite bind_eval. unfold freshID. cbn [fst snd]. rewrite bind_eval.
  unfold dbOK. cbn [fst snd]. case_bool_decide; cbn; [right|by left]. by eexists _, _.
Qed.

Lemma hasPendingFor_queue kind num w :
  queue (hasPendingFor kind num w).2 = queue w /\
  ((hasPendingFor kind num w).1 = inl false -> isPending kind num (queue w) = false).
Proof.
  unfold hasPendingFor. rewrite bind_eval. unfold dbOK. cbn [fst snd]. split; [done|].
  unfold Jobs.HasPendingFor. case_bool_decide; cbn; [|done]. rewrite isPending_count. congruence.
Qed.

Lemma call_queue {A} (f : option string -> Z -> Stmt A) w : queue (call f w).2 = queue w.
Proof. unfold call. by destruct (f _ _ _). Qed.

Lemma observe_unique from h w : atMostOne Jobs.KindRecoverStrand (queue w) ->
  atMostOne Jobs.KindRecoverStrand (queue (ObserveInboundPacket from h w).2).
Proof.
  intros Hq. unfold ObserveInboundPacket. rewrite bind_eval. cbn [getWorld fst snd].
  destruct jobsWired; [|done]. cbn [negb]. destruct (hook w) as [m|]; [|done].
  destruct (m !! h) as [fp|]; [|done]. destruct (cooling from w); [done|].
  rewrite bind_eval. cbn [modify fst snd]. set (w1 := set_cooldown _ w).
  unfold observeStranded. rewrite bind_eval.
  pose proof (call_queue (fun fault _ => GetNodeTrust fault from) w1) as Hq2.
  destruct (call _ w1) as [r w2]. cbn [fst snd] in *. change (queue w1) with (queue w) in Hq2.
  rewrite <- Hq2 in Hq. destruct r as [n|]; [|done]. destruct (StrandedSince n); [|done].
  rewrite bind_eval. destruct (hasPendingFor_queue Jobs.KindRecoverStrand from w2) as [Hq3 Hp].
  destruct (hasPendingFor _ _ w2) as [p w3]. cbn [fst snd] in *. rewrite <- Hq3 in Hq, Hp.
  destruct p as [[]|]; [done| |done]. rewrite bind_eval.
  cbn [ret fst snd].
  match goal with |- context [enqueue ?o w3] => destruct (enqueue_queue o w3) as [->|(id & at_ & ->)] end;
    [done|]. apply atMostOne_snoc; auto.
Qed.

Lemma force_unique num w : atMostOne Jobs.KindRecoverStrand (queue w) ->
  atMostOne Jobs.KindRecoverStrand (queue (ForceRecoverStranded num w).2).
Proof.
  intros Hq. unfold ForceRecoverStranded. destruct jobsWired; [|done]. cbn [negb]. rewrite try_eval.
  pose proof (call_queue (fun fault _ => GetNodeTrust fault num) w) as Hq2.
  destruct (call _ w) as [[n|] w2]; cbn [fst snd] in *; rewrite <- Hq2 in Hq; [|done].
  destruct (StrandedSince n); [|done]. case_bool_decide; [done|]. rewrite try_eval.
  destruct (hasPendingFor_queue Jobs.KindRecoverStrand num w2) as [Hq3 Hp].
  destruct (hasPendingFor _ _ w2) as [[p|] w3]; cbn [fst snd] in *; rewrite <- Hq3 in Hq, Hp; [|done].
  destruct p; [done|]. rewrite try_eval.
  match goal with |- context [enqueue ?o w3] => pose proof (enqueue_queue o w3) as He;
    destruct (enqueue o w3) as [[id|] w4] end; cbn [fst snd] in *.
  - rewrite bind_eval. cbn. destruct He as [->|(id' & at_ & ->)]; [done|].
    apply atMostOne_snoc; auto.
  - destruct He as [->|(id' & at_ & ->)]; [done|]. apply atMostOne_snoc; auto.
Qed.

Lemma cancel_queue num w : queue (CancelStranded num w).2 = queue w.
Proof.
  unfold CancelStranded. rewrite try_eval.
  pose proof (call_queue (fun fault now => ClearStranded fault now num) w) as H1.
  destruct (call _ w) as [[]w1]; cbn [fst snd] in *; [|done]. rewrite try_eval.
  pose proof (call_queue (fun fault _ => WipePrevious fault num) w1) as H2.
  destruct (call _ w1) as [[]w2]; cbn [fst snd] in *; [|congruence]. rewrite bind_eval. cbn. congruence.
Qed.
End Hook.

(** What happens to the roster from outside: a packet from a node on a channel
    hash, or an operator's buttons. *)
Inductive stimulus : Type :=
| Packet (from channelHash : Z)
| RecoverNow (num : Z)
| StopTrying (num : Z).

Definition react `{E : Env} `{PL : Payloads} (s : stimulus) (w : World) : World :=
  match s with
  | Packet from h => (ObserveInboundPacket from h w).2
  | RecoverNow num => (ForceRecoverStranded num w).2
  | StopTrying num => (CancelStranded num w).2
  end.

(** ** Properties *)

(** Recoveries do not pile up.  Whatever packets arrive and whatever the
    operator presses, in any order and with a database that may fail at any
    statement, a node never has more than one recovery queued or running if it
    had no more than one before. *)
Theorem recovery_jobs_unique `{E : Env} `{PL : Payloads} (l : list stimulus) (w : World) :
  atMostOne Jobs.KindRecoverStrand (queue w) ->
  atMostOne Jobs.KindRecoverStrand (queue (fold_left (fun w s => react s w) l w)).
Proof.
  revert w. induction l as [|s l IH]; intros w Hq; [done|]. cbn. apply IH.
  destruct s as [from h|num|num]; cbn.
  - by apply observe_unique.
  - by apply force_unique.
  - by rewrite cancel_queue.
Qed.

(** Tables, radio and hook as before. *)
Definition queuesOnly (w w' : World) : Prop :=
  tables w' = tables w /\ sentLog w' = sentLog w /\ hook w' = hook w /\ passkeys w' = passkeys w.

Lemma GetNodeTrust_reads n num t : (GetNodeTrust n num t).2 = t.
Proof. unfold GetNodeTrust. by apply stmt_reads. Qed.

Lemma due_unfiltered `{E : Env} from h w fp : due from h w fp ->
  jobsWired = true -> passesFilter from h w = true.
Proof.
  intros (m & fp0 & n & Hm & Hh & Hcool & _) Hj. unfold passesFilter. rewrite Hj, Hm, Hcool. cbn.
  rewrite bool_decide_true; [done|by eexists].
Qed.

Lemma observeStranded_eval `{E : Env} `{PL : Payloads} from fp w (Hdb : reliableDB) :
  let '(r, w') := observeStranded from fp w in
  queuesOnly w w' /\ cooldown w' = cooldown w /\
  match (GetNodeTrust None from (tables w)).1 with
  | inl n =>
      if bool_decide (StrandedSince n <> None) && negb (isPending Jobs.KindRecoverStrand from (queue w))
      then exists id at_, r = Some id /\
        queue w' = queue w ++ [newJob id at_ (recoverOpts from (recoveryFP n fp) "dispatcher")]
      else r = None /\ queue w' = queue w
  | inr _ => r = None /\ queue w' = queue w
  end.
Proof.
  unfold observeStranded.
  rewrite bind_eval, call_read by (try done; apply GetNodeTrust_reads). cbn [fst snd].
  destruct (GetNodeTrust None from (tables w)).1 as [n|e]; [|done].
  destruct (StrandedSince n) as [s|]; [|by rewrite bool_decide_false by congruence].
  rewrite (bool_decide_true (Some s <> None)) by done.
  rewrite bind_eval, hasPendingFor_eval, isPending_count by done. cbn [fst snd].
  change (queue (tick 0 w)) with (queue w).
  destruct (isPending _ _ _); cbn [negb andb]; [by cbn|].
  rewrite bind_eval, enqueue_eval by done. cbn [ret fst snd]. rewrite recoveryFP_spec.
  split; [done|]. split; [done|]. by eexists _, _.
Qed.

(** The packet hook.  With a database that answers, an inbound packet
    changes neither tables nor radio.  It has effects only if the queue is
    wired, the channel hash is in the table and the sender was not seen within
    30 seconds; then the sender's cooldown starts, stranded or not.  It
    enqueues exactly one recovery if, in addition, the sender is flagged
    stranded and has no recovery queued or running, and none otherwise; the job
    carries the fingerprint recorded for the node, or that of the hash if none
    is. *)
Theorem observe_inbound_spec `{E : Env} `{PL : Payloads} from h w (Hdb : reliableDB) :
  let '(r, w') := ObserveInboundPacket from h w in
  queuesOnly w w' /\
  cooldown w' = (if passesFilter from h w then <[from := now w]> (cooldown w) else cooldown w) /\
  match r with
  | None => queue w' = queue w /\ (jobsWired = true -> ~ exists fp, due from h w fp)
  | Some id => jobsWired = true /\ exists at_ fp, due from h w fp /\
      queue w' = queue w ++ [newJob id at_ (recoverOpts from fp "dispatcher")]
  end.
Proof.
  unfold ObserveInboundPacket, passesFilter. rewrite bind_eval. cbn [getWorld fst snd].
  assert (forall fp, due from h w fp -> jobsWired = true -> passesFilter from h w = true) as Hdue
    by (intros fp; apply due_unfiltered). unfold passesFilter in Hdue.
  destruct jobsWired; cbn [negb andb]; [|done]. cbn [andb] in Hdue.
  destruct (hook w) as [m|] eqn:Em.
  2:{ split; [done|]. split; [done|]. split; [done|]. intros _ [fp Hd]. by apply Hdue in Hd. }
  destruct (m !! h) as [fp0|] eqn:Eh.
  2:{ rewrite bool_decide_false in * by (by intros [? ?]). split; [done|]. split; [done|].
      split; [done|]. intros _ [fp Hd]. by apply Hdue in Hd. }
  rewrite bool_decide_true in * by by eexists. cbn [andb] in *.
  destruct (cooling from w) eqn:Ec; cbn [negb] in *.
  { split; [done|]. split; [done|]. split; [done|]. intros _ [fp Hd]. by apply Hdue in Hd. }
  rewrite bind_eval. cbn [modify fst snd]. set (w1 := set_cooldown _ w).
  pose proof (observeStranded_eval from fp0 w1 Hdb) as Ho.
  destruct (observeStranded from fp0 w1) as [r w']. destruct Ho as (Hq & Hc & Ho).
  split; [exact Hq|]. split; [exact Hc|].
  change (tables w1) with (tables w) in Ho. change (queue w1) with (queue w) in Ho.
  assert (forall fp, due from h w fp -> exists n, (GetNodeTrust None from (tables w)).1 = inl n /\
    bool_decide (StrandedSince n <> None) && negb (isPending Jobs.KindRecoverStrand from (queue w)) = true)
    as Hchar.
  { intros fp (m' & fp' & n & _ & _ & _ & Hn & Hs & Hp & _). exists n. split; [done|].
    rewrite Hp, bool_decide_true by done. done. }
  destruct (GetNodeTrust None from (tables w)).1 as [n|e] eqn:En.
  - destruct (_ && _) eqn:Eg.
    + destruct Ho as (id & at_ & -> & Hq'). split; [done|]. exists at_, (recoveryFP n fp0).
      split; [|done]. apply andb_true_iff in Eg as [Hs Hp]. exists m, fp0, n.
      apply bool_decide_eq_true in Hs. apply negb_true_iff in Hp. by split_and!.
    + destruct Ho as [-> Hq']. split; [done|]. intros _ [fp (n' & [= <-] & Hn')%Hchar]. congruence.
  - destruct Ho as [-> Hq']. split; [done|]. by intros _ [fp (n' & ? & _)%Hchar].
Qed.

(** Recover now.  With a database that answers, the operator's button
    either reports an error and queues nothing, or the node is flagged stranded
    with a recorded fingerprint and has no recovery pending, and one more job,
    its recovery with that fingerprint, is queued under the returned id. *)
Theorem force_recover_outcomes `{E : Env} `{PL : Payloads} num w (Hdb : reliableDB) :
  let '(r, w') := ForceRecoverStranded num w in
  queuesOnly w w' /\
  match r with
  | inr e => queue w' = queue w /\
      (jobsWired = true -> forall n, (GetNodeTrust None num (tables w)).1 = inl n ->
       StrandedSince n = None \/ PreviousPSKFP n = ""%string \/
       isPending Jobs.KindRecoverStrand num (queue w) = true)
  | inl id => exists n at_, (GetNodeTrust None num (tables w)).1 = inl n /\
      StrandedSince n <> None /\ PreviousPSKFP n <> ""%string /\
      isPending Jobs.KindRecoverStrand num (queue w) = false /\
      queue w' = queue w ++ [newJob id at_ (recoverOpts num (PreviousPSKFP n) "manual")]
  end.
Proof.
  unfold ForceRecoverStranded. destruct jobsWired; cbn [negb]; [|done].
  rewrite try_eval, call_read by (try done; apply GetNodeTrust_reads).
  destruct (GetNodeTrust None num (tables w)).1 as [n|e]; [|done].
  destruct (StrandedSince n) as [s|] eqn:Es.
  2:{ split; [done|]. split; [done|]. intros _ n' [= <-]. by left. }
  case_bool_decide as Hp.
  { split; [done|]. split; [done|]. intros _ n' [= <-]. by right; left. }
  rewrite try_eval, hasPendingFor_eval, isPending_count by done.
  change (queue (tick 0 w)) with (queue w). destruct (isPending _ _ _) eqn:Eq.
  { split; [done|]. split; [done|]. intros _ n' _. by right; right. }
  rewrite try_eval, enqueue_eval by done. rewrite bind_eval. split; [done|]. exists n.
  eexists. split; [done|]. rewrite Es. by split_and!.
Qed.


(** ** The recovery handler *)

(** A failed attempt, noted on the node's row. *)
Definition attempted (at_ : Z) (note : string) (r : TrustRow) : TrustRow :=
  set_stranded (tStrandedSince r) (tPreviousPSKFP r) (tRecoveryAttempts r + 1) (Some at_)
    (nonempty note) r.

Definition unstranded (at_ : Z) (r : TrustRow) : TrustRow :=
  set_stranded None (tPreviousPSKFP r) 0 (Some at_) None r.

Definition trustAt (num : Z) (f : TrustRow -> TrustRow) (t : Tables) : Tables :=
  set_trust (alter f num (trust t)) t.

Section Recover.
Context `{E : Env} `{PL : Payloads} (Hdb : reliableDB).

Lemma giveUp_eval num note e w :
  exists w' at_, giveUp num note e w = (inr e, w') /\ tables w' = trustAt num (attempted at_ note) (tables w) /\
    queue w' = queue w /\ sentLog w' = sentLog w.
Proof.
  unfold giveUp. rewrite bind_eval, call_eval by done. cbn [fst snd fail ret].
  eexists _, (now w). split; [done|]. by split_and!.
Qed.

Lemma probeRetry_radioOnly n : keeps radioOnly (probeRetry n).
Proof.
  induction n as [|n IH]; cbn [probeRetry].
  - apply keeps_bind; [apply _|apply probeSlotsLocal_radioOnly|]. intros a. keeps.
  - apply keeps_bind; [apply _|apply probeSlotsLocal_radioOnly|]. intros [p|e]; [keeps|].
    destruct n; [keeps|]. apply keeps_try; [apply _| |intros _; exact IH].
    apply sleep_radioOnly. unfold seconds. lia.
Qed.

(** Only a cancelled wait is an error of the probe loop. *)
Lemma recoverTo_eval p primary psk w :
  exists w', (recoverTo p primary psk w).2 = w' /\ queue w' = queue w /\
    if bool_decide (Fingerprint psk = rPrevPSKFP p) then
      (recoverTo p primary psk w).1 = inl tt /\ sentLog w' = sentLog w /\
      exists at_, tables w' = trustAt (rNodeNum p) (unstranded at_) (tables w)
    else exists mr w1,
      migrateRemoteAtomic (rNodeNum p) (if primary =? 1 then 0 else 1) primary psk w = (mr, w1) /\
      sentLog w' = sentLog w1 /\
      match mr with
      | inr e => (recoverTo p primary psk w).1 = inr (EWrap "recover-stranded migrate: " e "") /\
          exists at_, tables w' = trustAt (rNodeNum p) (attempted at_ (Error e)) (tables w)
      | inl _ => (recoverTo p primary psk w).1 = inl tt /\
          exists verified at_, tables w' =
            trustAt (rNodeNum p) (fun r => unstranded at_ (stamped verified (Fingerprint psk) r)) (tables w)
      end.
Proof.
  unfold recoverTo. case_bool_decide as Hfp.
  { rewrite bind_eval, call_eval by done. cbn [fst snd ok ret]. eexists. split; [done|].
    split; [done|]. split; [done|]. split; [done|]. by exists (now w). }
  rewrite bind_eval.
  destruct (migrateRemote_radioOnly (rNodeNum p) (if primary =? 1 then 0 else 1) primary psk w)
    as (Ht & Hq & _).
  destruct (migrateRemoteAtomic _ _ _ _ w) as [mr w1]. cbn [fst snd] in *. destruct mr as [[]|e].
  - match goal with |- context [bind (call _) (fun _ => bind _ (fun _ => ?K))] =>
      destruct (stamp_eval Hdb (rNodeNum p) (Fingerprint psk) K w1) as (w2 & -> & (Hq2 & _ & _ & Hs2 & _) & Ht2) end.
    rewrite bind_eval, call_eval by done. cbn [fst snd ok ret]. eexists. split; [done|].
    split; [cbn; congruence|]. exists (inl tt), w1. split; [done|]. split; [done|]. split; [done|].
    exists (now w1), (now w2). cbn. rewrite Ht2, Ht. unfold trustAt, set_trust. cbn. f_equal.
    by rewrite alter_compose.
  - destruct (giveUp_eval (rNodeNum p) (Error e) (EWrap "recover-stranded migrate: " e "") w1)
      as (w2 & at_ & -> & Ht2 & Hq2 & Hs2). exists w2. split; [done|]. split; [congruence|].
    exists (inr e), w1. split; [done|]. split; [done|]. split; [done|]. exists at_. by rewrite Ht2, Ht.
Qed.
End Recover.

Lemma probeRetry_cancelled `{E : Env} n w e : (probeRetry n w).1 = inr e -> exists k, ctxErr k <> None.
Proof.
  revert w. induction n as [|n IH]; intros w; cbn [probeRetry]; rewrite bind_eval;
    destruct (probeSlotsLocal w) as [[p|e'] w1]; cbn [fst snd]; try done.
  destruct n; [done|]. rewrite try_eval. unfold sleep.
  destruct (ctxErr (ticks w1)) as [m|] eqn:Ec; [intros _; exists (ticks w1); by rewrite Ec|].
  apply IH.
Qed.

(** Finish a branch that gives up. *)
Ltac gives_up Hgive :=
  match goal with |- context [giveUp _ ?m ?e ?x] =>
    specialize (Hgive m e x ltac:(cbn; congruence) ltac:(cbn; congruence));
    destruct (giveUp _ m e x) as [? ?]; destruct Hgive as (? & -> & ?); split; [done|by right]
  end.

(** Recovering a node.  With a database that answers, the recovery of a
    node never touches the job queue and, of the tables, only the node's trust row.
    It succeeds only if the PSK the node is on is still cached and the local radio
    reads a PRIMARY channel with a PSK in slot 0 or 1.  Then either that is the
    PSK the node is on already, and nothing is sent to it, or the node was
    migrated to it, staged in the other of the two slots, and its row is stamped
    with the fingerprint; in both cases the node is no longer stranded.  If it
    fails, the attempt is counted with a note on the row, which stays stranded,
    unless the wait between two probes was cancelled. *)
Theorem recover_stranded_outcomes `{E : Env} `{PL : Payloads} job p w (Hdb : reliableDB)
    (Hp : unmarshalR (Jobs.Payload job) = Some p) (Hnum : rNodeNum p <> 0)
    (Hfp : rPrevPSKFP p <> ""%string) :
  let num := rNodeNum p in
  let '(r, w') := recoverStranded_Run job w in
  queue w' = queue w /\
  match r with
  | inl _ => is_Some (recoveryByFP (rPrevPSKFP p) (tables w)) /\
      exists primary w0 ch w1, (primary = 0 \/ primary = 1) /\
        readLocalChannel primary w0 = (inl ch, w1) /\ channelPSK ch <> [] /\
        if bool_decide (Fingerprint (channelPSK ch) = rPrevPSKFP p) then
          sentLog w' = sentLog w1 /\ exists at_, tables w' = trustAt num (unstranded at_) (tables w)
        else exists w2 verified at_,
          migrateRemoteAtomic num (1 - primary) primary (channelPSK ch) w1 = (inl tt, w2) /\
          sentLog w' = sentLog w2 /\
          tables w' = trustAt num (fun r => unstranded at_
                        (stamped verified (Fingerprint (channelPSK ch)) r)) (tables w)
  | inr _ => (tables w' = tables w /\ exists k, ctxErr k <> None) \/
      exists at_ note, tables w' = trustAt num (attempted at_ note) (tables w)
  end.
Proof.
  cbn zeta. unfold recoverStranded_Run. rewrite Hp, (proj2 (Z.eqb_neq _ _) Hnum), bool_decide_false by done.
  assert ((GetRecoveryPSKByFP None (rPrevPSKFP p) (tables w)).2 = tables w) as Hg by done.
  rewrite bind_eval, call_read by done. cbn [fst snd]. clear Hg.
  assert (forall note e w1, tables w1 = tables w -> queue w1 = queue w ->
    let '(r, w') := giveUp (rNodeNum p) note e w1 in queue w' = queue w /\
    r = inr e /\ exists at_ note, tables w' = trustAt (rNodeNum p) (attempted at_ note) (tables w)) as Hgive.
  { intros note e w1 Ht Hq. destruct (giveUp_eval Hdb (rNodeNum p) note e w1)
      as (w2 & at_ & -> & Ht2 & Hq2 & _). split; [congruence|]. split; [done|].
    exists at_, note. congruence. }
  unfold GetRecoveryPSKByFP. cbn [stmt fst].
  destruct (recoveryByFP (rPrevPSKFP p) (tables w)) as [row|] eqn:Erow; [|by gives_up Hgive].
  rewrite try_eval. destruct (probeRetry_radioOnly probeAttempts (tick 0 w)) as (Ht1 & Hq1 & _).
  pose proof (probeRetry_cancelled probeAttempts (tick 0 w)) as Hcan.
  destruct (probeRetry _ _) as [[[[es primary]|pe]|e] w1]; cbn [fst snd tick tables queue] in *;
    [|by gives_up Hgive|split; [done|left; split; [done|by apply (Hcan e)]]].
  destruct (_ || _) eqn:Eprim; [by cbn zeta; gives_up Hgive|].
  apply orb_false_iff in Eprim. rewrite Z.ltb_ge, Z.ltb_ge in Eprim.
  rewrite bind_eval. destruct (readLocalChannel_radioOnly primary w1) as (Ht2 & Hq2 & _).
  destruct (readLocalChannel primary w1) as [[ch|e] w2] eqn:Eread; cbn [fst snd] in *;
    [|by gives_up Hgive].
  destruct (Z.eqb_spec (zlen (channelPSK ch)) 0) as [Hz|Hz]; [by gives_up Hgive|].
  assert (channelPSK ch <> []) as Hne by by (intros Hn; rewrite Hn in Hz).
  assert ((if primary =? 1 then 0 else 1) = 1 - primary) as Hother.
  { destruct (Z.eqb_spec primary 1); lia. }
  destruct (recoverTo_eval Hdb p primary (channelPSK ch) w2) as (w3 & Hw3 & Hq3 & Hrec).
  rewrite Hother in Hrec. destruct (recoverTo p primary (channelPSK ch) w2) as [r w']. cbn [fst snd] in *.
  subst w'. split; [congruence|]. rewrite Ht2, Ht1 in Hrec. case_bool_decide as Hsame.
  - destruct Hrec as (-> & Hs & Hat). split; [by eexists|].
    exists primary, w1, ch, w2. rewrite bool_decide_true by done. split; [lia|]. by split_and!.
  - destruct Hrec as ([[]|e] & w4 & Hm & Hs & Hr).
    + destruct Hr as (-> & verified & at_ & Ht). split; [by eexists|].
      exists primary, w1, ch, w2. rewrite bool_decide_false by done. split; [lia|].
      split; [done|]. split; [done|]. by exists w4, verified, at_.
    + destruct Hr as (-> & at_ & Ht). right. by exists at_, (Error e).
Qed.

(** ** Concrete runs *)

(** Node 7 is stranded on the old PSK, which is cached in slot 2; the local
    radio is on the new one, PRIMARY in slot 1. *)
Definition strandedTables : Tables :=
  mkTables [] {[7 := mkNode "!7" "" "" "" None true]}
    {[7 := mkTrust ["#A"] false None None None DriftStatusInPolicy None
             (Some (fpOf oldPSK16)) (Some 5) 0 None None None]}
    ∅ ∅ {[2 := mkRecovery 2 (fpOf oldPSK16) oldPSK16 (ChannelHash "" oldPSK16) 0 None]}
    (mkPolicy [] false [] 0 "").

Definition hooked (t : Tables) : World := set_hook (Some (hashTable (recoveryRows t))) (startWorld t).

Definition promotedSlots (idx : Z) : Channel :=
  if idx =? 1 then slot Channel_PRIMARY newPSK16 1 else slot Channel_DISABLED [] idx.

(** It answers for node 7 too, which after the migration has the new PSK in
    slot 0. *)
Definition promotedRadio (l : list Sent) : option Tracker.Reply :=
  match l with
  | s :: _ => if sTo s =? 7 then slotsRadio (fun i => slot Channel_PRIMARY newPSK16 i) l
              else slotsRadio promotedSlots l
  | [] => None
  end.

Definition stimuli : list stimulus := [Packet 7 0; RecoverNow 7; Packet 7 0; Packet 9 0].

Lemma recovery_jobs_unique_witness :
  atMostOne Jobs.KindRecoverStrand
    (queue (fold_left (fun w s => react (E := exampleEnv promotedRadio) s w) stimuli
              (hooked strandedTables))).
Proof.
  apply (recovery_jobs_unique (E := exampleEnv promotedRadio)). intros num. cbn. lia.
Defined.

(** One of the four stimuli queued a job. *)
Example stimuli_queue_one :
  length (queue (fold_left (fun w s => react (E := exampleEnv promotedRadio) s w) stimuli
                   (hooked strandedTables))) = 1%nat.
Proof. vm_compute. reflexivity. Qed.

Lemma observe_inbound_spec_witness :
  (ObserveInboundPacket (E := exampleEnv promotedRadio) 7 0 (hooked strandedTables)).1 <> None /\
  let w' := (ObserveInboundPacket (E := exampleEnv promotedRadio) 7 0 (hooked strandedTables)).2 in
  tables w' = strandedTables.
Proof.
  pose proof (observe_inbound_spec (E := exampleEnv promotedRadio) 7 0 (hooked strandedTables)
    (fun _ => eq_refl)) as Ho.
  destruct (ObserveInboundPacket _ _ _) as [r w'] eqn:Er. split; [|apply Ho].
  change r with (r, w').1. rewrite <- Er. vm_compute. discriminate.
Defined.

Lemma force_recover_outcomes_witness :
  exists w', ForceRecoverStranded (E := exampleEnv promotedRadio) 7 (hooked strandedTables) = (inl 100, w') /\
    exists id at_, queue w' = [newJob id at_ (recoverOpts 7 (fpOf oldPSK16) "manual")].
Proof.
  pose proof (force_recover_outcomes (E := exampleEnv promotedRadio) 7 (hooked strandedTables)
    (fun _ => eq_refl)) as Ho.
  destruct (ForceRecoverStranded _ _) as [r w'] eqn:Er. exists w'.
  assert (r = inl 100) as -> by (rewrite <- (f_equal fst Er : _ = r); vm_compute; reflexivity).
  split; [done|]. destruct Ho as (_ & n & at_ & Hn & _ & _ & _ & Hq). injection Hn as <-.
  exists 100, at_. exact Hq.
Defined.

Definition recoverJob : Jobs.Job := newJob 60 0 (recoverOpts 7 (fpOf oldPSK16) "dispatcher").

Lemma recover_stranded_outcomes_witness :
  exists w' r, recoverStranded_Run (E := exampleEnv promotedRadio) recoverJob (hooked strandedTables) =
      (inl tt, w') /\
    trust (tables w') !! 7 = Some r /\ tStrandedSince r = None.
Proof.
  pose proof (recover_stranded_outcomes (E := exampleEnv promotedRadio) (PL := examplePayloads) recoverJob
    (mkR 7 (fpOf oldPSK16) "dispatcher") (hooked strandedTables) (fun _ => eq_refl)
    ltac:(vm_compute; reflexivity) ltac:(discriminate) ltac:(discriminate)) as Hc.
  cbv zeta in Hc. destruct (recoverStranded_Run _ _) as [r w'] eqn:Er. exists w'.
  assert (r = inl tt) as -> by (rewrite <- (f_equal fst Er : _ = r); vm_compute; reflexivity).
  destruct Hc as (_ & _ & primary & w0 & ch & w1 & _ & _ & _ & Hc).
  case_bool_decide.
  - destruct Hc as (_ & at_ & ->). eexists. split; [reflexivity|]. by split.
  - destruct Hc as (w2 & v & at_ & _ & _ & ->). eexists. split; [reflexivity|]. by split.
Defined.

(** The world phase C leaves behind when node 7 failed phase B. *)
Definition afterC : World :=
  (phaseC_Run (E := exampleEnv (slotsRadio freshSlots)) phaseCJob (startWorld retiredEarly)).2.

Definition strandedRow : TrustRow := default noTrust (trust (tables afterC) !! 7).

Lemma afterC_promoted :
  promoted (E := exampleEnv (slotsRadio freshSlots)) 3 (stagedRotation PhaseFailedB) oldPSK16
    (startWorld retiredEarly) afterC.
Proof.
  assert (trust (tables afterC) = <[7 := strandedRow]> (trust retiredEarly)) as Ht
    by (vm_compute; reflexivity).
  assert (recovery (tables afterC) = {[2 := mkRecovery 2 (fpOf oldPSK16) oldPSK16
    (ChannelHash "" oldPSK16) 0 (Some 3)]}) as Hr by (vm_compute; reflexivity).
  split.
  - exists 0, 0. split; [cbn; lia|]. vm_compute. reflexivity.
  - intros num _ Hin%list_elem_of_singleton _. subst num. exists strandedRow.
    rewrite Ht, lookup_insert_eq. split; [reflexivity|].
    split; [vm_compute; discriminate|]. split; vm_compute; reflexivity.
  - intros num _ Hin. rewrite Ht. apply lookup_insert_ne. intros <-. apply Hin.
    by apply list_elem_of_singleton.
  - vm_compute. reflexivity.
  - split; rewrite Hr.
    + intros s r [<- <-]%lookup_singleton_Some. cbn. lia.
    + intros s r [<- <-]%lookup_singleton_Some. split; vm_compute; discriminate.
    + intros s s' r r' [<- _]%lookup_singleton_Some [<- _]%lookup_singleton_Some _. reflexivity.
  - intros _ _. eexists. split; [vm_compute; reflexivity|]. intros _. reflexivity.
  - vm_compute. reflexivity.
Qed.

