(* ===== verification/FleetRecovery.v ===== *)
(** Compromise recovery: [internal/fleetsec/recovery.go], with the keypair
    generation of [keys.go].

    The operator's rescue keypair is installed on the local radio, every
    remote is told to trust the rescue key and a fresh primary key, and the
    fresh keypair replaces the rescue one on the local radio.  [StartRecovery]
    hands the work to a goroutine; the model runs [runRecovery] as a step of its
    own.  Zeroing of key material has no counterpart: values are immutable. *)
From stdpp Require Import sorting.
From S2P Require Import Prelude GoStrings FleetStore FleetService FleetRotation FleetTrust FleetPhases.

(** ** [time.Time.Format("20060102-150405")] of nanoseconds since 1970 *)
Definition civil (days : Z) : Z * Z * Z :=
  let z := days + 719468 in
  let era := z / 146097 in
  let doe := z mod 146097 in
  let yoe := (doe - doe / 1460 + doe / 36524 - doe / 146096) / 365 in
  let doy := doe - (365 * yoe + yoe / 4 - yoe / 100) in
  let mp := (5 * doy + 2) / 153 in
  let m := if mp <? 10 then mp + 3 else mp - 9 in
  (yoe + era * 400 + (if m <=? 2 then 1 else 0), m, doy - (153 * mp + 2) / 5 + 1).

Definition pad2 (z : Z) : string := if z <? 10 then "0" +:+ itoa z else itoa z.

Definition pad4 (z : Z) : string :=
  if z <? 10 then "000" +:+ itoa z else if z <? 100 then "00" +:+ itoa z
  else if z <? 1000 then "0" +:+ itoa z else itoa z.

Definition stamp (ns : Z) : string :=
  let s := ns / 1000000000 in
  let '(y, m, d) := civil (s / 86400) in
  let t := s mod 86400 in
  pad4 y +:+ pad2 m +:+ pad2 d +:+ "-" +:+ pad2 (t / 3600) +:+ pad2 (t / 60 mod 60) +:+
  pad2 (t mod 60).

Example stamp_leap_day : stamp (1709208000 * 1000000000) = "20240229-120000".
Proof. vm_compute. reflexivity. Qed.

Section Recovery.
Context `{E : Env}.

(** ** keys.go *)
Definition clamp (priv : bytes) : bytes :=
  let priv := alter (fun b => byte_of_Z (Z.land (Zb b) 248)) 0%nat priv in
  alter (fun b => byte_of_Z (Z.lor (Z.land (Zb b) 127) 64)) 31%nat priv.

(** [rand] fills the buffer; a clamped scalar always has a public key. *)
Definition GenerateX25519Keypair (rand : nat -> bytes) : bytes * bytes :=
  let priv := clamp (rand (Z.to_nat X25519KeySize)) in (priv, X25519Base priv).

(** ** recovery.go *)
Inductive RecoveryStage : Type :=
| RecoveryStageInstallRescue
| RecoveryStagePushFleet
| RecoveryStageRestorePrimary
| RecoveryStageDone
| RecoveryStageFailed.

Record RecoveryStatus : Type := mkStatus {
  Stage : RecoveryStage; StatStartedAt : Z; StatCompletedAt : option Z; NewPrimaryFP : string;
  StatTargets : list RotationTarget; StatNotes : string
}.

Definition installLocalKeypair (priv pub : bytes) : M (res unit) :=
  do? _ <- runLocalAdmin (AdminSetSecurity (mkUpdate (Some pub) (Some priv) None None None))
             "local-set-security-recovery";
  ok tt.

Definition pushRecoveryAdminKeys (nodeNum : Z) (rescuePub newPub : bytes) : M (res unit) :=
  do? _ <- runRemoteAdmin nodeNum
             (AdminSetSecurity (mkUpdate None None (Some [rescuePub; newPub]) None None))
             "remote-recovery-set-admin-keys";
  ok tt.

(** The targets, as the closure [emit] stores them; the notice is left out. *)
Definition emit (id : Z) (current : list RotationTarget) (done_ : bool) : M unit :=
  do w <- getWorld;
  do _ <- call (fun fault _ => UpdateRotationTargets fault id current
                                 (if done_ then Some (now w) else None));
  ret tt.

Definition started (t : RotationTarget) : RotationTarget :=
  mkTarget (TgtNodeNum t) (Phase t) TargetStatusInFlight (Attempts t + 1) (LastError t).

Definition pushed (r : res unit) (t : RotationTarget) : RotationTarget :=
  match r with
  | inr e => mkTarget (TgtNodeNum t) (Phase t) TargetStatusFailed (Attempts t) (Error e)
  | inl _ => mkTarget (TgtNodeNum t) (Phase t) TargetStatusAcked (Attempts t) ""
  end.

(** The loop of stage 2: [before] is done, [rest] is not. *)
Fixpoint pushAll (id : Z) (rescuePub newPub : bytes) (before rest : list RotationTarget)
    : M (list RotationTarget) :=
  match rest with
  | [] => ret before
  | t :: rest' =>
      let t1 := started t in
      do _ <- emit id (before ++ t1 :: rest') false;
      do r <- pushRecoveryAdminKeys (TgtNodeNum t) rescuePub newPub;
      do _ <- emit id (before ++ pushed r t1 :: rest') false;
      pushAll id rescuePub newPub (before ++ [pushed r t1]) rest'
  end.

(** The registry after the new primary is installed; every step is best
    effort. *)
Definition updateRegistry (rescuePub newPub : bytes) (oldPrimaryFP label : string) : M unit :=
  do w <- getWorld;
  let label := if bool_decide (label = ""%string) then "cc-primary-recovered-" +:+ stamp (now w)
               else label in
  do i <- freshID;
  do _ <- call (fun fault now => InsertIdentity fault i now label newPub (Fingerprint newPub)
            IdentityRolePrimary IdentitySourceRotated "");
  do _ <- (if negb (bool_decide (oldPrimaryFP = ""%string)) &&
              negb (bool_decide (oldPrimaryFP = Fingerprint newPub))
           then call (fun fault now => FleetStore.RevokeIdentity fault now oldPrimaryFP
                        "recovery: replaced after compromise/loss")
           else ok tt);
  do r <- call (fun fault _ => GetIdentityByFingerprint fault (Fingerprint rescuePub));
  if match r with inr e => Is e ErrNotFound | inl _ => false end then
    do i <- freshID;
    do _ <- call (fun fault now => InsertIdentity fault i now "cc-rescue" rescuePub
              (Fingerprint rescuePub) IdentityRoleRescue IdentitySourceImported "");
    ret tt
  else ret tt.

Definition runRecovery (id : Z) (rescuePriv rescuePub newPriv newPub : bytes)
    (oldPrimaryFP newPrimaryLabel : string) (targets : list RotationTarget) : M unit :=
  do _ <- emit id targets false;
  do r <- installLocalKeypair rescuePriv rescuePub;
  match r with
  | inr _ =>
      do _ <- emit id targets true;
      auditFleet "recovery_failed" (itoa id)
  | inl _ =>
      do _ <- emit id targets false;
      do current <- pushAll id rescuePub newPub [] targets;
      do _ <- emit id current false;
      do r <- installLocalKeypair newPriv newPub;
      match r with
      | inr _ =>
          do _ <- emit id current true;
          auditFleet "recovery_partial" (itoa id)
      | inl _ =>
          do _ <- updateRegistry rescuePub newPub oldPrimaryFP newPrimaryLabel;
          do _ <- emit id current true;
          auditFleet "recovery_complete" (itoa id)
      end
  end.

Definition recoveryTarget (num : Z) : RotationTarget :=
  mkTarget num PhaseEmpty TargetStatusPending 0 "".

Definition recoveryTargets (rows : list NodeTrustRecord) : list RotationTarget :=
  map recoveryTarget
    (List.filter (fun num => negb (num =? 0) && negb (num =? LocalNodeNum)) (map NodeNum rows)).

(** What the goroutine is started with. *)
Record RecoveryRun : Type := mkRun {
  runID : Z; runNewPriv : bytes; runNewPub : bytes; runOldFP : string;
  runTargets : list RotationTarget
}.

Definition StartRecovery (userID : string) (rescuePriv rescuePub : bytes) (ack notes : string)
    : M (res RecoveryRun) :=
  if negb (bool_decide (ack = "RECOVER"%string)) then
    fail (EWrap ("recovery requires Ack=" +:+ quoted "RECOVER" +:+ ": ") ErrInvalidAck "")
  else match checkKeypair "rescue priv: " "rescue pub: " "derive: " "rescue priv/pub mismatch"
               rescuePriv rescuePub with
  | Some e => fail e
  | None =>
      do old <- GetIdentity;
      let oldPrimaryFP := match old with inl i => idFingerprint i | inr _ => ""%string end in
      do w <- getWorld;
      let '(newPriv, newPub) := GenerateX25519Keypair (random (ticks w)) in
      do? rows <- wrap "read fleet roster: " (call (fun fault _ => ListNodeTrust fault));
      let targets := recoveryTargets rows in
      do id <- freshID;
      do? id <- wrap "create recovery row: "
                  (call (fun fault now => InsertRotation fault id now RotationKindRecovery
                           (Some (-1)) userID targets (Fingerprint newPub) notes None));
      do _ <- auditFleet "recovery_start" (itoa id);
      ok (mkRun id newPriv newPub oldPrimaryFP targets)
  end.

Definition GetRecovery (id : Z) : M (res RecoveryStatus) :=
  do? rec <- call (fun fault _ => GetRotation fault id);
  if negb (bool_decide (Kind rec = RotationKindRecovery)) then
    fail (EMsg "not a recovery rotation")
  else
    let stage := match CompletedAt rec with
                 | Some _ => RecoveryStageDone
                 | None => RecoveryStageInstallRescue
                 end in
    ok (mkStatus stage (StartedAt rec) (CompletedAt rec) (NewPSKFP rec) (Targets rec)
          (RotNotes rec)).
End Recovery.

(** ** Lemmas: the packets *)
Definition installKeys (priv pub : bytes) : PayloadVariant :=
  SetConfig (mkSec pub priv [] false false).
Definition trustKeys (rescuePub newPub : bytes) : PayloadVariant :=
  SetConfig (mkSec [] [] [rescuePub; newPub] false false).

(** What a packet is, and for whom. *)
Definition frame (s : Sent) : Z * PayloadVariant := (sTo s, variant (sMsg s)).

(** In the order they are sent, the packets are some of [plan]. *)
Definition follows (plan : list (Z * PayloadVariant)) : relation World := fun w w' =>
  exists l, sentLog w' = rev l ++ sentLog w /\ map frame l `sublist_of` plan.

Lemma follows_nil plan w w' : sentLog w' = sentLog w -> follows plan w w'.
Proof. intros Hs. exists []. split; [done|]. apply sublist_nil_l. Qed.

Lemma follows_app p q w w' w'' : follows p w w' -> follows q w' w'' -> follows (p ++ q) w w''.
Proof.
  intros (l & Hl & Hp) (k & Hk & Hq). exists (l ++ k).
  split; [by rewrite Hk, Hl, rev_app_distr, app_assoc|]. rewrite map_app. by apply sublist_app.
Qed.

Lemma follows_cons p f w w' : follows p w w' -> follows (f :: p) w w'.
Proof. intros (l & Hl & Hp). exists l. split; [done|]. by apply sublist_cons. Qed.

Section Packets.
Context `{E : Env}.

Lemma send_follows s kind from w : follows [frame s] w (send s kind from w).2.
Proof.
  destruct (send_log s kind from w) as [(e & _ & Hs)|[Hs _]]; [by apply follows_nil|].
  exists [s]. by split.
Qed.

Lemma installLocalKeypair_follows priv pub w :
  follows [(LocalNodeNum, installKeys priv pub)] w (installLocalKeypair priv pub w).2.
Proof.
  unfold installLocalKeypair. rewrite try_eval. unfold runLocalAdmin.
  destruct (LocalNodeNum =? 0); [by apply follows_nil|].
  pose proof (send_follows (mkSent LocalNodeNum false (Some "local-set-security-recovery")
    (AdminSetSecurity (mkUpdate (Some pub) (Some priv) None None None)))
    "local-set-security-recovery" LocalNodeNum w) as Hf.
  by destruct (send _ _ _ w) as [[a|e] w1].
Qed.

Lemma pushKeys_follows num rescuePub newPub w :
  follows [(num, trustKeys rescuePub newPub)] w (pushRecoveryAdminKeys num rescuePub newPub w).2.
Proof.
  unfold pushRecoveryAdminKeys. rewrite try_eval.
  match goal with |- context [runRemoteAdmin num ?m ?k w] =>
    pose proof (runRemoteAdmin_log num m k w) as Hl; destruct (runRemoteAdmin num m k w) as [[a|e] w1] end;
    cbn [fst snd ok ret] in *; destruct Hl as [(e' & _ & Hs)|[(l & Hl & Hv & Hall) _]];
    (by apply follows_nil) || (exists l; split; [done|]);
    destruct l as [|s [|? ?]]; try done; cbn in *; injection Hv as Hv;
    apply Forall_inv in Hall as [Hto _]; unfold frame; by rewrite Hto, Hv.
Qed.

Lemma call_log {A} (f : option string -> Z -> Stmt A) w : sentLog (call f w).2 = sentLog w.
Proof. unfold call. by destruct (f _ _ _). Qed.

Lemma audit_log a b w : sentLog (auditFleet a b w).2 = sentLog w.
Proof. done. Qed.

Lemma emit_log id cur d w : sentLog (emit id cur d w).2 = sentLog w.
Proof.
  unfold emit. rewrite bind_eval. cbn [getWorld fst snd]. rewrite bind_eval. cbn [ret snd].
  apply call_log.
Qed.

Lemma pushAll_follows id rescuePub newPub before rest w :
  follows (map (fun t => (TgtNodeNum t, trustKeys rescuePub newPub)) rest) w
    (pushAll id rescuePub newPub before rest w).2.
Proof.
  revert before w. induction rest as [|t rest IH]; intros before w; [by apply follows_nil|].
  cbn [pushAll map]. rewrite bind_eval. set (w1 := (emit _ _ _ w).2). rewrite bind_eval.
  set (r := (pushRecoveryAdminKeys _ _ _ w1).1). set (w2 := (pushRecoveryAdminKeys _ _ _ w1).2).
  rewrite bind_eval. set (w3 := (emit _ _ _ w2).2).
  apply (follows_app [_] _ w w2).
  - destruct (pushKeys_follows (TgtNodeNum t) rescuePub newPub w1) as (l & Hl & Hp).
    exists l. split; [|done]. unfold w2. rewrite Hl. unfold w1. by rewrite emit_log.
  - destruct (IH (before ++ [pushed r (started t)]) w3) as (l & Hl & Hp). exists l.
    split; [|done]. rewrite Hl. unfold w3. by rewrite emit_log.
Qed.

Lemma updateRegistry_log rescuePub newPub fp label w :
  sentLog (updateRegistry rescuePub newPub fp label w).2 = sentLog w.
Proof.
  assert (keeps (emits (fun _ => False)) (updateRegistry rescuePub newPub fp label)) as Hk
    by (unfold updateRegistry; keeps).
  by apply (emits_none (fun _ => False) w _ ltac:(auto)), Hk.
Qed.
End Packets.

(** ** Properties *)

(** Who gets which keys.  Whatever fails, the packets of a recovery are,
    in this order and each at most once: the rescue keypair for the local
    radio; for every target, in order, the two public keys to trust; the new
    keypair for the local radio.  In particular private keys go to the local
    radio only. *)
Theorem recovery_packets `{E : Env} id rescuePriv rescuePub newPriv newPub oldFP label targets w :
  let w' := (runRecovery id rescuePriv rescuePub newPriv newPub oldFP label targets w).2 in
  follows ((LocalNodeNum, installKeys rescuePriv rescuePub) ::
           map (fun t => (TgtNodeNum t, trustKeys rescuePub newPub)) targets ++
           [(LocalNodeNum, installKeys newPriv newPub)]) w w' /\
  emits (fun s => sTo s <> LocalNodeNum -> variant (sMsg s) = trustKeys rescuePub newPub) w w'.
Proof.
  cbn zeta. match goal with |- follows ?p _ _ /\ _ => set (plan := p) end.
  assert (follows plan w
    (runRecovery id rescuePriv rescuePub newPriv newPub oldFP label targets w).2) as Hf.
  { unfold runRecovery. rewrite bind_eval, bind_eval.
    set (w1 := (emit id targets false w).2).
    assert (sentLog w1 = sentLog w) as Hw1 by apply emit_log.
    destruct (installLocalKeypair_follows rescuePriv rescuePub w1) as (l1 & Hl1 & Hp1).
    rewrite Hw1 in Hl1. destruct (installLocalKeypair _ _ w1) as [[[]|e] w2]; cbn [fst snd] in *.
    2:{ rewrite bind_eval. apply (follows_app [_] _ w w2); [by exists l1|].
        apply follows_nil. by rewrite audit_log, emit_log. }
    rewrite bind_eval, bind_eval. set (w3 := (emit _ _ _ w2).2).
    destruct (pushAll_follows id rescuePub newPub [] targets w3) as (l2 & Hl2 & Hp2).
    set (w4 := (pushAll _ _ _ _ _ w3).2) in *. set (cur := (pushAll _ _ _ _ _ w3).1).
    rewrite bind_eval, bind_eval. set (w5 := (emit _ _ _ w4).2).
    destruct (installLocalKeypair_follows newPriv newPub w5) as (l3 & Hl3 & Hp3).
    assert (follows plan w (installLocalKeypair newPriv newPub w5).2) as Hall.
    { apply (follows_app [_] _ w w2); [by exists l1|]. apply (follows_app _ [_] w2 w4).
      - exists l2. split; [|done]. rewrite Hl2. unfold w3. by rewrite emit_log.
      - exists l3. split; [|done]. rewrite Hl3. unfold w5. by rewrite emit_log. }
    destruct Hall as (l & Hl & Hp). exists l. split; [|done]. rewrite <- Hl.
    destruct (installLocalKeypair newPriv newPub w5) as [[[]|e] w6]; cbn [fst snd].
    - rewrite bind_eval, bind_eval. by rewrite audit_log, emit_log, updateRegistry_log.
    - rewrite bind_eval. by rewrite audit_log, emit_log. }
  split; [done|]. destruct Hf as (l & Hl & Hp). exists (rev l). split; [done|].
  apply Forall_rev, Forall_forall. intros s Hs Hto.
  assert (frame s ∈ plan) as Hin.
  { apply (sublist_subseteq _ _ Hp). apply list_elem_of_In, in_map. by apply list_elem_of_In. }
  unfold plan in Hin. rewrite elem_of_cons, elem_of_app, list_elem_of_singleton in Hin.
  destruct Hin as [Hin|[Hin|Hin]]; [by injection Hin| |by injection Hin].
  apply list_elem_of_In, in_map_iff in Hin as (t & Ht & _). by injection Ht.
Qed.

(** ** Lemmas: the row of a recovery *)

(** The tables are [t], but for the targets of the rotation. *)
Definition rowOf (id : Z) (r : RotationRecord) (t : Tables) (w : World) : Prop :=
  exists l, tables w = rowTables id (settled l (CompletedAt r) r) t.

(** A target that was tried once more. *)
Definition tried (t t' : RotationTarget) : Prop :=
  TgtNodeNum t' = TgtNodeNum t /\ Phase t' = Phase t /\ Attempts t' = Attempts t + 1 /\
  (Status t' = TargetStatusAcked /\ LastError t' = ""%string \/ Status t' = TargetStatusFailed).

Lemma pushed_tried r t : tried t (pushed r (started t)).
Proof. destruct r as [[]|e]; split_and!; try done; [by left|by right]. Qed.

Section Row.
Context `{E : Env} (Hdb : reliableDB).

Lemma rowOf_start id r w : rotations (tables w) !! id = Some r -> rowOf id r (tables w) w.
Proof. intros Hr. exists (Targets r). symmetry. apply rowTables_same. rewrite Hr. by destruct r. Qed.

Lemma rowOf_radio id r t w w' : radioOnly w w' -> rowOf id r t w -> rowOf id r t w'.
Proof. intros (Ht & _) [l Hl]. exists l. congruence. Qed.

Lemma emit_eval id r t cur (d : bool) w : rowOf id r t w ->
  tables (emit id cur d w).2 =
  rowTables id (settled cur (if d then Some (now w) else CompletedAt r) r) t.
Proof.
  intros [l Hl]. unfold emit. rewrite bind_eval. cbn [getWorld fst snd].
  rewrite bind_eval, call_eval by done. cbn [ret fst snd tables tick set_tables].
  unfold UpdateRotationTargets. cbn [stmt]. rewrite Hl.
  rewrite (updateRotation_row _ _ (settled l (CompletedAt r) r)) by (cbn; by rewrite lookup_insert_eq).
  cbn [snd]. rewrite rowTables_twice. by destruct d.
Qed.

Lemma emit_rowOf id r t cur w : rowOf id r t w -> rowOf id r t (emit id cur false w).2.
Proof. intros Hr. exists cur. by apply (emit_eval id r t cur false w). Qed.

Lemma installLocalKeypair_radioOnly priv pub : keeps radioOnly (installLocalKeypair priv pub).
Proof. unfold installLocalKeypair. keeps. Qed.

Lemma pushKeys_radioOnly num a b : keeps radioOnly (pushRecoveryAdminKeys num a b).
Proof. unfold pushRecoveryAdminKeys. keeps. Qed.

Lemma pushAll_eval id r t rescuePub newPub before rest w : rowOf id r t w ->
  rowOf id r t (pushAll id rescuePub newPub before rest w).2 /\
  exists cur, (pushAll id rescuePub newPub before rest w).1 = before ++ cur /\ Forall2 tried rest cur.
Proof.
  revert before w. induction rest as [|x rest IH]; intros before w Hr.
  { split; [done|]. exists []. by rewrite app_nil_r. }
  cbn [pushAll]. rewrite bind_eval, bind_eval.
  set (w1 := (emit _ _ _ w).2). pose proof (emit_rowOf id r t (before ++ started x :: rest) w Hr) as Hr1.
  fold w1 in Hr1. pose proof (pushKeys_radioOnly (TgtNodeNum x) rescuePub newPub w1) as Hk.
  destruct (pushRecoveryAdminKeys _ _ _ w1) as [a w2]. cbn [fst snd] in *. rewrite bind_eval.
  apply (rowOf_radio id r t w1 w2 Hk) in Hr1. set (w3 := (emit _ _ _ w2).2).
  destruct (IH (before ++ [pushed a (started x)]) w3) as (Hr' & cur & Hc & Hall).
  { by apply emit_rowOf. }
  split; [done|]. exists (pushed a (started x) :: cur). rewrite Hc, <- app_assoc. split; [done|].
  constructor; [apply pushed_tried|done].
Qed.
End Row.

(** ** Lemmas: the registry *)
Definition newRow `{Env} (i at_ : Z) (label : string) (pub : bytes) : IdentityRecord :=
  mkIdentity i label pub (Fingerprint pub) IdentityRolePrimary IdentitySourceRotated at_ None None None.
Definition rescueRow `{Env} (i at_ : Z) (pub : bytes) : IdentityRecord :=
  mkIdentity i "cc-rescue" pub (Fingerprint pub) IdentityRoleRescue IdentitySourceImported at_ None None
    None.

Definition addRow (r : IdentityRecord) (l : list IdentityRecord) : list IdentityRecord :=
  if existsb (clashes r) l then l else l ++ [r].

Definition revokeFP (at_ : Z) (fp : string) (l : list IdentityRecord) : list IdentityRecord :=
  map (fun r => if bool_decide (iFingerprint r = fp)
                then revoke at_ "recovery: replaced after compromise/loss" r else r) l.

Definition knownFP (fp : string) (l : list IdentityRecord) : bool :=
  existsb (fun r => bool_decide (iFingerprint r = fp)) l.

Lemma find_known fp l :
  match List.find (fun r => bool_decide (iFingerprint r = fp)) l with
  | Some _ => knownFP fp l = true
  | None => knownFP fp l = false
  end.
Proof. unfold knownFP. induction l as [|r l IH]; cbn; [done|]. by destruct (bool_decide _). Qed.

Lemma revokeFP_unknown at_ fp l : knownFP fp l = false -> revokeFP at_ fp l = l.
Proof.
  unfold knownFP, revokeFP. induction l as [|r l IH]; cbn; [done|].
  destruct (bool_decide _); cbn; [done|]. intros Hk. by rewrite IH.
Qed.

Lemma InsertIdentity_tables now id label pub fp role src t :
  (InsertIdentity None id now label pub fp role src "" t).2 =
  set_identities (addRow (mkIdentity id label pub fp role src now None None None) (identities t)) t.
Proof.
  unfold InsertIdentity, addRow. cbn [stmt]. change (nonempty "") with (@None string).
  destruct (existsb _ _); cbn; [by destruct t|done].
Qed.

Lemma RevokeIdentity_tables now fp t :
  (FleetStore.RevokeIdentity None now fp "recovery: replaced after compromise/loss" t).2 =
  set_identities (revokeFP now fp (identities t)) t.
Proof.
  unfold FleetStore.RevokeIdentity. cbn [stmt]. fold (knownFP fp (identities t)).
  destruct (knownFP fp (identities t)) eqn:Ek; cbn [snd]; [done|].
  rewrite revokeFP_unknown by done. by destruct t.
Qed.

(** The registry after a recovery, step by step. *)
Definition registry `{Env} (i a : Z) (l : string) (newPub : bytes) (a' : Z) (oldFP : string)
    (j a'' : Z) (rescuePub : bytes) (ids : list IdentityRecord) : list IdentityRecord :=
  let ids1 := addRow (newRow i a l newPub) ids in
  let ids2 := if bool_decide (oldFP = ""%string) || bool_decide (oldFP = Fingerprint newPub)
              then ids1 else revokeFP a' oldFP ids1 in
  if knownFP (Fingerprint rescuePub) ids2 then ids2 else addRow (rescueRow j a'' rescuePub) ids2.

Lemma updateRegistry_eval `{E : Env} rescuePub newPub oldFP label w (Hdb : reliableDB) :
  exists w' i a l a' j a'', updateRegistry rescuePub newPub oldFP label w = (tt, w') /\
    (label <> ""%string -> l = label) /\ queue w' = queue w /\
    tables w' = set_identities (registry i a l newPub a' oldFP j a'' rescuePub (identities (tables w)))
                  (tables w).
Proof.
  unfold updateRegistry. rewrite bind_eval. cbn [getWorld fst snd].
  set (l := if bool_decide (label = ""%string) then _ else label).
  assert (label <> ""%string -> l = label) as Hl by (intros Hl; unfold l; by rewrite bool_decide_false).
  rewrite bind_eval. cbn [freshID fst snd]. rewrite bind_eval, call_eval by done. cbn [fst snd].
  rewrite InsertIdentity_tables. cbn [tables set_nextID set_tables].
  set (ids1 := addRow _ _). rewrite bind_eval.
  match goal with |- context [(if _ && _ then _ else _) ?x] => set (w1 := x) end.
  assert (exists w2 a', (if negb (bool_decide (oldFP = ""%string)) &&
                            negb (bool_decide (oldFP = Fingerprint newPub))
    then call (fun fault now => FleetStore.RevokeIdentity fault now oldFP
                 "recovery: replaced after compromise/loss") else ok tt) w1 = w2 /\ queue w2.2 = queue w /\
    tables w2.2 = set_identities (if bool_decide (oldFP = ""%string) || bool_decide (oldFP = Fingerprint newPub)
      then ids1 else revokeFP a' oldFP ids1) (tables w)) as (w2 & a' & -> & Hq2 & Ht2).
  { repeat case_bool_decide; cbn [negb andb orb].
    1-3: eexists _, 0; split; [done|]; split; [done|]; by destruct w as [[]].
    rewrite call_eval by done. eexists _, (now w1). split; [done|]. split; [done|].
    cbn [fst snd tables tick set_tables]. by rewrite RevokeIdentity_tables. }
  set (ids2 := if _ || _ then ids1 else _) in *. rewrite bind_eval, call_read by done.
  unfold GetIdentityByFingerprint. cbn [stmt fst snd]. rewrite Ht2. cbn [identities set_identities].
  pose proof (find_known (Fingerprint rescuePub) ids2) as Hk.
  assert (forall j a'', tables w2.2 = set_identities ids2 (tables w) ->
    set_identities (if knownFP (Fingerprint rescuePub) ids2 then ids2
                    else addRow (rescueRow j a'' rescuePub) ids2) (tables w) =
    set_identities (registry (nextID w) (now (set_nextID (nextID w + 1) w)) l newPub a' oldFP j a''
                      rescuePub (identities (tables w))) (tables w)) as Hreg by done.
  destruct (List.find _ ids2) as [r|]; cbn [fst snd].
  - exists (tick 0 w2.2), (nextID w), (now (set_nextID (nextID w + 1) w)), l, a', 0, 0.
    split; [done|]. split; [done|]. split; [done|]. rewrite <- Hreg, Hk by done. exact Ht2.
  - change (Is ErrNotFound ErrNotFound) with true. cbn iota. rewrite bind_eval. cbn [freshID fst snd].
    rewrite bind_eval, call_eval by done. cbn [fst snd ret].
    eexists _, (nextID w), (now (set_nextID (nextID w + 1) w)), l, a', _, _. split; [done|].
    split; [done|]. split; [done|]. rewrite <- Hreg, Hk by done.
    cbn [tables tick set_tables]. rewrite InsertIdentity_tables.
    cbn [tables tick set_nextID]. rewrite Ht2. reflexivity.
Qed.

(** label, public_key and fingerprint are UNIQUE. *)
Definition uniqueRows (l : list IdentityRecord) : Prop :=
  NoDup (map iLabel l) /\ NoDup (map iPublicKey l) /\ NoDup (map iFingerprint l).

Lemma clashes_false r l : existsb (clashes r) l = false ->
  forall s, s ∈ l -> iLabel s <> iLabel r /\ iPublicKey s <> iPublicKey r /\ iFingerprint s <> iFingerprint r.
Proof.
  intros Hc s Hs. assert (clashes r s = false) as Hf.
  { apply not_true_iff_false. intros Ht. apply not_true_iff_false in Hc. apply Hc.
    apply existsb_exists. exists s. split; [by apply list_elem_of_In|done]. }
  unfold clashes in Hf. rewrite !orb_false_iff, !bool_decide_eq_false in Hf. tauto.
Qed.

Lemma NoDup_map_snoc {A B} (f : A -> B) (l : list A) x :
  (forall y, y ∈ l -> f y <> f x) -> NoDup (map f l) -> NoDup (map f (l ++ [x])).
Proof.
  intros Hx Hl. rewrite map_app. cbn. apply NoDup_app. split; [done|]. split.
  - intros y Hy ->%list_elem_of_singleton. apply list_elem_of_In, in_map_iff in Hy as (z & Hz & Hin).
    by apply (Hx z); [apply list_elem_of_In|].
  - apply NoDup_singleton.
Qed.

Lemma addRow_unique r l : uniqueRows l -> uniqueRows (addRow r l).
Proof.
  intros (H1 & H2 & H3). unfold addRow. destruct (existsb _ l) eqn:Ec; [by split_and!|].
  pose proof (clashes_false r l Ec) as Hc.
  split_and!; (apply NoDup_map_snoc; [|done]); intros y Hy; by apply Hc.
Qed.

Lemma addRow_incl r l s : s ∈ l -> s ∈ addRow r l.
Proof. intros Hs. unfold addRow. destruct (existsb _ l); [done|]. apply elem_of_app. by left. Qed.

Lemma addRow_inv r l s : s ∈ addRow r l -> s ∈ l \/ s = r.
Proof.
  unfold addRow. destruct (existsb _ l); [by left|]. rewrite elem_of_app, list_elem_of_singleton. done.
Qed.

Lemma addRow_present r l : (r ∈ addRow r l) \/ exists s, (s ∈ l) /\ clashes r s = true.
Proof.
  unfold addRow. destruct (existsb _ l) eqn:Ec.
  - right. apply existsb_exists in Ec as (s & Hs & Hc). exists s. split; [by apply list_elem_of_In|done].
  - left. apply elem_of_app. right. by apply list_elem_of_singleton.
Qed.

Lemma knownFP_true fp l : knownFP fp l = true <-> exists r, (r ∈ l) /\ iFingerprint r = fp.
Proof.
  unfold knownFP. rewrite existsb_exists. setoid_rewrite bool_decide_eq_true.
  by setoid_rewrite list_elem_of_In.
Qed.

Lemma elem_of_revokeFP at_ fp l r : r ∈ revokeFP at_ fp l <->
  exists s, (s ∈ l) /\ r = if bool_decide (iFingerprint s = fp)
                       then revoke at_ "recovery: replaced after compromise/loss" s else s.
Proof.
  unfold revokeFP. rewrite list_elem_of_In, in_map_iff. setoid_rewrite list_elem_of_In.
  split; intros (s & ? & ?); exists s; done.
Qed.

Lemma revokeFP_unique at_ fp l : uniqueRows l -> uniqueRows (revokeFP at_ fp l).
Proof.
  unfold uniqueRows, revokeFP. rewrite !map_map.
  assert (forall {B} (f : IdentityRecord -> B),
    (forall r, f (revoke at_ "recovery: replaced after compromise/loss" r) = f r) ->
    map (fun x => f (if bool_decide (iFingerprint x = fp)
      then revoke at_ "recovery: replaced after compromise/loss" x else x)) l = map f l) as Hm.
  { intros B f Hf. apply map_ext. intros a. case_bool_decide; [apply Hf|done]. }
  by rewrite !Hm.
Qed.

Lemma revokeFP_known at_ fp fp' l : knownFP fp' (revokeFP at_ fp l) = knownFP fp' l.
Proof.
  unfold knownFP, revokeFP. induction l as [|r l IH]; cbn; [done|]. rewrite IH. f_equal.
  by destruct (bool_decide (iFingerprint r = fp)).
Qed.

Section Registry.
Context `{E : Env}.
Context (i a : Z) (l : string) (newPub : bytes) (a' : Z) (oldFP : string) (j a'' : Z)
  (rescuePub : bytes) (ids : list IdentityRecord).
Let ids' := registry i a l newPub a' oldFP j a'' rescuePub ids.

Lemma registry_unique : uniqueRows ids -> uniqueRows ids'.
Proof.
  intros Hu. unfold ids', registry. repeat case_match; auto using addRow_unique, revokeFP_unique.
Qed.

Lemma registry_keeps r : r ∈ ids -> iFingerprint r <> oldFP -> r ∈ ids'.
Proof.
  intros Hr Hfp. unfold ids', registry. set (ids1 := addRow _ ids).
  assert (r ∈ ids1) as H1 by (by apply addRow_incl).
  set (ids2 := if _ || _ then ids1 else _). assert (r ∈ ids2) as H2.
  { unfold ids2. destruct (_ || _); [done|]. apply elem_of_revokeFP. exists r.
    by rewrite bool_decide_false. }
  destruct (knownFP _ ids2); [done|]. by apply addRow_incl.
Qed.

Lemma registry_revokes r : oldFP <> ""%string -> oldFP <> Fingerprint newPub -> knownFP oldFP ids = true ->
  r ∈ ids' -> iFingerprint r = oldFP -> iRole r = IdentityRoleRevoked.
Proof.
  intros H1 H2 Hk. unfold ids', registry. rewrite !bool_decide_false by done. cbn [orb].
  set (ids1 := addRow _ ids). set (ids2 := revokeFP a' oldFP ids1).
  assert (r ∈ ids2 -> iFingerprint r = oldFP -> iRole r = IdentityRoleRevoked) as Hrev.
  { intros (s & _ & ->)%elem_of_revokeFP. by case_bool_decide. }
  assert (knownFP oldFP ids2 = true) as Hk2.
  { unfold ids2. rewrite revokeFP_known. apply knownFP_true in Hk as (s & Hs & Hfp).
    apply knownFP_true. exists s. split; [by apply addRow_incl|done]. }
  destruct (knownFP (Fingerprint rescuePub) ids2) eqn:Er; [done|].
  intros [Hin|Hin]%addRow_inv Hfp; [by apply Hrev|]. subst r. cbn in Hfp. congruence.
Qed.

Lemma registry_new : (exists r, (r ∈ ids') /\ iFingerprint r = Fingerprint newPub) \/
  exists r, (r ∈ ids) /\ (iLabel r = l \/ iPublicKey r = newPub).
Proof.
  destruct (addRow_present (newRow i a l newPub) ids) as [Hin|(s & Hs & Hc)].
  - left. unfold ids', registry. set (ids1 := addRow _ ids) in *. set (ids2 := if _ || _ then _ else _).
    assert (knownFP (Fingerprint newPub) ids1 = true) as Hk1.
    { apply knownFP_true. by eexists. }
    assert (knownFP (Fingerprint newPub) ids2 = true) as Hk.
    { unfold ids2. destruct (_ || _); [done|by rewrite revokeFP_known]. }
    apply knownFP_true in Hk as (s & Hs & Hfp). exists s. split; [|done].
    destruct (knownFP _ ids2); [done|by apply addRow_incl].
  - unfold clashes in Hc. rewrite !orb_true_iff, !bool_decide_eq_true in Hc. cbn in Hc.
    destruct Hc as [[Hc|Hc]|Hc]; [right; exists s; auto..|].
    destruct (decide (oldFP = iFingerprint s)) as [Heq|Hne].
    + left. exists s. split; [|done]. unfold ids', registry.
      rewrite (bool_decide_true (oldFP = Fingerprint newPub)) by congruence. rewrite orb_true_r.
      destruct (knownFP _ _); [|apply addRow_incl]; by apply addRow_incl.
    + left. exists s. split; [|done]. apply registry_keeps; [done|congruence].
Qed.

Lemma registry_rescue : (exists r, (r ∈ ids') /\ iFingerprint r = Fingerprint rescuePub) \/
  exists r, (r ∈ newRow i a l newPub :: ids) /\ (iLabel r = "cc-rescue"%string \/ iPublicKey r = rescuePub).
Proof.
  unfold ids', registry. set (ids1 := addRow _ ids). set (ids2 := if _ || _ then _ else _).
  destruct (knownFP _ ids2) eqn:Ek; [by left; apply knownFP_true|].
  destruct (addRow_present (rescueRow j a'' rescuePub) ids2) as [Hin|(s & Hs & Hc)].
  { left. eexists. by split. }
  unfold clashes in Hc. rewrite !orb_true_iff, !bool_decide_eq_true in Hc. cbn in Hc.
  assert (exists s', (s' ∈ newRow i a l newPub :: ids) /\ iLabel s' = iLabel s /\
    iPublicKey s' = iPublicKey s /\ iFingerprint s' = iFingerprint s) as (s' & Hs' & Hl & Hp & Hfp).
  { unfold ids2 in Hs. destruct (_ || _).
    - exists s. split; [|done]. rewrite elem_of_cons. apply addRow_inv in Hs. tauto.
    - apply elem_of_revokeFP in Hs as (s' & Hs' & ->). exists s'. split.
      + rewrite elem_of_cons. apply addRow_inv in Hs'. tauto.
      + by case_bool_decide. }
  destruct Hc as [[Hc|Hc]|Hc]; [right; exists s'; split; [done|]; rewrite Hl, Hp; auto..|].
  exfalso. assert (knownFP (Fingerprint rescuePub) ids2 = true) by (apply knownFP_true; by exists s).
  congruence.
Qed.
End Registry.

(** What a recovery makes of the tables, case by case. *)
Definition recovered `{E : Env} (id : Z) (rescuePriv rescuePub newPriv newPub : bytes)
    (oldFP label : string) (targets : list RotationTarget) (rec : RotationRecord) (w w' : World) : Prop :=
  exists w1 r1 w2 completed,
    sentLog w1 = sentLog w /\ installLocalKeypair rescuePriv rescuePub w1 = (r1, w2) /\
    match r1 with
    | inr _ => tables w' = rowTables id (settled targets (Some completed) rec) (tables w)
    | inl _ => exists current w3 r2 w4, Forall2 tried targets current /\
        installLocalKeypair newPriv newPub w3 = (r2, w4) /\
        match r2 with
        | inr _ => tables w' = rowTables id (settled current (Some completed) rec) (tables w)
        | inl _ => exists i a l a' j a'', (label <> ""%string -> l = label) /\
            tables w' = rowTables id (settled current (Some completed) rec)
              (set_identities (registry i a l newPub a' oldFP j a'' rescuePub (identities (tables w)))
                 (tables w))
        end
    end.

Lemma runRecovery_eval `{E : Env} id rescuePriv rescuePub newPriv newPub oldFP label targets rec w
    (Hdb : reliableDB) (Hr : rotations (tables w) !! id = Some rec) :
  recovered id rescuePriv rescuePub newPriv newPub oldFP label targets rec w
    (runRecovery id rescuePriv rescuePub newPriv newPub oldFP label targets w).2.
Proof.
  unfold recovered. unfold runRecovery. rewrite bind_eval, bind_eval.
  pose proof (emit_rowOf Hdb id rec _ targets w (rowOf_start id rec w Hr)) as H1.
  pose proof (emit_log id targets false w) as Hl1. set (w1 := (emit id targets false w).2) in *.
  pose proof (installLocalKeypair_radioOnly rescuePriv rescuePub w1) as Hk1.
  destruct (installLocalKeypair rescuePriv rescuePub w1) as [r1 w2] eqn:E1. cbn [fst snd] in *.
  apply (rowOf_radio _ _ _ _ _ Hk1) in H1.
  destruct r1 as [[]|e].
  2:{ exists w1, (inr e), w2, (now w2). split; [done|]. split; [done|]. rewrite bind_eval.
      apply (emit_eval Hdb id rec (tables w) targets true w2 H1). }
  rewrite bind_eval, bind_eval. apply (emit_rowOf Hdb id rec _ targets) in H1.
  set (w3 := (emit id targets false w2).2) in *.
  destruct (pushAll_eval Hdb id rec _ rescuePub newPub [] targets w3 H1) as (H2 & cur & Hcur & Hall).
  rewrite Hcur. cbn [app]. set (w4 := (pushAll _ _ _ _ _ w3).2) in *.
  rewrite bind_eval, bind_eval. apply (emit_rowOf Hdb id rec _ cur) in H2.
  set (w5 := (emit id cur false w4).2) in *.
  pose proof (installLocalKeypair_radioOnly newPriv newPub w5) as Hk2.
  destruct (installLocalKeypair newPriv newPub w5) as [r2 w6] eqn:E2. cbn [fst snd] in *.
  apply (rowOf_radio _ _ _ _ _ Hk2) in H2. destruct r2 as [[]|e].
  - rewrite bind_eval.
    destruct (updateRegistry_eval rescuePub newPub oldFP label w6 Hdb)
      as (w7 & i & a & l & a' & j & a'' & -> & Hlab & _ & Ht7).
    cbn [fst snd]. rewrite bind_eval.
    assert (rowOf id rec (set_identities (registry i a l newPub a' oldFP j a'' rescuePub
      (identities (tables w))) (tables w)) w7) as H3.
    { destruct H2 as [l0 H2]. exists l0. rewrite Ht7, H2. reflexivity. }
    exists w1, (inl tt), w2, (now w7). split; [done|]. split; [done|].
    exists cur, w5, (inl tt), w6. split; [done|]. split; [done|].
    exists i, a, l, a', j, a''. split; [done|].
    apply (emit_eval Hdb id rec _ cur true w7 H3).
  - exists w1, (inl tt), w2, (now w6). split; [done|]. split; [done|].
    exists cur, w5, (inr e), w6. split; [done|]. split; [done|]. rewrite bind_eval.
    apply (emit_eval Hdb id rec (tables w) cur true w6 H2).
Qed.

(** The registry after a recovery.  With a database that answers, distinct
    labels, keys and fingerprints stay distinct; rows of other fingerprints
    than the replaced primary's are kept; the replaced primary is revoked, also
    when it is the rescue identity itself, as after a recovery that left the
    local radio on the rescue key; the new primary and the rescue identity are
    registered unless a row with the label or key of each is in the way. *)
Theorem registry_after_recovery `{E : Env} rescuePub newPub oldFP label w (Hdb : reliableDB) :
  let ids := identities (tables w) in
  let ids' := identities (tables (updateRegistry rescuePub newPub oldFP label w).2) in
  (uniqueRows ids -> uniqueRows ids') /\
  (forall r, r ∈ ids -> iFingerprint r <> oldFP -> r ∈ ids') /\
  (forall r, oldFP <> ""%string -> oldFP <> Fingerprint newPub -> knownFP oldFP ids = true ->
     r ∈ ids' -> iFingerprint r = oldFP -> iRole r = IdentityRoleRevoked) /\
  ((exists r, (r ∈ ids') /\ iFingerprint r = Fingerprint newPub) \/
   exists r l, (r ∈ ids) /\ (label <> ""%string -> l = label) /\ (iLabel r = l \/ iPublicKey r = newPub)) /\
  ((exists r, (r ∈ ids') /\ iFingerprint r = Fingerprint rescuePub) \/ label = "cc-rescue"%string \/
   newPub = rescuePub \/ label = ""%string \/
   exists r, (r ∈ ids) /\ (iLabel r = "cc-rescue"%string \/ iPublicKey r = rescuePub)).
Proof.
  cbn zeta. destruct (updateRegistry_eval rescuePub newPub oldFP label w Hdb)
    as (w7 & i & a & l & a' & j & a'' & -> & Hlab & _ & Ht7).
  cbn [snd]. rewrite Ht7. cbn [identities set_identities]. split_and!.
  - apply registry_unique.
  - intros r. apply registry_keeps.
  - intros r. apply registry_revokes.
  - destruct (registry_new i a l newPub a' oldFP j a'' rescuePub (identities (tables w)))
      as [?|(r & Hr & Hc)]; [by left|]. right. by exists r, l.
  - destruct (registry_rescue i a l newPub a' oldFP j a'' rescuePub (identities (tables w)))
      as [?|(r & [->|Hr]%elem_of_cons & Hc)]; [by left| |].
    + cbn in Hc. right. destruct (decide (label = ""%string)) as [|Hne]; [auto|].
      rewrite (Hlab Hne) in Hc. tauto.
    + right. right. right. right. by exists r.
Qed.

(** How a recovery ends.  With a database that answers, a recovery whose row
    exists changes the tables exactly as follows.  If the rescue keypair cannot
    be installed locally the row is completed with its targets untouched.
    Otherwise every target was tried once, whatever became of the others, and
    is acked or failed, the new keypair was tried locally, and the row is
    completed; the registry is updated exactly if that worked.  On every branch,
    failures included, [GetRecovery] then reports the stage done. *)
Theorem run_recovery_outcomes `{E : Env} id rescuePriv rescuePub newPriv newPub oldFP label targets rec w
    (Hdb : reliableDB) (Hr : rotations (tables w) !! id = Some rec)
    (Hk : Kind rec = RotationKindRecovery) :
  let w' := (runRecovery id rescuePriv rescuePub newPriv newPub oldFP label targets w).2 in
  recovered id rescuePriv rescuePub newPriv newPub oldFP label targets rec w w' /\
  exists st, (GetRecovery id w').1 = inl st /\ Stage st = RecoveryStageDone.
Proof.
  cbn zeta.
  pose proof (runRecovery_eval id rescuePriv rescuePub newPriv newPub oldFP label targets rec w Hdb Hr)
    as Hrec. set (w' := (runRecovery _ _ _ _ _ _ _ _ w).2) in *. split; [done|].
  assert (exists l c t, tables w' = rowTables id (settled l (Some c) rec) t) as (l & c & t & Ht).
  { destruct Hrec as (w1 & r1 & w2 & c & _ & _ & Hrec). destruct r1 as [[]|e].
    - destruct Hrec as (cur & w3 & r2 & w4 & _ & _ & Hrec). destruct r2 as [[]|e].
      + destruct Hrec as (i & a & l & a' & j & a'' & _ & Ht). by eexists _, _, _.
      + by eexists _, _, _.
    - by eexists _, _, _. }
  unfold GetRecovery. rewrite try_eval, call_eval by done. unfold GetRotation. cbn [stmt].
  rewrite Ht. cbn [rotations rowTables set_rotations]. rewrite lookup_insert_eq. cbn [fst].
  cbn [Kind settled set_targets]. rewrite bool_decide_true by done. cbn [negb].
  eexists. split; [done|]. done.
Qed.

(** ** The start *)

(** Of the tables, nothing but the registry. *)
Definition registryOnly : relation World := fun w w' =>
  rotations (tables w') = rotations (tables w) /\ nodes (tables w') = nodes (tables w) /\
  trust (tables w') = trust (tables w) /\ queue w' = queue w.
#[export] Instance registryOnly_preorder : PreOrder registryOnly.
Proof.
  split; [by intros w|]. intros x y z (? & ? & ? & ?) (? & ? & ? & ?). split_and!; congruence.
Qed.

Section Start.
Context `{E : Env}.

Lemma runLocalAdmin_registryOnly msg kind : keeps registryOnly (runLocalAdmin msg kind).
Proof.
  intros w. destruct (runLocalAdmin_radioOnly msg kind w) as (Ht & Hq & _). unfold registryOnly.
  by rewrite Ht, Hq.
Qed.

Lemma call_registryOnly {A} (f : option string -> Z -> Stmt A) :
  (forall fl n t, rotations (f fl n t).2 = rotations t /\ nodes (f fl n t).2 = nodes t /\
                  trust (f fl n t).2 = trust t) -> keeps registryOnly (call f).
Proof.
  intros Hf w. unfold call. specialize (Hf (dbFault (ticks w)) (now w) (tables w)).
  destruct (f _ _ _) as [r t]. destruct Hf as (? & ? & ?). by split_and!.
Qed.

Lemma GetIdentity_registryOnly : keeps registryOnly GetIdentity.
Proof.
  unfold GetIdentity. keeps.
  - apply runLocalAdmin_registryOnly.
  - apply call_registryOnly. by intros [m|] n t.
  - by intros w.
  - apply call_registryOnly. intros [m|] n t; cbn; [done|]. by destruct (existsb _ _).
  - by intros w.
Qed.

Lemma GetIdentity_emits P :
  (forall s, carries LocalNodeNum (GetConfigRequest SECURITY_CONFIG) s -> P s) ->
  keeps (emits P) GetIdentity.
Proof. intros HP. unfold GetIdentity. keeps. Qed.
End Start.

Lemma checkKeypair_ok `{E : Env} a b c d priv pub : checkKeypair a b c d priv pub = None ->
  zlen priv = 32 /\ pub = X25519Base priv.
Proof.
  unfold checkKeypair. destruct (ValidateX25519PrivateKey priv) eqn:Ev; [done|].
  destruct (ValidateX25519PublicKey pub); [done|]. unfold DerivePubkey. rewrite Ev.
  unfold bytesEqual. case_bool_decide; [|done]. intros _. split; [|done].
  unfold ValidateX25519PrivateKey, X25519KeySize in Ev. destruct (Z.eqb_spec (zlen priv) 32); [done|].
  done.
Qed.

(** Starting a recovery.  With a database that answers, the start only
    ever reads the local security config, and leaves queue, trust roster and, if it fails,
    rotations alone.  It succeeds only if the operator typed RECOVER and the
    rescue keys are a pair; then one more rotation row holds the fingerprint of
    a public key that belongs to the minted private key, no PSK, and as targets
    every node of the roster but 0 and the local one. *)
Theorem start_recovery_outcomes `{E : Env} userID rescuePriv rescuePub ack notes w (Hdb : reliableDB) :
  let '(r, w') := StartRecovery userID rescuePriv rescuePub ack notes w in
  emits (carries LocalNodeNum (GetConfigRequest SECURITY_CONFIG)) w w' /\
  queue w' = queue w /\ trust (tables w') = trust (tables w) /\
  match r with
  | inr _ => rotations (tables w') = rotations (tables w)
  | inl run =>
      ack = "RECOVER"%string /\ zlen rescuePriv = 32 /\ rescuePub = X25519Base rescuePriv /\
      runNewPub run = X25519Base (runNewPriv run) /\
      (exists at_, rotations (tables w') = <[runID run :=
         mkRotation RotationKindRecovery (Some (-1)) None PiPhasePending userID at_ None None
           (runTargets run) (Fingerprint (runNewPub run)) notes None]> (rotations (tables w))) /\
      forall num, (num ∈ map TgtNodeNum (runTargets run)) <->
        num <> 0 /\ num <> LocalNodeNum /\ is_Some (nodes (tables w) !! num)
  end.
Proof.
  unfold StartRecovery. case_bool_decide as Hack; cbn [negb].
  2:{ split; [by apply emits_same|done]. }
  destruct (checkKeypair _ _ _ _ _ _) eqn:Ek; [split; [by apply emits_same|done]|].
  apply checkKeypair_ok in Ek as [Hlen Hpub]. rewrite bind_eval.
  destruct (GetIdentity_registryOnly w) as (H1 & H2 & H3 & H4).
  pose proof (GetIdentity_emits _ (fun s Hs => Hs) w) as He.
  destruct (GetIdentity w) as [old w1]. cbn [fst snd] in *.
  rewrite bind_eval. cbn [getWorld fst snd]. destruct (GenerateX25519Keypair _) as [priv pub] eqn:Eg.
  injection Eg as Hpriv Hpub'.
  rewrite try_eval, wrap_eval, call_read by done. unfold ListNodeTrust. cbn [stmt fst].
  set (rows := merge_sort _ _). rewrite bind_eval. cbn [freshID fst snd].
  rewrite try_eval, wrap_eval, call_eval by done. cbn [InsertRotation stmt fst snd].
  rewrite bind_eval. cbn [auditFleet modify fst snd ok ret].
  split. { destruct He as (l & Hl & HP). by exists l. }
  split; [done|]. split; [done|]. cbn [runID runNewPriv runNewPub runTargets].
  split; [done|]. split; [done|]. split; [done|]. split; [by rewrite <- Hpub', Hpriv|]. split.
  { eexists. cbn. by rewrite H1. }
  intros num. unfold recoveryTargets. rewrite map_map. cbn [recoveryTarget TgtNodeNum]. rewrite map_id.
  rewrite list_elem_of_In, filter_In, <- list_elem_of_In, andb_true_iff, !negb_true_iff, !Z.eqb_neq.
  assert (num ∈ map NodeNum rows <-> is_Some (nodes (tables w) !! num)) as Hrows.
  { unfold rows. rewrite (merge_sort_Permutation heardOrder), <- H2.
    rewrite list_elem_of_In, in_map_iff. split.
    - intros (n & Hn & Hin). apply list_elem_of_In, list_elem_of_fmap in Hin as ([k x] & -> & Hkx).
      apply elem_of_map_to_list in Hkx. cbn in Hn. subst k. by eexists.
    - intros [x Hx]. exists (joined num x (trust (tables w1) !! num)). split; [done|].
      apply list_elem_of_In, list_elem_of_fmap. exists (num, x). split; [done|].
      by apply elem_of_map_to_list. }
  rewrite Hrows. tauto.
Qed.

(** ** Concrete runs *)
Definition rescuePriv32 : bytes := repeat x52 32.
Definition newPriv32 : bytes := repeat x41 32.

(** A key is its own public key; the radio acknowledges everything, and is on
    the rescue key. *)
Definition rescueRadio (l : list Sent) : option Tracker.Reply :=
  match l with
  | s :: _ => match variant (sMsg s) with
              | GetConfigRequest _ =>
                  Some (adminReply (GetConfigResponse (Some (mkSec rescuePriv32 [] [] false false))) [])
              | _ => Some ackReply
              end
  | [] => None
  end.

Definition rescueRow0 : IdentityRecord :=
  mkIdentity 1 "cc-rescue" rescuePriv32 (fpOf rescuePriv32) IdentityRoleRescue IdentitySourceImported 0
    None None None.

Definition rescueTables : Tables :=
  mkTables [rescueRow0] {[7 := mkNode "!7" "" "" "" None true; 1 := mkNode "!1" "" "" "" None true]}
    ∅ ∅ ∅ ∅ (mkPolicy [] false [] 0 "").

Lemma start_recovery_outcomes_witness :
  exists run w', StartRecovery (E := exampleEnv rescueRadio) "op" rescuePriv32 rescuePriv32 "RECOVER" ""
      (startWorld rescueTables) = (inl run, w') /\
    (7 ∈ map TgtNodeNum (runTargets run)) /\ runOldFP run = fpOf rescuePriv32.
Proof.
  pose proof (start_recovery_outcomes (E := exampleEnv rescueRadio) "op" rescuePriv32 rescuePriv32
    "RECOVER" "" (startWorld rescueTables) (fun _ => eq_refl)) as Hs.
  destruct (StartRecovery _ _ _ _ _ _) as [[run|e] w'] eqn:Er; [|vm_compute in Er; discriminate].
  exists run, w'. split; [done|]. destruct Hs as (_ & _ & _ & _ & _ & _ & _ & _ & Ht). split.
  - apply Ht. split; [done|]. split; [done|]. by eexists.
  - change (runOldFP run) with (match @inl _ ferr run with inl r => runOldFP r | inr _ => ""%string end).
    rewrite <- (f_equal fst Er : _ = inl run). vm_compute. reflexivity.
Defined.

Definition recoveryRec : RotationRecord :=
  mkRotation RotationKindRecovery (Some (-1)) None PiPhasePending "op" 0 None None [recoveryTarget 7]
    (fpOf newPriv32) "" None.

Definition recoveryTables : Tables := set_rotations {[9 := recoveryRec]} rescueTables.

(** The radio is gone: nothing is installed, and yet the stage is done. *)
Lemma run_recovery_outcomes_witness :
  exists st, (GetRecovery (E := exampleEnv (fun _ => None)) 9
    (runRecovery (E := exampleEnv (fun _ => None)) 9 rescuePriv32 rescuePriv32 newPriv32 newPriv32 "" ""
       [recoveryTarget 7] (startWorld recoveryTables)).2).1 = inl st /\ Stage st = RecoveryStageDone.
Proof.
  apply (run_recovery_outcomes (E := exampleEnv (fun _ => None)) 9 rescuePriv32 rescuePriv32 newPriv32
    newPriv32 "" "" [recoveryTarget 7] recoveryRec (startWorld recoveryTables) (fun _ => eq_refl)
    eq_refl eq_refl).
Defined.

(** The local radio was on the rescue key: the rescue identity is revoked. *)
Lemma registry_after_recovery_witness :
  Forall (fun r => iFingerprint r = fpOf rescuePriv32 -> iRole r = IdentityRoleRevoked)
    (identities (tables (updateRegistry (E := exampleEnv rescueRadio) rescuePriv32 newPriv32
        (fpOf rescuePriv32) "new" (startWorld rescueTables)).2)).
Proof.
  apply Forall_forall. intros r. apply (registry_after_recovery (E := exampleEnv rescueRadio) rescuePriv32 newPriv32
    (fpOf rescuePriv32) "new" (startWorld rescueTables) (fun _ => eq_refl)).
  - vm_compute. discriminate.
  - vm_compute. discriminate.
  - vm_compute. reflexivity.
Defined.
